(** * The arena subsystem of mimalloc ([src/arena.c]), embedded and verified

    The development follows the C source function by function.  Sizes,
    addresses, arena ids and time stamps are [Z]; [size_t] arithmetic that
    can overflow is wrapped modulo [2^64] explicitly.  Block, bit, field and
    slot indices are [nat].  Bitmap fields are 64-bit words kept as [Z] and
    read with [Z.testbit].

    Shared state is threaded through a small state monad that also records
    the state reached after every atomic write, so that statements about
    intermediate states (between two atomic operations of one call) can be
    made.  An access past the end of an array is undefined behaviour in C
    and is modelled by the outcome [Fault]. *)

From Stdlib Require Import ZArith Lia Bool List.
From stdpp Require Import base list numbers gmap.

Local Open Scope Z_scope.

(** ** Constants *)

Definition MI_KiB : Z := 1024.
Definition MI_MiB : Z := MI_KiB * MI_KiB.

(** Modelled from the spec: [MI_INTPTR_SIZE] is declared in
    [mimalloc/types.h], which is not part of the sources at hand; the
    comment at [MI_ARENA_STATIC_MAX] gives 8 KiB on 64-bit, hence 8. *)
Definition MI_INTPTR_SIZE : Z := 8.

(** Modelled from the spec: [MI_SEGMENT_SIZE] is declared in
    [mimalloc/types.h]; the spec and the comment at [MI_ARENA_BLOCK_SIZE]
    give 64 MiB. *)
Definition MI_SEGMENT_SIZE : Z := 64 * MI_MiB.
Definition MI_SEGMENT_ALIGN : Z := MI_SEGMENT_SIZE.

(** Modelled from the spec: [MI_MAX_ALIGN_SIZE] is declared in
    [mimalloc/types.h]; it is the alignment of [max_align_t], 16 bytes. *)
Definition MI_MAX_ALIGN_SIZE : Z := 16.

(** Modelled from the spec: [MI_BITMAP_FIELD_BITS] is declared in
    [bitmap.h]; the spec gives the machine word width, 64. *)
Definition MI_BITMAP_FIELD_BITS : nat := 64.

Definition MI_ARENA_BLOCK_SIZE : Z := MI_SEGMENT_SIZE.
Definition MI_ARENA_MIN_OBJ_SIZE : Z := MI_ARENA_BLOCK_SIZE / 2.
Definition MI_MAX_ARENAS : nat := 112.
Definition MI_ARENA_STATIC_MAX : Z := MI_INTPTR_SIZE * MI_KiB.

Definition EAGAIN : Z := 11.
Definition ENOMEM : Z := 12.
Definition EINVAL : Z := 22.

(** [size_t] is 64 bits wide. *)
Definition size_wrap (x : Z) : Z := x mod 2 ^ 64.

(** Modelled from the spec: [_mi_divide_up] and [_mi_align_up] are declared
    in [mimalloc/internal.h]; the spec describes them as the rounded-up
    quotient and as rounding up to a multiple of the alignment.  Both are
    computed in [size_t]. *)
Definition _mi_divide_up (size divider : Z) : Z :=
  if divider =? 0 then size else size_wrap (size + divider - 1) / divider.

Definition _mi_align_up (sz alignment : Z) : Z :=
  if alignment =? 0 then sz
  else size_wrap (size_wrap (sz + alignment - 1) / alignment * alignment).

(** ** Memory identifiers *)

Inductive mi_memkind_t :=
  | MI_MEM_NONE | MI_MEM_EXTERNAL | MI_MEM_STATIC
  | MI_MEM_OS | MI_MEM_OS_HUGE | MI_MEM_OS_REMAP
  | MI_MEM_ARENA.

Definition mi_memkind_eqb (a b : mi_memkind_t) : bool :=
  match a, b with
  | MI_MEM_NONE, MI_MEM_NONE | MI_MEM_EXTERNAL, MI_MEM_EXTERNAL
  | MI_MEM_STATIC, MI_MEM_STATIC | MI_MEM_OS, MI_MEM_OS
  | MI_MEM_OS_HUGE, MI_MEM_OS_HUGE | MI_MEM_OS_REMAP, MI_MEM_OS_REMAP
  | MI_MEM_ARENA, MI_MEM_ARENA => true
  | _, _ => false
  end.

(** Modelled from the spec: [mi_memkind_is_os] is declared in
    [mimalloc/types.h]; it holds of the kinds allocated directly from the
    OS. *)
Definition mi_memkind_is_os (k : mi_memkind_t) : bool :=
  match k with
  | MI_MEM_OS | MI_MEM_OS_HUGE | MI_MEM_OS_REMAP => true
  | _ => false
  end.

(** The C type is a struct holding a union; the arena member of the union is
    kept beside the flags. *)
Record mi_memid_t := mk_memid {
  memkind : mi_memkind_t;
  mem_arena_id : Z;
  mem_arena_block_index : nat;
  mem_arena_is_exclusive : bool;
  is_pinned : bool;
  initially_committed : bool;
  initially_zero : bool
}.

(** Modelled from the spec: [_mi_memid_create] and [_mi_memid_none] are
    declared in [mimalloc/internal.h]: a zeroed memid of the given kind. *)
Definition _mi_memid_create (k : mi_memkind_t) : mi_memid_t :=
  mk_memid k 0 0%nat false false false false.

Definition _mi_memid_none : mi_memid_t := _mi_memid_create MI_MEM_NONE.

Definition set_is_pinned (b : bool) (m : mi_memid_t) : mi_memid_t :=
  mk_memid (memkind m) (mem_arena_id m) (mem_arena_block_index m)
           (mem_arena_is_exclusive m) b (initially_committed m) (initially_zero m).

Definition set_initially_committed (b : bool) (m : mi_memid_t) : mi_memid_t :=
  mk_memid (memkind m) (mem_arena_id m) (mem_arena_block_index m)
           (mem_arena_is_exclusive m) (is_pinned m) b (initially_zero m).

Definition set_initially_zero (b : bool) (m : mi_memid_t) : mi_memid_t :=
  mk_memid (memkind m) (mem_arena_id m) (mem_arena_block_index m)
           (mem_arena_is_exclusive m) (is_pinned m) (initially_committed m) b.

(** ** Arena ids: id = arena index + 1 *)

Definition _mi_arena_id_none : Z := 0.

Definition mi_arena_id_index (id : Z) : nat :=
  if id <=? 0 then MI_MAX_ARENAS else Z.to_nat (id - 1).

Definition mi_arena_id_create (arena_index : nat) : Z :=
  Z.of_nat arena_index + 1.

Definition mi_arena_id_is_suitable
    (arena_id : Z) (arena_is_exclusive : bool) (req_arena_id : Z) : bool :=
  (negb arena_is_exclusive && (req_arena_id =? _mi_arena_id_none))
  || (arena_id =? req_arena_id).

Definition _mi_arena_memid_is_suitable (memid : mi_memid_t) (request_arena_id : Z) : bool :=
  if mi_memkind_eqb (memkind memid) MI_MEM_ARENA
  then mi_arena_id_is_suitable (mem_arena_id memid) (mem_arena_is_exclusive memid) request_arena_id
  else mi_arena_id_is_suitable _mi_arena_id_none false request_arena_id.

Definition mi_block_count_of_size (size : Z) : nat :=
  Z.to_nat (_mi_divide_up size MI_ARENA_BLOCK_SIZE).

Definition mi_arena_block_size (bcount : nat) : Z :=
  size_wrap (Z.of_nat bcount * MI_ARENA_BLOCK_SIZE).

Definition mi_memid_create_arena (id : Z) (is_exclusive : bool) (bitmap_index : nat) : mi_memid_t :=
  mk_memid MI_MEM_ARENA id bitmap_index is_exclusive false false false.

(** Returns the arena index, the bitmap index and the exclusive flag. *)
Definition mi_arena_memid_indices (memid : mi_memid_t) : nat * nat * bool :=
  (mi_arena_id_index (mem_arena_id memid), mem_arena_block_index memid,
   mem_arena_is_exclusive memid).

(** ** Atomic bitmaps

    Modelled from the spec: the bitmap operations ([bitmap.h], [bitmap.c])
    are not part of the sources at hand.  The spec (section 4.1) describes a
    bitmap as a sequence of [field_count] machine words and gives each
    operation by its effect on a contiguous run of bits and by the flag it
    returns; the definitions below follow those words, one bit at a time. *)

Definition mi_bitmap_field_t := Z.
Abbreviation mi_bitmap_t := (list Z).

Definition mi_bitmap_index_create (idx bitidx : nat) : nat :=
  (idx * MI_BITMAP_FIELD_BITS + bitidx)%nat.
Definition mi_bitmap_index_field (bitmap_idx : nat) : nat :=
  (bitmap_idx / MI_BITMAP_FIELD_BITS)%nat.
Definition mi_bitmap_index_bit_in_field (bitmap_idx : nat) : nat :=
  (bitmap_idx mod MI_BITMAP_FIELD_BITS)%nat.
Definition mi_bitmap_index_bit (bitmap_idx : nat) : nat := bitmap_idx.

(** Number of bits a bitmap can hold. *)
Definition bm_bits (bm : mi_bitmap_t) : nat := (length bm * MI_BITMAP_FIELD_BITS)%nat.

Definition bm_get (bm : mi_bitmap_t) (i : nat) : bool :=
  match bm !! mi_bitmap_index_field i with
  | Some f => Z.testbit f (Z.of_nat (mi_bitmap_index_bit_in_field i))
  | None => false
  end.

Definition bm_set (bm : mi_bitmap_t) (i : nat) : mi_bitmap_t :=
  alter (fun f => Z.setbit f (Z.of_nat (mi_bitmap_index_bit_in_field i)))
        (mi_bitmap_index_field i) bm.

Definition bm_clear (bm : mi_bitmap_t) (i : nat) : mi_bitmap_t :=
  alter (fun f => Z.clearbit f (Z.of_nat (mi_bitmap_index_bit_in_field i)))
        (mi_bitmap_index_field i) bm.

Fixpoint bm_set_range (bm : mi_bitmap_t) (idx count : nat) : mi_bitmap_t :=
  match count with
  | O => bm
  | S n => bm_set_range (bm_set bm idx) (S idx) n
  end.

Fixpoint bm_clear_range (bm : mi_bitmap_t) (idx count : nat) : mi_bitmap_t :=
  match count with
  | O => bm
  | S n => bm_clear_range (bm_clear bm idx) (S idx) n
  end.

(** Are all bits of the run set / all clear? *)
Definition bm_all_set (bm : mi_bitmap_t) (idx count : nat) : bool :=
  forallb (bm_get bm) (seq idx count).
Definition bm_all_clear (bm : mi_bitmap_t) (idx count : nat) : bool :=
  forallb (fun i => negb (bm_get bm i)) (seq idx count).

(** Does bit [j] lie in the run of [count] bits from [idx]? *)
Definition in_run (idx count j : nat) : bool := (idx <=? j)%nat && (j <? idx + count)%nat.

(** [claim_across]: force the bits set.  The C function returns whether all
    bits were clear before and stores through its last argument whether any
    bit was clear before; both flags are returned here. *)
Definition _mi_bitmap_claim_across (bm : mi_bitmap_t) (count idx : nat)
  : mi_bitmap_t * bool * bool :=
  (bm_set_range bm idx count, bm_all_clear bm idx count, negb (bm_all_set bm idx count)).

(** [unclaim_across]: clear the bits; returns whether all were set before. *)
Definition _mi_bitmap_unclaim_across (bm : mi_bitmap_t) (count idx : nat)
  : mi_bitmap_t * bool :=
  (bm_clear_range bm idx count, bm_all_set bm idx count).

Definition _mi_bitmap_is_claimed_across (bm : mi_bitmap_t) (count idx : nat) : bool :=
  bm_all_set bm idx count.

(** [try_claim]: one compare-and-swap; succeeds when the whole run is clear. *)
Definition _mi_bitmap_try_claim (bm : mi_bitmap_t) (count idx : nat)
  : mi_bitmap_t * bool :=
  if bm_all_clear bm idx count then (bm_set_range bm idx count, true) else (bm, false).

(** The within-field [claim] and [unclaim] act on their run of bits as the
    across versions do. *)
Definition _mi_bitmap_claim := _mi_bitmap_claim_across.
Definition _mi_bitmap_unclaim := _mi_bitmap_unclaim_across.

(** The order in which the search visits the candidate start positions:
    forward from the hinted field, wrapping around to the fields before it. *)
Definition bm_scan_order (field_count start_field : nat) : list nat :=
  let s := if (start_field <? field_count)%nat then start_field else O in
  seq (s * MI_BITMAP_FIELD_BITS) ((field_count - s) * MI_BITMAP_FIELD_BITS)
  ++ seq 0 (s * MI_BITMAP_FIELD_BITS).

Definition bm_run_free (bm : mi_bitmap_t) (field_count count p : nat) : bool :=
  (p + count <=? field_count * MI_BITMAP_FIELD_BITS)%nat && bm_all_clear bm p count.

(** [try_find_from_claim_across]: scan forward from the hinted field,
    wrapping, for a cleared run of [count] bits; on success flip the run to
    set as a whole and return its first bit.  The C function asserts
    [count > 0]. *)
Definition _mi_bitmap_try_find_from_claim_across
    (bm : mi_bitmap_t) (field_count start_field count : nat)
  : option (mi_bitmap_t * nat) :=
  if (count =? 0)%nat then None
  else match find (bm_run_free bm field_count count) (bm_scan_order field_count start_field) with
       | Some p => Some (bm_set_range bm p count, p)
       | None => None
       end.

(** ** The arena descriptor

    [blocks_dirty], [blocks_committed] and [blocks_purge] are pointers the
    code tests against [NULL]; they are options here. *)

Record mi_arena_t := mk_arena {
  a_id : Z;
  a_memid : mi_memid_t;
  a_start : Z;
  block_count : nat;
  field_count : nat;
  meta_size : Z;
  meta_memid : mi_memid_t;
  a_numa_node : Z;
  exclusive : bool;
  is_large : bool;
  search_idx : nat;
  purge_expire : Z;
  blocks_dirty : option mi_bitmap_t;
  blocks_committed : option mi_bitmap_t;
  blocks_purge : option mi_bitmap_t;
  blocks_abandoned : mi_bitmap_t;
  blocks_inuse : mi_bitmap_t
}.

Definition set_a_id (v : Z) (a : mi_arena_t) : mi_arena_t :=
  mk_arena v (a_memid a) (a_start a) (block_count a) (field_count a) (meta_size a)
    (meta_memid a) (a_numa_node a) (exclusive a) (is_large a) (search_idx a) (purge_expire a)
    (blocks_dirty a) (blocks_committed a) (blocks_purge a) (blocks_abandoned a) (blocks_inuse a).

Definition set_search_idx (v : nat) (a : mi_arena_t) : mi_arena_t :=
  mk_arena (a_id a) (a_memid a) (a_start a) (block_count a) (field_count a) (meta_size a)
    (meta_memid a) (a_numa_node a) (exclusive a) (is_large a) v (purge_expire a)
    (blocks_dirty a) (blocks_committed a) (blocks_purge a) (blocks_abandoned a) (blocks_inuse a).

Definition set_purge_expire (v : Z) (a : mi_arena_t) : mi_arena_t :=
  mk_arena (a_id a) (a_memid a) (a_start a) (block_count a) (field_count a) (meta_size a)
    (meta_memid a) (a_numa_node a) (exclusive a) (is_large a) (search_idx a) v
    (blocks_dirty a) (blocks_committed a) (blocks_purge a) (blocks_abandoned a) (blocks_inuse a).

Definition set_blocks_dirty (v : mi_bitmap_t) (a : mi_arena_t) : mi_arena_t :=
  mk_arena (a_id a) (a_memid a) (a_start a) (block_count a) (field_count a) (meta_size a)
    (meta_memid a) (a_numa_node a) (exclusive a) (is_large a) (search_idx a) (purge_expire a)
    (Some v) (blocks_committed a) (blocks_purge a) (blocks_abandoned a) (blocks_inuse a).

Definition set_blocks_committed (v : mi_bitmap_t) (a : mi_arena_t) : mi_arena_t :=
  mk_arena (a_id a) (a_memid a) (a_start a) (block_count a) (field_count a) (meta_size a)
    (meta_memid a) (a_numa_node a) (exclusive a) (is_large a) (search_idx a) (purge_expire a)
    (blocks_dirty a) (Some v) (blocks_purge a) (blocks_abandoned a) (blocks_inuse a).

Definition set_blocks_purge (v : mi_bitmap_t) (a : mi_arena_t) : mi_arena_t :=
  mk_arena (a_id a) (a_memid a) (a_start a) (block_count a) (field_count a) (meta_size a)
    (meta_memid a) (a_numa_node a) (exclusive a) (is_large a) (search_idx a) (purge_expire a)
    (blocks_dirty a) (blocks_committed a) (Some v) (blocks_abandoned a) (blocks_inuse a).

Definition set_blocks_inuse (v : mi_bitmap_t) (a : mi_arena_t) : mi_arena_t :=
  mk_arena (a_id a) (a_memid a) (a_start a) (block_count a) (field_count a) (meta_size a)
    (meta_memid a) (a_numa_node a) (exclusive a) (is_large a) (search_idx a) (purge_expire a)
    (blocks_dirty a) (blocks_committed a) (blocks_purge a) (blocks_abandoned a) v.

(** Block [b] is in use / scheduled for a purge. *)
Definition inuse (a : mi_arena_t) (b : nat) : bool := bm_get (blocks_inuse a) b.
Definition purge (a : mi_arena_t) (b : nat) : bool :=
  match blocks_purge a with Some bm => bm_get bm b | None => false end.
Definition committed (a : mi_arena_t) (b : nat) : bool :=
  match blocks_committed a with Some bm => bm_get bm b | None => true end.

(** ** The environment of a call: options, OS primitives, clock

    Modelled from the spec: the option table ([options.c]) and the OS layer
    ([os.c]) are not part of the sources at hand.  The spec (sections 6.2
    and 6.3) lists the primitives and options the arena code depends on;
    each is a field here, read by the call it is passed to. *)

Record os_mem := mk_os_mem {
  os_ptr : Z;
  os_committed : bool;
  os_zero : bool;
  os_large : bool
}.

Record mi_env := mk_env {
  opt_disallow_arena_alloc : bool;
  opt_disallow_os_alloc : bool;
  opt_arena_reserve : Z;               (* mi_option_get_size(mi_option_arena_reserve) *)
  opt_arena_eager_commit : Z;
  opt_purge_delay : Z;
  opt_arena_purge_mult : Z;
  mi_preloading : bool;                (* _mi_preloading() *)
  os_has_virtual_reserve : bool;
  os_has_overcommit : bool;
  os_numa_node : Z;                    (* _mi_os_numa_node(tld) *)
  clock_now : Z;                       (* _mi_clock_now() *)
  os_commit : Z -> Z -> bool * bool;   (* success, is_zero *)
  os_purge : Z -> Z -> bool;           (* needs_recommit *)
  os_purge_ex : Z -> Z -> bool -> bool;
  os_alloc_prim : Z -> option os_mem;  (* _mi_os_alloc *)
  os_alloc_aligned_prim : Z -> Z -> bool -> bool -> option os_mem;
  os_alloc_aligned_at_offset_prim : Z -> Z -> Z -> bool -> bool -> option os_mem;
  sizeof_mi_arena_t : Z
}.

(** Modelled from the spec: a direct OS allocation tags its result with an
    OS memid carrying the committed, zero and pinned flags; on failure the
    pointer is NULL (0) and the memid is none. *)
Definition os_result (r : option os_mem) : Z * mi_memid_t :=
  match r with
  | Some m => (os_ptr m,
               mk_memid MI_MEM_OS 0 0%nat false (os_large m) (os_committed m) (os_zero m))
  | None => (0, _mi_memid_none)
  end.

Definition _mi_os_alloc (env : mi_env) (size : Z) : Z * mi_memid_t :=
  os_result (os_alloc_prim env size).
Definition _mi_os_alloc_aligned (env : mi_env) (size alignment : Z) (commit allow_large : bool)
  : Z * mi_memid_t :=
  os_result (os_alloc_aligned_prim env size alignment commit allow_large).
Definition _mi_os_alloc_aligned_at_offset (env : mi_env) (size alignment align_offset : Z)
    (commit allow_large : bool) : Z * mi_memid_t :=
  os_result (os_alloc_aligned_at_offset_prim env size alignment align_offset commit allow_large).

(** ** A state monad that records atomic transitions *)

Section Monad.
Context {S : Type}.

Inductive outcome (A : Type) :=
  | Done (a : A) (s : S) (tr : list S)   (* result, final state, states after each atomic write *)
  | Fault.                               (* out-of-bounds or NULL access *)
Global Arguments Done {A} a s tr.
Global Arguments Fault {A}.

Definition M (A : Type) := S -> outcome A.

Definition ret {A} (a : A) : M A := fun s => Done a s [].

Definition bind {A B} (m : M A) (k : A -> M B) : M B := fun s =>
  match m s with
  | Done a s1 t1 =>
      match k a s1 with
      | Done b s2 t2 => Done b s2 (t1 ++ t2)
      | Fault => Fault
      end
  | Fault => Fault
  end.

Definition get : M S := fun s => Done s s [].

(** A plain write. *)
Definition modify (f : S -> S) : M unit := fun s => Done tt (f s) [].

(** An atomic store or read-modify-write: the new state is observable. *)
Definition atomic (f : S -> S) : M unit := fun s => Done tt (f s) [f s].

Definition fault {A} : M A := fun _ => Fault.

End Monad.
Global Arguments outcome : clear implicits.
Global Arguments M : clear implicits.

Notation "'do' x <- m ; k" := (bind m (fun x => k))
  (at level 10, x pattern, m at level 100, k at level 200).
Notation "m ;; k" := (bind m (fun _ => k))
  (at level 100, k at level 200, right associativity).

(** The final state and the trace of a run. *)
Definition final_state {S A} (o : outcome S A) : option S :=
  match o with Done _ s _ => Some s | Fault => None end.
Definition trace_of {S A} (o : outcome S A) : list S :=
  match o with Done _ _ tr => tr | Fault => [] end.
Definition result_of {S A} (o : outcome S A) : option A :=
  match o with Done a _ _ => Some a | Fault => None end.

(** ** The shared state

    [mi_arenas] is the registry: slot [i] holds the arena stored there, an
    absent key is a NULL slot.  [mi_log] collects what a call reports to the
    outside: error messages, [errno] and memory handed back to the OS.
    Statistics and verbose messages are left out. *)

Inductive mi_msg := MsgInvalidArena | MsgInvalidArenaBlock | MsgAlreadyFreed.

Inductive mi_event :=
  | EvError (code : Z) (msg : mi_msg)
  | EvErrno (code : Z)
  | EvOsFree (p size : Z).

Record mi_state := mk_state {
  mi_arenas : gmap nat mi_arena_t;
  mi_arena_count : nat;
  mi_arena_static : list Byte.byte;
  mi_arena_static_top : Z;
  purge_guard : bool;
  mi_log : list mi_event
}.

Definition set_mi_arenas (v : gmap nat mi_arena_t) (s : mi_state) : mi_state :=
  mk_state v (mi_arena_count s) (mi_arena_static s) (mi_arena_static_top s)
           (purge_guard s) (mi_log s).
Definition set_mi_arena_count (v : nat) (s : mi_state) : mi_state :=
  mk_state (mi_arenas s) v (mi_arena_static s) (mi_arena_static_top s)
           (purge_guard s) (mi_log s).
Definition set_mi_arena_static (v : list Byte.byte) (s : mi_state) : mi_state :=
  mk_state (mi_arenas s) (mi_arena_count s) v (mi_arena_static_top s)
           (purge_guard s) (mi_log s).
Definition set_mi_arena_static_top (v : Z) (s : mi_state) : mi_state :=
  mk_state (mi_arenas s) (mi_arena_count s) (mi_arena_static s) v
           (purge_guard s) (mi_log s).
Definition set_purge_guard (v : bool) (s : mi_state) : mi_state :=
  mk_state (mi_arenas s) (mi_arena_count s) (mi_arena_static s) (mi_arena_static_top s)
           v (mi_log s).
Definition set_mi_log (v : list mi_event) (s : mi_state) : mi_state :=
  mk_state (mi_arenas s) (mi_arena_count s) (mi_arena_static s) (mi_arena_static_top s)
           (purge_guard s) v.

Definition set_arena (i : nat) (a : mi_arena_t) (s : mi_state) : mi_state :=
  set_mi_arenas (<[i := a]> (mi_arenas s)) s.

(** The state at program start: everything zero-initialised. *)
Definition mi_state_init : mi_state :=
  mk_state ∅ 0 (replicate (Z.to_nat MI_ARENA_STATIC_MAX) Byte.x00) 0 false [].

Definition emit (e : mi_event) : M mi_state unit :=
  modify (fun s => set_mi_log (mi_log s ++ [e]) s).

Definition _mi_error_message (code : Z) (msg : mi_msg) : M mi_state unit :=
  emit (EvError code msg).

(** [mi_atomic_load_ptr_acquire(mi_arena_t, &mi_arenas[i])]: the array has
    [MI_MAX_ARENAS] slots; reading any other slot is out of bounds. *)
Definition load_arena (i : nat) : M mi_state (option mi_arena_t) := fun s =>
  if (i <? MI_MAX_ARENAS)%nat then Done (mi_arenas s !! i) s [] else Fault.

(** Run a computation on the arena stored in slot [i]; each atomic write to
    the arena is an atomic write to the shared state. *)
Definition with_arena {A} (i : nat) (m : M mi_arena_t A) : M mi_state A := fun s =>
  match mi_arenas s !! i with
  | Some a =>
      match m a with
      | Done x a' tr => Done x (set_arena i a' s) (map (fun a'' => set_arena i a'' s) tr)
      | Fault => Fault
      end
  | None => Fault
  end.

(** ** The static area for the allocator's own structures *)

Definition atomic_add_static_top (n : Z) : M mi_state Z :=
  do s <- get;
  atomic (set_mi_arena_static_top (size_wrap (mi_arena_static_top s + n))) ;;
  ret (mi_arena_static_top s).

(** [mi_atomic_cas_strong_acq_rel(&mi_arena_static_top, &top, oldtop)] *)
Definition atomic_cas_static_top (expected desired : Z) : M mi_state unit :=
  atomic (fun s => if mi_arena_static_top s =? expected
                   then set_mi_arena_static_top desired s else s).

(** Modelled from the spec: [_mi_memzero_aligned] is declared in
    [mimalloc/internal.h]; it zeroes [size] bytes.  Here on
    [&mi_arena_static[start]]; writing past the buffer is out of bounds. *)
Definition memzero_static (start size : Z) : M mi_state unit := fun s =>
  if (0 <=? start) && (start + size <=? Z.of_nat (length (mi_arena_static s)))
  then Done tt (set_mi_arena_static
                  (list_inserts (Z.to_nat start) (replicate (Z.to_nat size) Byte.x00)
                                (mi_arena_static s)) s) []
  else Fault.

(** The result is the index into [mi_arena_static] of the returned pointer,
    [None] for NULL, and the memid stored through [memid]. *)
Definition mi_arena_static_zalloc (size alignment : Z) : M mi_state (option Z * mi_memid_t) :=
  let memid := _mi_memid_none in
  if (size =? 0) || (MI_ARENA_STATIC_MAX <? size) then ret (None, memid) else
  do s <- get;
  let toplow := mi_arena_static_top s in
  if MI_ARENA_STATIC_MAX <? size_wrap (toplow + size) then ret (None, memid) else
  let alignment := if alignment <? MI_MAX_ALIGN_SIZE then MI_MAX_ALIGN_SIZE else alignment in
  let oversize := size_wrap (size + alignment - 1) in
  if MI_ARENA_STATIC_MAX <? size_wrap (toplow + oversize) then ret (None, memid) else
  do oldtop <- atomic_add_static_top oversize;
  let top := size_wrap (oldtop + oversize) in
  if MI_ARENA_STATIC_MAX <? top then
    atomic_cas_static_top top oldtop ;;
    ret (None, memid)
  else
    let memid := set_initially_zero true (_mi_memid_create MI_MEM_STATIC) in
    let start := _mi_align_up oldtop alignment in
    memzero_static start size ;;
    ret (Some start, memid).

(** [&mi_arena_static[start]] when the buffer lies at address [base].  The
    declaration of the buffer aligns it to a cache line
    ([mi_decl_cache_align]) and to no more. *)
Definition mi_arena_static_ptr (base start : Z) : Z := base + start.

Inductive meta_ptr := MetaStatic (index : Z) | MetaOs (p : Z).

Section WithEnv.
Variable env : mi_env.

Definition mi_arena_meta_zalloc (size : Z) : M mi_state (option meta_ptr * mi_memid_t) :=
  do r <- mi_arena_static_zalloc size MI_MAX_ALIGN_SIZE;
  match r with
  | (Some i, memid) => ret (Some (MetaStatic i), memid)
  | (None, _) =>
      let '(p, memid) := _mi_os_alloc env size in
      if p =? 0 then ret (None, memid)
      else ret (Some (MetaOs p),
                if initially_zero memid then memid else set_initially_zero true memid)
  end.

(** ** Adding an arena to the registry *)

(** [mi_atomic_increment_acq_rel] and [mi_atomic_decrement_acq_rel] return
    the value before the update. *)
Definition atomic_increment_arena_count : M mi_state nat :=
  do s <- get;
  atomic (set_mi_arena_count (S (mi_arena_count s))) ;;
  ret (mi_arena_count s).

Definition atomic_decrement_arena_count : M mi_state nat :=
  do s <- get;
  atomic (set_mi_arena_count (Nat.pred (mi_arena_count s))) ;;
  ret (mi_arena_count s).

(** The result is the returned flag and the value stored through
    [arena_id]. *)
Definition mi_arena_add (arena : mi_arena_t) : M mi_state (bool * Z) :=
  let arena_id := -1 in
  do i <- atomic_increment_arena_count;
  if (MI_MAX_ARENAS <=? i)%nat then
    atomic_decrement_arena_count ;;
    ret (false, arena_id)
  else
    let arena := set_a_id (mi_arena_id_create i) arena in
    atomic (set_arena i arena) ;;
    ret (true, a_id arena).

(** The descriptor [mi_manage_os_memory_ex2] builds in the zeroed memory
    obtained for it, before the arena is added to the registry; the leftover
    bits of the last field of [blocks_inuse] are claimed. *)
Definition arena_init (start size : Z) (is_large : bool) (numa_node : Z)
    (exclusive : bool) (memid meta_memid : mi_memid_t) : mi_arena_t :=
  let bcount := Z.to_nat (size / MI_ARENA_BLOCK_SIZE) in
  let fields := Z.to_nat (_mi_divide_up (Z.of_nat bcount) (Z.of_nat MI_BITMAP_FIELD_BITS)) in
  let bitmaps := if is_pinned memid then 3 else 5 in
  let asize := size_wrap (sizeof_mi_arena_t env + bitmaps * Z.of_nat fields * 8) in
  let zeros := replicate fields 0 in
  let arena :=
    mk_arena _mi_arena_id_none memid start bcount fields asize meta_memid numa_node
      exclusive is_large 0 0
      (Some zeros)
      (if is_pinned memid then None
       else Some (if initially_committed memid
                  then replicate fields (Z.ones 64) else zeros))
      (if is_pinned memid then None else Some zeros)
      zeros zeros in
  let post := (fields * MI_BITMAP_FIELD_BITS - bcount)%nat in
  if (0 <? post)%nat then
    let postidx := mi_bitmap_index_create (fields - 1) (MI_BITMAP_FIELD_BITS - post) in
    set_blocks_inuse (fst (fst (_mi_bitmap_claim (blocks_inuse arena) post postidx))) arena
  else arena.

Definition mi_manage_os_memory_ex2 (start size : Z) (is_large : bool) (numa_node : Z)
    (exclusive : bool) (memid : mi_memid_t) : M mi_state (bool * Z) :=
  let arena_id := _mi_arena_id_none in
  if size <? MI_ARENA_BLOCK_SIZE then ret (false, arena_id) else
  let bcount := Z.to_nat (size / MI_ARENA_BLOCK_SIZE) in
  let fields := Z.to_nat (_mi_divide_up (Z.of_nat bcount) (Z.of_nat MI_BITMAP_FIELD_BITS)) in
  let bitmaps := if is_pinned memid then 3 else 5 in
  let asize := size_wrap (sizeof_mi_arena_t env + bitmaps * Z.of_nat fields * 8) in
  do r <- mi_arena_meta_zalloc asize;
  match r with
  | (None, _) => ret (false, arena_id)
  | (Some _, meta_memid) =>
      mi_arena_add (arena_init start size is_large numa_node exclusive memid meta_memid)
  end.

Definition mi_manage_os_memory_ex (start size : Z) (is_committed is_large is_zero : bool)
    (numa_node : Z) (exclusive : bool) : M mi_state (bool * Z) :=
  let memid := mk_memid MI_MEM_EXTERNAL 0 0%nat false is_large is_committed is_zero in
  mi_manage_os_memory_ex2 start size is_large numa_node exclusive memid.

(** The result is the returned error code and the value stored through
    [arena_id]. *)
Definition mi_reserve_os_memory_ex (size : Z) (commit allow_large exclusive : bool)
  : M mi_state (Z * Z) :=
  let size := _mi_align_up size MI_ARENA_BLOCK_SIZE in
  let '(start, memid) := _mi_os_alloc_aligned env size MI_SEGMENT_ALIGN commit allow_large in
  if start =? 0 then ret (ENOMEM, _mi_arena_id_none) else
  let is_large := is_pinned memid in
  do r <- mi_manage_os_memory_ex2 start size is_large (-1) exclusive memid;
  if negb (fst r) then
    emit (EvOsFree start size) ;;
    ret (ENOMEM, snd r)
  else ret (0, snd r).

End WithEnv.

(** ** Bitmap operations on an arena

    Each wrapper applies a bitmap operation to one bitmap of the arena as
    one atomic step.  A NULL bitmap, or a run that does not lie within the
    bitmap, is an invalid access. *)

Definition run_in_bitmap (bm : mi_bitmap_t) (count idx : nat) : bool :=
  (idx + count <=? bm_bits bm)%nat.

Definition bitmap_rmw {R} (sel : mi_arena_t -> option mi_bitmap_t)
    (upd : mi_bitmap_t -> mi_arena_t -> mi_arena_t)
    (op : mi_bitmap_t -> mi_bitmap_t * R) (count idx : nat) : M mi_arena_t R := fun a =>
  match sel a with
  | Some bm =>
      if run_in_bitmap bm count idx
      then Done (snd (op bm)) (upd (fst (op bm)) a) [upd (fst (op bm)) a]
      else Fault
  | None => Fault
  end.

Definition bitmap_read {R} (sel : mi_arena_t -> option mi_bitmap_t)
    (op : mi_bitmap_t -> R) (count idx : nat) : M mi_arena_t R := fun a =>
  match sel a with
  | Some bm => if run_in_bitmap bm count idx then Done (op bm) a [] else Fault
  | None => Fault
  end.

Definition sel_inuse (a : mi_arena_t) : option mi_bitmap_t := Some (blocks_inuse a).

Definition inuse_unclaim_across (count idx : nat) : M mi_arena_t bool :=
  bitmap_rmw sel_inuse set_blocks_inuse
    (fun bm => _mi_bitmap_unclaim_across bm count idx) count idx.

Definition inuse_unclaim (count idx : nat) : M mi_arena_t bool :=
  bitmap_rmw sel_inuse set_blocks_inuse
    (fun bm => _mi_bitmap_unclaim bm count idx) count idx.

Definition inuse_try_claim (count idx : nat) : M mi_arena_t bool :=
  bitmap_rmw sel_inuse set_blocks_inuse
    (fun bm => _mi_bitmap_try_claim bm count idx) count idx.

Definition purge_unclaim_across (count idx : nat) : M mi_arena_t bool :=
  bitmap_rmw blocks_purge set_blocks_purge
    (fun bm => _mi_bitmap_unclaim_across bm count idx) count idx.

(** Returns the flags (all were clear, any was clear). *)
Definition purge_claim_across (count idx : nat) : M mi_arena_t (bool * bool) :=
  bitmap_rmw blocks_purge set_blocks_purge
    (fun bm => let r := _mi_bitmap_claim_across bm count idx in (fst (fst r), (snd (fst r), snd r)))
    count idx.

Definition dirty_claim_across (count idx : nat) : M mi_arena_t (bool * bool) :=
  bitmap_rmw blocks_dirty set_blocks_dirty
    (fun bm => let r := _mi_bitmap_claim_across bm count idx in (fst (fst r), (snd (fst r), snd r)))
    count idx.

Definition committed_claim_across (count idx : nat) : M mi_arena_t (bool * bool) :=
  bitmap_rmw blocks_committed set_blocks_committed
    (fun bm => let r := _mi_bitmap_claim_across bm count idx in (fst (fst r), (snd (fst r), snd r)))
    count idx.

Definition committed_unclaim_across (count idx : nat) : M mi_arena_t bool :=
  bitmap_rmw blocks_committed set_blocks_committed
    (fun bm => _mi_bitmap_unclaim_across bm count idx) count idx.

Definition committed_is_claimed_across (count idx : nat) : M mi_arena_t bool :=
  bitmap_read blocks_committed (fun bm => _mi_bitmap_is_claimed_across bm count idx) count idx.

Definition mi_arena_block_start (arena : mi_arena_t) (bindex : nat) : Z :=
  a_start arena + mi_arena_block_size (mi_bitmap_index_bit bindex).

(** ** Thread safe allocation in an arena *)

(** Claim the [blocks_inuse] bits.  The result is the claimed bitmap index,
    [None] when the function returns false.  The search starts at field 0:
    the load of [search_idx] is commented out in the source. *)
Definition mi_arena_try_claim (blocks : nat) : M mi_arena_t (option nat) :=
  do arena <- get;
  let idx := 0%nat in
  if (length (blocks_inuse arena) <? field_count arena)%nat then fault else
  match _mi_bitmap_try_find_from_claim_across
          (blocks_inuse arena) (field_count arena) idx blocks with
  | Some (bm, bitmap_idx) =>
      atomic (set_blocks_inuse bm) ;;
      atomic (set_search_idx (mi_bitmap_index_field bitmap_idx)) ;;
      ret (Some bitmap_idx)
  | None => ret None
  end.

Section Arena.
Variable env : mi_env.

(** The steps of [mi_arena_try_alloc_at] after the claim.  None of the
    claimed blocks should be scheduled for a decommit. *)
Definition alloc_unschedule (needed_bcount bitmap_index : nat) : M mi_arena_t unit :=
  do arena <- get;
  match blocks_purge arena with
  | Some _ => purge_unclaim_across needed_bcount bitmap_index ;; ret tt
  | None => ret tt
  end.

(** Set the dirty bits. *)
Definition alloc_set_dirty (needed_bcount bitmap_index : nat) (memid : mi_memid_t)
  : M mi_arena_t mi_memid_t :=
  do arena <- get;
  match blocks_dirty arena with
  | Some _ =>
      if initially_zero (a_memid arena) then
        do r <- dirty_claim_across needed_bcount bitmap_index;
        ret (set_initially_zero (fst r) memid)
      else ret memid
  | None => ret memid
  end.

(** Set the commit state. *)
Definition alloc_set_commit (needed_bcount bitmap_index : nat) (commit : bool) (p : Z)
    (memid : mi_memid_t) : M mi_arena_t mi_memid_t :=
  do arena <- get;
  match blocks_committed arena with
  | None => ret (set_initially_committed true memid)
  | Some _ =>
      if commit then
        let memid := set_initially_committed true memid in
        do r <- committed_claim_across needed_bcount bitmap_index;
        let any_uncommitted := snd r in
        if any_uncommitted then
          let '(ok, commit_zero) := os_commit env p (mi_arena_block_size needed_bcount) in
          if negb ok then ret (set_initially_committed false memid)
          else ret (if commit_zero then set_initially_zero true memid else memid)
        else ret memid
      else
        do c <- committed_is_claimed_across needed_bcount bitmap_index;
        ret (set_initially_committed c memid)
  end.

(** The result is the returned pointer (0 for NULL) and the memid held by
    the caller's [memid] after the call. *)
Definition mi_arena_try_alloc_at (arena_index needed_bcount : nat) (commit : bool)
    (memid : mi_memid_t) : M mi_arena_t (Z * mi_memid_t) :=
  do claimed <- mi_arena_try_claim needed_bcount;
  match claimed with
  | None => ret (0, memid)
  | Some bitmap_index =>
      do arena <- get;
      let p := mi_arena_block_start arena bitmap_index in
      let memid := mi_memid_create_arena (a_id arena) (exclusive arena) bitmap_index in
      let memid := set_is_pinned (is_pinned (a_memid arena)) memid in
      alloc_unschedule needed_bcount bitmap_index ;;
      do memid <- alloc_set_dirty needed_bcount bitmap_index memid;
      do memid <- alloc_set_commit needed_bcount bitmap_index commit p memid;
      ret (p, memid)
  end.

(** Allocate in a specific arena. *)
Definition mi_arena_try_alloc_at_id (arena_id : Z) (match_numa_node : bool) (numa_node : Z)
    (size alignment : Z) (commit allow_large : bool) (req_arena_id : Z)
    (memid : mi_memid_t) : M mi_state (Z * mi_memid_t) :=
  let bcount := mi_block_count_of_size size in
  let arena_index := mi_arena_id_index arena_id in
  do loaded <- load_arena arena_index;
  match loaded with
  | None => ret (0, memid)
  | Some arena =>
      if negb allow_large && is_large arena then ret (0, memid)
      else if negb (mi_arena_id_is_suitable (a_id arena) (exclusive arena) req_arena_id)
      then ret (0, memid)
      else
        let numa_suitable :=
          (numa_node <? 0) || (a_numa_node arena <? 0) || (a_numa_node arena =? numa_node) in
        if (req_arena_id =? _mi_arena_id_none)
           && (if match_numa_node then negb numa_suitable else numa_suitable)
        then ret (0, memid)
        else with_arena arena_index (mi_arena_try_alloc_at arena_index bcount commit memid)
  end.

End Arena.

Section Alloc.
Variable env : mi_env.

(** The two loops of [mi_arena_try_alloc] over the arena indices
    [0 .. max_arena-1]: the first success wins. *)
Fixpoint try_alloc_loop (indices : list nat) (match_numa_node : bool) (numa_node : Z)
    (size alignment : Z) (commit allow_large : bool) (req_arena_id : Z)
    (memid : mi_memid_t) : M mi_state (Z * mi_memid_t) :=
  match indices with
  | [] => ret (0, memid)
  | i :: rest =>
      do r <- mi_arena_try_alloc_at_id env (mi_arena_id_create i) match_numa_node numa_node
                size alignment commit allow_large req_arena_id memid;
      if negb (fst r =? 0) then ret r
      else try_alloc_loop rest match_numa_node numa_node size alignment commit allow_large
             req_arena_id (snd r)
  end.

(** Allocate from an arena. *)
Definition mi_arena_try_alloc (numa_node : Z) (size alignment : Z) (commit allow_large : bool)
    (req_arena_id : Z) (memid : mi_memid_t) : M mi_state (Z * mi_memid_t) :=
  do s <- get;
  let max_arena := mi_arena_count s in
  if (max_arena =? 0)%nat then ret (0, memid) else
  if negb (req_arena_id =? _mi_arena_id_none) then
    if (mi_arena_id_index req_arena_id <? max_arena)%nat then
      do r <- mi_arena_try_alloc_at_id env req_arena_id true numa_node size alignment
                commit allow_large req_arena_id memid;
      if negb (fst r =? 0) then ret r else ret (0, snd r)
    else ret (0, memid)
  else
    do r <- try_alloc_loop (seq 0 max_arena) true numa_node size alignment commit allow_large
              req_arena_id memid;
    if negb (fst r =? 0) then ret r else
    if 0 <=? numa_node then
      do r2 <- try_alloc_loop (seq 0 max_arena) false numa_node size alignment commit
                 allow_large req_arena_id (snd r);
      if negb (fst r2 =? 0) then ret r2 else ret (0, snd r2)
    else ret (0, snd r).

(** The part of [mi_arena_reserve] that decides whether to reserve and
    computes the arguments of the reservation (the function up to its final
    call): the size and the eager-commit flag, [None] where the function
    returns false without reserving. *)
Definition mi_arena_reserve_target (arena_count : nat) (req_size : Z) (req_arena_id : Z)
  : option (Z * bool) :=
  if mi_preloading env then None else
  if negb (req_arena_id =? _mi_arena_id_none) then None else
  if (MI_MAX_ARENAS - 4 <? arena_count)%nat then None else
  let arena_reserve := opt_arena_reserve env in
  if arena_reserve =? 0 then None else
  let arena_reserve :=
    if negb (os_has_virtual_reserve env) then arena_reserve / 4 else arena_reserve in
  let arena_reserve := _mi_align_up arena_reserve MI_ARENA_BLOCK_SIZE in
  let arena_reserve :=
    if (8 <=? arena_count)%nat && (arena_count <=? 128)%nat
    then size_wrap (Z.shiftl 1 (Z.of_nat (arena_count / 8)) * arena_reserve)
    else arena_reserve in
  if arena_reserve <? req_size then None else
  let arena_commit :=
    if opt_arena_eager_commit env =? 2 then os_has_overcommit env
    else if opt_arena_eager_commit env =? 1 then true
    else false in
  Some (arena_reserve, arena_commit).

(** Try to reserve a fresh arena space.  The result is the returned flag
    and the value held by [arena_id] after the call. *)
Definition mi_arena_reserve (req_size : Z) (allow_large : bool) (req_arena_id : Z)
    (arena_id : Z) : M mi_state (bool * Z) :=
  do s <- get;
  match mi_arena_reserve_target (mi_arena_count s) req_size req_arena_id with
  | None => ret (false, arena_id)
  | Some (arena_reserve, arena_commit) =>
      do r <- mi_reserve_os_memory_ex env arena_reserve arena_commit allow_large false;
      ret (fst r =? 0, snd r)
  end.

(** The result is the returned pointer (0 for NULL) and the memid stored
    through [memid]. *)
Definition _mi_arena_alloc_aligned (size alignment align_offset : Z) (commit allow_large : bool)
    (req_arena_id : Z) : M mi_state (Z * mi_memid_t) :=
  let memid := _mi_memid_none in
  let numa_node := os_numa_node env in
  do r <-
    (if negb (opt_disallow_arena_alloc env) || negb (req_arena_id =? _mi_arena_id_none) then
       if (MI_ARENA_MIN_OBJ_SIZE <=? size) && (alignment <=? MI_SEGMENT_ALIGN)
          && (align_offset =? 0)
       then
         do r <- mi_arena_try_alloc numa_node size alignment commit allow_large
                   req_arena_id memid;
         if negb (fst r =? 0) then ret r else
         if req_arena_id =? _mi_arena_id_none then
           do res <- mi_arena_reserve size allow_large req_arena_id 0;
           if fst res then
             do r2 <- mi_arena_try_alloc_at_id env (snd res) true numa_node size alignment
                        commit allow_large req_arena_id (snd r);
             if negb (fst r2 =? 0) then ret r2 else ret (0, snd r2)
           else ret (0, snd r)
         else ret (0, snd r)
       else ret (0, memid)
     else ret (0, memid));
  if negb (fst r =? 0) then ret r else
  if opt_disallow_os_alloc env || negb (req_arena_id =? _mi_arena_id_none) then
    emit (EvErrno ENOMEM) ;;
    ret (0, snd r)
  else if 0 <? align_offset then
    ret (_mi_os_alloc_aligned_at_offset env size alignment align_offset commit allow_large)
  else
    ret (_mi_os_alloc_aligned env size alignment commit allow_large).

Definition _mi_arena_alloc (size : Z) (commit allow_large : bool) (req_arena_id : Z)
  : M mi_state (Z * mi_memid_t) :=
  _mi_arena_alloc_aligned size MI_ARENA_BLOCK_SIZE 0 commit allow_large req_arena_id.

(** ** Arena purge *)

Definition mi_arena_purge_delay : Z :=
  opt_purge_delay env * opt_arena_purge_mult env.

(** Reset or decommit in an arena and update the committed and purge
    bitmaps.  The source asserts that both bitmaps exist. *)
Definition mi_arena_purge (bitmap_idx blocks : nat) : M mi_arena_t unit :=
  do arena <- get;
  let size := mi_arena_block_size blocks in
  let p := mi_arena_block_start arena bitmap_idx in
  do all_committed <- committed_is_claimed_across blocks bitmap_idx;
  let needs_recommit :=
    if all_committed then os_purge env p size else os_purge_ex env p size false in
  purge_unclaim_across blocks bitmap_idx ;;
  if needs_recommit then committed_unclaim_across blocks bitmap_idx ;; ret tt
  else ret tt.

(** Schedule a purge. *)
Definition mi_arena_schedule_purge (bitmap_idx blocks : nat) : M mi_arena_t unit :=
  let delay := mi_arena_purge_delay in
  if delay <? 0 then ret tt else
  if mi_preloading env || (delay =? 0) then mi_arena_purge bitmap_idx blocks
  else
    do arena <- get;
    let expire := purge_expire arena in
    (if negb (expire =? 0)
     then atomic (fun a => set_purge_expire (purge_expire a + Z.quot delay 10) a)
     else atomic (set_purge_expire (clock_now env + delay))) ;;
    purge_claim_across blocks bitmap_idx ;;
    ret tt.

(** The inner counting loops: the number of consecutive one bits of [word]
    from bit [from], staying below [limit]. *)
Fixpoint count_ones_from (word : Z) (from : nat) (room : nat) : nat :=
  match room with
  | O => O
  | S room' =>
      if Z.testbit word (Z.of_nat from) then S (count_ones_from word (S from) room') else O
  end.

Definition count_run (word : Z) (from limit : nat) : nat :=
  count_ones_from word from (limit - from).

(** The [while (bitidx < endidx)] loop of [mi_arena_purge_range]; every
    iteration advances [bitidx], so [endidx - bitidx] iterations suffice. *)
Fixpoint purge_range_loop (fuel : nat) (idx bitidx endidx bitlen : nat) (purge : Z)
    (all_purged : bool) : M mi_arena_t bool :=
  match fuel with
  | O => ret all_purged
  | S fuel' =>
      if (bitidx <? endidx)%nat then
        let count := count_run purge bitidx endidx in
        do all_purged <-
          (if (0 <? count)%nat then
             let range_idx := mi_bitmap_index_create idx bitidx in
             mi_arena_purge range_idx count ;;
             ret (if (count =? bitlen)%nat then true else all_purged)
           else ret all_purged);
        purge_range_loop fuel' idx (bitidx + (count + 1)) endidx bitlen purge all_purged
      else ret all_purged
  end.

(** Purge a range of blocks; returns true if the full range was purged. *)
Definition mi_arena_purge_range (idx startidx bitlen : nat) (purge : Z) : M mi_arena_t bool :=
  let endidx := (startidx + bitlen)%nat in
  purge_range_loop (endidx - startidx) idx startidx endidx bitlen purge false.

(** [while (bitlen > 0) { if (try_claim) break; bitlen--; }] *)
Fixpoint claim_longest (bitlen bitmap_index : nat) : M mi_arena_t nat :=
  match bitlen with
  | O => ret O
  | S n =>
      do ok <- inuse_try_claim (S n) bitmap_index;
      if ok then ret (S n) else claim_longest n bitmap_index
  end.

(** [mi_atomic_load(&arena->blocks_purge[i])] *)
Definition load_purge_field (i : nat) : M mi_arena_t Z := fun a =>
  match blocks_purge a with
  | Some bm => match bm !! i with Some f => Done f a [] | None => Fault end
  | None => Fault
  end.

(** The [while (bitidx < MI_BITMAP_FIELD_BITS)] loop of [mi_arena_try_purge]
    on field [i]; the state of the loop is the purge word last read and the
    flags [any_purged] and [full_purge]. *)
Fixpoint try_purge_field_loop (fuel : nat) (i bitidx : nat) (purge : Z)
    (any_purged full_purge : bool) : M mi_arena_t (bool * bool) :=
  match fuel with
  | O => ret (any_purged, full_purge)
  | S fuel' =>
      if (bitidx <? MI_BITMAP_FIELD_BITS)%nat then
        let bitlen := count_run purge bitidx MI_BITMAP_FIELD_BITS in
        let bitmap_index := mi_bitmap_index_create i bitidx in
        do bitlen <- claim_longest bitlen bitmap_index;
        if (0 <? bitlen)%nat then
          do purge <- load_purge_field i;
          do purged <- mi_arena_purge_range i bitidx bitlen purge;
          let full_purge := if negb purged then false else full_purge in
          inuse_unclaim bitlen bitmap_index ;;
          try_purge_field_loop fuel' i (bitidx + (bitlen + 1)) purge true full_purge
        else
          try_purge_field_loop fuel' i (bitidx + (bitlen + 1)) purge any_purged full_purge
      else ret (any_purged, full_purge)
  end.

(** The [for] loop of [mi_arena_try_purge] over the bitmap fields. *)
Fixpoint try_purge_fields (fields : list nat) (any_purged full_purge : bool)
  : M mi_arena_t (bool * bool) :=
  match fields with
  | [] => ret (any_purged, full_purge)
  | i :: rest =>
      do purge <- load_purge_field i;
      do flags <-
        (if negb (purge =? 0)
         then try_purge_field_loop MI_BITMAP_FIELD_BITS i 0 purge any_purged full_purge
         else ret (any_purged, full_purge));
      try_purge_fields rest (fst flags) (snd flags)
  end.

(** [mi_atomic_casi64_strong_acq_rel(&arena->purge_expire, &expected, v)] *)
Definition atomic_cas_purge_expire (expected desired : Z) : M mi_arena_t unit :=
  atomic (fun a => if purge_expire a =? expected then set_purge_expire desired a else a).

(** Returns true if anything was purged. *)
Definition mi_arena_try_purge (now : Z) (force : bool) : M mi_arena_t bool :=
  do arena <- get;
  if is_pinned (a_memid arena) || negb (bool_decide (is_Some (blocks_purge arena)))
  then ret false else
  let expire := purge_expire arena in
  if expire =? 0 then ret false else
  if negb force && (now <? expire) then ret false else
  atomic_cas_purge_expire expire 0 ;;
  do flags <- try_purge_fields (seq 0 (field_count arena)) false true;
  (if negb (snd flags) then
     let delay := mi_arena_purge_delay in
     atomic_cas_purge_expire 0 (clock_now env + delay)
   else ret tt) ;;
  ret (fst flags).

(** The [for] loop of [mi_arenas_try_purge] over the arena indices. *)
Fixpoint arenas_try_purge_loop (indices : list nat) (now : Z) (force : bool)
    (max_purge_count : nat) : M mi_state unit :=
  match indices with
  | [] => ret tt
  | i :: rest =>
      do loaded <- load_arena i;
      match loaded with
      | Some _ =>
          do purged <- with_arena i (mi_arena_try_purge now force);
          if purged then
            if (max_purge_count <=? 1)%nat then ret tt
            else arenas_try_purge_loop rest now force (max_purge_count - 1)
          else arenas_try_purge_loop rest now force max_purge_count
      | None => arenas_try_purge_loop rest now force max_purge_count
      end
  end.

(** [mi_atomic_guard(&purge_guard) { ... }]: the body runs once if the
    guard could be taken, and the guard is released after it. *)
Definition mi_arenas_try_purge (force visit_all : bool) : M mi_state unit :=
  if mi_preloading env || (mi_arena_purge_delay <=? 0) then ret tt else
  do s <- get;
  let max_arena := mi_arena_count s in
  if (max_arena =? 0)%nat then ret tt else
  if purge_guard s then ret tt else
  atomic (set_purge_guard true) ;;
  let now := clock_now env in
  let max_purge_count := if visit_all then max_arena else 1%nat in
  arenas_try_purge_loop (seq 0 max_arena) now force max_purge_count ;;
  atomic (set_purge_guard false).

Definition _mi_arenas_collect (force_purge : bool) : M mi_state unit :=
  mi_arenas_try_purge force_purge force_purge.

(** ** Arena free *)

(** The steps of [_mi_arena_free] on the arena it found: potentially
    decommit and schedule a purge, then make the blocks available again.
    Returns [all_inuse]. *)
Definition arena_free_blocks (all_committed : bool) (blocks bitmap_idx : nat)
  : M mi_arena_t bool :=
  do arena <- get;
  (if is_pinned (a_memid arena) || negb (bool_decide (is_Some (blocks_committed arena)))
   then ret tt
   else
     (if negb all_committed
      then committed_unclaim_across blocks bitmap_idx ;; ret tt
      else ret tt) ;;
     mi_arena_schedule_purge bitmap_idx blocks) ;;
  inuse_unclaim_across blocks bitmap_idx.

(** The part of [_mi_arena_free] for a memid of kind [MI_MEM_ARENA]; the
    result tells whether the function goes on to its final purge (false
    where it returns early). *)
Definition arena_free_in_arena (p size committed_size : Z) (memid : mi_memid_t)
  : M mi_state bool :=
  let all_committed := committed_size =? size in
  let '(arena_idx, bitmap_idx, _) := mi_arena_memid_indices memid in
  do loaded <- load_arena arena_idx;
  let blocks := mi_block_count_of_size size in
  match loaded with
  | None =>
      _mi_error_message EINVAL MsgInvalidArena ;;
      ret false
  | Some arena =>
      if (field_count arena <=? mi_bitmap_index_field bitmap_idx)%nat then
        _mi_error_message EINVAL MsgInvalidArenaBlock ;;
        ret false
      else
        do all_inuse <- with_arena arena_idx (arena_free_blocks all_committed blocks bitmap_idx);
        if negb all_inuse then
          _mi_error_message EAGAIN MsgAlreadyFreed ;;
          ret false
        else ret true
  end.

Definition _mi_arena_free (p size committed_size : Z) (memid : mi_memid_t) : M mi_state unit :=
  if p =? 0 then ret tt else
  if size =? 0 then ret tt else
  do continue <-
    (if mi_memkind_is_os (memkind memid) then
       emit (EvOsFree p size) ;;
       ret true
     else if mi_memkind_eqb (memkind memid) MI_MEM_ARENA then
       arena_free_in_arena p size committed_size memid
     else ret true);
  if continue then mi_arenas_try_purge false false else ret tt.

(** ** The operations of the arena interface, as one type *)

Inductive arena_op :=
  | OpAlloc (size alignment align_offset : Z) (commit allow_large : bool) (req_arena_id : Z)
  | OpFree (p size committed_size : Z) (memid : mi_memid_t)
  | OpCollect (force_purge : bool)
  | OpManage (start size : Z) (is_committed is_large is_zero : bool) (numa_node : Z)
             (exclusive : bool)
  | OpReserve (size : Z) (commit allow_large exclusive : bool).

Definition run_op (op : arena_op) : M mi_state unit :=
  match op with
  | OpAlloc size alignment align_offset commit allow_large req_arena_id =>
      _mi_arena_alloc_aligned size alignment align_offset commit allow_large req_arena_id ;;
      ret tt
  | OpFree p size committed_size memid => _mi_arena_free p size committed_size memid
  | OpCollect force_purge => _mi_arenas_collect force_purge
  | OpManage start size is_committed is_large is_zero numa_node exclusive =>
      mi_manage_os_memory_ex env start size is_committed is_large is_zero numa_node exclusive ;;
      ret tt
  | OpReserve size commit allow_large exclusive =>
      mi_reserve_os_memory_ex env size commit allow_large exclusive ;;
      ret tt
  end.

End Alloc.

(** * Further functions of [arena.c] *)

Definition _mi_arena_memid_is_os_allocated (memid : mi_memid_t) : bool :=
  mi_memkind_eqb (memkind memid) MI_MEM_OS.

Definition mi_arena_size (arena : mi_arena_t) : Z :=
  mi_arena_block_size (block_count arena).

(** [mi_arena_area], called with a non-NULL [size]: the result is the
    returned pointer (0 for NULL) and the value stored through [size]. *)
Definition mi_arena_area (arena_id : Z) : M mi_state (Z * Z) :=
  let size := 0 in
  let arena_index := mi_arena_id_index arena_id in
  if (MI_MAX_ARENAS <=? arena_index)%nat then ret (0, size) else
  do loaded <- load_arena arena_index;
  match loaded with
  | None => ret (0, size)
  | Some arena => ret (a_start arena, mi_arena_block_size (block_count arena))
  end.

(** The [for] loop of [_mi_arena_contains] over the arena indices. *)
Fixpoint arena_contains_loop (indices : list nat) (p : Z) : M mi_state bool :=
  match indices with
  | [] => ret false
  | i :: rest =>
      do loaded <- load_arena i;
      match loaded with
      | Some arena =>
          if (a_start arena <=? p)
             && (p <? a_start arena + mi_arena_block_size (block_count arena))
          then ret true
          else arena_contains_loop rest p
      | None => arena_contains_loop rest p
      end
  end.

(** Is a pointer inside any of our arenas? *)
Definition _mi_arena_contains (p : Z) : M mi_state bool :=
  do s <- get;
  let max_arena := mi_arena_count s in
  arena_contains_loop (seq 0 max_arena) p.

Section Manage.
Variable env : mi_env.

(** Called with [arena_id = NULL]: what would be stored through it is
    dropped. *)
Definition mi_manage_os_memory (start size : Z) (is_committed is_large is_zero : bool)
    (numa_node : Z) : M mi_state bool :=
  do r <- mi_manage_os_memory_ex env start size is_committed is_large is_zero numa_node false;
  ret (fst r).

Definition mi_reserve_os_memory (size : Z) (commit allow_large : bool) : M mi_state Z :=
  do r <- mi_reserve_os_memory_ex env size commit allow_large false;
  ret (fst r).

End Manage.

(** ** Abandoned segments

    Modelled from the spec: [mi_segment_t] is declared in
    [mimalloc/types.h], which is not part of the sources at hand.  The spec
    (section 4.7) says what the arena code uses of a segment: the memid of
    its memory and the id of the thread that owns it, 0 when it is
    abandoned.  The id of the calling thread ([_mi_thread_id()]) is an
    argument of the functions that read it. *)

Record mi_segment_t := mk_segment {
  seg_memid : mi_memid_t;
  seg_thread_id : Z
}.

Definition set_seg_thread_id (v : Z) (segment : mi_segment_t) : mi_segment_t :=
  mk_segment (seg_memid segment) v.

(** The shared state together with the count of all abandoned segments. *)
Record mi_abandon_state := mk_abandon_state {
  ab_state : mi_state;
  abandoned_count : Z
}.

Definition set_ab_state (v : mi_state) (s : mi_abandon_state) : mi_abandon_state :=
  mk_abandon_state v (abandoned_count s).
Definition set_abandoned_count (v : Z) (s : mi_abandon_state) : mi_abandon_state :=
  mk_abandon_state (ab_state s) v.

(** Run a computation on the arenas within the larger state. *)
Definition on_arenas {A} (m : M mi_state A) : M mi_abandon_state A := fun s =>
  match m (ab_state s) with
  | Done x s1 tr => Done x (set_ab_state s1 s) (map (fun s2 => set_ab_state s2 s) tr)
  | Fault => Fault
  end.

Definition _mi_arena_segment_abandoned_count : M mi_abandon_state Z :=
  do s <- get; ret (abandoned_count s).

(** [mi_atomic_increment_relaxed] and [mi_atomic_decrement_relaxed] on a
    [size_t]. *)
Definition atomic_increment_abandoned_count : M mi_abandon_state unit :=
  atomic (fun s => set_abandoned_count (size_wrap (abandoned_count s + 1)) s).
Definition atomic_decrement_abandoned_count : M mi_abandon_state unit :=
  atomic (fun s => set_abandoned_count (size_wrap (abandoned_count s - 1)) s).

Definition set_blocks_abandoned (v : mi_bitmap_t) (a : mi_arena_t) : mi_arena_t :=
  mk_arena (a_id a) (a_memid a) (a_start a) (block_count a) (field_count a) (meta_size a)
    (meta_memid a) (a_numa_node a) (exclusive a) (is_large a) (search_idx a) (purge_expire a)
    (blocks_dirty a) (blocks_committed a) (blocks_purge a) v (blocks_inuse a).

(** Block [b] starts an abandoned segment. *)
Definition abandoned (a : mi_arena_t) (b : nat) : bool := bm_get (blocks_abandoned a) b.

Definition sel_abandoned (a : mi_arena_t) : option mi_bitmap_t := Some (blocks_abandoned a).

(** [_mi_bitmap_claim(arena->blocks_abandoned, arena->field_count, count,
    idx, NULL)]: returns whether all bits were clear. *)
Definition abandoned_claim (count idx : nat) : M mi_arena_t bool :=
  bitmap_rmw sel_abandoned set_blocks_abandoned
    (fun bm => let r := _mi_bitmap_claim bm count idx in (fst (fst r), snd (fst r)))
    count idx.

(** [_mi_bitmap_unclaim(arena->blocks_abandoned, arena->field_count, count,
    idx)]: returns whether all bits were set. *)
Definition abandoned_unclaim (count idx : nat) : M mi_arena_t bool :=
  bitmap_rmw sel_abandoned set_blocks_abandoned
    (fun bm => _mi_bitmap_unclaim bm count idx) count idx.

(** Reclaim a specific abandoned segment; the result is the returned flag
    and the segment after the call.  The arena of the segment is
    dereferenced without a check: the source asserts that the arena index
    is within the array and that the slot is not NULL. *)
Definition _mi_arena_segment_clear_abandoned (thread_id : Z) (segment : mi_segment_t)
  : M mi_abandon_state (bool * mi_segment_t) :=
  if negb (mi_memkind_eqb (memkind (seg_memid segment)) MI_MEM_ARENA) then
    (* mi_atomic_cas_strong_acq_rel(&segment->thread_id, &expected, _mi_thread_id()) *)
    if seg_thread_id segment =? 0 then
      atomic_decrement_abandoned_count ;;
      ret (true, set_seg_thread_id thread_id segment)
    else ret (false, segment)
  else
    let '(arena_idx, bitmap_idx, _) := mi_arena_memid_indices (seg_memid segment) in
    do loaded <- on_arenas (load_arena arena_idx);
    match loaded with
    | None => fault
    | Some _ =>
        do was_marked <- on_arenas (with_arena arena_idx (abandoned_unclaim 1 bitmap_idx));
        if was_marked then
          atomic_decrement_abandoned_count ;;
          ret (was_marked, set_seg_thread_id thread_id segment)
        else ret (was_marked, segment)
    end.

(** Mark a specific segment as abandoned; the result is the segment after
    the call. *)
Definition _mi_arena_segment_mark_abandoned (segment : mi_segment_t)
  : M mi_abandon_state mi_segment_t :=
  let segment := set_seg_thread_id 0 segment in
  if negb (mi_memkind_eqb (memkind (seg_memid segment)) MI_MEM_ARENA) then
    atomic_increment_abandoned_count ;;
    ret segment
  else
    let '(arena_idx, bitmap_idx, _) := mi_arena_memid_indices (seg_memid segment) in
    do loaded <- on_arenas (load_arena arena_idx);
    match loaded with
    | None => fault
    | Some _ =>
        do was_unmarked <- on_arenas (with_arena arena_idx (abandoned_claim 1 bitmap_idx));
        (if was_unmarked then atomic_increment_abandoned_count else ret tt) ;;
        ret segment
    end.

(** The cursor of a scan for abandoned segments. *)
Record mi_arena_field_cursor_t := mk_cursor {
  cur_start : nat;
  cur_count : nat;
  cur_bitmap_idx : nat
}.

(** Start a cursor at a randomized arena; [random] is the value of
    [_mi_heap_random_next(heap)]. *)
Definition _mi_arena_field_cursor_init (random : Z) : M mi_abandon_state mi_arena_field_cursor_t :=
  do s <- get;
  let max_arena := mi_arena_count (ab_state s) in
  ret (mk_cursor (if (max_arena =? 0)%nat then 0%nat
                  else Z.to_nat (random mod Z.of_nat max_arena)) 0 0).

(** [mi_atomic_load_relaxed(&arena->blocks_abandoned[field_idx])] *)
Definition load_abandoned_field (i : nat) : M mi_arena_t Z := fun a =>
  match blocks_abandoned a !! i with Some f => Done f a [] | None => Fault end.

(** The loop over the bits of one field, from [bit_idx]: the result is the
    bitmap index of the segment that was reclaimed, if any. *)
Fixpoint abandoned_next_bit (bits : list nat) (field : Z) (field_idx : nat)
  : M mi_arena_t (option nat) :=
  match bits with
  | [] => ret None
  | bit_idx :: rest =>
      let mask := Z.shiftl 1 (Z.of_nat bit_idx) in
      if Z.land field mask =? mask then
        let bitmap_idx := mi_bitmap_index_create field_idx bit_idx in
        do ok <- abandoned_unclaim 1 bitmap_idx;
        if ok then ret (Some bitmap_idx) else abandoned_next_bit rest field field_idx
      else abandoned_next_bit rest field field_idx
  end.

(** The loop over the fields of one arena, from [field_idx]; the first
    field is scanned from [bit_idx], the others from bit 0. *)
Fixpoint abandoned_next_field (fields : list nat) (bit_idx : nat)
  : M mi_arena_t (option nat) :=
  match fields with
  | [] => ret None
  | field_idx :: rest =>
      do field <- load_abandoned_field field_idx;
      do found <-
        (if negb (field =? 0)
         then abandoned_next_bit (seq bit_idx (MI_BITMAP_FIELD_BITS - bit_idx)) field field_idx
         else ret None);
      match found with
      | Some bitmap_idx => ret (Some bitmap_idx)
      | None => abandoned_next_field rest 0
      end
  end.

(** The loop over the arenas, from the arena at distance [count] from the
    start of the cursor; the result is the distance and the bitmap index at
    which a segment was reclaimed, and the address of the segment. *)
Fixpoint abandoned_next_arena (counts : list nat) (start max_arena field_idx bit_idx : nat)
  : M mi_abandon_state (option (nat * nat * Z)) :=
  match counts with
  | [] => ret None
  | count :: rest =>
      let arena_idx := (start + count)%nat in
      let arena_idx :=
        if (max_arena <=? arena_idx)%nat then (arena_idx mod max_arena)%nat else arena_idx in
      do loaded <- on_arenas (load_arena arena_idx);
      match loaded with
      | Some arena =>
          do found <- on_arenas (with_arena arena_idx
                        (abandoned_next_field
                           (seq field_idx (field_count arena - field_idx)) bit_idx));
          match found with
          | Some bitmap_idx =>
              atomic_decrement_abandoned_count ;;
              ret (Some (count, bitmap_idx, mi_arena_block_start arena bitmap_idx))
          | None => abandoned_next_arena rest start max_arena 0 0
          end
      | None => abandoned_next_arena rest start max_arena 0 0
      end
  end.

(** Reclaim abandoned segments; the result is the address of the segment
    that was reclaimed (0 for NULL) and the cursor after the call. *)
Definition _mi_arena_segment_clear_abandoned_next (previous : mi_arena_field_cursor_t)
  : M mi_abandon_state (Z * mi_arena_field_cursor_t) :=
  do s <- get;
  let max_arena := mi_arena_count (ab_state s) in
  if (max_arena <=? 0)%nat || (abandoned_count s =? 0) then ret (0, previous) else
  let count := cur_count previous in
  let field_idx := mi_bitmap_index_field (cur_bitmap_idx previous) in
  let bit_idx := (mi_bitmap_index_bit_in_field (cur_bitmap_idx previous) + 1)%nat in
  do found <- abandoned_next_arena (seq count (max_arena - count)) (cur_start previous)
                max_arena field_idx bit_idx;
  match found with
  | Some (count, bitmap_idx, segment) =>
      ret (segment, mk_cursor (cur_start previous) count bitmap_idx)
  | None => ret (0, mk_cursor (cur_start previous) 0 0)
  end.

(** ** Reserving huge OS pages

    Modelled from the spec: [_mi_os_alloc_huge_os_pages] and
    [_mi_os_numa_node_count] are defined in [os.c], which is not part of the
    sources at hand.  The spec (section 6.2) lists [alloc_huge_os_pages]
    and [os_numa_node_count] among the OS primitives the arena code depends
    on, and says of a huge-page reservation that it may return fewer pages
    than were requested.  As for the other OS calls that return a value,
    what the call returns is given by an oracle: the pointer (0 for NULL),
    the number of pages reserved, the size in bytes and the memid.  The
    request itself is recorded as well, in a log beside the shared state,
    together with the warning messages of these functions. *)

Record mi_huge_mem := mk_huge_mem {
  huge_ptr : Z;
  huge_pages_reserved : Z;
  huge_size : Z;
  huge_memid : mi_memid_t
}.

Record mi_huge_os := mk_huge_os {
  os_numa_node_count : Z;                                      (* _mi_os_numa_node_count() *)
  os_alloc_huge_os_pages_prim : Z -> Z -> Z -> mi_huge_mem     (* pages, numa_node, max_msecs *)
}.

Inductive mi_huge_event :=
  | HugeRequest (pages numa_node timeout_msecs : Z)   (* _mi_os_alloc_huge_os_pages *)
  | HugeWarning (pages : Z).                          (* failed to reserve ... GiB huge pages *)

Record mi_huge_state := mk_huge_state {
  hp_state : mi_state;
  hp_log : list mi_huge_event
}.

Definition set_hp_state (v : mi_state) (s : mi_huge_state) : mi_huge_state :=
  mk_huge_state v (hp_log s).

(** Run a computation on the shared state within the larger state. *)
Definition on_registry {A} (m : M mi_state A) : M mi_huge_state A := fun s =>
  match m (hp_state s) with
  | Done x s1 tr => Done x (set_hp_state s1 s) (map (fun s2 => set_hp_state s2 s) tr)
  | Fault => Fault
  end.

Definition emit_huge (e : mi_huge_event) : M mi_huge_state unit :=
  modify (fun s => mk_huge_state (hp_state s) (hp_log s ++ [e])).

(** The conversion of a [size_t] to [int], as the compilers the code
    supports do it: modulo 2^32, into the range of [int]. *)
Definition int_cast (x : Z) : Z := (x + 2 ^ 31) mod 2 ^ 32 - 2 ^ 31.

Section HugePages.
Variable env : mi_env.
Variable os : mi_huge_os.

(** [if (numa_node < -1) numa_node = -1;
     if (numa_node >= 0) numa_node = numa_node % _mi_os_numa_node_count();] *)
Definition huge_numa_node (numa_node : Z) : Z :=
  let numa_node := if numa_node <? -1 then -1 else numa_node in
  if 0 <=? numa_node then numa_node mod os_numa_node_count os else numa_node.

(** Reserve at a specific numa node; the result is the returned error code
    and the value stored through [arena_id].  The remainder by a node count
    of 0 is an invalid operation. *)
Definition mi_reserve_huge_os_pages_at_ex (pages numa_node timeout_msecs : Z)
    (exclusive : bool) : M mi_huge_state (Z * Z) :=
  let arena_id := -1 in
  if pages =? 0 then ret (0, arena_id) else
  if (0 <=? numa_node) && (os_numa_node_count os =? 0) then fault else
  let numa_node := huge_numa_node numa_node in
  emit_huge (HugeRequest pages numa_node timeout_msecs) ;;
  let mem := os_alloc_huge_os_pages_prim os pages numa_node timeout_msecs in
  let p := huge_ptr mem in
  let hsize := huge_size mem in
  if (p =? 0) || (huge_pages_reserved mem =? 0) then
    emit_huge (HugeWarning pages) ;;
    ret (ENOMEM, arena_id)
  else
    do r <- on_registry (mi_manage_os_memory_ex2 env p hsize true numa_node exclusive
                           (huge_memid mem));
    if negb (fst r) then
      on_registry (emit (EvOsFree p hsize)) ;;
      ret (ENOMEM, snd r)
    else ret (0, snd r).

Definition mi_reserve_huge_os_pages_at (pages numa_node timeout_msecs : Z)
  : M mi_huge_state Z :=
  do r <- mi_reserve_huge_os_pages_at_ex pages numa_node timeout_msecs false;
  ret (fst r).

(** [numa_count]: the given number of numa nodes, or the number the OS
    detects, and at least 1. *)
Definition interleave_numa_count (numa_nodes : Z) : Z :=
  let numa_count := if 0 <? numa_nodes then numa_nodes else os_numa_node_count os in
  if numa_count <=? 0 then 1 else numa_count.

(** [timeout_per] *)
Definition interleave_timeout_per (timeout_msecs numa_count : Z) : Z :=
  if timeout_msecs =? 0 then 0 else size_wrap (timeout_msecs / numa_count + 50).

(** The loop of [mi_reserve_huge_os_pages_interleave]; it runs at most
    [numa_count] times, which is the value of [fuel] at the start. *)
Fixpoint interleave_loop (fuel : nat) (numa_node numa_count pages pages_per pages_mod
    timeout_per : Z) : M mi_huge_state Z :=
  match fuel with
  | O => ret 0
  | S fuel' =>
      if (numa_node <? numa_count) && (0 <? pages) then
        let node_pages :=
          if numa_node <? pages_mod then size_wrap (pages_per + 1) else pages_per in
        do err <- mi_reserve_huge_os_pages_at node_pages (int_cast numa_node) timeout_per;
        if negb (err =? 0) then ret err else
        let pages := if pages <? node_pages then 0 else pages - node_pages in
        interleave_loop fuel' (numa_node + 1) numa_count pages pages_per pages_mod timeout_per
      else ret 0
  end.

(** Reserve huge pages evenly among the given number of numa nodes (or the
    available ones as detected). *)
Definition mi_reserve_huge_os_pages_interleave (pages numa_nodes timeout_msecs : Z)
  : M mi_huge_state Z :=
  if pages =? 0 then ret 0 else
  let numa_count := interleave_numa_count numa_nodes in
  let pages_per := pages / numa_count in
  let pages_mod := pages mod numa_count in
  let timeout_per := interleave_timeout_per timeout_msecs numa_count in
  interleave_loop (Z.to_nat numa_count) 0 numa_count pages pages_per pages_mod timeout_per.

End HugePages.

(** * Specification vocabulary *)

(** A relation between the state before and after every run of [m]. *)
Definition pres {S A} (R : S -> S -> Prop) (m : M S A) : Prop :=
  forall s a s' tr, m s = Done a s' tr -> R s s'.

(** The size [mi_arena_reserve] asks for when [count] arenas exist. *)
Definition reserve_target_size (env : mi_env) (count : nat) : Z :=
  let dflt := opt_arena_reserve env in
  let base :=
    _mi_align_up (if os_has_virtual_reserve env then dflt else dflt / 4) MI_ARENA_BLOCK_SIZE in
  if (8 <=? count)%nat && (count <=? 128)%nat
  then size_wrap (2 ^ Z.of_nat (count / 8) * base) else base.

(** The static area in a state a sequential run can reach: the top lies
    within the buffer, which has its declared size. *)
Definition static_ok (s : mi_state) : Prop :=
  0 <= mi_arena_static_top s <= MI_ARENA_STATIC_MAX /\
  length (mi_arena_static s) = Z.to_nat MI_ARENA_STATIC_MAX.

(** A sequence of calls [mi_arena_static_zalloc(size, alignment)], one after
    the other; the result lists what each call returned. *)
Fixpoint static_zalloc_calls (calls : list (Z * Z)) : M mi_state (list (option Z)) :=
  match calls with
  | [] => ret []
  | (size, alignment) :: rest =>
      do r <- mi_arena_static_zalloc size alignment;
      do rs <- static_zalloc_calls rest;
      ret (fst r :: rs)
  end.

(** The arguments of a call are [size_t] values; the alignment is at most
    the largest power of two a [size_t] holds. *)
Definition static_call_ok (call : Z * Z) : Prop :=
  0 <= fst call /\ 0 <= snd call <= 2 ^ 63.

(** The block claim as the spec words it (section 4.3, step 1, and the
    description of [search_idx]): the search starts from the field held in
    the arena's [search_idx].  To be compared with [mi_arena_try_claim]. *)
Definition mi_arena_try_claim_from_hint (blocks : nat) : M mi_arena_t (option nat) :=
  do arena <- get;
  let idx := search_idx arena in
  if (length (blocks_inuse arena) <? field_count arena)%nat then fault else
  match _mi_bitmap_try_find_from_claim_across
          (blocks_inuse arena) (field_count arena) idx blocks with
  | Some (bm, bitmap_idx) =>
      atomic (set_blocks_inuse bm) ;;
      atomic (set_search_idx (mi_bitmap_index_field bitmap_idx)) ;;
      ret (Some bitmap_idx)
  | None => ret None
  end.

(** An arena of two fields with every block free, whose search cursor
    points at the second field. *)
Definition arena_cursor_at_1 : mi_arena_t :=
  mk_arena 1 (_mi_memid_create MI_MEM_OS) (64 * MI_MiB) 128 2 240
    (_mi_memid_create MI_MEM_STATIC) (-1) false false 1 0
    (Some [0; 0]) (Some [0; 0]) (Some [0; 0]) [0; 0] [0; 0].

(** The bitmaps of an arena have [field_count] fields each, the committed
    and purge bitmaps come together, and the blocks fit the fields. *)
Definition arena_wf (a : mi_arena_t) : Prop :=
  length (blocks_inuse a) = field_count a /\
  (forall bm, blocks_purge a = Some bm -> length bm = field_count a) /\
  (forall bm, blocks_committed a = Some bm -> length bm = field_count a) /\
  (forall bm, blocks_dirty a = Some bm -> length bm = field_count a) /\
  (is_Some (blocks_committed a) -> is_Some (blocks_purge a)) /\
  (block_count a <= field_count a * MI_BITMAP_FIELD_BITS)%nat.

(** Invariant I1 on one arena and on the registry. *)
Definition I1 (a : mi_arena_t) : Prop :=
  forall b, purge a b = true -> inuse a b = false.
Definition I1_state (s : mi_state) : Prop :=
  forall i a, mi_arenas s !! i = Some a -> I1 a.

(** Invariant I7 on one arena: the bits of the last field at and beyond
    [block_count] are set in [blocks_inuse]. *)
Definition tail_claimed (a : mi_arena_t) : Prop :=
  forall b, (block_count a <= b < field_count a * MI_BITMAP_FIELD_BITS)%nat ->
            inuse a b = true.

(** What no operation on a registered arena changes: its identity, its
    geometry and the sizes of its bitmaps. *)
Record arena_frame (a a' : mi_arena_t) : Prop := mk_frame {
  fr_id : a_id a' = a_id a;
  fr_memid : a_memid a' = a_memid a;
  fr_start : a_start a' = a_start a;
  fr_block_count : block_count a' = block_count a;
  fr_field_count : field_count a' = field_count a;
  fr_exclusive : exclusive a' = exclusive a;
  fr_is_large : is_large a' = is_large a;
  fr_numa : a_numa_node a' = a_numa_node a;
  fr_inuse_len : length (blocks_inuse a') = length (blocks_inuse a);
  fr_purge_len : length <$> blocks_purge a' = length <$> blocks_purge a;
  fr_committed_len : length <$> blocks_committed a' = length <$> blocks_committed a;
  fr_dirty_len : length <$> blocks_dirty a' = length <$> blocks_dirty a;
  fr_abandoned : blocks_abandoned a' = blocks_abandoned a
}.

(** The effect of purging: [blocks_inuse] and [blocks_dirty] are left
    alone and no block becomes scheduled. *)
Definition purge_rel (a a' : mi_arena_t) : Prop :=
  arena_frame a a' /\ blocks_inuse a' = blocks_inuse a /\
  blocks_dirty a' = blocks_dirty a /\
  forall b, purge a' b = true -> purge a b = true.

(** The effect of scheduling a purge of the run [idx, idx+n): as purging,
    but blocks of the run may become scheduled. *)
Definition sched_rel (idx n : nat) (a a' : mi_arena_t) : Prop :=
  arena_frame a a' /\ blocks_inuse a' = blocks_inuse a /\
  blocks_dirty a' = blocks_dirty a /\
  forall b, purge a' b = true -> purge a b = true \/ in_run idx n b = true.

(** The effect of a purge sweep: every block is in use after it exactly if
    it was before, and no block becomes scheduled. *)
Definition sweep_rel (a a' : mi_arena_t) : Prop :=
  arena_frame a a' /\
  (forall b, inuse a' b = inuse a b) /\
  blocks_dirty a' = blocks_dirty a /\
  forall b, purge a' b = true -> purge a b = true.

(** A run that returns (no invalid access). *)
Definition no_fault {S A} (m : M S A) (s : S) : Prop :=
  exists a s' tr, m s = Done a s' tr.

(** The run [idx, idx+n) lies within the bitmaps of a well-formed arena. *)
Definition run_in_arena (idx n : nat) (a : mi_arena_t) : Prop :=
  arena_wf a /\ (idx + n <= field_count a * MI_BITMAP_FIELD_BITS)%nat.

(** ** A concrete run: manage 256 MiB, allocate one block, free it twice *)

(** An environment with the default options of the allocator: purge delay
    10 ms, arena purge multiplier 10, arena reserve 1 GiB. *)
Definition env_demo : mi_env :=
  mk_env false false (1024 * MI_MiB) 2 10 10 false true true 0 1000
    (fun _ _ => (true, false)) (fun _ _ => false) (fun _ _ _ => false)
    (fun _ => None)
    (fun _ _ commit _ => Some (mk_os_mem (4096 * MI_MiB) commit true false))
    (fun _ _ _ _ _ => None)
    160.

Definition state_after {A} (o : outcome mi_state A) : mi_state :=
  match o with Done _ s _ => s | Fault => mi_state_init end.

Definition demo_managed : mi_state :=
  state_after (mi_manage_os_memory_ex env_demo (1024 * MI_MiB) (256 * MI_MiB)
                 true false true (-1) false mi_state_init).

Definition demo_alloc_run : outcome mi_state (Z * mi_memid_t) :=
  _mi_arena_alloc_aligned env_demo (64 * MI_MiB) (64 * MI_MiB) 0 true false 0 demo_managed.
Definition demo_allocated : mi_state := state_after demo_alloc_run.
Definition demo_p : Z :=
  match demo_alloc_run with Done (p, _) _ _ => p | Fault => 0 end.
Definition demo_memid : mi_memid_t :=
  match demo_alloc_run with Done (_, m) _ _ => m | Fault => _mi_memid_none end.

Definition demo_free_run : outcome mi_state unit :=
  _mi_arena_free env_demo demo_p (64 * MI_MiB) (64 * MI_MiB) demo_memid demo_allocated.
Definition demo_freed : mi_state := state_after demo_free_run.

Definition demo_free_again_run : outcome mi_state unit :=
  _mi_arena_free env_demo demo_p (64 * MI_MiB) (64 * MI_MiB) demo_memid demo_freed.
Definition demo_freed_again : mi_state := state_after demo_free_again_run.

(** Steps that touch neither [blocks_inuse] nor [blocks_purge]. *)
Definition bits_rel (a a' : mi_arena_t) : Prop :=
  arena_frame a a' /\ blocks_inuse a' = blocks_inuse a /\ blocks_purge a' = blocks_purge a.

(** The memid names the arena with this id and exclusive flag, at this
    bitmap index. *)
Definition memid_names (m : mi_memid_t) (id : Z) (excl : bool) (idx : nat) : Prop :=
  memkind m = MI_MEM_ARENA /\ mem_arena_id m = id /\
  mem_arena_is_exclusive m = excl /\ mem_arena_block_index m = idx.

(** A property of every arena of the registry, which may depend on the
    slot. *)
Definition registry_inv (P : nat -> mi_arena_t -> Prop) (s : mi_state) : Prop :=
  forall j a, mi_arenas s !! j = Some a -> P j a.

(** What is asked of the arguments of an operation: the run of blocks a
    free names satisfies [free_ok] on the arena it names, and the size of a
    region handed to [mi_manage_os_memory_ex] satisfies [new_ok]. *)
Definition op_ok (free_ok : mi_arena_t -> nat -> nat -> Prop) (new_ok : Z -> Prop)
    (s : mi_state) (op : arena_op) : Prop :=
  match op with
  | OpFree p size committed_size memid =>
      forall a, memkind memid = MI_MEM_ARENA ->
        mi_arenas s !! mi_arena_id_index (mem_arena_id memid) = Some a ->
        free_ok a (mem_arena_block_index memid) (mi_block_count_of_size size)
  | OpManage start size _ _ _ _ _ => new_ok size
  | _ => True
  end.

(** The states reached from the initial state by operations whose
    arguments satisfy [ok]. *)
Inductive reachable (ok : mi_state -> arena_op -> Prop) : mi_state -> Prop :=
  | reach_init : reachable ok mi_state_init
  | reach_step env op s r s' tr :
      reachable ok s -> ok s op -> run_op env op s = Done r s' tr -> reachable ok s'.

(** What a successful allocation from the registry returns: memory of an
    arena of the registry that suits the request, of which [Q] holds. *)
Definition alloc_result (Q : nat -> mi_arena_t -> Z * mi_memid_t -> nat -> Prop)
    (req_arena_id : Z) (size : Z) (r : Z * mi_memid_t) (s' : mi_state) : Prop :=
  fst r <> 0 ->
  exists j a, (j < MI_MAX_ARENAS)%nat /\ mi_arenas s' !! j = Some a /\
    mi_arena_id_is_suitable (a_id a) (exclusive a) req_arena_id = true /\
    Q j a r (mi_block_count_of_size size).

(** The registry is left alone. *)
Definition same_arenas (s s' : mi_state) : Prop := mi_arenas s' = mi_arenas s.

(** Every registered arena carries the id of its slot. *)
Definition registry_ids : mi_state -> Prop :=
  registry_inv (fun j a => a_id a = mi_arena_id_create j).


(** A free releases a run of blocks that lies within the blocks of the
    arena, as every run handed out by an allocation does. *)
Definition free_in_bounds (a : mi_arena_t) (bitmap_idx blocks : nat) : Prop :=
  (bitmap_idx + blocks <= block_count a)%nat.

Definition any_free (a : mi_arena_t) (bitmap_idx blocks : nat) : Prop := True.
Definition any_size (size : Z) : Prop := True.
Definition size_t_size (size : Z) : Prop := size < 2 ^ 64.

(** What an allocation tells about the memid it returns. *)
Definition names_arena (j : nat) (a : mi_arena_t) (r : Z * mi_memid_t) (n : nat) : Prop :=
  exists idx, memid_names (snd r) (a_id a) (exclusive a) idx.

Definition within_blocks (j : nat) (a : mi_arena_t) (r : Z * mi_memid_t) (n : nat) : Prop :=
  exists idx, memid_names (snd r) (a_id a) (exclusive a) idx /\
    (idx + n <= block_count a)%nat /\
    fst r = a_start a + mi_arena_block_size idx.

Definition no_result (j : nat) (a : mi_arena_t) (r : Z * mi_memid_t) (n : nat) : Prop := True.

(** The state of the concrete run between two atomic steps of the first
    free: the block is scheduled for a purge and still in use. *)
Definition demo_mid_free : mi_state :=
  nth 1 (trace_of demo_free_run) mi_state_init.

(** The arena of the concrete run after the first free. *)
Definition demo_freed_arena : mi_arena_t :=
  default arena_cursor_at_1 (mi_arenas demo_freed !! 0%nat).


(** Two calls of [mi_arena_static_zalloc] in the initial state, the first
    with an alignment for which [size + alignment - 1] wraps around. *)
Definition demo_static_wrap_run : outcome mi_state (list (option Z)) :=
  static_zalloc_calls [(200, 2 ^ 64 - 100); (16, 16)] mi_state_init.

(** * Further specification vocabulary *)

(** The occupied slots of the registry lie below [mi_arena_count], which
    does not exceed the size of the array. *)
Definition registry_bounded (s : mi_state) : Prop :=
  (mi_arena_count s <= MI_MAX_ARENAS)%nat /\
  forall j, is_Some (mi_arenas s !! j) -> (j < mi_arena_count s)%nat.

(** The registry, its count and the log are left alone. *)
Definition same_registry (s s' : mi_state) : Prop :=
  mi_arenas s' = mi_arenas s /\ mi_arena_count s' = mi_arena_count s /\
  mi_log s' = mi_log s.

(** A step that adds no arena and does not touch the static area: the same
    slots are occupied, and each arena is related by [R] to what it was. *)
Definition arenas_rel (R : mi_arena_t -> mi_arena_t -> Prop) (s s' : mi_state) : Prop :=
  mi_arena_count s' = mi_arena_count s /\
  mi_arena_static s' = mi_arena_static s /\
  mi_arena_static_top s' = mi_arena_static_top s /\
  forall j, option_Forall2 R (mi_arenas s !! j) (mi_arenas s' !! j).

(** Every arena stays registered in its slot, related by [R] to what it
    was, and the count does not go down. *)
Definition registry_rel (R : mi_arena_t -> mi_arena_t -> Prop) (s s' : mi_state) : Prop :=
  (mi_arena_count s <= mi_arena_count s')%nat /\
  forall j a, mi_arenas s !! j = Some a ->
    exists a', mi_arenas s' !! j = Some a' /\ R a a'.

(** A step that may add an arena, from a bounded registry. *)
Definition grow_rel (R : mi_arena_t -> mi_arena_t -> Prop) (s s' : mi_state) : Prop :=
  registry_bounded s -> registry_bounded s' /\ registry_rel R s s'.

(** The address [p] lies within the memory of arena [a]. *)
Definition arena_has (a : mi_arena_t) (p : Z) : Prop :=
  a_start a <= p < a_start a + mi_arena_block_size (block_count a).

(** A well-formed arena with its tail bits claimed whose size in bytes is a
    [size_t]. *)
Definition arena_geom (a : mi_arena_t) : Prop :=
  (arena_wf a /\ tail_claimed a) /\
  Z.of_nat (block_count a) * MI_ARENA_BLOCK_SIZE < 2 ^ 64.

Definition registry_geom : mi_state -> Prop :=
  registry_inv (fun _ a => arena_geom a).

(** An allocation returns a non-empty run of blocks of the arena, and the
    address of its first block. *)
Definition block_run (j : nat) (a : mi_arena_t) (r : Z * mi_memid_t) (n : nat) : Prop :=
  exists idx, memid_names (snd r) (a_id a) (exclusive a) idx /\ (0 < n)%nat /\
    (idx + n <= block_count a)%nat /\
    fst r = a_start a + Z.of_nat idx * MI_ARENA_BLOCK_SIZE.

(** The purge guard and the log are left alone. *)
Definition quiet_rel (s s' : mi_state) : Prop :=
  purge_guard s' = purge_guard s /\ mi_log s' = mi_log s.

(** Bit [b] is one of the bits [lo .. hi) of field [i] of a bitmap and is
    set in [word], a value read from that field. *)
Definition word_bit (i lo hi : nat) (word : Z) (b : nat) : bool :=
  in_run (i * MI_BITMAP_FIELD_BITS + lo) (hi - lo) b
  && Z.testbit word (Z.of_nat (b - i * MI_BITMAP_FIELD_BITS)).

(** What the code relies on when it accesses the bitmaps of an arena: the
    arena is well formed, and a purge bitmap comes with a committed
    bitmap. *)
Definition arena_safe (a : mi_arena_t) : Prop :=
  arena_wf a /\ (is_Some (blocks_purge a) -> is_Some (blocks_committed a)).

(** The shared state as a sequential run keeps it: the registry is bounded,
    the static area is within its buffer, every arena is safe to access. *)
Definition state_ok (s : mi_state) : Prop :=
  registry_bounded s /\ static_ok s /\ registry_inv (fun _ a => arena_safe a) s.

Definition ok_rel (s s' : mi_state) : Prop := state_ok s -> state_ok s'.

(** What a free of arena memory asks of its memid: the id names a slot of
    the registry array and, where an arena is registered in that slot and
    the first block lies within the fields of its bitmaps, the run of
    blocks ends within them. *)
Definition free_args_valid (s : mi_state) (size : Z) (memid : mi_memid_t) : Prop :=
  let i := mi_arena_id_index (mem_arena_id memid) in
  let idx := mem_arena_block_index memid in
  (i < MI_MAX_ARENAS)%nat /\
  forall a, mi_arenas s !! i = Some a ->
    (mi_bitmap_index_field idx < field_count a)%nat ->
    (idx + mi_block_count_of_size size <= field_count a * MI_BITMAP_FIELD_BITS)%nat.

(** ** The choice of an arena *)

(** An arena that a request naming no arena may use: not of large OS pages
    unless the request allows them, and suitable for such a request. *)
Definition arena_eligible (allow_large : bool) (a : mi_arena_t) : bool :=
  (allow_large || negb (is_large a))
  && mi_arena_id_is_suitable (a_id a) (exclusive a) _mi_arena_id_none.

(** The arena is local to the numa node, or one of the two has no numa
    affinity. *)
Definition numa_suitable (numa_node : Z) (a : mi_arena_t) : bool :=
  (numa_node <? 0) || (a_numa_node a <? 0) || (a_numa_node a =? numa_node).

(** Within its bitmap fields the arena has [n] consecutive blocks that are
    not in use. *)
Definition has_free_run (a : mi_arena_t) (n : nat) : Prop :=
  exists q, (q + n <= field_count a * MI_BITMAP_FIELD_BITS)%nat /\
            forall b, (q <= b < q + n)%nat -> inuse a b = false.

(** The outcome of the block claim of [n] blocks on arena [a]: it fails,
    and leaves the arena as it is; or it succeeds. *)
Definition claim_fails (a : mi_arena_t) (n : nat) : Prop :=
  exists tr, mi_arena_try_claim n a = Done None a tr.
Definition claim_succeeds (a : mi_arena_t) (n : nat) : Prop :=
  exists idx a' tr, mi_arena_try_claim n a = Done (Some idx) a' tr.

(** No arena starts at address 0 or below, so the start of a block is never
    mistaken for NULL. *)
Definition starts_nonzero : mi_state -> Prop :=
  registry_inv (fun _ a => 0 < a_start a).

(** ** Huge OS pages *)

(** The pages that [mi_reserve_huge_os_pages_interleave] asks of node [i]:
    an even share, and one more for the first nodes when the pages do not
    divide evenly. *)
Definition interleave_node_pages (pages numa_count i : Z) : Z :=
  pages / numa_count + (if i <? pages mod numa_count then 1 else 0).

(** The requests of an interleaved reservation that succeeds. *)
Definition interleave_requests (os : mi_huge_os) (pages numa_count timeout_per : Z)
  : list mi_huge_event :=
  map (fun i : nat =>
         HugeRequest (interleave_node_pages pages numa_count (Z.of_nat i))
           (Z.of_nat i mod os_numa_node_count os) timeout_per)
      (seq 0 (Z.to_nat (Z.min numa_count pages))).

(** The number of pages requested by the requests of a log. *)
Definition requested_pages (l : list mi_huge_event) : Z :=
  fold_right (fun e acc => match e with
                           | HugeRequest pages _ _ => pages + acc
                           | HugeWarning _ => acc
                           end) 0 l.

(** ** Concrete objects for the further properties *)

(** The concrete run continues: its registration as a run of its own, the
    arena after the registration and after the first allocation, and a
    second allocation of one block. *)
Definition demo_manage_run : outcome mi_state (bool * Z) :=
  mi_manage_os_memory_ex env_demo (1024 * MI_MiB) (256 * MI_MiB) true false true (-1) false
    mi_state_init.
Definition demo_managed_arena : mi_arena_t :=
  default arena_cursor_at_1 (mi_arenas demo_managed !! 0%nat).
Definition demo_allocated_arena : mi_arena_t :=
  default arena_cursor_at_1 (mi_arenas demo_allocated !! 0%nat).
Definition demo_alloc2_run : outcome mi_state (Z * mi_memid_t) :=
  _mi_arena_alloc_aligned env_demo (64 * MI_MiB) (64 * MI_MiB) 0 true false 0 demo_allocated.
Definition demo_allocated2 : mi_state := state_after demo_alloc2_run.
Definition demo_memid2 : mi_memid_t :=
  match demo_alloc2_run with Done (_, m) _ _ => m | Fault => _mi_memid_none end.

(** A forced purge sweep after the first free of the concrete run. *)
Definition demo_sweep_run : outcome mi_state unit :=
  mi_arenas_try_purge env_demo true true demo_freed.

(** A reservation of 256 MiB from the OS in the initial state. *)
Definition demo_reserve_run : outcome mi_state (Z * Z) :=
  mi_reserve_os_memory_ex env_demo (256 * MI_MiB) true false false mi_state_init.

(** A pinned arena, 256 MiB of large OS pages, with its first block
    allocated. *)
Definition demo_pinned_managed : mi_state :=
  state_after (mi_manage_os_memory_ex env_demo (1024 * MI_MiB) (256 * MI_MiB) true true true
                 (-1) false mi_state_init).
Definition demo_pinned_arena : mi_arena_t :=
  default arena_cursor_at_1
    (mi_arenas (state_after (_mi_arena_alloc_aligned env_demo (64 * MI_MiB) (64 * MI_MiB) 0
                               true true 0 demo_pinned_managed)) !! 0%nat).

(** The segment in the second block of the concrete run, owned by thread 7,
    with no segment abandoned so far; the segment and the state after it
    was marked as abandoned. *)
Definition demo_segment : mi_segment_t := mk_segment demo_memid2 7.
Definition demo_abandon : mi_abandon_state := mk_abandon_state demo_allocated2 0.
Definition demo_mark_run : outcome mi_abandon_state mi_segment_t :=
  _mi_arena_segment_mark_abandoned demo_segment demo_abandon.
Definition demo_marked : mi_abandon_state :=
  match demo_mark_run with Done _ s _ => s | Fault => demo_abandon end.
Definition demo_marked_segment : mi_segment_t :=
  match demo_mark_run with Done seg _ _ => seg | Fault => demo_segment end.
Definition demo_reclaim_run : outcome mi_abandon_state (bool * mi_segment_t) :=
  _mi_arena_segment_clear_abandoned 42 demo_marked_segment demo_marked.
Definition demo_reclaimed : mi_abandon_state :=
  match demo_reclaim_run with Done _ s _ => s | Fault => demo_abandon end.
Definition demo_reclaimed_segment : mi_segment_t :=
  match demo_reclaim_run with Done (_, seg) _ _ => seg | Fault => demo_segment end.

(** Two arenas of 256 MiB: the arena of slot 0 on numa node 1, the arena of
    slot 1 on numa node 0. *)
Definition demo_numa_first : mi_state :=
  state_after (mi_manage_os_memory_ex env_demo (1024 * MI_MiB) (256 * MI_MiB) true false true 1
                 false mi_state_init).
Definition demo_numa : mi_state :=
  state_after (mi_manage_os_memory_ex env_demo (2048 * MI_MiB) (256 * MI_MiB) true false true 0
                 false demo_numa_first).
Definition demo_numa_run : outcome mi_state (Z * mi_memid_t) :=
  mi_arena_try_alloc env_demo 0 (64 * MI_MiB) (64 * MI_MiB) true false _mi_arena_id_none
    _mi_memid_none demo_numa.

(** An OS with two numa nodes that grants every request for huge pages in
    full, at an address that depends on the node, and the state before any
    reservation. *)
Definition os_huge_demo : mi_huge_os :=
  mk_huge_os 2
    (fun pages numa_node _ =>
       mk_huge_mem ((16 + 8 * numa_node) * 1024 * MI_MiB) pages (pages * 1024 * MI_MiB)
         (mk_memid MI_MEM_OS 0 0%nat false true true true)).
Definition demo_huge : mi_huge_state := mk_huge_state mi_state_init [].
Definition demo_huge_at_run : outcome mi_huge_state (Z * Z) :=
  mi_reserve_huge_os_pages_at_ex env_demo os_huge_demo 2 5 100 false demo_huge.
Definition demo_huge_reserved : mi_huge_state :=
  match demo_huge_at_run with Done _ s _ => s | Fault => demo_huge end.
Definition demo_interleave_run : outcome mi_huge_state Z :=
  mi_reserve_huge_os_pages_interleave env_demo os_huge_demo 5 0 1000 demo_huge.
Definition demo_interleaved : mi_huge_state :=
  match demo_interleave_run with Done _ s _ => s | Fault => demo_huge end.

(** A segment outside the arenas, abandoned in the state of the concrete
    run after its second allocation. *)
Definition demo_os_segment : mi_segment_t :=
  mk_segment (mk_memid MI_MEM_OS 0 0%nat false false true true) 7.
Definition demo_os_marked : mi_abandon_state :=
  match _mi_arena_segment_mark_abandoned demo_os_segment demo_abandon with
  | Done _ s _ => s
  | Fault => demo_abandon
  end.
(** * Proofs *)

(** *** Facts about single bits and runs *)

Lemma bitmap_field_split (i : nat) :
  i = (mi_bitmap_index_field i * 64 + mi_bitmap_index_bit_in_field i)%nat.
Proof.
  unfold mi_bitmap_index_field, mi_bitmap_index_bit_in_field, MI_BITMAP_FIELD_BITS.
  pose proof (Nat.div_mod_eq i 64). lia.
Qed.

Lemma bitmap_index_inj (i j : nat) :
  mi_bitmap_index_field i = mi_bitmap_index_field j ->
  mi_bitmap_index_bit_in_field i = mi_bitmap_index_bit_in_field j -> i = j.
Proof.
  intros Hf Hb. rewrite (bitmap_field_split i), (bitmap_field_split j). lia.
Qed.

Lemma bm_set_length bm i : length (bm_set bm i) = length bm.
Proof. unfold bm_set. apply length_alter. Qed.

Lemma bm_clear_length bm i : length (bm_clear bm i) = length bm.
Proof. unfold bm_clear. apply length_alter. Qed.

Lemma bm_set_range_length bm idx count : length (bm_set_range bm idx count) = length bm.
Proof.
  revert bm idx. induction count as [|n IH]; intros bm idx; simpl; [done|].
  rewrite IH. apply bm_set_length.
Qed.

Lemma bm_clear_range_length bm idx count : length (bm_clear_range bm idx count) = length bm.
Proof.
  revert bm idx. induction count as [|n IH]; intros bm idx; simpl; [done|].
  rewrite IH. apply bm_clear_length.
Qed.

Lemma bm_get_bound bm i : bm_get bm i = true -> (i < bm_bits bm)%nat.
Proof.
  unfold bm_get, bm_bits. intros H.
  destruct (bm !! mi_bitmap_index_field i) as [f|] eqn:E; [|done].
  apply lookup_lt_Some in E. revert E.
  unfold mi_bitmap_index_field, MI_BITMAP_FIELD_BITS. intros E.
  pose proof (Nat.div_mod_eq i 64). pose proof (Nat.mod_upper_bound i 64). lia.
Qed.

Lemma bm_get_set bm i j :
  bm_get (bm_set bm i) j = ((i =? j)%nat && (j <? bm_bits bm)%nat) || bm_get bm j.
Proof.
  unfold bm_get, bm_set.
  destruct (decide (mi_bitmap_index_field i = mi_bitmap_index_field j)) as [Hf|Hf].
  - rewrite Hf, list_lookup_alter_eq.
    destruct (bm !! mi_bitmap_index_field j) as [f|] eqn:E; simpl.
    + rewrite Z.setbit_eqb by lia.
      assert (Hj : (j < bm_bits bm)%nat).
      { apply lookup_lt_Some in E. unfold bm_bits, MI_BITMAP_FIELD_BITS.
        revert E. unfold mi_bitmap_index_field, MI_BITMAP_FIELD_BITS. intros E.
        pose proof (Nat.div_mod_eq j 64). pose proof (Nat.mod_upper_bound j 64). lia. }
      apply Nat.ltb_lt in Hj. rewrite Hj, andb_true_r. f_equal.
      destruct (Nat.eqb_spec i j) as [->|Hij].
      * apply Z.eqb_refl.
      * apply Z.eqb_neq. intros Hb. apply Hij, bitmap_index_inj; [done|lia].
    + apply lookup_ge_None in E.
      assert (Hj : (j <? bm_bits bm)%nat = false).
      { apply Nat.ltb_ge. unfold bm_bits, MI_BITMAP_FIELD_BITS.
        revert E. unfold mi_bitmap_index_field, MI_BITMAP_FIELD_BITS. intros E.
        pose proof (Nat.div_mod_eq j 64). lia. }
      by rewrite Hj, andb_false_r.
  - rewrite list_lookup_alter_ne by done.
    destruct (Nat.eqb_spec i j) as [->|Hij]; [done|]. done.
Qed.

Lemma bm_get_clear bm i j :
  bm_get (bm_clear bm i) j = negb (i =? j)%nat && bm_get bm j.
Proof.
  unfold bm_get, bm_clear.
  destruct (decide (mi_bitmap_index_field i = mi_bitmap_index_field j)) as [Hf|Hf].
  - rewrite Hf, list_lookup_alter_eq.
    destruct (bm !! mi_bitmap_index_field j) as [f|] eqn:E; simpl.
    + rewrite Z.clearbit_eqb by lia. rewrite andb_comm. f_equal. f_equal.
      destruct (Nat.eqb_spec i j) as [->|Hij].
      * apply Z.eqb_refl.
      * apply Z.eqb_neq. intros Hb. apply Hij, bitmap_index_inj; [done|lia].
    + by rewrite andb_false_r.
  - rewrite list_lookup_alter_ne by done.
    destruct (Nat.eqb_spec i j) as [->|Hij]; [done|]. done.
Qed.

Lemma in_run_spec idx count j :
  in_run idx count j = true <-> (idx <= j < idx + count)%nat.
Proof.
  unfold in_run. rewrite andb_true_iff, Nat.leb_le, Nat.ltb_lt. lia.
Qed.

Lemma in_run_S idx n j :
  in_run idx (S n) j = (idx =? j)%nat || in_run (S idx) n j.
Proof.
  apply eq_true_iff_eq.
  rewrite orb_true_iff, !in_run_spec, Nat.eqb_eq. lia.
Qed.

Lemma in_run_0 idx j : in_run idx 0 j = false.
Proof.
  apply not_true_iff_false. rewrite in_run_spec. lia.
Qed.

Lemma bm_get_set_range bm idx count j :
  bm_get (bm_set_range bm idx count) j
  = (in_run idx count j && (j <? bm_bits bm)%nat) || bm_get bm j.
Proof.
  revert bm idx. induction count as [|n IH]; intros bm idx; simpl.
  - by rewrite in_run_0.
  - rewrite IH, bm_get_set, in_run_S. unfold bm_bits. rewrite bm_set_length.
    destruct (idx =? j)%nat, (in_run (S idx) n j), (j <? _)%nat, (bm_get bm j); done.
Qed.

Lemma bm_get_clear_range bm idx count j :
  bm_get (bm_clear_range bm idx count) j = negb (in_run idx count j) && bm_get bm j.
Proof.
  revert bm idx. induction count as [|n IH]; intros bm idx; simpl.
  - by rewrite in_run_0.
  - rewrite IH, bm_get_clear, in_run_S.
    destruct (idx =? j)%nat, (in_run (S idx) n j), (bm_get bm j); done.
Qed.

Lemma bm_all_clear_spec bm idx count :
  bm_all_clear bm idx count = true <->
  forall j, (idx <= j < idx + count)%nat -> bm_get bm j = false.
Proof.
  unfold bm_all_clear. rewrite forallb_forall. split.
  - intros H j Hj. specialize (H j). rewrite in_seq in H.
    apply negb_true_iff, H. lia.
  - intros H j Hj. apply in_seq in Hj. apply negb_true_iff, H. lia.
Qed.

Lemma bm_all_set_spec bm idx count :
  bm_all_set bm idx count = true <->
  forall j, (idx <= j < idx + count)%nat -> bm_get bm j = true.
Proof.
  unfold bm_all_set. rewrite forallb_forall. split.
  - intros H j Hj. apply H, in_seq. lia.
  - intros H j Hj. apply in_seq in Hj. apply H. lia.
Qed.


(** ** Reasoning about monadic code *)

Lemma bind_Done {S A B} (m : M S A) (k : A -> M S B) (s : S) b s2 tr :
  bind m k s = Done b s2 tr ->
  exists a s1 t1 t2, m s = Done a s1 t1 /\ k a s1 = Done b s2 t2 /\ tr = t1 ++ t2.
Proof.
  unfold bind. destruct (m s) as [a s1 t1|]; [|discriminate].
  destruct (k a s1) as [b' s2' t2|] eqn:E; [|discriminate].
  intros [= -> -> <-]. by exists a, s1, t1, t2.
Qed.

Lemma bind_Done_intro {S A B} (m : M S A) (k : A -> M S B) (s : S) a s1 t1 b s2 t2 :
  m s = Done a s1 t1 -> k a s1 = Done b s2 t2 -> bind m k s = Done b s2 (t1 ++ t2).
Proof. unfold bind. by intros -> ->. Qed.

Lemma ret_Done {S A} (a : A) (s : S) b s' tr :
  ret a s = Done b s' tr -> b = a /\ s' = s /\ tr = [].
Proof. unfold ret. by intros [= -> -> <-]. Qed.

Lemma get_Done {S} (s : S) b s' tr :
  get s = Done b s' tr -> b = s /\ s' = s /\ tr = [].
Proof. unfold get. by intros [= -> -> <-]. Qed.

Lemma atomic_Done {S} (f : S -> S) (s : S) b s' tr :
  atomic f s = Done b s' tr -> s' = f s /\ tr = [f s].
Proof. unfold atomic. by intros [= _ <- <-]. Qed.

Lemma modify_Done {S} (f : S -> S) (s : S) b s' tr :
  modify f s = Done b s' tr -> s' = f s /\ tr = [].
Proof. unfold modify. by intros [= _ <- <-]. Qed.

Lemma bind_get_eq {S B} (k : S -> M S B) (s : S) : bind get k s = k s s.
Proof. unfold bind, get. by destruct (k s s). Qed.

Lemma bind_ret_eq {S A B} (a : A) (k : A -> M S B) (s : S) : bind (ret a) k s = k a s.
Proof. unfold bind, ret. by destruct (k a s). Qed.

(** Split equations between pairs and options, then substitute. *)
Ltac inj_eqs :=
  repeat match goal with
  | H : (_, _) = (_, _) |- _ => apply pair_equal_spec in H; destruct H
  | H : Some _ = Some _ |- _ => apply (inj Some) in H
  | H : Some _ = None |- _ => discriminate H
  | H : None = Some _ |- _ => discriminate H
  end; subst.

(** Take apart a hypothesis [m s = Done ...] along the structure of [m]. *)
Ltac minv1 H :=
  match type of H with
  | bind _ _ _ = Done _ _ _ =>
      let a := fresh "x" in let s1 := fresh "s" in
      let t1 := fresh "t" in let t2 := fresh "t" in
      let H1 := fresh H "a" in let H2 := fresh H "b" in
      apply bind_Done in H; destruct H as (a & s1 & t1 & t2 & H1 & H2 & ->);
      minv1 H1; minv1 H2
  | ret _ _ = Done _ _ _ =>
      apply ret_Done in H; destruct H as (? & ? & ?); inj_eqs
  | get _ = Done _ _ _ =>
      apply get_Done in H; destruct H as (? & ? & ?); subst
  | atomic _ _ = Done _ _ _ =>
      apply atomic_Done in H; destruct H as (? & ?); subst
  | modify _ _ = Done _ _ _ =>
      apply modify_Done in H; destruct H as (? & ?); subst
  | fault _ = Done _ _ _ => discriminate H
  | Fault = Done _ _ _ => discriminate H
  | _ => idtac
  end.

Section Pres.
Context {S : Type} (R : S -> S -> Prop).
Hypothesis R_refl : forall s, R s s.
Hypothesis R_trans : forall s1 s2 s3, R s1 s2 -> R s2 s3 -> R s1 s3.

Lemma pres_ret {A} (a : A) : pres R (ret a).
Proof. intros s b s' tr H. minv1 H. apply R_refl. Qed.

Lemma pres_get : pres R get.
Proof. intros s b s' tr H. minv1 H. apply R_refl. Qed.

Lemma pres_fault {A} : pres R (@fault S A).
Proof. intros s b s' tr H. discriminate H. Qed.

Lemma pres_bind {A B} (m : M S A) (k : A -> M S B) :
  pres R m -> (forall a, pres R (k a)) -> pres R (bind m k).
Proof.
  intros Hm Hk s b s' tr H. apply bind_Done in H as (a & s1 & t1 & t2 & H1 & H2 & ->).
  eapply R_trans; [eapply Hm, H1 | eapply Hk, H2].
Qed.

Lemma pres_atomic (f : S -> S) : (forall s, R s (f s)) -> pres R (atomic f).
Proof. intros Hf s b s' tr H. minv1 H. apply Hf. Qed.

Lemma pres_modify (f : S -> S) : (forall s, R s (f s)) -> pres R (modify f).
Proof. intros Hf s b s' tr H. minv1 H. apply Hf. Qed.

Lemma pres_if {A} (c : bool) (m1 m2 : M S A) :
  pres R m1 -> pres R m2 -> pres R (if c then m1 else m2).
Proof. by destruct c. Qed.

End Pres.

(** ** C7: growth of the registry *)

Lemma state_eta (s : mi_state) :
  mk_state (mi_arenas s) (mi_arena_count s) (mi_arena_static s) (mi_arena_static_top s)
           (purge_guard s) (mi_log s) = s.
Proof. by destruct s. Qed.

Lemma mi_arena_add_eval (arena : mi_arena_t) (s : mi_state) :
  let i := mi_arena_count s in
  let claimed := set_mi_arena_count (S i) s in
  mi_arena_add arena s =
    if (MI_MAX_ARENAS <=? i)%nat
    then Done (false, -1) s [claimed; s]
    else let stored := set_arena i (set_a_id (Z.of_nat i + 1) arena) claimed in
         Done (true, Z.of_nat i + 1) stored [claimed; stored].
Proof.
  destruct s as [arenas n buf top g l]. cbv zeta. simpl mi_arena_count.
  unfold mi_arena_add, atomic_increment_arena_count, atomic_decrement_arena_count,
    bind, get, atomic, ret. cbn -[Nat.leb MI_MAX_ARENAS].
  destruct (MI_MAX_ARENAS <=? n)%nat; reflexivity.
Qed.

(** Claim C7.  [mi_arena_add] claims a slot by an atomic increment of
    [mi_arena_count].  If the claimed slot index is at or beyond
    [MI_MAX_ARENAS], a decrement rolls the increment back and the call
    returns false in the state it started from: the trace shows the
    incremented count followed by the initial state.  Otherwise the arena is
    stored at the claimed slot with id = slot index + 1, which is also
    stored through [arena_id], and the call returns true. *)
Theorem mi_arena_add_registry_growth (arena : mi_arena_t) (s : mi_state) :
  let i := mi_arena_count s in
  let claimed := set_mi_arena_count (S i) s in
  mi_arena_add arena s =
    if (MI_MAX_ARENAS <=? i)%nat
    then Done (false, -1) s [claimed; s]
    else let stored := set_arena i (set_a_id (Z.of_nat i + 1) arena) claimed in
         Done (true, Z.of_nat i + 1) stored [claimed; stored].
Proof. apply mi_arena_add_eval. Qed.


(** ** C6: the size of a reservation *)

Lemma mi_arena_reserve_target_Some env count req_size req_arena_id sz c :
  mi_arena_reserve_target env count req_size req_arena_id = Some (sz, c) ->
  sz = reserve_target_size env count /\ req_size <= sz.
Proof.
  unfold mi_arena_reserve_target, reserve_target_size.
  destruct (mi_preloading env); [done|].
  destruct (negb (req_arena_id =? _mi_arena_id_none)); [done|].
  destruct (MI_MAX_ARENAS - 4 <? count)%nat; [done|].
  destruct (opt_arena_reserve env =? 0); [done|].
  rewrite Z.shiftl_1_l.
  replace (if negb (os_has_virtual_reserve env) then opt_arena_reserve env / 4
           else opt_arena_reserve env)
    with (if os_has_virtual_reserve env then opt_arena_reserve env
          else opt_arena_reserve env / 4) by (by destruct (os_has_virtual_reserve env)).
  match goal with |- context [if ?x <? req_size then _ else _] =>
    destruct (Z.ltb_spec x req_size) as [Hlt|Hge] end; [done|].
  intros [= <- _]. split; [reflexivity|exact Hge].
Qed.

Lemma mi_arena_reserve_target_None env count req_size req_arena_id :
  mi_preloading env = true \/ req_arena_id <> _mi_arena_id_none \/
  (MI_MAX_ARENAS - 4 < count)%nat \/ opt_arena_reserve env = 0 \/
  reserve_target_size env count < req_size ->
  mi_arena_reserve_target env count req_size req_arena_id = None.
Proof.
  unfold mi_arena_reserve_target, reserve_target_size. intros H.
  destruct (mi_preloading env); [done|].
  destruct (Z.eqb_spec req_arena_id _mi_arena_id_none) as [Hreq|]; [|done]. cbn [negb].
  destruct (Nat.ltb_spec (MI_MAX_ARENAS - 4) count) as [|Hcount]; [done|].
  destruct (Z.eqb_spec (opt_arena_reserve env) 0) as [|Hres]; [done|].
  rewrite Z.shiftl_1_l.
  replace (if negb (os_has_virtual_reserve env) then opt_arena_reserve env / 4
           else opt_arena_reserve env)
    with (if os_has_virtual_reserve env then opt_arena_reserve env
          else opt_arena_reserve env / 4) by (by destruct (os_has_virtual_reserve env)).
  match goal with |- context [if ?x <? req_size then _ else _] =>
    destruct (Z.ltb_spec x req_size) as [Hlt|Hge] end; [done|].
  destruct H as [?|[?|[?|[?|?]]]]; try done; lia.
Qed.

Lemma mi_arena_reserve_target_proceeds env count req_size :
  mi_preloading env = false -> (count <= MI_MAX_ARENAS - 4)%nat ->
  opt_arena_reserve env <> 0 -> req_size <= reserve_target_size env count ->
  mi_arena_reserve_target env count req_size _mi_arena_id_none
  = Some (reserve_target_size env count,
          if opt_arena_eager_commit env =? 2 then os_has_overcommit env
          else if opt_arena_eager_commit env =? 1 then true else false).
Proof.
  unfold mi_arena_reserve_target, reserve_target_size. intros -> Hcount Hres Hreq.
  rewrite Z.eqb_refl. cbn [negb].
  destruct (Nat.ltb_spec (MI_MAX_ARENAS - 4) count); [lia|].
  destruct (Z.eqb_spec (opt_arena_reserve env) 0); [done|].
  rewrite Z.shiftl_1_l.
  replace (if negb (os_has_virtual_reserve env) then opt_arena_reserve env / 4
           else opt_arena_reserve env)
    with (if os_has_virtual_reserve env then opt_arena_reserve env
          else opt_arena_reserve env / 4) by (by destruct (os_has_virtual_reserve env)).
  match goal with |- context [if ?x <? req_size then _ else _] =>
    destruct (Z.ltb_spec x req_size) as [Hlt|Hge] end; [lia|done].
Qed.

(** Claim C6.  [mi_arena_reserve] computes its target from the configured
    default, divided by four when the OS has no virtual reserve, rounded up
    to the block size and, when the arena count lies between 8 and 128,
    multiplied by [2^(arena_count/8)] (in [size_t] arithmetic).  (1) It
    returns false without reserving, and without touching the state, while
    preloading, when an arena was requested, when more than
    [MI_MAX_ARENAS - 4] arenas exist, when the configured default is 0, and
    when the target is below [req_size].  (2) In every other case it
    reserves exactly the target, with the eager-commit flag of the options,
    and the target is not below [req_size]. *)
Theorem mi_arena_reserve_sizing (env : mi_env) (s : mi_state) (req_size : Z)
    (allow_large : bool) (req_arena_id arena_id : Z) :
  let count := mi_arena_count s in
  let dflt := opt_arena_reserve env in
  let base :=
    _mi_align_up (if os_has_virtual_reserve env then dflt else dflt / 4) MI_ARENA_BLOCK_SIZE in
  let target :=
    if (8 <=? count)%nat && (count <=? 128)%nat
    then size_wrap (2 ^ Z.of_nat (count / 8) * base) else base in
  let arena_commit :=
    if opt_arena_eager_commit env =? 2 then os_has_overcommit env
    else if opt_arena_eager_commit env =? 1 then true else false in
  (mi_preloading env = true \/ req_arena_id <> _mi_arena_id_none \/
   (MI_MAX_ARENAS - 4 < count)%nat \/ dflt = 0 \/ target < req_size ->
   mi_arena_reserve env req_size allow_large req_arena_id arena_id s
   = Done (false, arena_id) s [])
  /\
  (mi_preloading env = false -> req_arena_id = _mi_arena_id_none ->
   (count <= MI_MAX_ARENAS - 4)%nat -> dflt <> 0 -> req_size <= target ->
   mi_arena_reserve env req_size allow_large req_arena_id arena_id s
   = (do r <- mi_reserve_os_memory_ex env target arena_commit allow_large false;
      ret (fst r =? 0, snd r)) s).
Proof.
  cbv zeta. fold (reserve_target_size env (mi_arena_count s)).
  unfold mi_arena_reserve. rewrite bind_get_eq. split.
  - intros H. by rewrite (mi_arena_reserve_target_None _ _ _ _ H).
  - intros Hpre -> Hcount Hres Hreq.
    by rewrite (mi_arena_reserve_target_proceeds _ _ _ Hpre Hcount Hres Hreq).
Qed.

(** ** C10: the static area *)

Lemma size_wrap_small x : 0 <= x < 2 ^ 64 -> size_wrap x = x.
Proof. intros H. unfold size_wrap. by apply Z.mod_small. Qed.

Lemma _mi_align_up_bounds x a :
  0 <= x -> 0 < a -> x + a - 1 < 2 ^ 64 ->
  let r := _mi_align_up x a in r mod a = 0 /\ x <= r <= x + a - 1.
Proof.
  intros Hx Ha Hov. cbv zeta. unfold _mi_align_up.
  destruct (Z.eqb_spec a 0) as [->|_]; [lia|].
  rewrite (size_wrap_small (x + a - 1)) by lia.
  pose proof (Z.div_mod (x + a - 1) a ltac:(lia)) as Hdm.
  pose proof (Z.mod_pos_bound (x + a - 1) a Ha) as Hmod.
  assert (Hq : 0 <= (x + a - 1) / a) by (apply Z.div_pos; lia).
  rewrite size_wrap_small by nia.
  split; [apply Z.mod_mul; lia | nia].
Qed.

Lemma MI_ARENA_STATIC_MAX_val : MI_ARENA_STATIC_MAX = 8192.
Proof. reflexivity. Qed.

Lemma mi_arena_static_zalloc_success s size alignment start memid s' tr :
  static_ok s -> 0 <= size -> 0 <= alignment <= 2 ^ 63 ->
  mi_arena_static_zalloc size alignment s = Done (Some start, memid) s' tr ->
  0 < size /\
  start mod Z.max alignment MI_MAX_ALIGN_SIZE = 0 /\
  mi_arena_static_top s <= start /\
  start + size <= mi_arena_static_top s' /\
  (forall i, start <= i < start + size ->
             mi_arena_static s' !! Z.to_nat i = Some Byte.x00) /\
  memkind memid = MI_MEM_STATIC /\ initially_zero memid = true /\
  static_ok s'.
Proof.
  intros [Htop Hlen] Hsize Hal. unfold mi_arena_static_zalloc.
  pose proof MI_ARENA_STATIC_MAX_val as HM.
  destruct (Z.eqb_spec size 0) as [->|Hs0]; cbn [orb]; [intros H; by minv1 H|].
  destruct (Z.ltb_spec MI_ARENA_STATIC_MAX size) as [Hbig|Hbig]; [intros H; by minv1 H|].
  rewrite bind_get_eq.
  destruct (Z.ltb_spec MI_ARENA_STATIC_MAX (size_wrap (mi_arena_static_top s + size)));
    [intros H'; by minv1 H'|].
  set (eff := if alignment <? MI_MAX_ALIGN_SIZE then MI_MAX_ALIGN_SIZE else alignment).
  assert (Heff : eff = Z.max alignment MI_MAX_ALIGN_SIZE).
  { unfold eff, MI_MAX_ALIGN_SIZE. destruct (Z.ltb_spec alignment 16); lia. }
  assert (Heff16 : 16 <= eff <= 2 ^ 63).
  { rewrite Heff. unfold MI_MAX_ALIGN_SIZE. lia. }
  assert (Hsz : 0 < size) by lia.
  rewrite (size_wrap_small (size + eff - 1)) by lia.
  destruct (Z.ltb_spec MI_ARENA_STATIC_MAX
              (size_wrap (mi_arena_static_top s + (size + eff - 1)))) as [Hov|Hov];
    [intros H'; by minv1 H'|].
  rewrite size_wrap_small in Hov by lia.
  unfold atomic_add_static_top. intros H'. minv1 H'.
  rewrite (size_wrap_small (mi_arena_static_top s + (size + eff - 1))) in H'b by lia.
  destruct (Z.ltb_spec MI_ARENA_STATIC_MAX (mi_arena_static_top s + (size + eff - 1)));
    [lia|].
  minv1 H'b. unfold memzero_static in H'ba.
  pose proof (_mi_align_up_bounds (mi_arena_static_top s) eff ltac:(lia) ltac:(lia) ltac:(lia))
    as [Hmod Hrange].
  destruct (_ && _) eqn:Hchk; [|discriminate].
  injection H'ba as <- <-.
  cbn [mi_arena_static_top set_mi_arena_static_top set_mi_arena_static mi_arena_static].
  rewrite <- Heff.
  cbn [mi_arena_static set_mi_arena_static_top] in Hchk.
  apply andb_true_iff in Hchk as [Hc1 Hc2].
  apply Z.leb_le in Hc1, Hc2. rewrite Hlen in Hc2.
  cbn [mi_arena_static_top set_mi_arena_static_top set_mi_arena_static mi_arena_static].
  split; [done|]. split; [exact Hmod|]. split; [lia|]. split; [lia|].
  split; [|split; [done|split; [done|]]].
  - intros i Hi. rewrite list_lookup_inserts.
    + apply lookup_replicate_2. lia.
    + rewrite length_replicate. lia.
    + rewrite Hlen. lia.
  - unfold static_ok.
    cbn [mi_arena_static_top set_mi_arena_static_top set_mi_arena_static mi_arena_static].
    split; [lia|]. rewrite length_inserts. exact Hlen.
Qed.

Lemma mi_arena_static_zalloc_null s size alignment memid s' tr :
  static_ok s -> 0 <= size -> 0 <= alignment <= 2 ^ 63 ->
  mi_arena_static_zalloc size alignment s = Done (None, memid) s' tr ->
  s' = s /\ memid = _mi_memid_none.
Proof.
  intros [Htop Hlen] Hsize Hal. unfold mi_arena_static_zalloc.
  pose proof MI_ARENA_STATIC_MAX_val as HM.
  destruct (Z.eqb_spec size 0) as [->|Hs0]; cbn [orb];
    [intros H'; minv1 H'; by split|].
  destruct (Z.ltb_spec MI_ARENA_STATIC_MAX size) as [Hbig|Hbig];
    [intros H'; minv1 H'; by split|].
  rewrite bind_get_eq.
  destruct (Z.ltb_spec MI_ARENA_STATIC_MAX (size_wrap (mi_arena_static_top s + size)));
    [intros H'; minv1 H'; by split|].
  set (eff := if alignment <? MI_MAX_ALIGN_SIZE then MI_MAX_ALIGN_SIZE else alignment).
  assert (Heff16 : 16 <= eff <= 2 ^ 63).
  { unfold eff, MI_MAX_ALIGN_SIZE. destruct (Z.ltb_spec alignment 16); lia. }
  rewrite (size_wrap_small (size + eff - 1)) by lia.
  destruct (Z.ltb_spec MI_ARENA_STATIC_MAX
              (size_wrap (mi_arena_static_top s + (size + eff - 1)))) as [Hov|Hov];
    [intros H'; minv1 H'; by split|].
  rewrite size_wrap_small in Hov by lia.
  unfold atomic_add_static_top. intros H'. minv1 H'.
  rewrite (size_wrap_small (mi_arena_static_top s + (size + eff - 1))) in H'b by lia.
  destruct (Z.ltb_spec MI_ARENA_STATIC_MAX (mi_arena_static_top s + (size + eff - 1)));
    [lia|].
  by minv1 H'b.
Qed.

Lemma mi_arena_static_zalloc_total s size alignment :
  static_ok s -> 0 <= size -> 0 <= alignment <= 2 ^ 63 ->
  exists r s' tr, mi_arena_static_zalloc size alignment s = Done r s' tr.
Proof.
  intros [Htop Hlen] Hsize Hal. unfold mi_arena_static_zalloc.
  pose proof MI_ARENA_STATIC_MAX_val as HM.
  destruct (Z.eqb_spec size 0) as [->|Hs0]; cbn [orb]; [by eexists _, _, _|].
  destruct (Z.ltb_spec MI_ARENA_STATIC_MAX size) as [Hbig|Hbig]; [by eexists _, _, _|].
  rewrite bind_get_eq.
  destruct (Z.ltb_spec MI_ARENA_STATIC_MAX (size_wrap (mi_arena_static_top s + size)));
    [by eexists _, _, _|].
  set (eff := if alignment <? MI_MAX_ALIGN_SIZE then MI_MAX_ALIGN_SIZE else alignment).
  assert (Heff16 : 16 <= eff <= 2 ^ 63).
  { unfold eff, MI_MAX_ALIGN_SIZE. destruct (Z.ltb_spec alignment 16); lia. }
  rewrite (size_wrap_small (size + eff - 1)) by lia.
  destruct (Z.ltb_spec MI_ARENA_STATIC_MAX
              (size_wrap (mi_arena_static_top s + (size + eff - 1)))) as [Hov|Hov];
    [by eexists _, _, _|].
  rewrite size_wrap_small in Hov by lia.
  pose proof (_mi_align_up_bounds (mi_arena_static_top s) eff ltac:(lia) ltac:(lia) ltac:(lia))
    as [Hmod Hrange].
  unfold atomic_add_static_top, bind, get, atomic, ret.
  cbn [mi_arena_static_top set_mi_arena_static_top].
  rewrite (size_wrap_small (mi_arena_static_top s + (size + eff - 1))) by lia.
  destruct (Z.ltb_spec MI_ARENA_STATIC_MAX (mi_arena_static_top s + (size + eff - 1)));
    [lia|].
  unfold memzero_static. cbn [mi_arena_static set_mi_arena_static_top].
  rewrite Hlen.
  destruct (Z.leb_spec 0 (_mi_align_up (mi_arena_static_top s) eff)); [|lia].
  destruct (Z.leb_spec (_mi_align_up (mi_arena_static_top s) eff + size)
              (Z.of_nat (Z.to_nat MI_ARENA_STATIC_MAX))); [|lia].
  cbn [andb]. by eexists _, _, _.
Qed.

Lemma static_zalloc_calls_window calls : forall s results s' tr,
  static_ok s -> Forall static_call_ok calls ->
  static_zalloc_calls calls s = Done results s' tr ->
  static_ok s' /\ mi_arena_static_top s <= mi_arena_static_top s' /\
  forall j size alignment start,
    calls !! j = Some (size, alignment) -> results !! j = Some (Some start) ->
    mi_arena_static_top s <= start /\ start + size <= mi_arena_static_top s'.
Proof.
  induction calls as [|[size alignment] rest IH]; intros s results s' tr Hok Hcalls H.
  - simpl in H. minv1 H. split; [done|]. split; [lia|]. intros j ? ? ? Hj. done.
  - apply Forall_cons in Hcalls as [[Hsz Hal] Hrest]. simpl in Hsz, Hal.
    simpl in H. minv1 H. destruct x as [[start0|] memid0].
    + apply mi_arena_static_zalloc_success in Ha
        as (_ & _ & Hlo & Hhi & _ & _ & _ & Hok1); try done.
      destruct (IH _ _ _ _ Hok1 Hrest Hba) as (Hok' & Hmono & Hwin).
      split; [done|]. split; [destruct Hok as [? _]; lia|].
      intros [|j] size' al' start' Hc Hr; simpl in Hc, Hr.
      * injection Hc as <- <-. injection Hr as <-. lia.
      * destruct (Hwin _ _ _ _ Hc Hr). lia.
    + apply mi_arena_static_zalloc_null in Ha as [-> _]; try done.
      destruct (IH _ _ _ _ Hok Hrest Hba) as (Hok' & Hmono & Hwin).
      split; [done|]. split; [done|].
      intros [|j] size' al' start' Hc Hr; simpl in Hc, Hr; [done|].
      by apply (Hwin j size' al' start').
Qed.

Lemma static_zalloc_calls_disjoint calls : forall s results s' tr i j
    size_i al_i size_j al_j start_i start_j,
  static_ok s -> Forall static_call_ok calls ->
  static_zalloc_calls calls s = Done results s' tr ->
  (i < j)%nat ->
  calls !! i = Some (size_i, al_i) -> calls !! j = Some (size_j, al_j) ->
  results !! i = Some (Some start_i) -> results !! j = Some (Some start_j) ->
  start_i + size_i <= start_j.
Proof.
  induction calls as [|[size alignment] rest IH];
    intros s results s' tr i j size_i al_i size_j al_j start_i start_j
      Hok Hcalls H Hij Hci Hcj Hri Hrj; [done|].
  apply Forall_cons in Hcalls as [[Hsz Hal] Hrest]. simpl in Hsz, Hal.
  simpl in H. minv1 H.
  assert (Hok1 : static_ok s0 /\ (forall st, fst x = Some st -> st + size <= mi_arena_static_top s0)).
  { destruct x as [[start0|] memid0].
    - apply mi_arena_static_zalloc_success in Ha
        as (_ & _ & Hlo & Hhi & _ & _ & _ & Hok1); try done.
      split; [done|]. intros st [= <-]. done.
    - apply mi_arena_static_zalloc_null in Ha as [-> _]; try done. }
  destruct Hok1 as [Hok1 Hfirst].
  destruct j as [|j]; [lia|]. simpl in Hcj, Hrj.
  destruct i as [|i]; simpl in Hci, Hri.
  - injection Hci as <- <-. injection Hri as Hri.
    destruct (static_zalloc_calls_window _ _ _ _ _ Hok1 Hrest Hba) as (_ & _ & Hwin).
    destruct (Hwin _ _ _ _ Hcj Hrj). specialize (Hfirst _ Hri). lia.
  - eapply (IH _ _ _ _ i j); eauto. lia.
Qed.

Lemma mi_arena_static_zalloc_reject s size alignment :
  size = 0 \/ MI_ARENA_STATIC_MAX < size ->
  mi_arena_static_zalloc size alignment s = Done (None, _mi_memid_none) s [].
Proof.
  intros H. unfold mi_arena_static_zalloc.
  destruct (Z.eqb_spec size 0); [done|].
  destruct (Z.ltb_spec MI_ARENA_STATIC_MAX size); [done|lia].
Qed.

(** With an alignment for which [size + alignment - 1] wraps around, the
    static top advances by less than [size]: two successful calls return
    ranges that overlap.  And the offset that a call aligns is not the
    pointer it returns: with the buffer at an address that is a multiple of
    64 and not of 128, a call with alignment 128 returns a pointer that is
    not a multiple of 128. *)
Lemma static_zalloc_overlap_and_misalignment :
  (exists s' tr, demo_static_wrap_run = Done [Some 0; Some 112] s' tr) /\
  0 <= 112 < 0 + 200 /\
  (exists memid s' tr,
     mi_arena_static_zalloc 200 128 mi_state_init = Done (Some 0, memid) s' tr) /\
  64 mod 64 = 0 /\
  mi_arena_static_ptr 64 0 mod Z.max 128 MI_MAX_ALIGN_SIZE <> 0.
Proof.
  split; [eexists _, _; vm_compute; reflexivity|]. split; [lia|].
  split; [eexists _, _, _; vm_compute; reflexivity|]. split; [reflexivity|].
  vm_compute. discriminate.
Qed.

Lemma mi_arena_static_ptr_aligned base line start alignment :
  0 < alignment -> base mod line = 0 -> line mod alignment = 0 -> start mod alignment = 0 ->
  mi_arena_static_ptr base start mod alignment = 0.
Proof.
  intros Hpos Hbase Hline Hstart. unfold mi_arena_static_ptr.
  apply Z.mod_divide in Hline; [|lia]. apply Z.mod_divide in Hstart; [|lia].
  apply Z.mod_divide; [lia|]. apply Z.divide_add_r; [|done].
  destruct (Z.eq_dec line 0) as [->|Hnz].
  - rewrite Z.mod_0_r in Hbase. subst base. apply Z.divide_0_r.
  - apply Z.mod_divide in Hbase; [|done]. by apply (Z.divide_trans _ line).
Qed.

(** Claim C10, amended.  The discipline of the static area, for calls whose
    arguments are [size_t] values with an alignment of at most [2^63], from
    a state in which the top lies within the buffer.  (1) A successful call
    returns an index into the buffer that is a multiple of
    [max(alignment, MI_MAX_ALIGN_SIZE)], so that the pointer it returns is
    aligned to that value whenever the buffer itself is; the range of
    [size] bytes from the index lies within the [MI_ARENA_STATIC_MAX] bytes
    of the buffer and holds zeros, and the memid is of static kind.  (2) Of
    any sequence of calls, two successful ones return disjoint ranges: the
    earlier range ends before the later one starts.  (3) A call with
    [size = 0] or [size > MI_ARENA_STATIC_MAX] returns NULL with the none
    memid and leaves the state as it was. *)
Theorem static_meta_arena_discipline :
  (forall s size alignment start memid s' tr,
     static_ok s -> 0 <= size -> 0 <= alignment <= 2 ^ 63 ->
     mi_arena_static_zalloc size alignment s = Done (Some start, memid) s' tr ->
     start mod Z.max alignment MI_MAX_ALIGN_SIZE = 0 /\
     (forall base line,
        base mod line = 0 -> line mod Z.max alignment MI_MAX_ALIGN_SIZE = 0 ->
        mi_arena_static_ptr base start mod Z.max alignment MI_MAX_ALIGN_SIZE = 0) /\
     0 <= start /\ start + size <= MI_ARENA_STATIC_MAX /\
     (forall i, start <= i < start + size ->
                mi_arena_static s' !! Z.to_nat i = Some Byte.x00) /\
     memkind memid = MI_MEM_STATIC /\ initially_zero memid = true)
  /\
  (forall calls s results s' tr i j size_i al_i size_j al_j start_i start_j,
     static_ok s -> Forall static_call_ok calls ->
     static_zalloc_calls calls s = Done results s' tr ->
     (i < j)%nat ->
     calls !! i = Some (size_i, al_i) -> calls !! j = Some (size_j, al_j) ->
     results !! i = Some (Some start_i) -> results !! j = Some (Some start_j) ->
     start_i + size_i <= start_j)
  /\
  (forall s size alignment,
     size = 0 \/ MI_ARENA_STATIC_MAX < size ->
     mi_arena_static_zalloc size alignment s = Done (None, _mi_memid_none) s []).
Proof.
  split; [|split].
  - intros s size alignment start memid s' tr Hok Hsz Hal H.
    pose proof Hok as [Htop _].
    apply mi_arena_static_zalloc_success in H
      as (_ & Hmod & Hlo & Hhi & Hzero & Hkind & Hz & [Htop' _]); try done.
    split; [done|]. split.
    { intros base line Hbase Hline.
      apply (mi_arena_static_ptr_aligned base line); try done.
      unfold MI_MAX_ALIGN_SIZE. lia. }
    repeat split; try done; lia.
  - apply static_zalloc_calls_disjoint.
  - apply mi_arena_static_zalloc_reject.
Qed.

(** ** C4: the search cursor *)

Lemma find_seq_first (f : nat -> bool) (start n p : nat) :
  find f (seq start n) = Some p ->
  (start <= p < start + n)%nat /\ f p = true /\
  forall q, (start <= q < p)%nat -> f q = false.
Proof.
  revert start. induction n as [|n IH]; intros start; simpl; [done|].
  destruct (f start) eqn:E.
  - intros [= <-]. split; [lia|]. split; [done|]. intros q Hq. lia.
  - intros H. apply IH in H as (Hr & Hp & Hq). split; [lia|]. split; [done|].
    intros q Hq'. destruct (decide (q = start)) as [->|]; [done|]. apply Hq. lia.
Qed.

Lemma find_seq_none (f : nat -> bool) (start n : nat) :
  find f (seq start n) = None -> forall q, (start <= q < start + n)%nat -> f q = false.
Proof.
  intros H q Hq. eapply find_none in H; [exact H|]. apply in_seq. lia.
Qed.

Lemma bm_scan_order_0 fc : bm_scan_order fc 0 = seq 0 (fc * MI_BITMAP_FIELD_BITS).
Proof.
  unfold bm_scan_order. destruct (0 <? fc)%nat; simpl; rewrite app_nil_r;
    by rewrite Nat.sub_0_r.
Qed.

(** The code and the spec's wording part ways on [arena_cursor_at_1]: the
    code claims bit 0, in field 0, although the cursor points at field 1,
    where the search of the spec finds bit 64. *)
Lemma try_claim_differs_from_hinted_search :
  search_idx arena_cursor_at_1 = 1%nat /\
  result_of (mi_arena_try_claim 1 arena_cursor_at_1) = Some (Some 0%nat) /\
  result_of (mi_arena_try_claim_from_hint 1 arena_cursor_at_1) = Some (Some 64%nat) /\
  result_of (mi_arena_try_claim 1 arena_cursor_at_1)
    <> result_of (mi_arena_try_claim_from_hint 1 arena_cursor_at_1).
Proof.
  split; [reflexivity|]. split; [vm_compute; reflexivity|].
  split; [vm_compute; reflexivity|]. vm_compute. discriminate.
Qed.

(** Claim C4, amended.  The block claim searches [blocks_inuse] for a free
    run from field 0, whatever [search_idx] holds: the claimed run is the
    first free run of the bitmap, it was clear and is set afterwards, and
    [search_idx] is published as the field in which the run starts; when the
    claim fails no run of the bitmap is free and the arena is left as it
    was. *)
Theorem mi_arena_try_claim_searches_from_field_0 (a : mi_arena_t) (blocks : nat) :
  (forall v, result_of (mi_arena_try_claim blocks (set_search_idx v a))
             = result_of (mi_arena_try_claim blocks a)) /\
  (forall idx a' tr,
     mi_arena_try_claim blocks a = Done (Some idx) a' tr ->
     search_idx a' = mi_bitmap_index_field idx /\
     (idx + blocks <= field_count a * MI_BITMAP_FIELD_BITS)%nat /\
     bm_all_clear (blocks_inuse a) idx blocks = true /\
     blocks_inuse a' = bm_set_range (blocks_inuse a) idx blocks /\
     (forall q, (q < idx)%nat -> bm_run_free (blocks_inuse a) (field_count a) blocks q = false)) /\
  (forall a' tr,
     mi_arena_try_claim blocks a = Done None a' tr ->
     a' = a /\
     ((0 < blocks)%nat ->
      forall q, (q < field_count a * MI_BITMAP_FIELD_BITS)%nat ->
                bm_run_free (blocks_inuse a) (field_count a) blocks q = false)).
Proof.
  split; [|split].
  - intros v. unfold mi_arena_try_claim. rewrite !bind_get_eq.
    cbn [blocks_inuse field_count set_search_idx].
    destruct (_ <? _)%nat; [done|].
    destruct (_mi_bitmap_try_find_from_claim_across _ _ _ _) as [[bm i]|]; done.
  - intros idx a' tr. unfold mi_arena_try_claim. rewrite bind_get_eq.
    destruct (_ <? _)%nat; [done|].
    unfold _mi_bitmap_try_find_from_claim_across.
    destruct (blocks =? 0)%nat; [intros H; by minv1 H|].
    rewrite bm_scan_order_0.
    destruct (find _ _) as [p|] eqn:E; [|intros H; by minv1 H].
    intros H. minv1 H.
    apply find_seq_first in E as (Hr & Hfree & Hfirst).
    apply andb_true_iff in Hfree as [Hin Hclear]. apply Nat.leb_le in Hin.
    repeat split; try done. intros q Hq. apply Hfirst. lia.
  - intros a' tr. unfold mi_arena_try_claim. rewrite bind_get_eq.
    destruct (_ <? _)%nat; [done|].
    unfold _mi_bitmap_try_find_from_claim_across.
    destruct (Nat.eqb_spec blocks 0) as [->|Hb].
    + intros H. minv1 H. split; [done|lia].
    + rewrite bm_scan_order_0.
      destruct (find _ _) as [p|] eqn:E; [intros H; by minv1 H|].
      intros H. minv1 H. split; [done|]. intros _ q Hq.
      eapply find_seq_none in E; [exact E|lia].
Qed.

(** ** C5: freeing with an invalid arena memid *)

Lemma bind_Fault {S A B} (m : M S A) (k : A -> M S B) (s : S) :
  m s = Fault -> bind m k s = Fault.
Proof. unfold bind. by intros ->. Qed.

Lemma mi_arena_id_index_out_of_range id :
  id <= 0 \/ Z.of_nat MI_MAX_ARENAS < id -> (MI_MAX_ARENAS <= mi_arena_id_index id)%nat.
Proof.
  unfold mi_arena_id_index. destruct (Z.leb_spec id 0); [lia|]. intros [?|?]; lia.
Qed.

Lemma mi_arena_id_index_in_range id :
  0 < id <= Z.of_nat MI_MAX_ARENAS -> (mi_arena_id_index id < MI_MAX_ARENAS)%nat.
Proof.
  unfold mi_arena_id_index. destruct (Z.leb_spec id 0); lia.
Qed.

Lemma _mi_arena_free_arena_kind env p size csize memid s :
  p <> 0 -> size <> 0 -> memkind memid = MI_MEM_ARENA ->
  _mi_arena_free env p size csize memid s
  = (do continue <- arena_free_in_arena env p size csize memid;
     if continue then mi_arenas_try_purge env false false else ret tt) s.
Proof.
  intros Hp Hs Hk. unfold _mi_arena_free.
  destruct (Z.eqb_spec p 0); [done|]. destruct (Z.eqb_spec size 0); [done|].
  by rewrite Hk.
Qed.

(** Claim C5 on the code: a free with a memid of arena kind whose id does
    not name a slot of the registry (id <= 0, or id > [MI_MAX_ARENAS]) reads
    [mi_arenas] out of bounds.  The assertion [arena_idx < MI_MAX_ARENAS]
    that precedes the read is compiled out of release builds, and
    [mi_arena_id_index] maps every id <= 0 to [MI_MAX_ARENAS], one past the
    last slot. *)
Theorem arena_free_invalid_id_out_of_bounds env s p size csize memid :
  p <> 0 -> size <> 0 -> memkind memid = MI_MEM_ARENA ->
  mem_arena_id memid <= 0 \/ Z.of_nat MI_MAX_ARENAS < mem_arena_id memid ->
  _mi_arena_free env p size csize memid s = Fault.
Proof.
  intros Hp Hs Hk Hid. rewrite _mi_arena_free_arena_kind by done.
  apply bind_Fault. unfold arena_free_in_arena, mi_arena_memid_indices.
  apply bind_Fault. unfold load_arena.
  apply mi_arena_id_index_out_of_range in Hid.
  by destruct (Nat.ltb_spec (mi_arena_id_index (mem_arena_id memid)) MI_MAX_ARENAS); [lia|].
Qed.

(** The two cases the code does check.  An empty slot within the registry:
    the invalid arena is reported and nothing else changes. *)
Lemma arena_free_empty_slot env s p size csize memid :
  p <> 0 -> size <> 0 -> memkind memid = MI_MEM_ARENA ->
  0 < mem_arena_id memid <= Z.of_nat MI_MAX_ARENAS ->
  mi_arenas s !! mi_arena_id_index (mem_arena_id memid) = None ->
  _mi_arena_free env p size csize memid s
  = Done tt (set_mi_log (mi_log s ++ [EvError EINVAL MsgInvalidArena]) s) [].
Proof.
  intros Hp Hs Hk Hid Hnone. rewrite _mi_arena_free_arena_kind by done.
  apply mi_arena_id_index_in_range in Hid. apply Nat.ltb_lt in Hid.
  unfold arena_free_in_arena, mi_arena_memid_indices, load_arena, bind.
  by rewrite Hid, Hnone.
Qed.

(** A bit index at or beyond the fields of the arena: the invalid block is
    reported and nothing else changes. *)
Lemma arena_free_block_beyond_fields env s p size csize memid a :
  p <> 0 -> size <> 0 -> memkind memid = MI_MEM_ARENA ->
  0 < mem_arena_id memid <= Z.of_nat MI_MAX_ARENAS ->
  mi_arenas s !! mi_arena_id_index (mem_arena_id memid) = Some a ->
  (field_count a <= mi_bitmap_index_field (mem_arena_block_index memid))%nat ->
  _mi_arena_free env p size csize memid s
  = Done tt (set_mi_log (mi_log s ++ [EvError EINVAL MsgInvalidArenaBlock]) s) [].
Proof.
  intros Hp Hs Hk Hid Ha Hf. rewrite _mi_arena_free_arena_kind by done.
  apply mi_arena_id_index_in_range in Hid. apply Nat.ltb_lt in Hid.
  apply Nat.leb_le in Hf.
  unfold arena_free_in_arena, mi_arena_memid_indices, load_arena, bind.
  by rewrite Hid, Ha, Hf.
Qed.

(** ** C9: the minimum size of an arena allocation *)

Lemma set_mi_log_id s : set_mi_log (mi_log s) s = s.
Proof. by destruct s. Qed.

(** Claim C9.  A request of less than [MI_ARENA_MIN_OBJ_SIZE] bytes never
    allocates from an arena: the call returns without an atomic step on the
    shared state, only the log may grow ([errno] where the OS may not be
    used), the memid it stores is not of arena kind, and a non-NULL result
    carries a memid of OS kind. *)
Theorem min_size_gate env s size alignment align_offset commit allow_large req_arena_id :
  size < MI_ARENA_MIN_OBJ_SIZE ->
  exists p memid log',
    _mi_arena_alloc_aligned env size alignment align_offset commit allow_large req_arena_id s
      = Done (p, memid) (set_mi_log log' s) [] /\
    memkind memid <> MI_MEM_ARENA /\
    (p <> 0 -> memkind memid = MI_MEM_OS).
Proof.
  intros Hsize. unfold _mi_arena_alloc_aligned.
  destruct (Z.leb_spec MI_ARENA_MIN_OBJ_SIZE size) as [|_]; [lia|]. cbn [andb].
  assert (Hos : forall r, memkind (snd (os_result r)) <> MI_MEM_ARENA /\
                          (fst (os_result r) <> 0 -> memkind (snd (os_result r)) = MI_MEM_OS)).
  { intros [m|]; simpl; split; done. }
  destruct (negb (opt_disallow_arena_alloc env) || negb (req_arena_id =? _mi_arena_id_none));
    rewrite bind_ret_eq; cbn [fst snd]; change (negb (0 =? 0)) with false; cbv iota;
    (destruct (opt_disallow_os_alloc env || negb (req_arena_id =? _mi_arena_id_none));
     [ exists 0, _mi_memid_none, (mi_log s ++ [EvErrno ENOMEM]); by split
     | destruct (0 <? align_offset);
       [ pose proof (Hos (os_alloc_aligned_at_offset_prim env size alignment align_offset
                            commit allow_large)) as [H1 H2];
         unfold _mi_os_alloc_aligned_at_offset;
         destruct (os_result _) as [p memid]; exists p, memid, (mi_log s);
         rewrite set_mi_log_id; by split
       | pose proof (Hos (os_alloc_aligned_prim env size alignment commit allow_large))
           as [H1 H2];
         unfold _mi_os_alloc_aligned;
         destruct (os_result _) as [p memid]; exists p, memid, (mi_log s);
         rewrite set_mi_log_id; by split ] ]).
Qed.

(** ** Bitmap operations on an arena: what they return and change *)

Lemma arena_frame_refl a : arena_frame a a.
Proof. by constructor. Qed.

Lemma arena_frame_trans a1 a2 a3 :
  arena_frame a1 a2 -> arena_frame a2 a3 -> arena_frame a1 a3.
Proof.
  intros [] []. constructor; congruence.
Qed.

Lemma arena_frame_wf a a' : arena_frame a a' -> arena_wf a -> arena_wf a'.
Proof.
  intros [] (Hi & Hp & Hc & Hd & Hcp & Hbc). unfold arena_wf.
  rewrite fr_field_count0, fr_block_count0, fr_inuse_len0.
  split; [done|]. split; [|split; [|split; [|split; [|done]]]].
  - intros bm Hbm. rewrite Hbm in fr_purge_len0.
    destruct (blocks_purge a) as [bm0|] eqn:E; [|done].
    injection fr_purge_len0 as ->. by apply Hp.
  - intros bm Hbm. rewrite Hbm in fr_committed_len0.
    destruct (blocks_committed a) as [bm0|] eqn:E; [|done].
    injection fr_committed_len0 as ->. by apply Hc.
  - intros bm Hbm. rewrite Hbm in fr_dirty_len0.
    destruct (blocks_dirty a) as [bm0|] eqn:E; [|done].
    injection fr_dirty_len0 as ->. by apply Hd.
  - intros [bm Hbm]. rewrite Hbm in fr_committed_len0.
    destruct (blocks_committed a) as [bm0|] eqn:E; [|done].
    destruct (Hcp ltac:(eauto)) as [bp Hbp]. rewrite Hbp in fr_purge_len0.
    destruct (blocks_purge a'); [eauto|done].
Qed.

Lemma bitmap_rmw_inv {R} sel upd (op : mi_bitmap_t -> mi_bitmap_t * R) count idx a r a' tr :
  bitmap_rmw sel upd op count idx a = Done r a' tr ->
  exists bm, sel a = Some bm /\ run_in_bitmap bm count idx = true /\
             r = snd (op bm) /\ a' = upd (fst (op bm)) a /\ tr = [a'].
Proof.
  unfold bitmap_rmw. destruct (sel a) as [bm|]; [|done].
  destruct (run_in_bitmap bm count idx) eqn:E; [|done].
  intros [= <- <- <-]. by exists bm.
Qed.

Lemma bitmap_rmw_Done {R} sel upd (op : mi_bitmap_t -> mi_bitmap_t * R) count idx a bm :
  sel a = Some bm -> run_in_bitmap bm count idx = true ->
  bitmap_rmw sel upd op count idx a
  = Done (snd (op bm)) (upd (fst (op bm)) a) [upd (fst (op bm)) a].
Proof. unfold bitmap_rmw. by intros -> ->. Qed.

Lemma bitmap_read_inv {R} sel (op : mi_bitmap_t -> R) count idx a r a' tr :
  bitmap_read sel op count idx a = Done r a' tr ->
  exists bm, sel a = Some bm /\ run_in_bitmap bm count idx = true /\
             r = op bm /\ a' = a /\ tr = [].
Proof.
  unfold bitmap_read. destruct (sel a) as [bm|]; [|done].
  destruct (run_in_bitmap bm count idx) eqn:E; [|done].
  intros [= <- <- <-]. by exists bm.
Qed.

Lemma bitmap_read_Done {R} sel (op : mi_bitmap_t -> R) count idx a bm :
  sel a = Some bm -> run_in_bitmap bm count idx = true ->
  bitmap_read sel op count idx a = Done (op bm) a [].
Proof. unfold bitmap_read. by intros -> ->. Qed.

Lemma set_blocks_inuse_frame bm a :
  length bm = length (blocks_inuse a) -> arena_frame a (set_blocks_inuse bm a).
Proof. intros H. by constructor. Qed.

Lemma set_blocks_purge_frame bm0 bm a :
  blocks_purge a = Some bm0 -> length bm = length bm0 ->
  arena_frame a (set_blocks_purge bm a).
Proof. intros H1 H2. constructor; try done. simpl. by rewrite H1, H2. Qed.

Lemma set_blocks_committed_frame bm0 bm a :
  blocks_committed a = Some bm0 -> length bm = length bm0 ->
  arena_frame a (set_blocks_committed bm a).
Proof. intros H1 H2. constructor; try done. simpl. by rewrite H1, H2. Qed.

Lemma set_blocks_dirty_frame bm0 bm a :
  blocks_dirty a = Some bm0 -> length bm = length bm0 ->
  arena_frame a (set_blocks_dirty bm a).
Proof. intros H1 H2. constructor; try done. simpl. by rewrite H1, H2. Qed.

Lemma set_purge_expire_frame v a : arena_frame a (set_purge_expire v a).
Proof. by constructor. Qed.

Lemma set_search_idx_frame v a : arena_frame a (set_search_idx v a).
Proof. by constructor. Qed.

Lemma purge_rel_refl a : purge_rel a a.
Proof. split; [apply arena_frame_refl|]. by repeat split. Qed.

Lemma purge_rel_trans a1 a2 a3 : purge_rel a1 a2 -> purge_rel a2 a3 -> purge_rel a1 a3.
Proof.
  intros (F1 & I1' & D1 & P1) (F2 & I2' & D2 & P2).
  split; [by eapply arena_frame_trans|]. split; [congruence|]. split; [congruence|].
  intros b Hb. by apply P1, P2.
Qed.

Lemma purge_rel_sched idx n a a' : purge_rel a a' -> sched_rel idx n a a'.
Proof.
  intros (F & I & D & P). split; [done|]. split; [done|]. split; [done|].
  intros b Hb. left. by apply P.
Qed.

Lemma purge_rel_sweep a a' : purge_rel a a' -> sweep_rel a a'.
Proof.
  intros (F & I & D & P). split; [done|]. split; [|done].
  intros b. unfold inuse. by rewrite I.
Qed.

Lemma sweep_rel_refl a : sweep_rel a a.
Proof. split; [apply arena_frame_refl|]. by repeat split. Qed.

Lemma sweep_rel_trans a1 a2 a3 : sweep_rel a1 a2 -> sweep_rel a2 a3 -> sweep_rel a1 a3.
Proof.
  intros (F1 & I1' & D1 & P1) (F2 & I2' & D2 & P2).
  split; [by eapply arena_frame_trans|]. split; [|split; [congruence|]].
  - intros b. by rewrite I2', I1'.
  - intros b Hb. by apply P1, P2.
Qed.

(** Changes of [purge_expire] and of the committed bitmap are purges as far
    as these relations go. *)
Lemma set_purge_expire_purge_rel v a : purge_rel a (set_purge_expire v a).
Proof. split; [apply set_purge_expire_frame|]. by repeat split. Qed.

Lemma committed_unclaim_across_purge_rel count idx :
  pres purge_rel (committed_unclaim_across count idx).
Proof.
  intros a r a' tr H. apply bitmap_rmw_inv in H as (bm & Hsel & _ & _ & -> & _).
  split; [|by repeat split].
  eapply set_blocks_committed_frame; [exact Hsel|]. simpl. apply bm_clear_range_length.
Qed.

Lemma committed_is_claimed_across_purge_rel count idx :
  pres purge_rel (committed_is_claimed_across count idx).
Proof.
  intros a r a' tr H. apply bitmap_read_inv in H as (bm & _ & _ & _ & -> & _).
  apply purge_rel_refl.
Qed.

Lemma purge_unclaim_across_purge_rel count idx :
  pres purge_rel (purge_unclaim_across count idx).
Proof.
  intros a r a' tr H. apply bitmap_rmw_inv in H as (bm & Hsel & _ & _ & -> & _).
  split; [|split; [done|split; [done|]]].
  - eapply set_blocks_purge_frame; [exact Hsel|]. simpl. apply bm_clear_range_length.
  - intros b. unfold purge. simpl. rewrite Hsel, bm_get_clear_range.
    by intros [_ ?]%andb_true_iff.
Qed.

Lemma purge_claim_across_sched_rel count idx :
  pres (sched_rel idx count) (purge_claim_across count idx).
Proof.
  intros a r a' tr H. apply bitmap_rmw_inv in H as (bm & Hsel & _ & _ & -> & _).
  split; [|split; [done|split; [done|]]].
  - eapply set_blocks_purge_frame; [exact Hsel|]. simpl. apply bm_set_range_length.
  - intros b. unfold purge. simpl. rewrite Hsel, bm_get_set_range.
    intros [[? _]%andb_true_iff|?]%orb_true_iff; [by right|by left].
Qed.

(** ** Purging and scheduling on one arena *)

Lemma mi_arena_purge_rel env bitmap_idx blocks :
  pres purge_rel (mi_arena_purge env bitmap_idx blocks).
Proof.
  unfold mi_arena_purge.
  apply (pres_bind _ purge_rel_trans); [apply (pres_get _ purge_rel_refl)|intros arena].
  apply (pres_bind _ purge_rel_trans);
    [apply committed_is_claimed_across_purge_rel|intros all_committed].
  apply (pres_bind _ purge_rel_trans); [apply purge_unclaim_across_purge_rel|intros _].
  apply pres_if; [|apply (pres_ret _ purge_rel_refl)].
  apply (pres_bind _ purge_rel_trans); [apply committed_unclaim_across_purge_rel|intros _].
  apply (pres_ret _ purge_rel_refl).
Qed.

Lemma sched_rel_refl idx n a : sched_rel idx n a a.
Proof. apply purge_rel_sched, purge_rel_refl. Qed.

Lemma sched_rel_trans idx n a1 a2 a3 :
  sched_rel idx n a1 a2 -> sched_rel idx n a2 a3 -> sched_rel idx n a1 a3.
Proof.
  intros (F1 & I1' & D1 & P1) (F2 & I2' & D2 & P2).
  split; [by eapply arena_frame_trans|]. split; [congruence|]. split; [congruence|].
  intros b Hb. destruct (P2 b Hb) as [Hb'|?]; [by apply P1|by right].
Qed.

Lemma pres_weaken {S A} (R R' : S -> S -> Prop) (m : M S A) :
  (forall s s', R s s' -> R' s s') -> pres R m -> pres R' m.
Proof. intros HR Hm s a s' tr H. eapply HR, Hm, H. Qed.

Lemma mi_arena_schedule_purge_rel env bitmap_idx blocks :
  pres (sched_rel bitmap_idx blocks) (mi_arena_schedule_purge env bitmap_idx blocks).
Proof.
  unfold mi_arena_schedule_purge.
  apply pres_if; [apply (pres_ret _ (sched_rel_refl _ _))|].
  apply pres_if.
  { eapply pres_weaken; [apply purge_rel_sched|apply mi_arena_purge_rel]. }
  apply (pres_bind _ (sched_rel_trans _ _)); [apply (pres_get _ (sched_rel_refl _ _))|].
  intros arena.
  apply (pres_bind _ (sched_rel_trans _ _)).
  { apply pres_if; apply pres_atomic; intros a;
      apply purge_rel_sched, set_purge_expire_purge_rel. }
  intros _.
  apply (pres_bind _ (sched_rel_trans _ _)); [apply purge_claim_across_sched_rel|intros _].
  apply (pres_ret _ (sched_rel_refl _ _)).
Qed.

(** Clearing bits that are clear changes nothing. *)
Lemma Z_clearbit_clear f k : 0 <= k -> Z.testbit f k = false -> Z.clearbit f k = f.
Proof.
  intros Hk Hb. apply Z.bits_inj'. intros n Hn. rewrite Z.clearbit_eqb by done.
  destruct (Z.eqb_spec k n) as [->|]; [by rewrite Hb|by rewrite andb_true_r].
Qed.

Lemma bm_clear_clear bm i : bm_get bm i = false -> bm_clear bm i = bm.
Proof.
  unfold bm_get, bm_clear. intros H.
  apply list_eq. intros j.
  destruct (decide (mi_bitmap_index_field i = j)) as [<-|Hne].
  - rewrite list_lookup_alter_eq.
    destruct (bm !! mi_bitmap_index_field i) as [f|]; [|done]. simpl.
    f_equal. apply Z_clearbit_clear; [lia|done].
  - by rewrite list_lookup_alter_ne.
Qed.

Lemma bm_clear_range_clear bm idx count :
  bm_all_clear bm idx count = true -> bm_clear_range bm idx count = bm.
Proof.
  rewrite bm_all_clear_spec. revert bm idx.
  induction count as [|n IH]; intros bm idx H; simpl; [done|].
  rewrite bm_clear_clear by (apply H; lia). apply IH. intros j Hj. apply H. lia.
Qed.

(** What [arena_free_blocks] does to the arena. *)
Lemma arena_free_blocks_spec env all_committed blocks bitmap_idx a r a' tr :
  arena_free_blocks env all_committed blocks bitmap_idx a = Done r a' tr ->
  r = bm_all_set (blocks_inuse a) bitmap_idx blocks /\
  (bitmap_idx + blocks <= bm_bits (blocks_inuse a))%nat /\
  exists a1,
    sched_rel bitmap_idx blocks a a1 /\
    a' = set_blocks_inuse (bm_clear_range (blocks_inuse a) bitmap_idx blocks) a1 /\
    (is_pinned (a_memid a) || negb (bool_decide (is_Some (blocks_committed a))) = true ->
     a1 = a).
Proof.
  unfold arena_free_blocks. rewrite bind_get_eq. intros H.
  apply bind_Done in H as (u & a1 & t1 & t2 & H1 & H2 & ->).
  assert (Hrel : sched_rel bitmap_idx blocks a a1 /\
                 (is_pinned (a_memid a) || negb (bool_decide (is_Some (blocks_committed a)))
                  = true -> a1 = a)).
  { destruct (is_pinned (a_memid a) || negb (bool_decide (is_Some (blocks_committed a)))).
    - minv1 H1. split; [apply sched_rel_refl|done].
    - split; [|done]. revert H1. apply (pres_bind _ (sched_rel_trans _ _)).
      + apply pres_if; [|apply (pres_ret _ (sched_rel_refl _ _))].
        apply (pres_bind _ (sched_rel_trans _ _));
          [|intros _; apply (pres_ret _ (sched_rel_refl _ _))].
        eapply pres_weaken; [apply purge_rel_sched|apply committed_unclaim_across_purge_rel].
      + intros _. apply mi_arena_schedule_purge_rel. }
  destruct Hrel as [Hrel Hsame].
  apply bitmap_rmw_inv in H2 as (bm & Hsel & Hrun & -> & -> & _).
  unfold sel_inuse in Hsel. injection Hsel as <-.
  pose proof Hrel as (F & I & D & P). rewrite I in Hrun. rewrite I.
  split; [done|]. split; [by apply Nat.leb_le in Hrun|].
  exists a1. split; [exact Hrel|]. split; [reflexivity|exact Hsame].
Qed.

(** ** Runs within the bitmaps do not fault *)

Lemma no_fault_bind {S A B} (m : M S A) (k : A -> M S B) (s : S) :
  no_fault m s -> (forall a s' tr, m s = Done a s' tr -> no_fault (k a) s') ->
  no_fault (bind m k) s.
Proof.
  intros (a & s1 & t1 & Hm) Hk. destruct (Hk _ _ _ Hm) as (b & s2 & t2 & Hk').
  exists b, s2, (t1 ++ t2). by eapply bind_Done_intro.
Qed.

Lemma no_fault_ret {S A} (a : A) (s : S) : no_fault (ret a) s.
Proof. by eexists _, _, _. Qed.

Lemma no_fault_get {S} (s : S) : no_fault get s.
Proof. by eexists _, _, _. Qed.

Lemma no_fault_bind_get {S B} (k : S -> M S B) (s : S) :
  no_fault (k s) s -> no_fault (bind get k) s.
Proof. unfold no_fault. by rewrite bind_get_eq. Qed.

Lemma no_fault_atomic {S} (f : S -> S) (s : S) : no_fault (atomic f) s.
Proof. by eexists _, _, _. Qed.

Lemma run_in_arena_frame idx n a a' :
  arena_frame a a' -> run_in_arena idx n a -> run_in_arena idx n a'.
Proof.
  intros F [Hwf Hr]. split; [by eapply arena_frame_wf|]. by rewrite (fr_field_count _ _ F).
Qed.

Lemma run_in_arena_inuse idx n a :
  run_in_arena idx n a -> run_in_bitmap (blocks_inuse a) n idx = true.
Proof.
  intros [(Hi & _) Hr]. apply Nat.leb_le. unfold bm_bits. by rewrite Hi.
Qed.

Lemma run_in_arena_purge idx n a bm :
  run_in_arena idx n a -> blocks_purge a = Some bm -> run_in_bitmap bm n idx = true.
Proof.
  intros [(_ & Hp & _) Hr] Hbm. apply Nat.leb_le. unfold bm_bits. by rewrite (Hp _ Hbm).
Qed.

Lemma run_in_arena_committed idx n a bm :
  run_in_arena idx n a -> blocks_committed a = Some bm -> run_in_bitmap bm n idx = true.
Proof.
  intros [(_ & _ & Hc & _) Hr] Hbm. apply Nat.leb_le. unfold bm_bits. by rewrite (Hc _ Hbm).
Qed.

Lemma run_in_arena_dirty idx n a bm :
  run_in_arena idx n a -> blocks_dirty a = Some bm -> run_in_bitmap bm n idx = true.
Proof.
  intros [(_ & _ & _ & Hd & _) Hr] Hbm. apply Nat.leb_le. unfold bm_bits.
  by rewrite (Hd _ Hbm).
Qed.

Lemma bitmap_rmw_no_fault {R} sel upd (op : mi_bitmap_t -> mi_bitmap_t * R) count idx a bm :
  sel a = Some bm -> run_in_bitmap bm count idx = true ->
  no_fault (bitmap_rmw sel upd op count idx) a.
Proof. intros H1 H2. eexists _, _, _. by apply bitmap_rmw_Done. Qed.

Lemma bitmap_read_no_fault {R} sel (op : mi_bitmap_t -> R) count idx a bm :
  sel a = Some bm -> run_in_bitmap bm count idx = true ->
  no_fault (bitmap_read sel op count idx) a.
Proof. intros H1 H2. eexists _, _, _. by apply bitmap_read_Done. Qed.

Lemma frame_is_Some_committed a a' :
  arena_frame a a' -> is_Some (blocks_committed a) -> is_Some (blocks_committed a').
Proof.
  intros F [bm Hbm]. pose proof (fr_committed_len _ _ F) as H. rewrite Hbm in H.
  destruct (blocks_committed a'); [eauto|done].
Qed.

Lemma frame_is_Some_purge a a' :
  arena_frame a a' -> is_Some (blocks_purge a) -> is_Some (blocks_purge a').
Proof.
  intros F [bm Hbm]. pose proof (fr_purge_len _ _ F) as H. rewrite Hbm in H.
  destruct (blocks_purge a'); [eauto|done].
Qed.

Lemma purge_rel_frame a a' : purge_rel a a' -> arena_frame a a'.
Proof. by intros [? _]. Qed.

Lemma mi_arena_purge_no_fault env idx n a :
  run_in_arena idx n a -> is_Some (blocks_committed a) ->
  no_fault (mi_arena_purge env idx n) a.
Proof.
  intros Hrun [bmc Hc].
  assert (Hp : is_Some (blocks_purge a)).
  { destruct Hrun as [(_ & _ & _ & _ & Hcp & _) _]. apply Hcp. eauto. }
  destruct Hp as [bmp Hp].
  unfold mi_arena_purge. apply no_fault_bind_get.
  apply no_fault_bind.
  { eapply bitmap_read_no_fault; [exact Hc|by eapply run_in_arena_committed]. }
  intros r a1 t1 H1. apply bitmap_read_inv in H1 as (_ & _ & _ & _ & -> & _).
  apply no_fault_bind.
  { eapply bitmap_rmw_no_fault; [exact Hp|by eapply run_in_arena_purge]. }
  intros r2 a2 t2 H2. apply purge_unclaim_across_purge_rel, purge_rel_frame in H2.
  destruct (if r then _ else _); [|apply no_fault_ret].
  apply no_fault_bind; [|intros; apply no_fault_ret].
  destruct (frame_is_Some_committed _ _ H2 ltac:(eauto)) as [bmc' Hc'].
  eapply bitmap_rmw_no_fault; [exact Hc'|].
  eapply run_in_arena_committed; [|exact Hc']. by eapply run_in_arena_frame.
Qed.

Lemma mi_arena_schedule_purge_no_fault env idx n a :
  run_in_arena idx n a -> is_Some (blocks_committed a) ->
  no_fault (mi_arena_schedule_purge env idx n) a.
Proof.
  intros Hrun Hc. unfold mi_arena_schedule_purge.
  destruct (_ <? 0); [apply no_fault_ret|].
  destruct (_ || _); [by apply mi_arena_purge_no_fault|].
  apply no_fault_bind_get.
  apply no_fault_bind.
  { destruct (negb _); apply no_fault_atomic. }
  intros u a1 t1 H1.
  assert (F : arena_frame a a1).
  { destruct (negb _); minv1 H1; apply set_purge_expire_frame. }
  apply no_fault_bind; [|intros; apply no_fault_ret].
  assert (Hp : is_Some (blocks_purge a1)).
  { eapply frame_is_Some_purge; [exact F|].
    destruct Hrun as [(_ & _ & _ & _ & Hcp & _) _]. by apply Hcp. }
  destruct Hp as [bmp Hp].
  eapply bitmap_rmw_no_fault; [exact Hp|].
  eapply run_in_arena_purge; [|exact Hp]. by eapply run_in_arena_frame.
Qed.

Lemma arena_free_blocks_no_fault env all_committed blocks bitmap_idx a :
  run_in_arena bitmap_idx blocks a ->
  no_fault (arena_free_blocks env all_committed blocks bitmap_idx) a.
Proof.
  intros Hrun. unfold arena_free_blocks. apply no_fault_bind_get.
  apply no_fault_bind.
  - destruct (is_pinned (a_memid a)); cbn [orb]; [apply no_fault_ret|].
    destruct (bool_decide_reflect (is_Some (blocks_committed a))) as [Hc|Hc]; cbn [negb];
      [|apply no_fault_ret].
    apply no_fault_bind.
    + destruct (negb all_committed); [|apply no_fault_ret].
      apply no_fault_bind; [|intros; apply no_fault_ret].
      destruct Hc as [bmc Hc].
      eapply bitmap_rmw_no_fault; [exact Hc|by eapply run_in_arena_committed].
    + intros u a1 t1 H1.
      assert (F : arena_frame a a1).
      { destruct (negb all_committed); [|minv1 H1; apply arena_frame_refl].
        minv1 H1. by apply committed_unclaim_across_purge_rel, purge_rel_frame in H1a. }
      apply mi_arena_schedule_purge_no_fault; [by eapply run_in_arena_frame|].
      by eapply frame_is_Some_committed.
  - intros u a1 t1 H1.
    assert (F : arena_frame a a1).
    { destruct (_ || _); [minv1 H1; apply arena_frame_refl|].
      minv1 H1. apply mi_arena_schedule_purge_rel in H1b as [F2 _].
      eapply arena_frame_trans; [|exact F2].
      destruct (negb all_committed); [|minv1 H1a; apply arena_frame_refl].
      minv1 H1a. by apply committed_unclaim_across_purge_rel, purge_rel_frame in H1aa. }
    eapply bitmap_rmw_no_fault; [reflexivity|].
    apply run_in_arena_inuse. by eapply run_in_arena_frame.
Qed.

(** ** C2: freeing twice *)

Lemma bm_all_clear_not_all_set bm idx count :
  (0 < count)%nat -> bm_all_clear bm idx count = true -> bm_all_set bm idx count = false.
Proof.
  intros Hc Hclear. apply not_true_iff_false. intros Hset.
  rewrite bm_all_clear_spec in Hclear. rewrite bm_all_set_spec in Hset.
  specialize (Hclear idx ltac:(lia)). specialize (Hset idx ltac:(lia)). congruence.
Qed.

Lemma set_arena_same i a s : mi_arenas s !! i = Some a -> set_arena i a s = s.
Proof.
  intros H. unfold set_arena, set_mi_arenas. rewrite insert_id by done. by destruct s.
Qed.

Lemma arena_eta_inuse a : set_blocks_inuse (blocks_inuse a) a = a.
Proof. by destruct a. Qed.

Lemma with_arena_Done {A} i (m : M mi_arena_t A) s a x a' tr :
  mi_arenas s !! i = Some a -> m a = Done x a' tr ->
  with_arena i m s = Done x (set_arena i a' s) (map (fun a'' => set_arena i a'' s) tr).
Proof. unfold with_arena. by intros -> ->. Qed.

Lemma with_arena_inv {A} i (m : M mi_arena_t A) s x s' tr :
  with_arena i m s = Done x s' tr ->
  exists a a' tr', mi_arenas s !! i = Some a /\ m a = Done x a' tr' /\
                   s' = set_arena i a' s /\ tr = map (fun a'' => set_arena i a'' s) tr'.
Proof.
  unfold with_arena. destruct (mi_arenas s !! i) as [a|]; [|done].
  destruct (m a) as [y a' tr'|] eqn:E; [|done].
  intros [= <- <- <-]. by exists a, a', tr'.
Qed.

(** The second free of the concrete run finds its block free, reports it,
    and yet moves the purge deadline of the arena from 1100 to 1110. *)
Lemma double_free_moves_purge_expire :
  (fun a => bm_all_clear (blocks_inuse a) 0 1) <$> mi_arenas demo_freed !! 0%nat = Some true /\
  purge_expire <$> mi_arenas demo_freed !! 0%nat = Some 1100 /\
  demo_free_again_run = Done tt demo_freed_again (trace_of demo_free_again_run) /\
  mi_log demo_freed_again = [EvError EAGAIN MsgAlreadyFreed] /\
  purge_expire <$> mi_arenas demo_freed_again !! 0%nat = Some 1110 /\
  mi_arenas demo_freed_again <> mi_arenas demo_freed.
Proof.
  split; [vm_compute; reflexivity|]. split; [vm_compute; reflexivity|].
  split; [vm_compute; reflexivity|]. split; [vm_compute; reflexivity|].
  assert (H : purge_expire <$> mi_arenas demo_freed_again !! 0%nat = Some 1110)
    by (vm_compute; reflexivity).
  split; [exact H|]. intros E. rewrite E in H. vm_compute in H. discriminate H.
Qed.

(** What the steps of a free that precede the release of the blocks do to
    the committed bits, the purge schedule and the purge deadline. *)
Lemma committed_unclaim_across_exact count idx a r a' tr :
  committed_unclaim_across count idx a = Done r a' tr ->
  (forall b, committed a' b = negb (in_run idx count b) && committed a b) /\
  blocks_inuse a' = blocks_inuse a /\ blocks_purge a' = blocks_purge a /\
  purge_expire a' = purge_expire a /\ a_memid a' = a_memid a /\
  is_Some (blocks_committed a').
Proof.
  intros H. apply bitmap_rmw_inv in H as (bm & Hsel & _ & _ & -> & _).
  split; [|by repeat split].
  intros b. unfold committed. cbn [blocks_committed set_blocks_committed].
  rewrite Hsel. cbn [_mi_bitmap_unclaim_across fst]. apply bm_get_clear_range.
Qed.

Lemma purge_claim_across_exact count idx a r a' tr :
  purge_claim_across count idx a = Done r a' tr ->
  (forall b, purge a' b = in_run idx count b || purge a b) /\
  blocks_inuse a' = blocks_inuse a /\ blocks_committed a' = blocks_committed a /\
  purge_expire a' = purge_expire a.
Proof.
  intros H. apply bitmap_rmw_inv in H as (bm & Hsel & Hrun & _ & -> & _).
  split; [|by repeat split].
  intros b. unfold purge. cbn [blocks_purge set_blocks_purge].
  rewrite Hsel. cbn [_mi_bitmap_claim_across fst]. rewrite bm_get_set_range.
  destruct (in_run idx count b) eqn:E; [|done]. cbn [andb orb].
  apply in_run_spec in E. unfold run_in_bitmap in Hrun. apply Nat.leb_le in Hrun.
  destruct (Nat.ltb_spec b (bm_bits bm)); [done|lia].
Qed.

Lemma mi_arena_purge_exact env idx n a u a' tr :
  mi_arena_purge env idx n a = Done u a' tr ->
  (forall b, purge a' b = negb (in_run idx n b) && purge a b) /\
  blocks_inuse a' = blocks_inuse a /\ purge_expire a' = purge_expire a.
Proof.
  unfold mi_arena_purge. rewrite bind_get_eq. intros H.
  apply bind_Done in H as (allc & a1 & t1 & t2 & H1 & H2 & ->).
  apply bitmap_read_inv in H1 as (bmc & _ & _ & _ & -> & _).
  apply bind_Done in H2 as (u1 & a2 & t3 & t4 & H2 & H3 & ->).
  apply bitmap_rmw_inv in H2 as (bm & Hsel & _ & _ & -> & _).
  assert (Hp : forall b, purge (set_blocks_purge
                                  (fst (_mi_bitmap_unclaim_across bm n idx)) a) b
                         = negb (in_run idx n b) && purge a b).
  { intros b. unfold purge. cbn [blocks_purge set_blocks_purge _mi_bitmap_unclaim_across fst].
    rewrite Hsel. apply bm_get_clear_range. }
  match type of H3 with (if ?c then _ else _) _ = _ => destruct c end.
  - apply bind_Done in H3 as (u2 & a3 & t5 & t6 & H3 & H4 & ->).
    apply ret_Done in H4 as (_ & <- & _).
    apply committed_unclaim_across_exact in H3 as (_ & Hi & Hpu & He & _).
    split; [|split].
    + intros b. unfold purge at 1. rewrite Hpu. apply Hp.
    + by rewrite Hi.
    + by rewrite He.
  - apply ret_Done in H3 as (_ & -> & _). by split.
Qed.

Lemma mi_arena_purge_committed env idx n a u a' tr :
  mi_arena_purge env idx n a = Done u a' tr ->
  forall b, committed a' b = true -> committed a b = true.
Proof.
  unfold mi_arena_purge. rewrite bind_get_eq. intros H.
  apply bind_Done in H as (allc & a1 & t1 & t2 & H1 & H2 & ->).
  apply bitmap_read_inv in H1 as (bmc & _ & _ & _ & -> & _).
  apply bind_Done in H2 as (u1 & a2 & t3 & t4 & H2 & H3 & ->).
  apply bitmap_rmw_inv in H2 as (bm & Hsel & _ & _ & -> & _).
  match type of H3 with (if ?c then _ else _) _ = _ => destruct c end.
  - apply bind_Done in H3 as (u2 & a3 & t5 & t6 & H3 & H4 & ->).
    apply ret_Done in H4 as (_ & <- & _).
    apply committed_unclaim_across_exact in H3 as (Hc & _).
    intros b Hb. rewrite Hc in Hb. apply andb_true_iff in Hb as [_ Hb]. exact Hb.
  - apply ret_Done in H3 as (_ & -> & _). done.
Qed.

Lemma arena_free_blocks_schedule env all_committed n idx a r a' tr :
  arena_free_blocks env all_committed n idx a = Done r a' tr ->
  (forall b, committed a' b = true -> committed a b = true) /\
  (is_pinned (a_memid a) = false -> is_Some (blocks_committed a) ->
   (all_committed = false ->
    forall b, in_run idx n b = true -> committed a' b = false) /\
   (mi_arena_purge_delay env < 0 ->
    blocks_purge a' = blocks_purge a /\ purge_expire a' = purge_expire a /\
    forall b, committed a' b = (all_committed || negb (in_run idx n b)) && committed a b) /\
   (0 <= mi_arena_purge_delay env ->
    mi_preloading env = true \/ mi_arena_purge_delay env = 0 ->
    (forall b, purge a' b = negb (in_run idx n b) && purge a b) /\
    purge_expire a' = purge_expire a) /\
   (0 < mi_arena_purge_delay env -> mi_preloading env = false ->
    (forall b, purge a' b = in_run idx n b || purge a b) /\
    purge_expire a'
    = (if purge_expire a =? 0 then clock_now env + mi_arena_purge_delay env
       else purge_expire a + Z.quot (mi_arena_purge_delay env) 10) /\
    forall b, committed a' b = (all_committed || negb (in_run idx n b)) && committed a b)).
Proof.
  intros H. unfold arena_free_blocks in H. rewrite bind_get_eq in H.
  apply bind_Done in H as (u & a2 & t1 & t2 & H1 & H2 & ->).
  pattern a'. match goal with |- ?P _ => enough (Hg : P a2) end.
  { apply bitmap_rmw_inv in H2 as (bm & Hsel & _ & _ & -> & _). exact Hg. }
  cbv beta. clear H2.
  destruct (is_pinned (a_memid a)) eqn:Hpin; cbn [orb] in H1.
  { minv1 H1. split; [done|]. by intros. }
  destruct (bool_decide (is_Some (blocks_committed a))) eqn:Hcom; cbn [negb] in H1.
  2:{ minv1 H1. split; [done|]. intros _ Hs. by apply bool_decide_eq_false_1 in Hcom. }
  apply bind_Done in H1 as (u1 & a1 & t3 & t4 & H0 & H1 & ->).
  assert (Hstep1 : (forall b, committed a1 b
                      = (all_committed || negb (in_run idx n b)) && committed a b) /\
                   blocks_purge a1 = blocks_purge a /\ purge_expire a1 = purge_expire a).
  { destruct all_committed; cbn [negb orb] in *.
    - minv1 H0. by repeat split.
    - apply bind_Done in H0 as (u0 & a0 & t5 & t6 & H0 & H0' & ->). minv1 H0'.
      apply committed_unclaim_across_exact in H0 as (Hc & Hi & Hp & He & _). done. }
  destruct Hstep1 as (Hc1 & Hp1 & He1).
  unfold mi_arena_schedule_purge in H1.
  destruct (Z.ltb_spec (mi_arena_purge_delay env) 0) as [Hneg|Hnn].
  { apply ret_Done in H1 as (_ & -> & _). split.
    - intros b Hb. rewrite Hc1 in Hb. by apply andb_true_iff in Hb as [_ Hb].
    - intros _ _. split; [|split; [|split]].
      + intros -> b Hb. rewrite Hc1, Hb. done.
      + done.
      + intros; lia.
      + intros; lia. }
  destruct (mi_preloading env || (mi_arena_purge_delay env =? 0)) eqn:Hnow.
  { pose proof (mi_arena_purge_committed _ _ _ _ _ _ _ H1) as Hmono.
    apply mi_arena_purge_exact in H1 as (Hp2 & _ & He2).
    assert (Hall : forall b, committed a2 b = true -> committed a1 b = true) by done.
    split.
    - intros b Hb. apply Hall in Hb. rewrite Hc1 in Hb. by apply andb_true_iff in Hb as [_ Hb].
    - intros _ _. split; [|split; [|split]].
      + intros -> b Hb. destruct (committed a2 b) eqn:E; [|done].
        apply Hall in E. rewrite Hc1, Hb in E. done.
      + intros; lia.
      + intros _ _. split; [|congruence].
        intros b. rewrite Hp2. unfold purge. by rewrite Hp1.
      + intros Hpos Hpre. rewrite Hpre in Hnow. cbn [orb] in Hnow.
        apply Z.eqb_eq in Hnow. lia. }
  apply orb_false_iff in Hnow as [Hpre Hz]. apply Z.eqb_neq in Hz.
  rewrite bind_get_eq in H1.
  apply bind_Done in H1 as (u2 & a3 & t5 & t6 & H1 & H3 & ->).
  apply bind_Done in H3 as (u3 & a4 & t7 & t8 & H3 & H4 & ->).
  apply ret_Done in H4 as (_ & <- & _).
  apply purge_claim_across_exact in H3 as (Hp3 & _ & Hc3 & He3).
  assert (Hstep2 : purge_expire a3
                   = (if purge_expire a1 =? 0 then clock_now env + mi_arena_purge_delay env
                      else purge_expire a1 + Z.quot (mi_arena_purge_delay env) 10) /\
                   blocks_purge a3 = blocks_purge a1 /\
                   blocks_committed a3 = blocks_committed a1).
  { destruct (purge_expire a1 =? 0); cbn [negb] in H1; minv1 H1; by repeat split. }
  destruct Hstep2 as (He2 & Hp2 & Hc2).
  assert (Hcom' : forall b, committed a2 b
                    = (all_committed || negb (in_run idx n b)) && committed a b).
  { intros b. unfold committed at 1. rewrite Hc3, Hc2. apply Hc1. }
  split.
  - intros b Hb. rewrite Hcom' in Hb. by apply andb_true_iff in Hb as [_ Hb].
  - intros _ _. split; [|split; [|split]].
    + intros -> b Hb. by rewrite Hcom', Hb.
    + intros; lia.
    + intros _ [?|?]; [congruence|lia].
    + intros _ _. split; [|split; [|done]].
      * intros b. rewrite Hp3. unfold purge. by rewrite Hp2, Hp1.
      * by rewrite He3, He2, He1.
Qed.

(** Claim C2, amended.  A free of a run of blocks that are all free already
    reports the double free ([EAGAIN]) and returns before the final purge
    sweep.  It leaves [blocks_inuse], [blocks_dirty] and [blocks_abandoned]
    as they were, sets no committed bit, and leaves the whole state apart
    from the log as it was when the arena is pinned or has no committed
    bitmap.  For any other arena the steps that precede the release of the
    blocks have taken effect.  The committed bits of the run are cleared
    when [committed_size] differs from [size].  With a negative purge delay
    the purge schedule and the purge deadline are as they were.  With a
    delay of 0, or while preloading with a delay that is not negative, the
    run is purged at once: its blocks are no longer scheduled and the
    deadline is as it was.  With a positive delay, and not while preloading,
    the blocks of the run are scheduled in addition to what was scheduled,
    and the deadline is set to now plus the delay if none was set, and
    moved a tenth of the delay later otherwise. *)
Theorem double_free_reported env s p size csize memid a :
  let i := mi_arena_id_index (mem_arena_id memid) in
  let idx := mem_arena_block_index memid in
  let blocks := mi_block_count_of_size size in
  p <> 0 -> size <> 0 -> memkind memid = MI_MEM_ARENA ->
  0 < mem_arena_id memid <= Z.of_nat MI_MAX_ARENAS ->
  mi_arenas s !! i = Some a -> arena_wf a ->
  (0 < blocks)%nat -> (idx + blocks <= field_count a * MI_BITMAP_FIELD_BITS)%nat ->
  bm_all_clear (blocks_inuse a) idx blocks = true ->
  exists a' tr,
    _mi_arena_free env p size csize memid s
      = Done tt (set_mi_log (mi_log s ++ [EvError EAGAIN MsgAlreadyFreed])
                            (set_arena i a' s)) tr /\
    blocks_inuse a' = blocks_inuse a /\
    blocks_dirty a' = blocks_dirty a /\
    blocks_abandoned a' = blocks_abandoned a /\
    (forall b, purge a' b = true -> purge a b = true \/ in_run idx blocks b = true) /\
    (is_pinned (a_memid a) = true \/ blocks_committed a = None ->
     a' = a /\ set_arena i a' s = s) /\
    (forall b, committed a' b = true -> committed a b = true) /\
    (is_pinned (a_memid a) = false -> is_Some (blocks_committed a) ->
     (csize <> size -> forall b, in_run idx blocks b = true -> committed a' b = false) /\
     (mi_arena_purge_delay env < 0 ->
      blocks_purge a' = blocks_purge a /\ purge_expire a' = purge_expire a /\
      forall b, committed a' b
                = ((csize =? size) || negb (in_run idx blocks b)) && committed a b) /\
     (0 <= mi_arena_purge_delay env ->
      mi_preloading env = true \/ mi_arena_purge_delay env = 0 ->
      (forall b, purge a' b = negb (in_run idx blocks b) && purge a b) /\
      purge_expire a' = purge_expire a) /\
     (0 < mi_arena_purge_delay env -> mi_preloading env = false ->
      (forall b, purge a' b = in_run idx blocks b || purge a b) /\
      purge_expire a'
      = (if purge_expire a =? 0 then clock_now env + mi_arena_purge_delay env
         else purge_expire a + Z.quot (mi_arena_purge_delay env) 10) /\
      forall b, committed a' b
                = ((csize =? size) || negb (in_run idx blocks b)) && committed a b)).
Proof.
  intros i idx blocks. subst i idx blocks. intros Hp Hs Hk Hid Ha Hwf Hpos Hrun Hclear.
  rewrite _mi_arena_free_arena_kind by done.
  destruct (arena_free_blocks_no_fault env (csize =? size)
              (mi_block_count_of_size size) (mem_arena_block_index memid) a)
    as (r & a' & tr & Hfree); [by split|].
  pose proof Hfree as Hspec.
  pose proof (arena_free_blocks_schedule _ _ _ _ _ _ _ _ Hfree) as (Hmono & Hsched).
  apply arena_free_blocks_spec in Hspec as (-> & _ & a1 & Hrel & -> & Hsame).
  rewrite bm_all_clear_not_all_set in Hfree by done.
  rewrite bm_clear_range_clear in Hfree, Hmono, Hsched by done.
  destruct Hrel as (F & Hin & Hd & Hpurge).
  exists (set_blocks_inuse (blocks_inuse a) a1),
    (map (fun a'' => set_arena (mi_arena_id_index (mem_arena_id memid)) a'' s) tr).
  split; [|split; [done|split; [done|split; [exact (fr_abandoned _ _ F)|split; [done|]]]]].
  - pose proof (mi_arena_id_index_in_range _ Hid) as Hlt. apply Nat.ltb_lt in Hlt.
    assert (Hfield : (field_count a <=? mi_bitmap_index_field (mem_arena_block_index memid))%nat
                     = false).
    { apply Nat.leb_gt. unfold mi_bitmap_index_field.
      apply Nat.Div0.div_lt_upper_bound. lia. }
    unfold arena_free_in_arena, mi_arena_memid_indices.
    unfold load_arena.
    unfold bind at 1. unfold bind at 1. rewrite Hlt, Ha, Hfield.
    unfold bind at 1. rewrite (with_arena_Done _ _ _ _ _ _ _ Ha Hfree).
    unfold _mi_error_message, emit, modify, bind, ret. cbn [negb].
    by rewrite !app_nil_r.
  - split; [|split; [exact Hmono|]].
    + intros Hpin.
      assert (a1 = a) as ->.
      { apply Hsame. destruct Hpin as [->|Hnone]; [done|].
        rewrite Hnone. rewrite bool_decide_eq_false_2; [apply orb_true_r|].
        by intros [? ?]. }
      rewrite arena_eta_inuse. split; [done|]. by apply set_arena_same.
    + intros Hpin Hcom. destruct (Hsched Hpin Hcom) as (H1 & H2 & H3 & H4).
      split; [|split; [done|split; done]].
      intros Hne. apply H1. by apply Z.eqb_neq.
Qed.

(** ** The purge sweep on one arena *)

Lemma purge_range_loop_rel env fuel : forall idx bitidx endidx bitlen word all_purged,
  pres purge_rel (purge_range_loop env fuel idx bitidx endidx bitlen word all_purged).
Proof.
  induction fuel as [|fuel IH]; intros idx bitidx endidx bitlen word all_purged; simpl.
  - apply (pres_ret _ purge_rel_refl).
  - apply pres_if; [|apply (pres_ret _ purge_rel_refl)].
    apply (pres_bind _ purge_rel_trans); [|intros ap; apply IH].
    apply pres_if; [|apply (pres_ret _ purge_rel_refl)].
    apply (pres_bind _ purge_rel_trans); [apply mi_arena_purge_rel|].
    intros _. apply (pres_ret _ purge_rel_refl).
Qed.

Lemma mi_arena_purge_range_rel env idx startidx bitlen word :
  pres purge_rel (mi_arena_purge_range env idx startidx bitlen word).
Proof. apply purge_range_loop_rel. Qed.

Lemma load_purge_field_inv i a f a' tr :
  load_purge_field i a = Done f a' tr -> a' = a.
Proof.
  unfold load_purge_field. destruct (blocks_purge a) as [bm|]; [|done].
  destruct (bm !! i); [|done]. by intros [= _ <- _].
Qed.

(** What [claim_longest] returns: either nothing was claimed, or a run that
    was clear is now set. *)
Lemma claim_longest_spec bitlen : forall bitmap_index a k a' tr,
  claim_longest bitlen bitmap_index a = Done k a' tr ->
  (k = 0%nat /\ a' = a) \/
  ((0 < k)%nat /\ bm_all_clear (blocks_inuse a) bitmap_index k = true /\
   a' = set_blocks_inuse (bm_set_range (blocks_inuse a) bitmap_index k) a).
Proof.
  induction bitlen as [|n IH]; intros bitmap_index a k a' tr; simpl.
  - intros H. minv1 H. by left.
  - intros H. apply bind_Done in H as (ok & a1 & t1 & t2 & H1 & H2 & ->).
    apply bitmap_rmw_inv in H1 as (bm & Hsel & _ & -> & -> & _).
    injection Hsel as <-. unfold _mi_bitmap_try_claim in H2 |- *.
    destruct (bm_all_clear (blocks_inuse a) bitmap_index (S n)) eqn:E; simpl in H2.
    + minv1 H2. right. split; [lia|]. by split.
    + rewrite arena_eta_inuse in H2. by apply IH in H2.
Qed.

Lemma inuse_after_claim_release a idx k a2 :
  bm_all_clear (blocks_inuse a) idx k = true ->
  blocks_inuse a2 = bm_set_range (blocks_inuse a) idx k ->
  forall b, bm_get (bm_clear_range (blocks_inuse a2) idx k) b = inuse a b.
Proof.
  intros Hclear Hin b. rewrite bm_get_clear_range, Hin, bm_get_set_range. unfold inuse.
  destruct (in_run idx k b) eqn:E; simpl; [|done].
  apply in_run_spec in E. rewrite bm_all_clear_spec in Hclear. symmetry. by apply Hclear.
Qed.

Lemma try_purge_field_loop_rel env fuel : forall i bitidx word any_purged full_purge,
  pres sweep_rel (try_purge_field_loop env fuel i bitidx word any_purged full_purge).
Proof.
  induction fuel as [|fuel IH]; intros i bitidx word any_purged full_purge; simpl.
  - apply (pres_ret _ sweep_rel_refl).
  - apply pres_if; [|apply (pres_ret _ sweep_rel_refl)].
    intros a r a' tr H.
    apply bind_Done in H as (k & a1 & t1 & t2 & H1 & H2 & ->).
    apply claim_longest_spec in H1 as [[-> ->]|(Hk & Hclear & ->)].
    + simpl in H2. by apply IH in H2.
    + destruct (Nat.ltb_spec 0 k) as [_|]; [|lia].
      apply bind_Done in H2 as (w & a2 & t3 & t4 & H2 & H3 & ->).
      apply load_purge_field_inv in H2 as ->.
      apply bind_Done in H3 as (purged & a3 & t5 & t6 & H3 & H4 & ->).
      apply mi_arena_purge_range_rel in H3 as (F3 & I3 & D3 & P3).
      apply bind_Done in H4 as (u & a4 & t7 & t8 & H4 & H5 & ->).
      apply bitmap_rmw_inv in H4 as (bm & Hsel & _ & _ & -> & _).
      injection Hsel as <-. apply IH in H5.
      eapply sweep_rel_trans; [|exact H5].
      split; [|split; [|split]].
      * eapply arena_frame_trans; [|eapply arena_frame_trans; [exact F3|]].
        -- apply set_blocks_inuse_frame. apply bm_set_range_length.
        -- apply set_blocks_inuse_frame. simpl. apply bm_clear_range_length.
      * intros b. unfold inuse at 1. simpl.
        apply inuse_after_claim_release; [done|]. by rewrite I3.
      * simpl. by rewrite D3.
      * intros b Hb. by apply P3 in Hb.
Qed.

Lemma try_purge_fields_rel env fields : forall any_purged full_purge,
  pres sweep_rel (try_purge_fields env fields any_purged full_purge).
Proof.
  induction fields as [|i rest IH]; intros any_purged full_purge; cbn [try_purge_fields].
  - apply (pres_ret _ sweep_rel_refl).
  - intros a r a' tr H.
    apply bind_Done in H as (w & a1 & t1 & t2 & H1 & H2 & ->).
    apply load_purge_field_inv in H1 as ->. revert H2.
    apply (pres_bind _ sweep_rel_trans); [|intros flags; apply IH].
    apply pres_if; [apply try_purge_field_loop_rel|apply (pres_ret _ sweep_rel_refl)].
Qed.

Lemma atomic_cas_purge_expire_rel expected desired :
  pres sweep_rel (atomic_cas_purge_expire expected desired).
Proof.
  apply pres_atomic. intros a. destruct (_ =? _); [|apply sweep_rel_refl].
  apply purge_rel_sweep, set_purge_expire_purge_rel.
Qed.

Lemma mi_arena_try_purge_rel env now force :
  pres sweep_rel (mi_arena_try_purge env now force).
Proof.
  unfold mi_arena_try_purge.
  apply (pres_bind _ sweep_rel_trans); [apply (pres_get _ sweep_rel_refl)|intros arena].
  apply pres_if; [apply (pres_ret _ sweep_rel_refl)|].
  apply pres_if; [apply (pres_ret _ sweep_rel_refl)|].
  apply pres_if; [apply (pres_ret _ sweep_rel_refl)|].
  apply (pres_bind _ sweep_rel_trans); [apply atomic_cas_purge_expire_rel|intros _].
  apply (pres_bind _ sweep_rel_trans); [apply try_purge_fields_rel|intros flags].
  apply (pres_bind _ sweep_rel_trans); [|intros _; apply (pres_ret _ sweep_rel_refl)].
  apply pres_if; [apply atomic_cas_purge_expire_rel|apply (pres_ret _ sweep_rel_refl)].
Qed.

(** ** Allocation in one arena *)

Lemma bits_rel_refl a : bits_rel a a.
Proof. split; [apply arena_frame_refl|done]. Qed.

Lemma bits_rel_trans a1 a2 a3 : bits_rel a1 a2 -> bits_rel a2 a3 -> bits_rel a1 a3.
Proof.
  intros (F1 & I1' & P1) (F2 & I2' & P2).
  split; [by eapply arena_frame_trans|]. split; congruence.
Qed.

Lemma dirty_claim_across_bits_rel count idx : pres bits_rel (dirty_claim_across count idx).
Proof.
  intros a r a' tr H. apply bitmap_rmw_inv in H as (bm & Hsel & _ & _ & -> & _).
  split; [|done]. eapply set_blocks_dirty_frame; [exact Hsel|]. simpl.
  apply bm_set_range_length.
Qed.

Lemma committed_claim_across_bits_rel count idx :
  pres bits_rel (committed_claim_across count idx).
Proof.
  intros a r a' tr H. apply bitmap_rmw_inv in H as (bm & Hsel & _ & _ & -> & _).
  split; [|done]. eapply set_blocks_committed_frame; [exact Hsel|]. simpl.
  apply bm_set_range_length.
Qed.

Lemma committed_is_claimed_across_bits_rel count idx :
  pres bits_rel (committed_is_claimed_across count idx).
Proof.
  intros a r a' tr H. apply bitmap_read_inv in H as (bm & _ & _ & _ & -> & _).
  apply bits_rel_refl.
Qed.

Lemma memid_names_set_initially_zero b m id excl idx :
  memid_names m id excl idx -> memid_names (set_initially_zero b m) id excl idx.
Proof. by intros (? & ? & ? & ?). Qed.

Lemma memid_names_set_initially_committed b m id excl idx :
  memid_names m id excl idx -> memid_names (set_initially_committed b m) id excl idx.
Proof. by intros (? & ? & ? & ?). Qed.

Lemma memid_names_set_is_pinned b m id excl idx :
  memid_names m id excl idx -> memid_names (set_is_pinned b m) id excl idx.
Proof. by intros (? & ? & ? & ?). Qed.

Lemma alloc_set_dirty_spec n idx memid a m a' tr id excl :
  alloc_set_dirty n idx memid a = Done m a' tr ->
  memid_names memid id excl idx ->
  bits_rel a a' /\ memid_names m id excl idx.
Proof.
  unfold alloc_set_dirty. rewrite bind_get_eq. intros H Hn.
  destruct (blocks_dirty a); [|minv1 H; split; [apply bits_rel_refl|done]].
  destruct (initially_zero (a_memid a)); [|minv1 H; split; [apply bits_rel_refl|done]].
  apply bind_Done in H as (r & a1 & t1 & t2 & H1 & H2 & ->).
  apply dirty_claim_across_bits_rel in H1. minv1 H2.
  split; [done|]. by apply memid_names_set_initially_zero.
Qed.

Lemma alloc_set_commit_spec env n idx commit p memid a m a' tr id excl :
  alloc_set_commit env n idx commit p memid a = Done m a' tr ->
  memid_names memid id excl idx ->
  bits_rel a a' /\ memid_names m id excl idx.
Proof.
  unfold alloc_set_commit. rewrite bind_get_eq. intros H Hn.
  destruct (blocks_committed a).
  2:{ minv1 H. split; [apply bits_rel_refl|]. by apply memid_names_set_initially_committed. }
  destruct commit.
  - apply bind_Done in H as (r & a1 & t1 & t2 & H1 & H2 & ->).
    apply committed_claim_across_bits_rel in H1.
    destruct (snd r).
    + destruct (os_commit env p (mi_arena_block_size n)) as [ok commit_zero].
      destruct (negb ok); minv1 H2; (split; [done|]).
      * by do 2 apply memid_names_set_initially_committed.
      * destruct commit_zero; [apply memid_names_set_initially_zero|];
          by apply memid_names_set_initially_committed.
    + minv1 H2. split; [done|]. by apply memid_names_set_initially_committed.
  - apply bind_Done in H as (r & a1 & t1 & t2 & H1 & H2 & ->).
    apply committed_is_claimed_across_bits_rel in H1. minv1 H2.
    split; [done|]. by apply memid_names_set_initially_committed.
Qed.

Lemma alloc_unschedule_spec n idx a u a' tr :
  alloc_unschedule n idx a = Done u a' tr ->
  arena_frame a a' /\ blocks_inuse a' = blocks_inuse a /\
  blocks_dirty a' = blocks_dirty a /\
  forall b, purge a' b = negb (in_run idx n b) && purge a b.
Proof.
  unfold alloc_unschedule. rewrite bind_get_eq. intros H.
  destruct (blocks_purge a) as [bm|] eqn:E.
  - apply bind_Done in H as (r & a1 & t1 & t2 & H1 & H2 & ->). minv1 H2.
    apply bitmap_rmw_inv in H1 as (bm' & Hsel & _ & _ & -> & _).
    rewrite E in Hsel. injection Hsel as <-.
    split; [|split; [done|split; [done|]]].
    + eapply set_blocks_purge_frame; [exact E|]. simpl. apply bm_clear_range_length.
    + intros b. unfold purge. simpl. by rewrite E, bm_get_clear_range.
  - minv1 H. split; [apply arena_frame_refl|]. split; [done|]. split; [done|].
    intros b. unfold purge. rewrite E. by rewrite andb_false_r.
Qed.

Lemma mi_arena_try_claim_inv n a r a' tr :
  mi_arena_try_claim n a = Done r a' tr ->
  (r = None /\ a' = a) \/
  exists idx, r = Some idx /\ (0 < n)%nat /\
    (idx + n <= field_count a * MI_BITMAP_FIELD_BITS)%nat /\
    (field_count a <= length (blocks_inuse a))%nat /\
    bm_all_clear (blocks_inuse a) idx n = true /\
    a' = set_search_idx (mi_bitmap_index_field idx)
           (set_blocks_inuse (bm_set_range (blocks_inuse a) idx n) a).
Proof.
  unfold mi_arena_try_claim. rewrite bind_get_eq.
  destruct (Nat.ltb_spec (length (blocks_inuse a)) (field_count a)) as [|Hlen]; [done|].
  unfold _mi_bitmap_try_find_from_claim_across.
  destruct (Nat.eqb_spec n 0) as [->|Hn]; [intros H; minv1 H; by left|].
  destruct (find _ _) as [p|] eqn:E; [|intros H; minv1 H; by left].
  intros H. minv1 H. right. exists p.
  apply find_some in E as [_ Hfree].
  apply andb_true_iff in Hfree as [Hin Hclear]. apply Nat.leb_le in Hin.
  repeat split; try done. lia.
Qed.

(** What an allocation in an arena returns and changes. *)
Lemma mi_arena_try_alloc_at_spec env j n commit memid a p memid' a' tr :
  mi_arena_try_alloc_at env j n commit memid a = Done (p, memid') a' tr ->
  (a' = a /\ p = 0 /\ memid' = memid) \/
  exists idx,
    (0 < n)%nat /\ (idx + n <= field_count a * MI_BITMAP_FIELD_BITS)%nat /\
    bm_all_clear (blocks_inuse a) idx n = true /\
    arena_frame a a' /\
    blocks_inuse a' = bm_set_range (blocks_inuse a) idx n /\
    (forall b, purge a' b = negb (in_run idx n b) && purge a b) /\
    p = a_start a + mi_arena_block_size idx /\
    memid_names memid' (a_id a) (exclusive a) idx.
Proof.
  unfold mi_arena_try_alloc_at. intros H.
  apply bind_Done in H as (claimed & a1 & t1 & t2 & H1 & H2 & ->).
  apply mi_arena_try_claim_inv in H1
    as [[-> ->]|(idx & -> & Hn & Hrun & Hlen & Hclear & ->)].
  { minv1 H2. by left. }
  right. exists idx. rewrite bind_get_eq in H2.
  apply bind_Done in H2 as (u & a2 & t3 & t4 & H2 & H3 & ->).
  apply bind_Done in H3 as (m3 & a3 & t5 & t6 & H3 & H4 & ->).
  apply bind_Done in H4 as (m4 & a4 & t7 & t8 & H4 & H5 & ->).
  minv1 H5.
  apply alloc_unschedule_spec in H2 as (F2 & I2 & D2 & P2).
  eapply alloc_set_dirty_spec in H3 as [(F3 & I3 & P3) N3];
    [|by apply memid_names_set_is_pinned].
  eapply alloc_set_commit_spec in H4 as [(F4 & I4 & P4) N4]; [|exact N3].
  split; [done|]. split; [done|]. split; [done|]. split; [|split; [|split; [|split]]].
  - eapply arena_frame_trans; [|exact F4]. eapply arena_frame_trans; [|exact F3].
    eapply arena_frame_trans; [|exact F2].
    eapply arena_frame_trans; [|apply set_search_idx_frame].
    apply set_blocks_inuse_frame, bm_set_range_length.
  - by rewrite I4, I3, I2.
  - intros b. unfold purge at 1. rewrite P4, P3. apply P2.
  - done.
  - exact N4.
Qed.

(** ** Steps that leave the registry alone *)

Lemma same_arenas_refl s : same_arenas s s.
Proof. done. Qed.

Lemma same_arenas_trans s1 s2 s3 : same_arenas s1 s2 -> same_arenas s2 s3 -> same_arenas s1 s3.
Proof. unfold same_arenas. congruence. Qed.

Lemma emit_same_arenas e : pres same_arenas (emit e).
Proof. apply pres_modify. by intros s. Qed.

Lemma load_arena_inv i s r s' tr :
  load_arena i s = Done r s' tr ->
  (i < MI_MAX_ARENAS)%nat /\ r = mi_arenas s !! i /\ s' = s /\ tr = [].
Proof.
  unfold load_arena. destruct (Nat.ltb_spec i MI_MAX_ARENAS); [|done].
  by intros [= <- <- <-].
Qed.

Lemma mi_arena_static_zalloc_same_arenas size alignment :
  pres same_arenas (mi_arena_static_zalloc size alignment).
Proof.
  unfold mi_arena_static_zalloc.
  apply pres_if; [apply (pres_ret _ same_arenas_refl)|].
  apply (pres_bind _ same_arenas_trans); [apply (pres_get _ same_arenas_refl)|intros s0].
  apply pres_if; [apply (pres_ret _ same_arenas_refl)|].
  apply pres_if; [apply (pres_ret _ same_arenas_refl)|].
  apply (pres_bind _ same_arenas_trans).
  { unfold atomic_add_static_top.
    apply (pres_bind _ same_arenas_trans); [apply (pres_get _ same_arenas_refl)|intros s1].
    apply (pres_bind _ same_arenas_trans); [by apply pres_atomic|intros _].
    apply (pres_ret _ same_arenas_refl). }
  intros oldtop. apply pres_if.
  - apply (pres_bind _ same_arenas_trans); [|intros _; apply (pres_ret _ same_arenas_refl)].
    apply pres_atomic. intros s. by destruct (_ =? _).
  - apply (pres_bind _ same_arenas_trans); [|intros _; apply (pres_ret _ same_arenas_refl)].
    intros s u s' tr. unfold memzero_static. destruct (_ && _); [|done].
    by intros [= _ <- _].
Qed.

Lemma mi_arena_meta_zalloc_same_arenas env size :
  pres same_arenas (mi_arena_meta_zalloc env size).
Proof.
  unfold mi_arena_meta_zalloc.
  apply (pres_bind _ same_arenas_trans); [apply mi_arena_static_zalloc_same_arenas|].
  intros [[i|] memid]; [apply (pres_ret _ same_arenas_refl)|].
  destruct (_mi_os_alloc env size) as [p m].
  apply pres_if; apply (pres_ret _ same_arenas_refl).
Qed.

(** ** Invariants of the registry under every operation

    The argument is made once, for a property [P] of the arenas that is
    kept by an allocation in the arena, by the release of a run of blocks
    that satisfies [free_ok], by a purge sweep, and that holds of a freshly
    initialised arena. *)

Section Chain.
Variable P : nat -> mi_arena_t -> Prop.
Variable free_ok : mi_arena_t -> nat -> nat -> Prop.
Variable new_ok : Z -> Prop.
Variable Q : nat -> mi_arena_t -> Z * mi_memid_t -> nat -> Prop.

Hypothesis P_alloc : forall env j n commit memid a r a' tr,
  P j a -> mi_arena_try_alloc_at env j n commit memid a = Done r a' tr -> P j a'.
Hypothesis P_free : forall env j all_committed blocks idx a r a' tr,
  P j a -> free_ok a idx blocks ->
  arena_free_blocks env all_committed blocks idx a = Done r a' tr -> P j a'.
Hypothesis P_sweep : forall j a a', sweep_rel a a' -> P j a -> P j a'.
Hypothesis Q_alloc : forall env j n commit memid a r a' tr,
  P j a -> mi_arena_try_alloc_at env j n commit memid a = Done r a' tr ->
  fst r <> 0 -> Q j a' r n.
Hypothesis new_ok_align_up : forall sz alignment,
  alignment <> 0 -> new_ok (_mi_align_up sz alignment).
Hypothesis P_new : forall env j start size is_large numa_node exclusive memid meta_memid,
  MI_ARENA_BLOCK_SIZE <= size -> new_ok size ->
  P j (set_a_id (mi_arena_id_create j)
         (arena_init env start size is_large numa_node exclusive memid meta_memid)).

Local Abbreviation Inv := (registry_inv P).

Lemma Inv_same_arenas s s' : same_arenas s s' -> Inv s -> Inv s'.
Proof. unfold same_arenas, registry_inv. by intros ->. Qed.

Lemma Inv_set_arena j a s : P j a -> Inv s -> Inv (set_arena j a s).
Proof.
  intros Ha Hs i b. unfold set_arena. simpl. rewrite lookup_insert.
  case_decide as E; [intros [= <-]; by subst|apply Hs].
Qed.

Lemma Inv_with_arena {A} j (m : M mi_arena_t A) s x s' tr :
  (forall a x a' tr, P j a -> m a = Done x a' tr -> P j a') ->
  Inv s -> with_arena j m s = Done x s' tr -> Inv s'.
Proof.
  intros Hm Hs H. apply with_arena_inv in H as (a & a' & tr' & Ha & Hrun & -> & _).
  apply Inv_set_arena; [|done]. eapply Hm; [|exact Hrun]. by apply Hs.
Qed.

Lemma Inv_try_alloc_at_id env arena_id match_numa numa size alignment commit allow_large
    req memid s r s' tr :
  Inv s ->
  mi_arena_try_alloc_at_id env arena_id match_numa numa size alignment commit allow_large
    req memid s = Done r s' tr ->
  Inv s'.
Proof.
  intros Hs. unfold mi_arena_try_alloc_at_id. intros H.
  apply bind_Done in H as (loaded & s1 & t1 & t2 & H1 & H2 & ->).
  apply load_arena_inv in H1 as (_ & -> & -> & _).
  destruct (mi_arenas s !! _) as [arena|]; [|by minv1 H2].
  destruct (_ && _); [by minv1 H2|].
  destruct (negb _); [by minv1 H2|].
  destruct (_ && _); [by minv1 H2|].
  eapply Inv_with_arena; [|exact Hs|exact H2].
  intros a x a' tr'. apply P_alloc.
Qed.

Lemma Inv_try_alloc_loop env indices : forall match_numa numa size alignment commit
    allow_large req memid s r s' tr,
  Inv s ->
  try_alloc_loop env indices match_numa numa size alignment commit allow_large req memid s
    = Done r s' tr ->
  Inv s'.
Proof.
  induction indices as [|i rest IH]; intros match_numa numa size alignment commit
    allow_large req memid s r s' tr Hs H; simpl in H.
  - by minv1 H.
  - apply bind_Done in H as (r1 & s1 & t1 & t2 & H1 & H2 & ->).
    apply Inv_try_alloc_at_id in H1; [|done].
    destruct (negb _); [by minv1 H2|]. by eapply IH.
Qed.

Lemma Inv_try_alloc env numa size alignment commit allow_large req memid s r s' tr :
  Inv s ->
  mi_arena_try_alloc env numa size alignment commit allow_large req memid s = Done r s' tr ->
  Inv s'.
Proof.
  intros Hs. unfold mi_arena_try_alloc. rewrite bind_get_eq.
  destruct (_ =? _)%nat; [intros H; by minv1 H|].
  destruct (negb (req =? _mi_arena_id_none)).
  - destruct (_ <? _)%nat; [|intros H; by minv1 H].
    intros H. apply bind_Done in H as (r1 & s1 & t1 & t2 & H1 & H2 & ->).
    apply Inv_try_alloc_at_id in H1; [|done].
    destruct (negb _); by minv1 H2.
  - intros H. apply bind_Done in H as (r1 & s1 & t1 & t2 & H1 & H2 & ->).
    apply Inv_try_alloc_loop in H1; [|done].
    destruct (negb _); [by minv1 H2|].
    destruct (0 <=? numa); [|by minv1 H2].
    apply bind_Done in H2 as (r2 & s2 & t3 & t4 & H2 & H3 & ->).
    apply Inv_try_alloc_loop in H2; [|done].
    destruct (negb _); by minv1 H3.
Qed.

Lemma Inv_arena_add arena s r s' tr :
  Inv s -> P (mi_arena_count s) (set_a_id (mi_arena_id_create (mi_arena_count s)) arena) ->
  mi_arena_add arena s = Done r s' tr -> Inv s'.
Proof.
  intros Hs Hnew. rewrite mi_arena_add_eval. cbv zeta.
  destruct (_ <=? _)%nat; intros [= _ <- _]; [done|].
  apply Inv_set_arena; [exact Hnew|]. by destruct s.
Qed.

Lemma Inv_manage_ex2 env start size is_large numa exclusive memid s r s' tr :
  Inv s -> new_ok size ->
  mi_manage_os_memory_ex2 env start size is_large numa exclusive memid s = Done r s' tr ->
  Inv s'.
Proof.
  intros Hs Hsz. unfold mi_manage_os_memory_ex2.
  destruct (Z.ltb_spec size MI_ARENA_BLOCK_SIZE) as [Hlt|Hge]; [intros H; by minv1 H|].
  intros H. apply bind_Done in H as (r1 & s1 & t1 & t2 & H1 & H2 & ->).
  apply mi_arena_meta_zalloc_same_arenas in H1.
  pose proof (Inv_same_arenas _ _ H1 Hs) as Hs1.
  destruct r1 as [[mp|] meta]; [|by minv1 H2].
  eapply Inv_arena_add; [exact Hs1| |exact H2]. by apply P_new.
Qed.

Lemma _mi_align_up_range sz alignment :
  alignment <> 0 -> 0 <= _mi_align_up sz alignment < 2 ^ 64.
Proof.
  intros Ha. unfold _mi_align_up. destruct (Z.eqb_spec alignment 0); [done|].
  unfold size_wrap. apply Z.mod_pos_bound. lia.
Qed.

Lemma Inv_reserve_os_memory_ex env size commit allow_large exclusive s r s' tr :
  Inv s ->
  mi_reserve_os_memory_ex env size commit allow_large exclusive s = Done r s' tr ->
  Inv s'.
Proof.
  intros Hs. unfold mi_reserve_os_memory_ex.
  destruct (_mi_os_alloc_aligned _ _ _ _ _) as [start memid].
  destruct (start =? 0); [intros H; by minv1 H|].
  intros H. apply bind_Done in H as (r1 & s1 & t1 & t2 & H1 & H2 & ->).
  apply Inv_manage_ex2 in H1; [|done|].
  - destruct (negb (fst r1)); [|by minv1 H2].
    apply bind_Done in H2 as (u & s2 & t3 & t4 & H2 & H3 & ->).
    apply emit_same_arenas in H2. minv1 H3. by eapply Inv_same_arenas.
  - by apply new_ok_align_up.
Qed.

Lemma Inv_arena_reserve env req_size allow_large req arena_id s r s' tr :
  Inv s ->
  mi_arena_reserve env req_size allow_large req arena_id s = Done r s' tr -> Inv s'.
Proof.
  intros Hs. unfold mi_arena_reserve. rewrite bind_get_eq.
  destruct (mi_arena_reserve_target _ _ _ _) as [[sz c]|]; [|intros H; by minv1 H].
  intros H. apply bind_Done in H as (r1 & s1 & t1 & t2 & H1 & H2 & ->).
  apply Inv_reserve_os_memory_ex in H1; [|done]. by minv1 H2.
Qed.

Lemma Inv_alloc_aligned env size alignment align_offset commit allow_large req s r s' tr :
  Inv s ->
  _mi_arena_alloc_aligned env size alignment align_offset commit allow_large req s
    = Done r s' tr ->
  Inv s'.
Proof.
  intros Hs. unfold _mi_arena_alloc_aligned. intros H.
  apply bind_Done in H as (r1 & s1 & t1 & t2 & H1 & H2 & ->).
  assert (Hs1 : Inv s1).
  { destruct (_ || _); [|by minv1 H1].
    destruct (_ && _); [|by minv1 H1].
    apply bind_Done in H1 as (r0 & s0 & t3 & t4 & H0 & H1 & ->).
    apply Inv_try_alloc in H0; [|done].
    destruct (negb _); [by minv1 H1|].
    destruct (req =? _mi_arena_id_none); [|by minv1 H1].
    apply bind_Done in H1 as (res & s2 & t5 & t6 & H1 & H3 & ->).
    apply Inv_arena_reserve in H1; [|done].
    destruct (fst res); [|by minv1 H3].
    apply bind_Done in H3 as (r2 & s3 & t7 & t8 & H3 & H4 & ->).
    apply Inv_try_alloc_at_id in H3; [|done].
    destruct (negb _); by minv1 H4. }
  destruct (negb (fst r1 =? 0)); [by minv1 H2|].
  destruct (opt_disallow_os_alloc env || negb (req =? _mi_arena_id_none)).
  - apply bind_Done in H2 as (u & s2 & t3 & t4 & H2 & H3 & ->).
    apply emit_same_arenas in H2. minv1 H3. by eapply Inv_same_arenas.
  - destruct (0 <? align_offset); by minv1 H2.
Qed.

Lemma Inv_arenas_try_purge_loop env indices : forall now force max_purge_count s r s' tr,
  Inv s ->
  arenas_try_purge_loop env indices now force max_purge_count s = Done r s' tr -> Inv s'.
Proof.
  induction indices as [|i rest IH]; intros now force mpc s r s' tr Hs H; simpl in H.
  - by minv1 H.
  - apply bind_Done in H as (loaded & s1 & t1 & t2 & H1 & H2 & ->).
    apply load_arena_inv in H1 as (_ & -> & -> & _).
    destruct (mi_arenas s !! i) as [arena|]; [|by eapply IH].
    apply bind_Done in H2 as (purged & s2 & t3 & t4 & H2 & H3 & ->).
    assert (Hs2 : Inv s2).
    { eapply Inv_with_arena; [|exact Hs|exact H2].
      intros a x a' tr' Ha Hrun. eapply P_sweep; [|exact Ha].
      by eapply mi_arena_try_purge_rel. }
    destruct purged; [|by eapply IH].
    destruct (_ <=? _)%nat; [by minv1 H3|by eapply IH].
Qed.

Lemma Inv_set_purge_guard b s : Inv s -> Inv (set_purge_guard b s).
Proof. done. Qed.

Lemma Inv_arenas_try_purge env force visit_all s r s' tr :
  Inv s -> mi_arenas_try_purge env force visit_all s = Done r s' tr -> Inv s'.
Proof.
  intros Hs. unfold mi_arenas_try_purge.
  destruct (_ || _); [intros H; by minv1 H|].
  rewrite bind_get_eq.
  destruct (_ =? _)%nat; [intros H; by minv1 H|].
  destruct (purge_guard s); [intros H; by minv1 H|].
  intros H. apply bind_Done in H as (u & s1 & t1 & t2 & H1 & H2 & ->). minv1 H1.
  apply bind_Done in H2 as (u2 & s2 & t3 & t4 & H2 & H3 & ->).
  apply Inv_arenas_try_purge_loop in H2; [|by apply Inv_set_purge_guard].
  minv1 H3. by apply Inv_set_purge_guard.
Qed.

Lemma Inv_arena_free_in_arena env p size csize memid s r s' tr :
  Inv s ->
  (forall a, mi_arenas s !! mi_arena_id_index (mem_arena_id memid) = Some a ->
             free_ok a (mem_arena_block_index memid) (mi_block_count_of_size size)) ->
  arena_free_in_arena env p size csize memid s = Done r s' tr -> Inv s'.
Proof.
  intros Hs Hok. unfold arena_free_in_arena, mi_arena_memid_indices. intros H.
  apply bind_Done in H as (loaded & s1 & t1 & t2 & H1 & H2 & ->).
  apply load_arena_inv in H1 as (_ & -> & -> & _).
  destruct (mi_arenas s !! _) as [arena|] eqn:Ha.
  2:{ apply bind_Done in H2 as (u & s2 & t3 & t4 & H2 & H3 & ->).
      apply emit_same_arenas in H2. minv1 H3. by eapply Inv_same_arenas. }
  destruct (_ <=? _)%nat.
  { apply bind_Done in H2 as (u & s2 & t3 & t4 & H2 & H3 & ->).
    apply emit_same_arenas in H2. minv1 H3. by eapply Inv_same_arenas. }
  apply bind_Done in H2 as (all_inuse & s2 & t3 & t4 & H2 & H3 & ->).
  assert (Hs2 : Inv s2).
  { pose proof H2 as H2'.
    apply with_arena_inv in H2' as (a & a' & tr' & Ha' & Hrun & -> & _).
    rewrite Ha in Ha'. injection Ha' as <-.
    apply Inv_set_arena; [|done]. eapply P_free; [by apply Hs|by apply Hok|exact Hrun]. }
  destruct (negb all_inuse); [|by minv1 H3].
  apply bind_Done in H3 as (u & s3 & t5 & t6 & H3 & H4 & ->).
  apply emit_same_arenas in H3. minv1 H4. by eapply Inv_same_arenas.
Qed.

Lemma Inv_arena_free env p size csize memid s r s' tr :
  Inv s -> op_ok free_ok new_ok s (OpFree p size csize memid) ->
  _mi_arena_free env p size csize memid s = Done r s' tr -> Inv s'.
Proof.
  intros Hs Hok. unfold _mi_arena_free.
  destruct (p =? 0); [intros H; by minv1 H|].
  destruct (size =? 0); [intros H; by minv1 H|].
  intros H. apply bind_Done in H as (continue & s1 & t1 & t2 & H1 & H2 & ->).
  assert (Hs1 : Inv s1).
  { destruct (mi_memkind_is_os _).
    - apply bind_Done in H1 as (u & s2 & t3 & t4 & H1 & H3 & ->).
      apply emit_same_arenas in H1. minv1 H3. by eapply Inv_same_arenas.
    - destruct (mi_memkind_eqb _ _) eqn:Hk; [|by minv1 H1].
      eapply Inv_arena_free_in_arena; [exact Hs| |exact H1].
      intros a Ha. apply Hok; [|done]. by destruct (memkind memid). }
  destruct continue; [|by minv1 H2]. by eapply Inv_arenas_try_purge.
Qed.

(** Every operation of the interface keeps the invariant. *)
Lemma Inv_run_op env op s r s' tr :
  Inv s -> op_ok free_ok new_ok s op -> run_op env op s = Done r s' tr -> Inv s'.
Proof.
  intros Hs Hok. destruct op; simpl in *.
  - intros H. apply bind_Done in H as (r1 & s1 & t1 & t2 & H1 & H2 & ->).
    apply Inv_alloc_aligned in H1; [|done]. by minv1 H2.
  - by apply Inv_arena_free.
  - by apply Inv_arenas_try_purge.
  - intros H. apply bind_Done in H as (r1 & s1 & t1 & t2 & H1 & H2 & ->).
    unfold mi_manage_os_memory_ex in H1.
    apply Inv_manage_ex2 in H1; [|done|done]. by minv1 H2.
  - intros H. apply bind_Done in H as (r1 & s1 & t1 & t2 & H1 & H2 & ->).
    apply Inv_reserve_os_memory_ex in H1; [|done]. by minv1 H2.
Qed.

(** What the allocation functions return. *)

Lemma Res_try_alloc_at_id env arena_id match_numa numa size alignment commit allow_large
    req memid s r s' tr :
  Inv s ->
  mi_arena_try_alloc_at_id env arena_id match_numa numa size alignment commit allow_large
    req memid s = Done r s' tr ->
  alloc_result Q req size r s'.
Proof.
  intros Hs. unfold mi_arena_try_alloc_at_id. intros H Hp.
  apply bind_Done in H as (loaded & s1 & t1 & t2 & H1 & H2 & ->).
  apply load_arena_inv in H1 as (Hlt & -> & -> & _).
  destruct (mi_arenas s !! _) as [arena|] eqn:Ha; [|minv1 H2; by simpl in Hp].
  destruct (_ && _); [minv1 H2; by simpl in Hp|].
  destruct (mi_arena_id_is_suitable (a_id arena) (exclusive arena) req) eqn:Hsuit;
    cbn [negb] in H2; [|minv1 H2; by simpl in Hp].
  destruct (_ && _); [minv1 H2; by simpl in Hp|].
  apply with_arena_inv in H2 as (a & a' & tr' & Ha' & Hrun & -> & _).
  rewrite Ha in Ha'. injection Ha' as <-.
  exists (mi_arena_id_index arena_id), a'.
  split; [done|]. split; [unfold set_arena; simpl; by rewrite lookup_insert_eq|].
  split.
  - destruct r as [p m]. pose proof Hrun as Hspec.
    apply mi_arena_try_alloc_at_spec in Hspec
      as [(_ & -> & _)|(idx & _ & _ & _ & F & _)]; [done|].
    by rewrite (fr_id _ _ F), (fr_exclusive _ _ F).
  - eapply Q_alloc; [|exact Hrun|done]. by apply Hs.
Qed.

Lemma Res_try_alloc_loop env indices : forall match_numa numa size alignment commit
    allow_large req memid s r s' tr,
  Inv s ->
  try_alloc_loop env indices match_numa numa size alignment commit allow_large req memid s
    = Done r s' tr ->
  alloc_result Q req size r s'.
Proof.
  induction indices as [|i rest IH]; intros match_numa numa size alignment commit
    allow_large req memid s r s' tr Hs H; simpl in H.
  - minv1 H. by intros ?.
  - apply bind_Done in H as (r1 & s1 & t1 & t2 & H1 & H2 & ->).
    pose proof (Res_try_alloc_at_id _ _ _ _ _ _ _ _ _ _ _ _ _ _ Hs H1) as Hres.
    apply Inv_try_alloc_at_id in H1; [|done].
    destruct (negb _); [by minv1 H2|]. by eapply IH.
Qed.

Lemma alloc_result_null Q' req size m s : alloc_result Q' req size (0, m) s.
Proof. by intros ?. Qed.

Lemma Res_try_alloc env numa size alignment commit allow_large req memid s r s' tr :
  Inv s ->
  mi_arena_try_alloc env numa size alignment commit allow_large req memid s = Done r s' tr ->
  alloc_result Q req size r s'.
Proof.
  intros Hs. unfold mi_arena_try_alloc. rewrite bind_get_eq.
  destruct (_ =? _)%nat; [intros H; minv1 H; apply alloc_result_null|].
  destruct (negb (req =? _mi_arena_id_none)).
  - destruct (_ <? _)%nat; [|intros H; minv1 H; apply alloc_result_null].
    intros H. apply bind_Done in H as (r1 & s1 & t1 & t2 & H1 & H2 & ->).
    apply Res_try_alloc_at_id in H1; [|done].
    destruct (negb _); minv1 H2; [done|apply alloc_result_null].
  - intros H. apply bind_Done in H as (r1 & s1 & t1 & t2 & H1 & H2 & ->).
    pose proof (Res_try_alloc_loop _ _ _ _ _ _ _ _ _ _ _ _ _ _ Hs H1) as Hres.
    apply Inv_try_alloc_loop in H1; [|done].
    destruct (negb _); [by minv1 H2|].
    destruct (0 <=? numa); [|minv1 H2; apply alloc_result_null].
    apply bind_Done in H2 as (r2 & s2 & t3 & t4 & H2 & H3 & ->).
    apply Res_try_alloc_loop in H2; [|done].
    destruct (negb _); minv1 H3; [done|apply alloc_result_null].
Qed.

(** A non-NULL result of [_mi_arena_alloc_aligned] is memory of an arena of
    the registry, or, for a request that names no arena, memory of OS
    kind. *)
Lemma Res_alloc_aligned env size alignment align_offset commit allow_large req s r s' tr :
  Inv s ->
  _mi_arena_alloc_aligned env size alignment align_offset commit allow_large req s
    = Done r s' tr ->
  fst r <> 0 ->
  (exists j a, (j < MI_MAX_ARENAS)%nat /\ mi_arenas s' !! j = Some a /\
     mi_arena_id_is_suitable (a_id a) (exclusive a) req = true /\
     Q j a r (mi_block_count_of_size size)) \/
  (req = _mi_arena_id_none /\ memkind (snd r) = MI_MEM_OS).
Proof.
  intros Hs. unfold _mi_arena_alloc_aligned. intros H Hp.
  apply bind_Done in H as (r1 & s1 & t1 & t2 & H1 & H2 & ->).
  assert (Hres : alloc_result Q req size r1 s1).
  { destruct (_ || _); [|minv1 H1; apply alloc_result_null].
    destruct (_ && _); [|minv1 H1; apply alloc_result_null].
    apply bind_Done in H1 as (r0 & s0 & t3 & t4 & H0 & H1 & ->).
    pose proof (Res_try_alloc _ _ _ _ _ _ _ _ _ _ _ _ Hs H0) as Hres0.
    apply Inv_try_alloc in H0; [|done].
    destruct (negb _); [by minv1 H1|].
    destruct (req =? _mi_arena_id_none); [|minv1 H1; apply alloc_result_null].
    apply bind_Done in H1 as (res & s2 & t5 & t6 & H1 & H3 & ->).
    apply Inv_arena_reserve in H1; [|done].
    destruct (fst res); [|minv1 H3; apply alloc_result_null].
    apply bind_Done in H3 as (r2 & s3 & t7 & t8 & H3 & H4 & ->).
    apply Res_try_alloc_at_id in H3; [|done].
    destruct (negb _); minv1 H4; [done|apply alloc_result_null]. }
  destruct (Z.eqb_spec (fst r1) 0) as [Hz|Hnz]; cbn [negb] in H2.
  2:{ minv1 H2. left. by apply Hres. }
  destruct (opt_disallow_os_alloc env || negb (req =? _mi_arena_id_none)) eqn:Hos.
  { apply bind_Done in H2 as (u & s2 & t3 & t4 & H2 & H3 & ->). by minv1 H3. }
  apply orb_false_iff in Hos as [_ Hreq]. apply negb_false_iff, Z.eqb_eq in Hreq.
  right. split; [done|].
  destruct (0 <? align_offset); minv1 H2.
  - unfold _mi_os_alloc_aligned_at_offset in *.
    destruct (os_alloc_aligned_at_offset_prim _ _ _ _ _ _); [done|].
    by simpl in Hp.
  - unfold _mi_os_alloc_aligned in *.
    destruct (os_alloc_aligned_prim _ _ _ _ _); [done|]. by simpl in Hp.
Qed.

End Chain.

(** ** The invariants, one by one *)

Lemma bm_get_zeros n b : bm_get (replicate n 0) b = false.
Proof.
  unfold bm_get. destruct (replicate n 0 !! _) as [f|] eqn:E; [|done].
  apply lookup_replicate in E as [-> _]. apply Z.bits_0.
Qed.

Lemma arena_free_blocks_frame env all_committed blocks idx a r a' tr :
  arena_free_blocks env all_committed blocks idx a = Done r a' tr -> arena_frame a a'.
Proof.
  intros H. apply arena_free_blocks_spec in H as (_ & _ & a1 & (F & _) & -> & _).
  eapply arena_frame_trans; [exact F|].
  apply set_blocks_inuse_frame. rewrite bm_clear_range_length. symmetry.
  apply (fr_inuse_len _ _ F).
Qed.

Lemma mi_arena_try_alloc_at_frame env j n commit memid a r a' tr :
  mi_arena_try_alloc_at env j n commit memid a = Done r a' tr -> arena_frame a a'.
Proof.
  destruct r as [p m]. intros H.
  apply mi_arena_try_alloc_at_spec in H as [(-> & _)|(idx & _ & _ & _ & F & _)];
    [apply arena_frame_refl|done].
Qed.

(** *** Ids *)

Lemma ids_alloc env j n commit memid a r a' tr :
  a_id a = mi_arena_id_create j ->
  mi_arena_try_alloc_at env j n commit memid a = Done r a' tr ->
  a_id a' = mi_arena_id_create j.
Proof.
  intros Hid H. apply mi_arena_try_alloc_at_frame in H. by rewrite (fr_id _ _ H).
Qed.

Lemma ids_free env j all_committed blocks idx a r a' tr :
  a_id a = mi_arena_id_create j -> any_free a idx blocks ->
  arena_free_blocks env all_committed blocks idx a = Done r a' tr ->
  a_id a' = mi_arena_id_create j.
Proof.
  intros Hid _ H. apply arena_free_blocks_frame in H. by rewrite (fr_id _ _ H).
Qed.

Lemma ids_sweep j a a' :
  sweep_rel a a' -> a_id a = mi_arena_id_create j -> a_id a' = mi_arena_id_create j.
Proof. intros [F _] Hid. by rewrite (fr_id _ _ F). Qed.

Lemma ids_new env j start size is_large numa_node exclusive memid meta_memid :
  MI_ARENA_BLOCK_SIZE <= size -> any_size size ->
  a_id (set_a_id (mi_arena_id_create j)
          (arena_init env start size is_large numa_node exclusive memid meta_memid))
  = mi_arena_id_create j.
Proof. done. Qed.

Lemma any_size_align_up sz alignment : alignment <> 0 -> any_size (_mi_align_up sz alignment).
Proof. done. Qed.

Lemma names_arena_alloc env j n commit memid a r a' tr :
  a_id a = mi_arena_id_create j ->
  mi_arena_try_alloc_at env j n commit memid a = Done r a' tr ->
  fst r <> 0 -> names_arena j a' r n.
Proof.
  intros _ H Hp. destruct r as [p m].
  apply mi_arena_try_alloc_at_spec in H
    as [(_ & -> & _)|(idx & _ & _ & _ & F & _ & _ & _ & Hn)]; [done|].
  exists idx. by rewrite (fr_id _ _ F), (fr_exclusive _ _ F).
Qed.

Lemma registry_ids_init : registry_ids mi_state_init.
Proof.
  intros j a H. unfold mi_state_init in H. cbn [mi_arenas] in H.
  by rewrite lookup_empty in H.
Qed.

Lemma registry_ids_run_op env op s r s' tr :
  registry_ids s -> run_op env op s = Done r s' tr -> registry_ids s'.
Proof.
  intros Hs H.
  eapply (Inv_run_op _ any_free any_size ids_alloc ids_free ids_sweep
            any_size_align_up ids_new); [exact Hs| |exact H].
  by destruct op.
Qed.

(** *** I1 *)

Lemma I1_alloc env (j : nat) n commit memid a r a' tr :
  I1 a -> mi_arena_try_alloc_at env j n commit memid a = Done r a' tr -> I1 a'.
Proof.
  intros HI H. destruct r as [p m].
  apply mi_arena_try_alloc_at_spec in H
    as [(-> & _)|(idx & _ & _ & _ & F & Hin & Hpurge & _)]; [done|].
  intros b Hb. rewrite Hpurge in Hb. apply andb_true_iff in Hb as [Hrun Hb].
  unfold inuse. rewrite Hin, bm_get_set_range.
  apply negb_true_iff in Hrun. rewrite Hrun. by apply HI.
Qed.

Lemma I1_free env (j : nat) all_committed blocks idx a r a' tr :
  I1 a -> any_free a idx blocks ->
  arena_free_blocks env all_committed blocks idx a = Done r a' tr -> I1 a'.
Proof.
  intros HI _ H.
  apply arena_free_blocks_spec in H as (_ & _ & a1 & (F & Hin & _ & Hpurge) & -> & _).
  intros b Hb. unfold inuse. simpl. rewrite bm_get_clear_range.
  destruct (in_run idx blocks b) eqn:Hrun; [done|]. simpl.
  destruct (Hpurge b Hb) as [Hpb|Hr]; [by apply HI|congruence].
Qed.

Lemma I1_sweep (j : nat) a a' : sweep_rel a a' -> I1 a -> I1 a'.
Proof.
  intros (_ & Hin & _ & Hpurge) HI b Hb. rewrite Hin. by apply HI, Hpurge.
Qed.

Lemma arena_init_purge env start size is_large numa_node exclusive memid meta_memid b :
  purge (arena_init env start size is_large numa_node exclusive memid meta_memid) b = false.
Proof.
  unfold arena_init, purge. destruct (0 <? _)%nat; simpl;
    (destruct (is_pinned memid); [done|apply bm_get_zeros]).
Qed.

Lemma I1_new env (j : nat) start size is_large numa_node exclusive memid meta_memid :
  MI_ARENA_BLOCK_SIZE <= size -> any_size size ->
  I1 (set_a_id (mi_arena_id_create j)
        (arena_init env start size is_large numa_node exclusive memid meta_memid)).
Proof.
  intros _ _ b Hb.
  change (purge (arena_init env start size is_large numa_node exclusive memid meta_memid) b
          = true) in Hb.
  by rewrite arena_init_purge in Hb.
Qed.

Lemma no_result_alloc env (j : nat) n commit memid a (r : Z * mi_memid_t) a' tr :
  I1 a -> mi_arena_try_alloc_at env j n commit memid a = Done r a' tr ->
  fst r <> 0 -> no_result j a' r n.
Proof. done. Qed.

Lemma I1_state_run_op env op s r s' tr :
  I1_state s -> run_op env op s = Done r s' tr -> I1_state s'.
Proof.
  intros Hs H.
  eapply (Inv_run_op (fun _ => I1) any_free any_size I1_alloc I1_free I1_sweep
            any_size_align_up I1_new); [exact Hs| |exact H].
  by destruct op.
Qed.

Lemma I1_state_init : I1_state mi_state_init.
Proof.
  intros j a H. unfold mi_state_init in H. cbn [mi_arenas] in H.
  by rewrite lookup_empty in H.
Qed.

(** *** I7: the tail bits *)

Lemma arena_init_block_count env start size is_large numa_node exclusive memid meta_memid :
  block_count (arena_init env start size is_large numa_node exclusive memid meta_memid)
  = Z.to_nat (size / MI_ARENA_BLOCK_SIZE).
Proof. unfold arena_init. by destruct (0 <? _)%nat. Qed.

Lemma arena_init_field_count env start size is_large numa_node exclusive memid meta_memid :
  field_count (arena_init env start size is_large numa_node exclusive memid meta_memid)
  = Z.to_nat (_mi_divide_up (Z.of_nat (Z.to_nat (size / MI_ARENA_BLOCK_SIZE)))
                            (Z.of_nat MI_BITMAP_FIELD_BITS)).
Proof. unfold arena_init. by destruct (0 <? _)%nat. Qed.

Lemma arena_init_geometry env start size is_large numa_node exclusive memid meta_memid :
  MI_ARENA_BLOCK_SIZE <= size < 2 ^ 64 ->
  let a := arena_init env start size is_large numa_node exclusive memid meta_memid in
  (1 <= block_count a)%nat /\
  (block_count a <= field_count a * MI_BITMAP_FIELD_BITS)%nat /\
  (field_count a * MI_BITMAP_FIELD_BITS < block_count a + MI_BITMAP_FIELD_BITS)%nat /\
  Z.of_nat (block_count a) = size / MI_ARENA_BLOCK_SIZE.
Proof.
  intros Hsize. cbv zeta. rewrite arena_init_block_count, arena_init_field_count.
  unfold _mi_divide_up, MI_BITMAP_FIELD_BITS. change (Z.of_nat 64 =? 0) with false. cbv iota.
  change (Z.of_nat 64) with 64.
  assert (HB : MI_ARENA_BLOCK_SIZE = 67108864) by reflexivity. rewrite HB in *.
  assert (Hq : 1 <= size / 67108864 < 2 ^ 38).
  { split.
    - apply Z.div_le_lower_bound; lia.
    - apply Z.div_lt_upper_bound; lia. }
  rewrite Z2Nat.id by lia.
  rewrite size_wrap_small by lia.
  pose proof (Z.div_mod (size / 67108864 + 64 - 1) 64 ltac:(lia)) as Hdm.
  pose proof (Z.mod_pos_bound (size / 67108864 + 64 - 1) 64 ltac:(lia)) as Hmod.
  assert (Hf : 0 <= (size / 67108864 + 64 - 1) / 64) by (apply Z.div_pos; lia).
  repeat split; lia.
Qed.

Lemma arena_init_inuse env start size is_large numa_node exclusive memid meta_memid :
  MI_ARENA_BLOCK_SIZE <= size < 2 ^ 64 ->
  let a := arena_init env start size is_large numa_node exclusive memid meta_memid in
  blocks_inuse a
  = bm_set_range (replicate (field_count a) 0) (block_count a)
      (field_count a * MI_BITMAP_FIELD_BITS - block_count a).
Proof.
  intros Hsize. pose proof (arena_init_geometry env start size is_large numa_node exclusive
                              memid meta_memid Hsize) as (H1 & H2 & H3 & _).
  cbv zeta in *. revert H1 H2 H3. unfold arena_init.
  set (bcount := Z.to_nat (size / MI_ARENA_BLOCK_SIZE)).
  set (fields := Z.to_nat (_mi_divide_up (Z.of_nat bcount) (Z.of_nat MI_BITMAP_FIELD_BITS))).
  destruct (Nat.ltb_spec 0 (fields * MI_BITMAP_FIELD_BITS - bcount)) as [Hpost|Hpost];
    cbn [block_count field_count blocks_inuse set_blocks_inuse]; intros H1 H2 H3.
  - unfold _mi_bitmap_claim, _mi_bitmap_claim_across. cbn [fst].
    f_equal. unfold mi_bitmap_index_create, MI_BITMAP_FIELD_BITS in *. lia.
  - replace (fields * MI_BITMAP_FIELD_BITS - bcount)%nat with 0%nat by lia. done.
Qed.

Lemma arena_init_wf env start size is_large numa_node exclusive memid meta_memid :
  MI_ARENA_BLOCK_SIZE <= size < 2 ^ 64 ->
  arena_wf (arena_init env start size is_large numa_node exclusive memid meta_memid).
Proof.
  intros Hsize.
  pose proof (arena_init_geometry env start size is_large numa_node exclusive
                memid meta_memid Hsize) as (_ & Hbc & _).
  pose proof (arena_init_inuse env start size is_large numa_node exclusive
                memid meta_memid Hsize) as Hin.
  cbv zeta in *. unfold arena_wf. rewrite Hin, bm_set_range_length, length_replicate.
  split; [done|]. revert Hbc. clear Hin. unfold arena_init.
  destruct (0 <? _)%nat;
    cbn [block_count field_count blocks_purge blocks_committed blocks_dirty set_blocks_inuse];
    intros Hbc;
    (split; [|split; [|split; [|split; [|done]]]]).
  all: try (intros bm; destruct (is_pinned memid); [done|]; intros [= <-];
            try destruct (initially_committed memid); by rewrite length_replicate).
  all: try (intros bm [= <-]; by rewrite length_replicate).
  all: destruct (is_pinned memid); [by intros [? ?]|eauto].
Qed.

Lemma arena_init_tail env start size is_large numa_node exclusive memid meta_memid :
  MI_ARENA_BLOCK_SIZE <= size < 2 ^ 64 ->
  tail_claimed (arena_init env start size is_large numa_node exclusive memid meta_memid).
Proof.
  intros Hsize b Hb. unfold inuse. rewrite arena_init_inuse by done. cbv zeta.
  rewrite bm_get_set_range. apply orb_true_iff. left. apply andb_true_iff. split.
  - apply in_run_spec. lia.
  - apply Nat.ltb_lt. unfold bm_bits. rewrite length_replicate. lia.
Qed.

Lemma arena_wf_set_a_id v a : arena_wf (set_a_id v a) <-> arena_wf a.
Proof. done. Qed.

Lemma tails_new env (j : nat) start size is_large numa_node exclusive memid meta_memid :
  MI_ARENA_BLOCK_SIZE <= size -> size_t_size size ->
  arena_wf (set_a_id (mi_arena_id_create j)
              (arena_init env start size is_large numa_node exclusive memid meta_memid)) /\
  tail_claimed (set_a_id (mi_arena_id_create j)
              (arena_init env start size is_large numa_node exclusive memid meta_memid)).
Proof.
  intros H1 H2. split.
  - apply arena_wf_set_a_id, arena_init_wf. by split.
  - intros b Hb. by apply (arena_init_tail env start size is_large numa_node exclusive
                          memid meta_memid (conj H1 H2) b).
Qed.

Lemma size_t_size_align_up sz alignment :
  alignment <> 0 -> size_t_size (_mi_align_up sz alignment).
Proof. intros H. by apply _mi_align_up_range. Qed.

Lemma tails_alloc env (j : nat) n commit memid a r a' tr :
  arena_wf a /\ tail_claimed a ->
  mi_arena_try_alloc_at env j n commit memid a = Done r a' tr ->
  arena_wf a' /\ tail_claimed a'.
Proof.
  intros [Hwf Htail] H. destruct r as [p m].
  apply mi_arena_try_alloc_at_spec in H
    as [(-> & _)|(idx & _ & _ & _ & F & Hin & _)]; [done|].
  split; [by eapply arena_frame_wf|].
  intros b Hb. rewrite (fr_block_count _ _ F), (fr_field_count _ _ F) in Hb.
  unfold inuse. rewrite Hin, bm_get_set_range. apply orb_true_iff. right. by apply Htail.
Qed.

Lemma tails_free env (j : nat) all_committed blocks idx a r a' tr :
  arena_wf a /\ tail_claimed a -> free_in_bounds a idx blocks ->
  arena_free_blocks env all_committed blocks idx a = Done r a' tr ->
  arena_wf a' /\ tail_claimed a'.
Proof.
  intros [Hwf Htail] Hok H. pose proof (arena_free_blocks_frame _ _ _ _ _ _ _ _ H) as F.
  split; [by eapply arena_frame_wf|].
  apply arena_free_blocks_spec in H as (_ & _ & a1 & _ & -> & _).
  intros b Hb. cbn [block_count field_count set_blocks_inuse] in Hb.
  pose proof (fr_block_count _ _ F) as Hbc. pose proof (fr_field_count _ _ F) as Hfc.
  cbn [block_count field_count set_blocks_inuse] in Hbc, Hfc. rewrite Hbc, Hfc in Hb.
  unfold inuse. cbn [blocks_inuse set_blocks_inuse]. rewrite bm_get_clear_range.
  apply andb_true_iff. split; [|by apply Htail].
  apply negb_true_iff, not_true_iff_false. rewrite in_run_spec.
  unfold free_in_bounds in Hok. lia.
Qed.

Lemma tails_sweep (j : nat) a a' :
  sweep_rel a a' -> arena_wf a /\ tail_claimed a -> arena_wf a' /\ tail_claimed a'.
Proof.
  intros (F & Hin & _) [Hwf Htail]. split; [by eapply arena_frame_wf|].
  intros b Hb. rewrite (fr_block_count _ _ F), (fr_field_count _ _ F) in Hb.
  rewrite Hin. by apply Htail.
Qed.

Lemma within_blocks_alloc env (j : nat) n commit memid a r a' tr :
  arena_wf a /\ tail_claimed a ->
  mi_arena_try_alloc_at env j n commit memid a = Done r a' tr ->
  fst r <> 0 -> within_blocks j a' r n.
Proof.
  intros [Hwf Htail] H Hp. destruct r as [p m].
  apply mi_arena_try_alloc_at_spec in H
    as [(_ & -> & _)|(idx & Hn & Hrun & Hclear & F & _ & _ & -> & Hnames)]; [done|].
  exists idx. rewrite (fr_id _ _ F), (fr_exclusive _ _ F), (fr_block_count _ _ F),
    (fr_start _ _ F).
  split; [done|]. split; [|done].
  destruct (Nat.le_gt_cases (idx + n) (block_count a)) as [|Hgt]; [done|exfalso].
  rewrite bm_all_clear_spec in Hclear.
  specialize (Hclear (Nat.max idx (block_count a)) ltac:(lia)).
  specialize (Htail (Nat.max idx (block_count a)) ltac:(lia)).
  unfold inuse in Htail. congruence.
Qed.




(** ** C1: exclusive arenas and requests by id *)

Lemma mi_arena_id_index_create j : mi_arena_id_index (mi_arena_id_create j) = j.
Proof.
  unfold mi_arena_id_index, mi_arena_id_create.
  destruct (Z.leb_spec (Z.of_nat j + 1) 0); lia.
Qed.

Lemma suitable_inv arena_id excl req :
  mi_arena_id_is_suitable arena_id excl req = true ->
  (excl = false /\ req = _mi_arena_id_none) \/ arena_id = req.
Proof.
  unfold mi_arena_id_is_suitable.
  intros [[H1 H2]%andb_true_iff|H]%orb_true_iff.
  - left. split; [by apply negb_true_iff|by apply Z.eqb_eq].
  - right. by apply Z.eqb_eq.
Qed.

(** Claim C1.  In a registry whose arenas carry the ids of their slots (as
    [mi_arena_add] stores them), a non-NULL result of
    [_mi_arena_alloc_aligned] for a request that names arena [X] is memory
    of the arena registered under [X], and its memid names [X]; for a
    request that names no arena, a result of arena kind comes from a
    registered arena whose exclusive flag is clear. *)
Theorem exclusive_respect env s size alignment align_offset commit allow_large
    req_arena_id p memid s' tr :
  registry_ids s ->
  _mi_arena_alloc_aligned env size alignment align_offset commit allow_large req_arena_id s
    = Done (p, memid) s' tr ->
  p <> 0 ->
  (req_arena_id <> _mi_arena_id_none ->
   memkind memid = MI_MEM_ARENA /\ mem_arena_id memid = req_arena_id /\
   exists a, mi_arenas s' !! mi_arena_id_index req_arena_id = Some a /\
             a_id a = req_arena_id) /\
  (req_arena_id = _mi_arena_id_none -> memkind memid = MI_MEM_ARENA ->
   mem_arena_is_exclusive memid = false /\
   exists a, mi_arenas s' !! mi_arena_id_index (mem_arena_id memid) = Some a /\
             a_id a = mem_arena_id memid /\ exclusive a = false).
Proof.
  intros Hids Hrun Hp.
  pose proof (Inv_alloc_aligned _ any_size ids_alloc any_size_align_up ids_new
                _ _ _ _ _ _ _ _ _ _ _ Hids Hrun) as Hids'.
  pose proof (Res_alloc_aligned _ any_size names_arena ids_alloc names_arena_alloc
                any_size_align_up ids_new _ _ _ _ _ _ _ _ _ _ _ Hids Hrun Hp) as Hres.
  cbn [fst snd] in Hres.
  destruct Hres as [(j & a & Hj & Ha & Hsuit & idx & Hk & Hid & Hex & Hidx)|[Hreq Hk]].
  - cbn [fst snd] in Hk, Hid, Hex, Hidx.
    pose proof (Hids' _ _ Ha) as Hslot. cbn beta in Hslot.
    apply suitable_inv in Hsuit. split.
    + intros Hreq. destruct Hsuit as [[_ ?]|Heq]; [done|].
      split; [done|]. split; [congruence|].
      exists a. split; [|done]. by rewrite <- Heq, Hslot, mi_arena_id_index_create.
    + intros Hreq _. assert (Hexcl : exclusive a = false).
      { destruct Hsuit as [[? _]|Heq]; [done|].
        rewrite Hslot, Hreq in Heq. unfold mi_arena_id_create, _mi_arena_id_none in Heq.
        lia. }
      split; [congruence|]. exists a. rewrite Hid, Hslot, mi_arena_id_index_create.
      by rewrite <- Hslot.
  - split; [done|]. intros _ Hk'. congruence.
Qed.

(** ** C3: purge implies not in use *)

(** The concrete run, step by step. *)
Lemma demo_managed_run :
  exists tr, run_op env_demo
               (OpManage (1024 * MI_MiB) (256 * MI_MiB) true false true (-1) false)
               mi_state_init = Done tt demo_managed tr.
Proof. eexists. vm_compute. reflexivity. Qed.

Lemma demo_allocated_run :
  exists tr, run_op env_demo (OpAlloc (64 * MI_MiB) (64 * MI_MiB) 0 true false 0)
               demo_managed = Done tt demo_allocated tr.
Proof. eexists. vm_compute. reflexivity. Qed.

Lemma I1_state_demo_allocated : I1_state demo_allocated.
Proof.
  destruct demo_managed_run as (t1 & H1), demo_allocated_run as (t2 & H2).
  eapply I1_state_run_op; [|exact H2].
  eapply I1_state_run_op; [|exact H1]. apply I1_state_init.
Qed.

Lemma registry_ids_demo_managed : registry_ids demo_managed.
Proof.
  destruct demo_managed_run as (t1 & H1).
  eapply registry_ids_run_op; [|exact H1]. apply registry_ids_init.
Qed.

(** Between two atomic steps of the first free of the concrete run the
    freed block is scheduled for a purge while it is still in use: the
    state before the free satisfies I1, a state of its trace does not. *)
Lemma I1_broken_between_atomic_steps :
  I1_state demo_allocated /\
  trace_of demo_free_run !! 1%nat = Some demo_mid_free /\
  ~ I1_state demo_mid_free.
Proof.
  split; [apply I1_state_demo_allocated|split].
  - vm_compute. reflexivity.
  - intros HI.
    assert (Hbad : exists a, mi_arenas demo_mid_free !! 0%nat = Some a /\
                             purge a 0 = true /\ inuse a 0 = true).
    { eexists. split; [vm_compute; reflexivity|]. split; vm_compute; reflexivity. }
    destruct Hbad as (a & Ha & Hpurge & Hinuse).
    specialize (HI _ _ Ha _ Hpurge). congruence.
Qed.

(** Claim C3, amended.  I1 holds after every complete operation of the
    arena interface (allocation, free, purge sweep, taking over or reserving
    memory for a new arena) that starts in a state in which it holds: in
    every registered arena a block scheduled for a purge is not in use.  It
    is not claimed of the states between the atomic steps of one
    operation. *)
Theorem I1_after_every_operation env op s r s' tr :
  I1_state s -> run_op env op s = Done r s' tr -> I1_state s'.
Proof. apply I1_state_run_op. Qed.

(** ** C8: the tail bits *)




(** ** The theorems at concrete inputs *)

Lemma exclusive_respect_witness :
  registry_ids demo_managed /\ demo_p <> 0 /\
  mem_arena_is_exclusive demo_memid = false /\
  exists a, mi_arenas demo_allocated !! mi_arena_id_index (mem_arena_id demo_memid) = Some a /\
            a_id a = mem_arena_id demo_memid /\ exclusive a = false.
Proof.
  split; [apply registry_ids_demo_managed|].
  split; [vm_compute; discriminate|].
  apply (exclusive_respect env_demo demo_managed (64 * MI_MiB) (64 * MI_MiB) 0 true false 0
           demo_p demo_memid demo_allocated (trace_of demo_alloc_run)).
  - apply registry_ids_demo_managed.
  - vm_compute. reflexivity.
  - vm_compute. discriminate.
  - reflexivity.
  - vm_compute. reflexivity.
Defined.

Lemma double_free_reported_witness :
  demo_p <> 0 /\
  mi_arenas demo_freed !! mi_arena_id_index (mem_arena_id demo_memid) = Some demo_freed_arena /\
  bm_all_clear (blocks_inuse demo_freed_arena) (mem_arena_block_index demo_memid)
    (mi_block_count_of_size (64 * MI_MiB)) = true /\
  is_pinned (a_memid demo_freed_arena) = false /\
  0 < mi_arena_purge_delay env_demo /\ mi_preloading env_demo = false /\
  exists a' tr,
    _mi_arena_free env_demo demo_p (64 * MI_MiB) (64 * MI_MiB) demo_memid demo_freed
      = Done tt (set_mi_log (mi_log demo_freed ++ [EvError EAGAIN MsgAlreadyFreed])
                   (set_arena (mi_arena_id_index (mem_arena_id demo_memid)) a' demo_freed)) tr /\
    blocks_inuse a' = blocks_inuse demo_freed_arena /\
    blocks_dirty a' = blocks_dirty demo_freed_arena /\
    blocks_abandoned a' = blocks_abandoned demo_freed_arena /\
    (forall b, committed a' b = true -> committed demo_freed_arena b = true) /\
    (forall b, purge a' b
               = in_run (mem_arena_block_index demo_memid)
                   (mi_block_count_of_size (64 * MI_MiB)) b
                 || purge demo_freed_arena b) /\
    purge_expire a' = 1110.
Proof.
  split; [vm_compute; discriminate|].
  split; [vm_compute; reflexivity|].
  split; [vm_compute; reflexivity|].
  assert (Hpin : is_pinned (a_memid demo_freed_arena) = false) by (vm_compute; reflexivity).
  assert (Hdelay : 0 < mi_arena_purge_delay env_demo) by (vm_compute; reflexivity).
  assert (Hpre : mi_preloading env_demo = false) by reflexivity.
  split; [exact Hpin|]. split; [exact Hdelay|]. split; [exact Hpre|].
  destruct (double_free_reported env_demo demo_freed demo_p (64 * MI_MiB) (64 * MI_MiB)
              demo_memid demo_freed_arena)
    as (a' & tr & Hrun & Hi & Hd & Hab & _ & _ & Hmono & Hsched).
  - vm_compute. discriminate.
  - vm_compute. discriminate.
  - vm_compute. reflexivity.
  - vm_compute. split; [reflexivity|discriminate].
  - vm_compute. reflexivity.
  - unfold arena_wf. split; [vm_compute; reflexivity|].
    split; [intros bm H; vm_compute in H; injection H as <-; vm_compute; reflexivity|].
    split; [intros bm H; vm_compute in H; injection H as <-; vm_compute; reflexivity|].
    split; [intros bm H; vm_compute in H; injection H as <-; vm_compute; reflexivity|].
    split; [intros _; eexists; vm_compute; reflexivity|].
    vm_compute. lia.
  - vm_compute. lia.
  - vm_compute. lia.
  - vm_compute. reflexivity.
  - exists a', tr. split; [exact Hrun|]. split; [exact Hi|]. split; [exact Hd|].
    split; [exact Hab|]. split; [exact Hmono|].
    destruct Hsched as (_ & _ & _ & Hpos); [exact Hpin|eexists; vm_compute; reflexivity|].
    destruct (Hpos Hdelay Hpre) as (Hp & He & _). split; [exact Hp|exact He].
Defined.

Lemma I1_after_every_operation_witness :
  I1_state demo_allocated /\ I1_state demo_freed.
Proof.
  split; [apply I1_state_demo_allocated|].
  apply (I1_after_every_operation env_demo
           (OpFree demo_p (64 * MI_MiB) (64 * MI_MiB) demo_memid)
           demo_allocated tt demo_freed (trace_of demo_free_run)).
  - apply I1_state_demo_allocated.
  - vm_compute. reflexivity.
Defined.

Lemma mi_arena_try_claim_searches_from_field_0_witness :
  exists a' tr,
    mi_arena_try_claim 1 arena_cursor_at_1 = Done (Some 0%nat) a' tr /\
    search_idx a' = mi_bitmap_index_field 0 /\
    (0 + 1 <= field_count arena_cursor_at_1 * MI_BITMAP_FIELD_BITS)%nat /\
    bm_all_clear (blocks_inuse arena_cursor_at_1) 0 1 = true /\
    blocks_inuse a' = bm_set_range (blocks_inuse arena_cursor_at_1) 0 1 /\
    (forall q, (q < 0)%nat ->
       bm_run_free (blocks_inuse arena_cursor_at_1) (field_count arena_cursor_at_1) 1 q
       = false).
Proof.
  eexists _, _. split; [vm_compute; reflexivity|].
  eapply (proj1 (proj2 (mi_arena_try_claim_searches_from_field_0 arena_cursor_at_1 1))).
  vm_compute. reflexivity.
Defined.

Lemma arena_free_invalid_id_out_of_bounds_witness :
  demo_p <> 0 /\
  _mi_arena_free env_demo demo_p (64 * MI_MiB) (64 * MI_MiB)
    (mi_memid_create_arena 0 false 0) demo_freed = Fault.
Proof.
  split; [vm_compute; discriminate|].
  apply (arena_free_invalid_id_out_of_bounds env_demo demo_freed demo_p
           (64 * MI_MiB) (64 * MI_MiB) (mi_memid_create_arena 0 false 0)).
  - vm_compute. discriminate.
  - vm_compute. discriminate.
  - reflexivity.
  - left. vm_compute. discriminate.
Defined.


Lemma min_size_gate_witness :
  1024 < MI_ARENA_MIN_OBJ_SIZE /\
  exists p memid log',
    _mi_arena_alloc_aligned env_demo 1024 16 0 true false 0 mi_state_init
      = Done (p, memid) (set_mi_log log' mi_state_init) [] /\
    memkind memid <> MI_MEM_ARENA /\
    (p <> 0 -> memkind memid = MI_MEM_OS).
Proof.
  split; [reflexivity|].
  apply (min_size_gate env_demo mi_state_init 1024 16 0 true false 0). reflexivity.
Defined.

Lemma static_meta_arena_discipline_witness :
  static_ok mi_state_init /\
  exists start memid s' tr,
    mi_arena_static_zalloc 200 16 mi_state_init = Done (Some start, memid) s' tr /\
    start mod Z.max 16 MI_MAX_ALIGN_SIZE = 0 /\
    (forall base line,
       base mod line = 0 -> line mod Z.max 16 MI_MAX_ALIGN_SIZE = 0 ->
       mi_arena_static_ptr base start mod Z.max 16 MI_MAX_ALIGN_SIZE = 0) /\
    0 <= start /\ start + 200 <= MI_ARENA_STATIC_MAX /\
    (forall i, start <= i < start + 200 ->
               mi_arena_static s' !! Z.to_nat i = Some Byte.x00) /\
    memkind memid = MI_MEM_STATIC /\ initially_zero memid = true.
Proof.
  assert (Hok : static_ok mi_state_init).
  { split; [vm_compute; split; discriminate|]. apply length_replicate. }
  split; [exact Hok|].
  eexists _, _, _, _. split; [vm_compute; reflexivity|].
  eapply (proj1 static_meta_arena_discipline mi_state_init 200 16); [exact Hok| | |].
  - vm_compute. discriminate.
  - vm_compute. split; discriminate.
  - vm_compute. reflexivity.
Defined.

Lemma mi_arena_reserve_sizing_witness :
  mi_arena_reserve env_demo (64 * MI_MiB) false 0 0 mi_state_init
  = (do r <- mi_reserve_os_memory_ex env_demo (1024 * MI_MiB) true false false;
     ret (fst r =? 0, snd r)) mi_state_init /\
  mi_arena_reserve env_demo (2048 * MI_MiB) false 0 0 mi_state_init
  = Done (false, 0) mi_state_init [].
Proof.
  split.
  - apply (proj2 (mi_arena_reserve_sizing env_demo mi_state_init (64 * MI_MiB) false 0 0));
      [reflexivity|reflexivity|vm_compute; lia|vm_compute; discriminate
      |vm_compute; discriminate].
  - apply (proj1 (mi_arena_reserve_sizing env_demo mi_state_init (2048 * MI_MiB) false 0 0)).
    right. right. right. right. vm_compute. reflexivity.
Defined.

(** * Further properties of the arena code *)

Lemma size_wrap_nonneg x : 0 <= size_wrap x.
Proof. unfold size_wrap. apply Z.mod_pos_bound. done. Qed.

(** ** Arena ids and memids *)

(** Property X1.  An arena memid built for slot [i] decodes to that slot,
    block index and exclusive flag; its id is never the id that names no
    arena; it suits a request for its own arena, and a request that names no
    arena exactly when the arena is not exclusive. *)
Theorem arena_memid_round_trip (i : nat) (excl : bool) (idx : nat) :
  (i < MI_MAX_ARENAS)%nat ->
  let memid := mi_memid_create_arena (mi_arena_id_create i) excl idx in
  mi_arena_memid_indices memid = (i, idx, excl) /\
  mi_arena_id_create i <> _mi_arena_id_none /\
  _mi_arena_memid_is_suitable memid (mi_arena_id_create i) = true /\
  _mi_arena_memid_is_suitable memid _mi_arena_id_none = negb excl.
Proof.
  intros Hi memid. subst memid.
  unfold mi_arena_memid_indices, _mi_arena_memid_is_suitable, mi_arena_id_is_suitable.
  cbn [mi_memid_create_arena mem_arena_id mem_arena_block_index mem_arena_is_exclusive
       memkind mi_memkind_eqb].
  rewrite mi_arena_id_index_create.
  assert (Hne : mi_arena_id_create i <> _mi_arena_id_none)
    by (unfold mi_arena_id_create, _mi_arena_id_none; lia).
  split; [done|]. split; [done|]. split.
  - rewrite Z.eqb_refl. apply orb_true_r.
  - apply Z.eqb_neq in Hne. rewrite Hne, Z.eqb_refl. by destruct excl.
Qed.

Lemma names_arena_alloc_any env j n commit memid a r a' tr :
  mi_arena_try_alloc_at env j n commit memid a = Done r a' tr ->
  fst r <> 0 -> names_arena j a' r n.
Proof.
  intros H Hp. destruct r as [p m].
  apply mi_arena_try_alloc_at_spec in H
    as [(_ & -> & _)|(idx & _ & _ & _ & F & _ & _ & _ & Hn)]; [done|].
  exists idx. by rewrite (fr_id _ _ F), (fr_exclusive _ _ F).
Qed.

(** Property X2.  Whatever [_mi_arena_alloc_aligned] returns for a request,
    arena memory or OS memory, carries a memid that
    [_mi_arena_memid_is_suitable] accepts for that request. *)
Theorem alloc_result_is_suitable env s size alignment align_offset commit allow_large
    req_arena_id p memid s' tr :
  _mi_arena_alloc_aligned env size alignment align_offset commit allow_large req_arena_id s
    = Done (p, memid) s' tr ->
  p <> 0 ->
  _mi_arena_memid_is_suitable memid req_arena_id = true.
Proof.
  intros Hrun Hp.
  pose proof (Res_alloc_aligned (fun _ _ => True) any_size names_arena
                (fun _ _ _ _ _ _ _ _ _ _ _ => I)
                (fun env j n commit memid a r a' tr _ => names_arena_alloc_any env j n commit
                                                          memid a r a' tr)
                any_size_align_up (fun _ _ _ _ _ _ _ _ _ _ _ => I)
                _ _ _ _ _ _ _ _ _ _ _ (fun _ _ _ => I) Hrun Hp) as Hres.
  cbn [fst snd] in Hres. unfold _mi_arena_memid_is_suitable.
  destruct Hres as [(j & a & _ & _ & Hsuit & idx & Hk & Hid & Hex & _)|[-> Hk]].
  - cbn [fst snd] in Hk, Hid, Hex. by rewrite Hk, Hid, Hex.
  - cbn [snd] in Hk. by rewrite Hk.
Qed.

(** ** [mi_arena_area] *)

(** Property X3.  [mi_arena_area] checks the id it is given: for every id it
    returns without an invalid access and without changing the state; it
    returns NULL and size 0 for an id that is not positive, lies beyond the
    array or names an empty slot, and the start and size of the arena
    otherwise. *)
Theorem mi_arena_area_checks_id (arena_id : Z) (s : mi_state) :
  exists r, mi_arena_area arena_id s = Done r s [] /\
    (arena_id <= 0 \/ Z.of_nat MI_MAX_ARENAS < arena_id \/
     mi_arenas s !! mi_arena_id_index arena_id = None -> r = (0, 0)) /\
    (forall a, 0 < arena_id <= Z.of_nat MI_MAX_ARENAS ->
       mi_arenas s !! mi_arena_id_index arena_id = Some a ->
       r = (a_start a, mi_arena_size a)).
Proof.
  unfold mi_arena_area.
  destruct (Nat.leb_spec MI_MAX_ARENAS (mi_arena_id_index arena_id)) as [Hge|Hlt].
  - eexists. split; [reflexivity|]. split; [done|].
    intros a Hid _. unfold mi_arena_id_index in Hge.
    destruct (Z.leb_spec arena_id 0); lia.
  - assert (Hid : 0 < arena_id <= Z.of_nat MI_MAX_ARENAS).
    { unfold mi_arena_id_index in Hlt. destruct (Z.leb_spec arena_id 0); lia. }
    unfold bind, load_arena. apply Nat.ltb_lt in Hlt. rewrite Hlt.
    destruct (mi_arenas s !! mi_arena_id_index arena_id) as [a|] eqn:Ha.
    + eexists. split; [reflexivity|]. split.
      * intros [?|[?|?]]; [lia|lia|done].
      * by intros a' _ [= <-].
    + eexists. split; [reflexivity|]. split; [done|]. by intros a' _ ?.
Qed.

(** ** Steps that leave the registry, its count and the log alone *)

Lemma same_registry_refl s : same_registry s s.
Proof. done. Qed.

Lemma same_registry_trans s1 s2 s3 :
  same_registry s1 s2 -> same_registry s2 s3 -> same_registry s1 s3.
Proof. unfold same_registry. intros (? & ? & ?) (? & ? & ?). repeat split; congruence. Qed.

Lemma mi_arena_static_zalloc_same_registry size alignment :
  pres same_registry (mi_arena_static_zalloc size alignment).
Proof.
  unfold mi_arena_static_zalloc.
  apply pres_if; [apply (pres_ret _ same_registry_refl)|].
  apply (pres_bind _ same_registry_trans); [apply (pres_get _ same_registry_refl)|intros s0].
  apply pres_if; [apply (pres_ret _ same_registry_refl)|].
  apply pres_if; [apply (pres_ret _ same_registry_refl)|].
  apply (pres_bind _ same_registry_trans).
  { unfold atomic_add_static_top.
    apply (pres_bind _ same_registry_trans); [apply (pres_get _ same_registry_refl)|intros s1].
    apply (pres_bind _ same_registry_trans); [by apply pres_atomic|intros _].
    apply (pres_ret _ same_registry_refl). }
  intros oldtop. apply pres_if.
  - apply (pres_bind _ same_registry_trans); [|intros _; apply (pres_ret _ same_registry_refl)].
    apply pres_atomic. intros s. by destruct (_ =? _).
  - apply (pres_bind _ same_registry_trans); [|intros _; apply (pres_ret _ same_registry_refl)].
    intros s u s' tr. unfold memzero_static. destruct (_ && _); [|done].
    by intros [= _ <- _].
Qed.

Lemma mi_arena_meta_zalloc_same_registry env size :
  pres same_registry (mi_arena_meta_zalloc env size).
Proof.
  unfold mi_arena_meta_zalloc.
  apply (pres_bind _ same_registry_trans); [apply mi_arena_static_zalloc_same_registry|].
  intros [[i|] memid]; [apply (pres_ret _ same_registry_refl)|].
  destruct (_mi_os_alloc env size) as [p m].
  apply pres_if; apply (pres_ret _ same_registry_refl).
Qed.

(** What [mi_manage_os_memory_ex2] does to the registry. *)
Lemma mi_manage_os_memory_ex2_inv env start size is_large numa exclusive memid s r s' tr :
  mi_manage_os_memory_ex2 env start size is_large numa exclusive memid s = Done r s' tr ->
  (fst r = false /\ same_registry s s' /\ (snd r = _mi_arena_id_none \/ snd r = -1)) \/
  (fst r = true /\ MI_ARENA_BLOCK_SIZE <= size /\
   (mi_arena_count s < MI_MAX_ARENAS)%nat /\
   snd r = mi_arena_id_create (mi_arena_count s) /\
   mi_arena_count s' = S (mi_arena_count s) /\
   mi_log s' = mi_log s /\
   exists meta_memid,
     mi_arenas s'
     = <[mi_arena_count s :=
           set_a_id (snd r) (arena_init env start size is_large numa exclusive memid
                               meta_memid)]> (mi_arenas s)).
Proof.
  unfold mi_manage_os_memory_ex2.
  destruct (Z.ltb_spec size MI_ARENA_BLOCK_SIZE) as [Hlt|Hge].
  { intros H. minv1 H. left. split; [done|]. split; [done|]. by left. }
  intros H. apply bind_Done in H as (r1 & s1 & t1 & t2 & H1 & H2 & ->).
  apply mi_arena_meta_zalloc_same_registry in H1 as (Ha & Hc & Hl).
  destruct r1 as [[mp|] meta].
  2:{ minv1 H2. left. split; [done|]. split; [done|]. by left. }
  rewrite mi_arena_add_eval in H2. cbv zeta in H2.
  destruct (Nat.leb_spec MI_MAX_ARENAS (mi_arena_count s1)) as [Hfull|Hroom].
  - injection H2 as <- <- _. left. split; [done|]. split; [done|]. by right.
  - injection H2 as <- <- _. right. cbn [fst snd].
    split; [done|]. split; [done|]. split; [lia|].
    split; [unfold mi_arena_id_create; by rewrite Hc|].
    split; [by rewrite <- Hc|]. split; [done|].
    exists meta. cbn [set_arena set_mi_arenas set_mi_arena_count mi_arenas]. by rewrite Hc, Ha.
Qed.

(** ** Taking over memory for an arena *)

Lemma arena_init_plain env start size large numa excl memid meta_memid :
  let a := arena_init env start size large numa excl memid meta_memid in
  a_start a = start /\ a_memid a = memid /\ exclusive a = excl /\
  a_numa_node a = numa /\ is_large a = large /\ purge_expire a = 0 /\
  blocks_purge a = (if is_pinned memid then None else Some (replicate (field_count a) 0)) /\
  blocks_committed a
  = (if is_pinned memid then None
     else Some (if initially_committed memid then replicate (field_count a) (Z.ones 64)
                else replicate (field_count a) 0)) /\
  blocks_abandoned a = replicate (field_count a) 0.
Proof. cbv zeta. unfold arena_init. by destruct (0 <? _)%nat. Qed.

Lemma bm_get_ones n b :
  (b < n * MI_BITMAP_FIELD_BITS)%nat -> bm_get (replicate n (Z.ones 64)) b = true.
Proof.
  intros Hb. unfold bm_get, mi_bitmap_index_field, mi_bitmap_index_bit_in_field.
  assert (Hf : (b / MI_BITMAP_FIELD_BITS < n)%nat).
  { apply Nat.Div0.div_lt_upper_bound. unfold MI_BITMAP_FIELD_BITS in *. lia. }
  rewrite (lookup_replicate_2 _ _ _ Hf).
  apply Z.ones_spec_low.
  pose proof (Nat.mod_upper_bound b MI_BITMAP_FIELD_BITS ltac:(done)) as Hm.
  unfold MI_BITMAP_FIELD_BITS in *. lia.
Qed.

Lemma arena_init_free_below env start size large numa excl memid meta_memid b :
  MI_ARENA_BLOCK_SIZE <= size < 2 ^ 64 ->
  let a := arena_init env start size large numa excl memid meta_memid in
  (b < block_count a)%nat -> inuse a b = false.
Proof.
  intros Hsize a Hb. unfold inuse. subst a.
  rewrite arena_init_inuse by done. cbv zeta.
  rewrite bm_get_set_range, bm_get_zeros, orb_false_r.
  apply andb_false_iff. left. apply not_true_is_false. intros Hin.
  apply in_run_spec in Hin. lia.
Qed.

Lemma arena_init_committed env start size large numa excl memid meta_memid b :
  MI_ARENA_BLOCK_SIZE <= size < 2 ^ 64 ->
  let a := arena_init env start size large numa excl memid meta_memid in
  (b < block_count a)%nat ->
  committed a b = is_pinned memid || initially_committed memid.
Proof.
  intros Hsize a Hb.
  pose proof (arena_init_geometry env start size large numa excl memid meta_memid Hsize)
    as (_ & Hbc & _).
  pose proof (arena_init_plain env start size large numa excl memid meta_memid)
    as (_ & _ & _ & _ & _ & _ & _ & Hc & _).
  cbv zeta in Hbc, Hc. fold a in Hbc, Hc. unfold committed. rewrite Hc.
  destruct (is_pinned memid); [done|]. cbn [orb].
  destruct (initially_committed memid); [apply bm_get_ones; lia|apply bm_get_zeros].
Qed.

(** Property X4.  A successful [mi_manage_os_memory_ex] registers, in the slot
    at the old count, an arena that starts at the given address, manages the
    whole blocks that fit the given size, has every one of its blocks free and
    none scheduled for a purge; every other slot is as it was. *)
Theorem managed_arena_starts_empty env start size is_committed large is_zero numa excl
    s id s' tr :
  size < 2 ^ 64 ->
  mi_manage_os_memory_ex env start size is_committed large is_zero numa excl s
    = Done (true, id) s' tr ->
  id = mi_arena_id_create (mi_arena_count s) /\
  mi_arena_count s' = S (mi_arena_count s) /\
  (forall j, j <> mi_arena_count s -> mi_arenas s' !! j = mi_arenas s !! j) /\
  exists a, mi_arenas s' !! mi_arena_count s = Some a /\
    a_id a = id /\ a_start a = start /\ exclusive a = excl /\ a_numa_node a = numa /\
    memkind (a_memid a) = MI_MEM_EXTERNAL /\
    Z.of_nat (block_count a) = size / MI_ARENA_BLOCK_SIZE /\
    purge_expire a = 0 /\
    (forall b, (b < block_count a)%nat -> inuse a b = false) /\
    (forall b, purge a b = false) /\
    (forall b, (b < block_count a)%nat -> committed a b = large || is_committed).
Proof.
  intros Hsz H. unfold mi_manage_os_memory_ex in H.
  apply mi_manage_os_memory_ex2_inv in H
    as [(Hf & _)|(_ & Hge & Hroom & Hid & Hcount & _ & meta & Harenas)]; [done|].
  cbn [snd] in Hid, Harenas.
  split; [done|]. split; [done|]. split.
  { intros j Hj. rewrite Harenas. by apply lookup_insert_ne. }
  eexists. split; [rewrite Harenas; apply lookup_insert_eq|].
  set (memid := mk_memid MI_MEM_EXTERNAL 0 0 false large is_committed is_zero).
  pose proof (arena_init_plain env start size large numa excl memid meta)
    as (H1 & H2 & H3 & H4 & _ & H6 & H7 & _).
  pose proof (arena_init_geometry env start size large numa excl memid meta (conj Hge Hsz))
    as (_ & _ & _ & Hbc).
  cbv zeta in H1, H2, H3, H4, H6, H7, Hbc.
  split; [done|]. split; [exact H1|]. split; [exact H3|]. split; [exact H4|].
  split; [by rewrite (H2 : a_memid (set_a_id id _) = memid)|].
  split; [exact Hbc|]. split; [exact H6|]. split; [|split].
  - intros b Hb. by apply (arena_init_free_below env start size large numa excl memid meta b).
  - intros b. unfold purge.
    rewrite (H7 : blocks_purge (set_a_id id _) = _).
    destruct (is_pinned memid); [done|apply bm_get_zeros].
  - intros b Hb.
    apply (arena_init_committed env start size large numa excl memid meta b (conj Hge Hsz) Hb).
Qed.

(** Property X5.  A failed [mi_manage_os_memory_ex] leaves the registry, the
    count and the log as they were.  It fails at once, in the state it started
    from, for a region smaller than one arena block, and it fails when all
    slots of the registry are taken. *)
Theorem manage_fails_cleanly env start size is_committed large is_zero numa excl s :
  (forall id s' tr,
     mi_manage_os_memory_ex env start size is_committed large is_zero numa excl s
       = Done (false, id) s' tr ->
     mi_arenas s' = mi_arenas s /\ mi_arena_count s' = mi_arena_count s /\
     mi_log s' = mi_log s /\ (id = _mi_arena_id_none \/ id = -1)) /\
  (size < MI_ARENA_BLOCK_SIZE ->
     mi_manage_os_memory_ex env start size is_committed large is_zero numa excl s
       = Done (false, _mi_arena_id_none) s []) /\
  (forall r s' tr,
     (MI_MAX_ARENAS <= mi_arena_count s)%nat ->
     mi_manage_os_memory_ex env start size is_committed large is_zero numa excl s
       = Done r s' tr -> fst r = false).
Proof.
  unfold mi_manage_os_memory_ex. split; [|split].
  - intros id s' tr H.
    apply mi_manage_os_memory_ex2_inv in H as [(_ & (? & ? & ?) & Hid)|(Hf & _)]; [|done].
    done.
  - intros Hlt. unfold mi_manage_os_memory_ex2.
    apply Z.ltb_lt in Hlt. by rewrite Hlt.
  - intros r s' tr Hfull H.
    apply mi_manage_os_memory_ex2_inv in H as [(Hf & _)|(_ & _ & Hroom & _)]; [done|lia].
Qed.

(** Property X6.  After a successful [mi_manage_os_memory_ex], [mi_arena_area]
    of the id it returned gives back the start address, and the size rounded
    down to whole arena blocks. *)
Theorem managed_area_round_trip env start size is_committed large is_zero numa excl
    s id s' tr :
  size < 2 ^ 64 ->
  mi_manage_os_memory_ex env start size is_committed large is_zero numa excl s
    = Done (true, id) s' tr ->
  mi_arena_area id s'
  = Done (start, size / MI_ARENA_BLOCK_SIZE * MI_ARENA_BLOCK_SIZE) s' [].
Proof.
  intros Hsz H. unfold mi_manage_os_memory_ex in H.
  apply mi_manage_os_memory_ex2_inv in H
    as [(Hf & _)|(_ & Hge & Hroom & Hid & Hcount & _ & meta & Harenas)]; [done|].
  cbn [snd] in Hid, Harenas.
  set (memid := mk_memid MI_MEM_EXTERNAL 0 0 false large is_committed is_zero) in *.
  pose proof (arena_init_geometry env start size large numa excl memid meta (conj Hge Hsz))
    as (_ & _ & _ & Hbc).
  pose proof (arena_init_plain env start size large numa excl memid meta) as (H1 & _).
  cbv zeta in Hbc, H1.
  unfold mi_arena_area. rewrite Hid, mi_arena_id_index_create.
  apply Nat.leb_gt in Hroom as Hleb. rewrite Hleb.
  unfold bind, load_arena. apply Nat.ltb_lt in Hroom as Hltb. rewrite Hltb.
  rewrite Harenas, lookup_insert_eq. unfold ret.
  cbn [set_a_id a_start block_count]. rewrite H1. unfold mi_arena_block_size. rewrite Hbc.
  rewrite size_wrap_small; [done|].
  assert (HB : MI_ARENA_BLOCK_SIZE = 67108864) by reflexivity. rewrite HB in *.
  pose proof (Z.mul_div_le size 67108864 ltac:(lia)).
  pose proof (Z.div_pos size 67108864 ltac:(lia) ltac:(lia)). lia.
Qed.

(** Property X7.  [mi_reserve_os_memory_ex] either registers an arena on the
    memory the OS gave, in the slot at the old count and of the requested size
    rounded up to whole arena blocks, and returns 0; or it returns [ENOMEM],
    leaves the registry and the count as they were, and has handed back to the
    OS whatever memory it had obtained. *)
Theorem reserve_os_memory_outcome env size commit allow_large excl s err id s' tr :
  mi_reserve_os_memory_ex env size commit allow_large excl s = Done (err, id) s' tr ->
  let asize := _mi_align_up size MI_ARENA_BLOCK_SIZE in
  let start := fst (_mi_os_alloc_aligned env asize MI_SEGMENT_ALIGN commit allow_large) in
  (err = 0 /\ start <> 0 /\ mi_log s' = mi_log s /\
   mi_arena_count s' = S (mi_arena_count s) /\
   id = mi_arena_id_create (mi_arena_count s) /\
   exists a, mi_arenas s' !! mi_arena_count s = Some a /\
     a_id a = id /\ a_start a = start /\ exclusive a = excl /\ a_numa_node a = -1 /\
     a_memid a = snd (_mi_os_alloc_aligned env asize MI_SEGMENT_ALIGN commit allow_large) /\
     block_count a = Z.to_nat (asize / MI_ARENA_BLOCK_SIZE))
  \/
  (err = ENOMEM /\ mi_arenas s' = mi_arenas s /\ mi_arena_count s' = mi_arena_count s /\
   mi_log s' = mi_log s ++ (if start =? 0 then [] else [EvOsFree start asize])).
Proof.
  intros H. cbv zeta. unfold mi_reserve_os_memory_ex in H.
  destruct (_mi_os_alloc_aligned env (_mi_align_up size MI_ARENA_BLOCK_SIZE) MI_SEGMENT_ALIGN
              commit allow_large) as [start memid] eqn:Hos.
  cbn [fst snd].
  destruct (Z.eqb_spec start 0) as [Hz|Hnz].
  { minv1 H. right. by rewrite app_nil_r. }
  apply bind_Done in H as (r & s1 & t1 & t2 & H1 & H2 & ->).
  apply mi_manage_os_memory_ex2_inv in H1
    as [(Hf & (Ha & Hc & Hl) & _)|(Hf & Hge & Hroom & Hid & Hcount & Hl & meta & Harenas)];
    rewrite Hf in H2; cbn [negb] in H2.
  - apply bind_Done in H2 as (u & s2 & t3 & t4 & H2 & H3 & ->).
    unfold emit in H2. minv1 H2. minv1 H3. right.
    cbn [set_mi_log mi_arenas mi_arena_count mi_log]. by rewrite Ha, Hc, Hl.
  - minv1 H2. left. split; [done|]. split; [done|]. split; [done|]. split; [done|].
    split; [done|]. eexists. split; [rewrite Harenas; apply lookup_insert_eq|].
    pose proof (arena_init_plain env start (_mi_align_up size MI_ARENA_BLOCK_SIZE)
                  (is_pinned memid) (-1) excl memid meta) as (H1 & H2 & H3 & H4 & _).
    cbv zeta in H1, H2, H3, H4.
    split; [done|]. split; [exact H1|]. split; [exact H3|]. split; [exact H4|].
    split; [exact H2|].
    apply (arena_init_block_count env start (_mi_align_up size MI_ARENA_BLOCK_SIZE)
             (is_pinned memid) (-1) excl memid meta).
Qed.

(** ** [_mi_arena_contains] *)

Lemma arena_contains_loop_spec p s indices :
  (forall i, i ∈ indices -> (i < MI_MAX_ARENAS)%nat) ->
  exists b, arena_contains_loop indices p s = Done b s [] /\
    (b = true <-> exists i a, i ∈ indices /\ mi_arenas s !! i = Some a /\ arena_has a p).
Proof.
  induction indices as [|i rest IH]; intros Hin; cbn [arena_contains_loop].
  - exists false. split; [done|]. split; [done|]. intros (i & a & Hi & _).
    by apply elem_of_nil in Hi.
  - destruct IH as (b & Hrun & Hb); [intros j Hj; apply Hin; by right|].
    unfold bind, load_arena.
    assert (Hi : (i <? MI_MAX_ARENAS)%nat = true) by (apply Nat.ltb_lt, Hin; by left).
    rewrite Hi.
    destruct (mi_arenas s !! i) as [a|] eqn:Ha.
    + destruct ((a_start a <=? p)
                && (p <? a_start a + mi_arena_block_size (block_count a))) eqn:Hp.
      * exists true. split; [done|]. split; [|done]. intros _.
        exists i, a. split; [by left|]. split; [done|].
        apply andb_true_iff in Hp as [H1 H2]. unfold arena_has. lia.
      * rewrite Hrun. exists b. split; [done|]. rewrite Hb. split.
        -- intros (j & a' & Hj & Ha' & Hp'). exists j, a'. split; [by right|done].
        -- intros (j & a' & Hj & Ha' & Hp'). apply elem_of_cons in Hj as [->|Hj].
           ++ rewrite Ha in Ha'. injection Ha' as <-. unfold arena_has in Hp'.
              apply andb_false_iff in Hp as [Hp|Hp]; lia.
           ++ by exists j, a'.
    + rewrite Hrun. exists b. split; [done|]. rewrite Hb. split.
      * intros (j & a' & Hj & Ha' & Hp'). exists j, a'. split; [by right|done].
      * intros (j & a' & Hj & Ha' & Hp'). apply elem_of_cons in Hj as [->|Hj].
        -- congruence.
        -- by exists j, a'.
Qed.

Lemma _mi_arena_contains_iff (p : Z) (s : mi_state) :
  (mi_arena_count s <= MI_MAX_ARENAS)%nat ->
  exists b, _mi_arena_contains p s = Done b s [] /\
    (b = true <->
     exists i a, (i < mi_arena_count s)%nat /\ mi_arenas s !! i = Some a /\ arena_has a p).
Proof.
  intros Hcount. unfold _mi_arena_contains. rewrite bind_get_eq.
  destruct (arena_contains_loop_spec p s (seq 0 (mi_arena_count s))) as (b & Hrun & Hb).
  { intros i Hi. apply elem_of_seq in Hi. lia. }
  exists b. split; [done|]. rewrite Hb. split.
  - intros (i & a & Hi & Ha & Hp). exists i, a. apply elem_of_seq in Hi. split; [lia|done].
  - intros (i & a & Hi & Ha & Hp). exists i, a. split; [apply elem_of_seq; lia|done].
Qed.

(** Property X8.  With the count within the array, [_mi_arena_contains]
    returns without an invalid access and without changing the state, and it
    answers true exactly for the addresses that lie within the memory of an
    arena registered below the count. *)
Theorem mi_arena_contains_spec (p : Z) (s : mi_state) :
  (mi_arena_count s <= MI_MAX_ARENAS)%nat ->
  exists b, _mi_arena_contains p s = Done b s [] /\
    (b = true <->
     exists i a, (i < mi_arena_count s)%nat /\ mi_arenas s !! i = Some a /\ arena_has a p).
Proof. apply _mi_arena_contains_iff. Qed.


(** ** How the operations relate the registry before and after

    The argument is made once, for a relation [R] on arenas that is
    reflexive and transitive and holds across an allocation in an arena,
    across the release of a run of blocks and across a purge sweep. *)

Lemma registry_bounded_init : registry_bounded mi_state_init.
Proof.
  split; [unfold mi_state_init, MI_MAX_ARENAS; cbn; lia|].
  intros j [a Ha]. unfold mi_state_init in Ha. cbn [mi_arenas] in Ha.
  by rewrite lookup_empty in Ha.
Qed.

Section Registry.
Variable R : mi_arena_t -> mi_arena_t -> Prop.
Hypothesis R_refl : forall a, R a a.
Hypothesis R_trans : forall a1 a2 a3, R a1 a2 -> R a2 a3 -> R a1 a3.
Hypothesis R_alloc : forall env j n commit memid,
  pres R (mi_arena_try_alloc_at env j n commit memid).
Hypothesis R_free : forall env all_committed blocks idx,
  pres R (arena_free_blocks env all_committed blocks idx).
Hypothesis R_sweep : forall a a', sweep_rel a a' -> R a a'.

Lemma arenas_rel_refl s : arenas_rel R s s.
Proof.
  repeat split. intros j. destruct (mi_arenas s !! j); constructor. apply R_refl.
Qed.

Lemma arenas_rel_trans s1 s2 s3 : arenas_rel R s1 s2 -> arenas_rel R s2 s3 -> arenas_rel R s1 s3.
Proof.
  intros (C1 & B1 & T1 & H1) (C2 & B2 & T2 & H2).
  split; [congruence|]. split; [congruence|]. split; [congruence|].
  intros j. specialize (H1 j). specialize (H2 j).
  destruct H1 as [a1 a2 H12|]; inversion H2; subst; constructor. by eapply R_trans.
Qed.

Lemma arenas_rel_bounded s s' : arenas_rel R s s' -> registry_bounded s -> registry_bounded s'.
Proof.
  intros (C & _ & _ & H) [Hc Hk]. split; [by rewrite C|].
  intros j [a' Ha']. rewrite C. apply Hk. specialize (H j). rewrite Ha' in H.
  inversion H. eauto.
Qed.

Lemma arenas_rel_registry s s' : arenas_rel R s s' -> registry_rel R s s'.
Proof.
  intros (C & _ & _ & H). split; [by rewrite C|].
  intros j a Ha. specialize (H j). rewrite Ha in H. inversion H. eauto.
Qed.

Lemma with_arena_arenas_rel {A} i (m : M mi_arena_t A) :
  pres R m -> pres (arenas_rel R) (with_arena i m).
Proof.
  intros Hm s x s' tr H.
  apply with_arena_inv in H as (a & a' & tr' & Ha & Hrun & -> & _).
  repeat split. intros j. cbn [set_arena set_mi_arenas mi_arenas].
  rewrite lookup_insert. case_decide as E.
  - subst j. rewrite Ha. constructor. eapply Hm, Hrun.
  - destruct (mi_arenas s !! j); constructor. apply R_refl.
Qed.

Lemma emit_arenas_rel e : pres (arenas_rel R) (emit e).
Proof. apply pres_modify. intros s. apply (arenas_rel_refl s). Qed.

Lemma load_arena_arenas_rel i : pres (arenas_rel R) (load_arena i).
Proof.
  intros s r s' tr H. apply load_arena_inv in H as (_ & _ & -> & _). apply arenas_rel_refl.
Qed.

Lemma set_purge_guard_arenas_rel b : pres (arenas_rel R) (atomic (set_purge_guard b)).
Proof. apply pres_atomic. intros s. apply (arenas_rel_refl s). Qed.

Local Abbreviation A_ret := (pres_ret _ arenas_rel_refl).
Local Abbreviation A_bind := (pres_bind _ arenas_rel_trans).

Lemma try_alloc_at_id_arenas_rel env arena_id match_numa numa size alignment commit
    allow_large req memid :
  pres (arenas_rel R)
    (mi_arena_try_alloc_at_id env arena_id match_numa numa size alignment commit allow_large
       req memid).
Proof.
  unfold mi_arena_try_alloc_at_id. cbv zeta.
  apply A_bind; [apply load_arena_arenas_rel|intros [arena|]]; [|apply A_ret].
  apply pres_if; [apply A_ret|]. apply pres_if; [apply A_ret|].
  apply pres_if; [apply A_ret|]. apply with_arena_arenas_rel, R_alloc.
Qed.

Lemma try_alloc_loop_arenas_rel env indices : forall match_numa numa size alignment commit
    allow_large req memid,
  pres (arenas_rel R)
    (try_alloc_loop env indices match_numa numa size alignment commit allow_large req memid).
Proof.
  induction indices as [|i rest IH]; intros; cbn [try_alloc_loop]; [apply A_ret|].
  apply A_bind; [apply try_alloc_at_id_arenas_rel|intros r].
  apply pres_if; [apply A_ret|apply IH].
Qed.

Lemma try_alloc_arenas_rel env numa size alignment commit allow_large req memid :
  pres (arenas_rel R) (mi_arena_try_alloc env numa size alignment commit allow_large req memid).
Proof.
  unfold mi_arena_try_alloc. cbv zeta.
  apply A_bind; [apply (pres_get _ arenas_rel_refl)|intros s0].
  apply pres_if; [apply A_ret|]. apply pres_if.
  - apply pres_if; [|apply A_ret].
    apply A_bind; [apply try_alloc_at_id_arenas_rel|intros r].
    apply pres_if; apply A_ret.
  - apply A_bind; [apply try_alloc_loop_arenas_rel|intros r].
    apply pres_if; [apply A_ret|]. apply pres_if; [|apply A_ret].
    apply A_bind; [apply try_alloc_loop_arenas_rel|intros r2].
    apply pres_if; apply A_ret.
Qed.

Lemma arenas_try_purge_loop_arenas_rel env indices : forall now force max_purge_count,
  pres (arenas_rel R) (arenas_try_purge_loop env indices now force max_purge_count).
Proof.
  induction indices as [|i rest IH]; intros; cbn [arenas_try_purge_loop]; [apply A_ret|].
  apply A_bind; [apply load_arena_arenas_rel|intros [arena|]]; [|apply IH].
  apply A_bind.
  - apply with_arena_arenas_rel. intros a x a' tr H. eapply R_sweep, mi_arena_try_purge_rel, H.
  - intros purged. apply pres_if; [|apply IH]. apply pres_if; [apply A_ret|apply IH].
Qed.

Lemma arenas_try_purge_arenas_rel env force visit_all :
  pres (arenas_rel R) (mi_arenas_try_purge env force visit_all).
Proof.
  unfold mi_arenas_try_purge. cbv zeta.
  apply pres_if; [apply A_ret|].
  apply A_bind; [apply (pres_get _ arenas_rel_refl)|intros s0].
  apply pres_if; [apply A_ret|]. apply pres_if; [apply A_ret|].
  apply A_bind; [apply set_purge_guard_arenas_rel|intros _].
  apply A_bind; [apply arenas_try_purge_loop_arenas_rel|intros _].
  apply set_purge_guard_arenas_rel.
Qed.

Lemma arena_free_in_arena_arenas_rel env p size csize memid :
  pres (arenas_rel R) (arena_free_in_arena env p size csize memid).
Proof.
  unfold arena_free_in_arena, mi_arena_memid_indices, _mi_error_message. cbv zeta.
  apply A_bind; [apply load_arena_arenas_rel|intros [arena|]].
  - apply pres_if; [apply A_bind; [apply emit_arenas_rel|intros _; apply A_ret]|].
    apply A_bind; [apply with_arena_arenas_rel, R_free|intros all_inuse].
    apply pres_if; [|apply A_ret].
    apply A_bind; [apply emit_arenas_rel|intros _; apply A_ret].
  - apply A_bind; [apply emit_arenas_rel|intros _; apply A_ret].
Qed.

Lemma arena_free_arenas_rel env p size csize memid :
  pres (arenas_rel R) (_mi_arena_free env p size csize memid).
Proof.
  unfold _mi_arena_free.
  apply pres_if; [apply A_ret|]. apply pres_if; [apply A_ret|].
  apply A_bind.
  - apply pres_if; [apply A_bind; [apply emit_arenas_rel|intros _; apply A_ret]|].
    apply pres_if; [apply arena_free_in_arena_arenas_rel|apply A_ret].
  - intros continue. apply pres_if; [apply arenas_try_purge_arenas_rel|apply A_ret].
Qed.

(** Steps that may add an arena. *)

Lemma registry_rel_refl s : registry_rel R s s.
Proof. split; [done|]. intros j a Ha. eauto. Qed.

Lemma registry_rel_trans s1 s2 s3 :
  registry_rel R s1 s2 -> registry_rel R s2 s3 -> registry_rel R s1 s3.
Proof.
  intros [C1 H1] [C2 H2]. split; [lia|]. intros j a Ha.
  destruct (H1 _ _ Ha) as (a2 & Ha2 & R12). destruct (H2 _ _ Ha2) as (a3 & Ha3 & R23).
  exists a3. split; [done|]. by eapply R_trans.
Qed.

Lemma grow_rel_refl s : grow_rel R s s.
Proof. intros Hb. split; [done|apply registry_rel_refl]. Qed.

Lemma grow_rel_trans s1 s2 s3 : grow_rel R s1 s2 -> grow_rel R s2 s3 -> grow_rel R s1 s3.
Proof.
  intros H1 H2 Hb. destruct (H1 Hb) as [Hb2 R12]. destruct (H2 Hb2) as [Hb3 R23].
  split; [done|]. by eapply registry_rel_trans.
Qed.

Lemma arenas_rel_grow s s' : arenas_rel R s s' -> grow_rel R s s'.
Proof.
  intros H Hb. split; [by eapply arenas_rel_bounded|by apply arenas_rel_registry].
Qed.

Lemma same_registry_grow s s' : same_registry s s' -> grow_rel R s s'.
Proof.
  intros (Ha & Hc & _) [Hb Hk]. split; [split|split].
  - by rewrite Hc.
  - intros j. rewrite Ha, Hc. apply Hk.
  - by rewrite Hc.
  - intros j a Hj. rewrite Ha. eauto.
Qed.

Local Abbreviation G_ret := (pres_ret _ grow_rel_refl).
Local Abbreviation G_bind := (pres_bind _ grow_rel_trans).

Lemma mi_arena_add_grow arena : pres (grow_rel R) (mi_arena_add arena).
Proof.
  intros s r s' tr H [Hb Hk]. rewrite mi_arena_add_eval in H. cbv zeta in H.
  destruct (Nat.leb_spec MI_MAX_ARENAS (mi_arena_count s)) as [Hfull|Hroom].
  - injection H as _ <- _. split; [done|apply registry_rel_refl].
  - injection H as _ <- _.
    split; [split|split];
      cbn [set_arena set_mi_arenas set_mi_arena_count mi_arenas mi_arena_count].
    + lia.
    + intros j. rewrite lookup_insert. case_decide as E; [lia|].
      intros Hj. apply Hk in Hj. lia.
    + lia.
    + intros j a Hj. exists a. split; [|apply R_refl].
      rewrite lookup_insert_ne; [done|]. intros <-.
      assert (mi_arena_count s < mi_arena_count s)%nat by (apply Hk; eauto). lia.
Qed.

Lemma manage_ex2_grow env start size large numa excl memid :
  pres (grow_rel R) (mi_manage_os_memory_ex2 env start size large numa excl memid).
Proof.
  unfold mi_manage_os_memory_ex2. cbv zeta.
  apply pres_if; [apply G_ret|].
  apply G_bind.
  - eapply pres_weaken; [apply same_registry_grow|apply mi_arena_meta_zalloc_same_registry].
  - intros [[mp|] meta]; [apply mi_arena_add_grow|apply G_ret].
Qed.

Lemma reserve_os_memory_ex_grow env size commit allow_large excl :
  pres (grow_rel R) (mi_reserve_os_memory_ex env size commit allow_large excl).
Proof.
  unfold mi_reserve_os_memory_ex. cbv zeta.
  destruct (_mi_os_alloc_aligned _ _ _ _ _) as [start memid].
  apply pres_if; [apply G_ret|].
  apply G_bind; [apply manage_ex2_grow|intros r].
  apply pres_if; [|apply G_ret].
  apply G_bind; [|intros _; apply G_ret].
  eapply pres_weaken; [apply arenas_rel_grow|apply emit_arenas_rel].
Qed.

Lemma arena_reserve_grow env req_size allow_large req arena_id :
  pres (grow_rel R) (mi_arena_reserve env req_size allow_large req arena_id).
Proof.
  unfold mi_arena_reserve.
  apply G_bind; [apply (pres_get _ grow_rel_refl)|intros s0].
  destruct (mi_arena_reserve_target _ _ _ _) as [[sz c]|]; [|apply G_ret].
  apply G_bind; [apply reserve_os_memory_ex_grow|intros r; apply G_ret].
Qed.

Lemma alloc_aligned_grow env size alignment align_offset commit allow_large req :
  pres (grow_rel R)
    (_mi_arena_alloc_aligned env size alignment align_offset commit allow_large req).
Proof.
  unfold _mi_arena_alloc_aligned. cbv zeta.
  apply G_bind.
  - apply pres_if; [|apply G_ret]. apply pres_if; [|apply G_ret].
    apply G_bind.
    { eapply pres_weaken; [apply arenas_rel_grow|apply try_alloc_arenas_rel]. }
    intros r. apply pres_if; [apply G_ret|]. apply pres_if; [|apply G_ret].
    apply G_bind; [apply arena_reserve_grow|intros res].
    apply pres_if; [|apply G_ret].
    apply G_bind.
    { eapply pres_weaken; [apply arenas_rel_grow|apply try_alloc_at_id_arenas_rel]. }
    intros r2. apply pres_if; apply G_ret.
  - intros r. apply pres_if; [apply G_ret|]. apply pres_if.
    + apply G_bind; [|intros _; apply G_ret].
      eapply pres_weaken; [apply arenas_rel_grow|apply emit_arenas_rel].
    + apply pres_if; apply G_ret.
Qed.

Lemma run_op_grow env op : pres (grow_rel R) (run_op env op).
Proof.
  destruct op; cbn [run_op].
  - apply G_bind; [apply alloc_aligned_grow|intros _; apply G_ret].
  - eapply pres_weaken; [apply arenas_rel_grow|apply arena_free_arenas_rel].
  - eapply pres_weaken; [apply arenas_rel_grow|apply arenas_try_purge_arenas_rel].
  - apply G_bind; [apply manage_ex2_grow|intros _; apply G_ret].
  - apply G_bind; [apply reserve_os_memory_ex_grow|intros _; apply G_ret].
Qed.

End Registry.

(** ** The registry only grows *)

(** Property X9.  From a registry whose occupied slots lie below the count,
    and whose count is within the array, every operation of the interface
    leads to such a registry again; the count does not go down, and every
    arena stays registered in its slot with the id, start address, block
    count, flags and bitmap sizes it had. *)
Theorem registry_only_grows env op s r s' tr :
  registry_bounded s ->
  run_op env op s = Done r s' tr ->
  registry_bounded s' /\
  (mi_arena_count s <= mi_arena_count s')%nat /\
  forall j a, mi_arenas s !! j = Some a ->
    exists a', mi_arenas s' !! j = Some a' /\ arena_frame a a'.
Proof.
  intros Hb H.
  destruct (run_op_grow arena_frame arena_frame_refl arena_frame_trans
              (fun env j n commit memid a r a' tr => mi_arena_try_alloc_at_frame env j n commit
                                                        memid a r a' tr)
              (fun env c blocks idx a r a' tr => arena_free_blocks_frame env c blocks idx
                                                   a r a' tr)
              (fun a a' H => proj1 H) env op s r s' tr H Hb) as [Hb' [Hc Hr]].
  done.
Qed.

Lemma registry_bounded_run_op env op s r s' tr :
  registry_bounded s -> run_op env op s = Done r s' tr -> registry_bounded s'.
Proof.
  intros Hb H.
  by destruct (run_op_grow arena_frame arena_frame_refl arena_frame_trans
              (fun env j n commit memid a r a' tr => mi_arena_try_alloc_at_frame env j n commit
                                                        memid a r a' tr)
              (fun env c blocks idx a r a' tr => arena_free_blocks_frame env c blocks idx
                                                   a r a' tr)
              (fun a a' H => proj1 H) env op s r s' tr H Hb).
Qed.

Lemma registry_bounded_reachable ok s : reachable ok s -> registry_bounded s.
Proof.
  induction 1 as [|env op s r s' tr _ IH Hok Hrun]; [apply registry_bounded_init|].
  by eapply registry_bounded_run_op.
Qed.

(** ** What a purge sweep leaves alone *)

Lemma quiet_rel_refl s : quiet_rel s s.
Proof. done. Qed.

Lemma quiet_rel_trans s1 s2 s3 : quiet_rel s1 s2 -> quiet_rel s2 s3 -> quiet_rel s1 s3.
Proof. unfold quiet_rel. intros [? ?] [? ?]. split; congruence. Qed.

Lemma with_arena_quiet {A} i (m : M mi_arena_t A) : pres quiet_rel (with_arena i m).
Proof.
  intros s x s' tr H. by apply with_arena_inv in H as (a & a' & tr' & _ & _ & -> & _).
Qed.

Lemma arenas_try_purge_loop_quiet env indices : forall now force max_purge_count,
  pres quiet_rel (arenas_try_purge_loop env indices now force max_purge_count).
Proof.
  induction indices as [|i rest IH]; intros; cbn [arenas_try_purge_loop];
    [apply (pres_ret _ quiet_rel_refl)|].
  apply (pres_bind _ quiet_rel_trans).
  { intros s r s' tr H. by apply load_arena_inv in H as (_ & _ & -> & _). }
  intros [arena|]; [|apply IH].
  apply (pres_bind _ quiet_rel_trans); [apply with_arena_quiet|intros purged].
  apply pres_if; [|apply IH]. apply pres_if; [apply (pres_ret _ quiet_rel_refl)|apply IH].
Qed.

(** Property X10.  A purge sweep over the arenas ([mi_arenas_try_purge], which
    [_mi_arenas_collect] and [_mi_arena_free] run) adds and removes no
    arena, reports nothing, and leaves the purge guard as it found it; in
    every arena each block is in use after the sweep exactly if it was
    before, no block becomes scheduled for a purge, and the dirty and
    abandoned bitmaps are untouched. *)
Theorem purge_sweep_keeps_blocks env force visit_all s r s' tr :
  mi_arenas_try_purge env force visit_all s = Done r s' tr ->
  mi_arena_count s' = mi_arena_count s /\
  purge_guard s' = purge_guard s /\
  mi_log s' = mi_log s /\
  (forall j, mi_arenas s !! j = None -> mi_arenas s' !! j = None) /\
  (forall j a, mi_arenas s !! j = Some a ->
     exists a', mi_arenas s' !! j = Some a' /\
       (forall b, inuse a' b = inuse a b) /\
       (forall b, purge a' b = true -> purge a b = true) /\
       blocks_dirty a' = blocks_dirty a /\
       blocks_abandoned a' = blocks_abandoned a /\
       a_start a' = a_start a /\ block_count a' = block_count a).
Proof.
  intros H.
  pose proof (arenas_try_purge_arenas_rel sweep_rel sweep_rel_refl sweep_rel_trans
                (fun a a' H => H) env force visit_all s r s' tr H) as (Hc & _ & _ & Hrel).
  split; [done|].
  assert (Hq : quiet_rel s s').
  { unfold mi_arenas_try_purge in H.
    destruct (_ || _); [by minv1 H|].
    rewrite bind_get_eq in H.
    destruct (_ =? _)%nat; [by minv1 H|].
    destruct (purge_guard s) eqn:Hg; [by minv1 H|].
    apply bind_Done in H as (u & s1 & t1 & t2 & H1 & H2 & ->). minv1 H1.
    apply bind_Done in H2 as (u2 & s2 & t3 & t4 & H2 & H3 & ->). minv1 H3.
    apply arenas_try_purge_loop_quiet in H2 as [_ Hl].
    split; [by rewrite Hg|done]. }
  destruct Hq as [Hg Hl]. split; [done|]. split; [done|]. split.
  - intros j Hj. specialize (Hrel j). rewrite Hj in Hrel. by inversion Hrel.
  - intros j a Hj. specialize (Hrel j). rewrite Hj in Hrel.
    inversion Hrel as [a0 a' (F & Hin & Hd & Hp) E1 E2|]; subst.
    exists a'. split; [done|]. split; [done|]. split; [done|]. split; [done|].
    split; [apply F|]. split; apply F.
Qed.

(** ** Allocated memory lies within a registered arena *)

Lemma geom_alloc env (j : nat) n commit memid a r a' tr :
  arena_geom a -> mi_arena_try_alloc_at env j n commit memid a = Done r a' tr ->
  arena_geom a'.
Proof.
  intros [Ht Hg] H. split; [by eapply tails_alloc|].
  apply mi_arena_try_alloc_at_frame in H. by rewrite (fr_block_count _ _ H).
Qed.

Lemma geom_free env (j : nat) all_committed blocks idx a r a' tr :
  arena_geom a -> free_in_bounds a idx blocks ->
  arena_free_blocks env all_committed blocks idx a = Done r a' tr -> arena_geom a'.
Proof.
  intros [Ht Hg] Hok H. split; [by eapply tails_free|].
  apply arena_free_blocks_frame in H. by rewrite (fr_block_count _ _ H).
Qed.

Lemma geom_sweep (j : nat) a a' : sweep_rel a a' -> arena_geom a -> arena_geom a'.
Proof.
  intros Hs [Ht Hg]. split; [by eapply tails_sweep|].
  destruct Hs as [F _]. by rewrite (fr_block_count _ _ F).
Qed.

Lemma geom_new env (j : nat) start size large numa excl memid meta_memid :
  MI_ARENA_BLOCK_SIZE <= size -> size_t_size size ->
  arena_geom (set_a_id (mi_arena_id_create j)
                (arena_init env start size large numa excl memid meta_memid)).
Proof.
  intros H1 H2. split; [by apply tails_new|].
  pose proof (arena_init_geometry env start size large numa excl memid meta_memid
                (conj H1 H2)) as (_ & _ & _ & Hbc).
  cbv zeta in Hbc. cbn [set_a_id block_count]. rewrite Hbc.
  assert (HB : MI_ARENA_BLOCK_SIZE = 67108864) by reflexivity. rewrite HB in *.
  pose proof (Z.mul_div_le size 67108864 ltac:(lia)). unfold size_t_size in H2. lia.
Qed.

Lemma block_run_alloc env (j : nat) n commit memid a r a' tr :
  arena_geom a -> mi_arena_try_alloc_at env j n commit memid a = Done r a' tr ->
  fst r <> 0 -> block_run j a' r n.
Proof.
  intros [Ht Hg] H Hp.
  pose proof (within_blocks_alloc env j n commit memid a r a' tr Ht H Hp)
    as (idx & Hn & Hin & Hpa).
  exists idx. split; [done|]. split.
  { destruct r as [p m].
    apply mi_arena_try_alloc_at_spec in H as [(_ & -> & _)|(idx' & Hpos & _)]; done. }
  split; [done|]. rewrite Hpa. f_equal. unfold mi_arena_block_size.
  apply mi_arena_try_alloc_at_frame in H. rewrite (fr_block_count _ _ H) in Hin.
  apply size_wrap_small. assert (HB : 0 < MI_ARENA_BLOCK_SIZE) by reflexivity. nia.
Qed.

Lemma registry_geom_reachable s :
  reachable (op_ok free_in_bounds size_t_size) s -> registry_geom s.
Proof.
  induction 1 as [|env op s r s' tr _ IH Hok Hrun].
  - intros j a H. unfold mi_state_init in H. cbn [mi_arenas] in H.
    by rewrite lookup_empty in H.
  - eapply (Inv_run_op _ free_in_bounds size_t_size geom_alloc geom_free geom_sweep
              size_t_size_align_up geom_new); [exact IH|exact Hok|exact Hrun].
Qed.

(** Property X11.  In a state reached by operations of the interface whose
    frees release runs of blocks within [block_count], every address of the
    blocks that an allocation from an arena returns is recognised by
    [_mi_arena_contains] in the state after the allocation. *)
Theorem allocated_memory_is_contained env s size alignment align_offset commit
    allow_large req_arena_id p memid s' tr :
  reachable (op_ok free_in_bounds size_t_size) s ->
  _mi_arena_alloc_aligned env size alignment align_offset commit allow_large req_arena_id s
    = Done (p, memid) s' tr ->
  p <> 0 -> memkind memid = MI_MEM_ARENA ->
  forall q,
    p <= q < p + Z.of_nat (mi_block_count_of_size size) * MI_ARENA_BLOCK_SIZE ->
    _mi_arena_contains q s' = Done true s' [].
Proof.
  intros Hreach Hrun Hp Hk q Hq.
  pose proof (Res_alloc_aligned _ size_t_size block_run geom_alloc block_run_alloc
                size_t_size_align_up geom_new _ _ _ _ _ _ _ _ _ _ _
                (registry_geom_reachable s Hreach) Hrun Hp) as Hres.
  pose proof (Inv_alloc_aligned _ size_t_size geom_alloc size_t_size_align_up geom_new
                _ _ _ _ _ _ _ _ _ _ _ (registry_geom_reachable s Hreach) Hrun) as Hgeom.
  assert (Hb : registry_bounded s').
  { eapply (registry_bounded_run_op env
              (OpAlloc size alignment align_offset commit allow_large req_arena_id));
      [exact (registry_bounded_reachable _ s Hreach)|].
    cbn [run_op]. unfold bind at 1. rewrite Hrun. reflexivity. }
  cbn [fst snd] in Hres.
  destruct Hres as [(j & a & _ & Ha & _ & idx & _ & Hn & Hin & Hpa)|[_ Hos]]; [|congruence].
  cbn [fst] in Hpa.
  destruct (_mi_arena_contains_iff q s' (proj1 Hb)) as (b & Hc & Hiff).
  assert (b = true) as ->; [|done].
  apply Hiff. exists j, a. split; [apply Hb; eauto|]. split; [done|].
  destruct (Hgeom _ _ Ha) as [_ Hsz]. unfold arena_has, mi_arena_block_size.
  assert (HB : 0 < MI_ARENA_BLOCK_SIZE) by reflexivity.
  rewrite size_wrap_small by nia. nia.
Qed.

(** ** Allocation and release in one arena *)

Lemma mi_arena_try_alloc_at_bits env j n commit memid a r a' tr :
  mi_arena_try_alloc_at env j n commit memid a = Done r a' tr ->
  (field_count a <= length (blocks_inuse a))%nat.
Proof.
  unfold mi_arena_try_alloc_at. intros H.
  apply bind_Done in H as (claimed & a1 & t1 & t2 & H1 & _).
  unfold mi_arena_try_claim in H1. rewrite bind_get_eq in H1.
  destruct (Nat.ltb_spec (length (blocks_inuse a)) (field_count a)) as [|Hlen]; [done|lia].
Qed.

(** What a successful allocation in an arena does, by block. *)
Lemma mi_arena_try_alloc_at_blocks env j n commit memid a p m a' tr :
  mi_arena_try_alloc_at env j n commit memid a = Done (p, m) a' tr ->
  p <> 0 ->
  let idx := mem_arena_block_index m in
  (0 < n)%nat /\ (idx + n <= bm_bits (blocks_inuse a))%nat /\
  (idx + n <= field_count a * MI_BITMAP_FIELD_BITS)%nat /\
  (forall b, inuse a' b = in_run idx n b || inuse a b) /\
  (forall b, in_run idx n b = true -> inuse a b = false) /\
  (forall b, purge a' b = negb (in_run idx n b) && purge a b) /\
  blocks_inuse a' = bm_set_range (blocks_inuse a) idx n /\
  bm_all_clear (blocks_inuse a) idx n = true /\
  arena_frame a a' /\
  p = a_start a + mi_arena_block_size idx /\
  memkind m = MI_MEM_ARENA /\ mem_arena_id m = a_id a /\
  mem_arena_is_exclusive m = exclusive a.
Proof.
  intros H Hp. pose proof (mi_arena_try_alloc_at_bits _ _ _ _ _ _ _ _ _ H) as Hlen.
  apply mi_arena_try_alloc_at_spec in H
    as [(_ & -> & _)|(idx & Hn & Hrun & Hclear & F & Hin & Hpurge & Hpa & Hk & Hid & Hex & Hidx)];
    [done|].
  cbv zeta. rewrite Hidx.
  assert (Hbits : (idx + n <= bm_bits (blocks_inuse a))%nat).
  { unfold bm_bits, MI_BITMAP_FIELD_BITS in *. nia. }
  split; [done|]. split; [done|]. split; [done|]. split; [|split; [|done]].
  - intros b. unfold inuse. rewrite Hin, bm_get_set_range.
    destruct (in_run idx n b) eqn:E; [|done]. cbn [andb orb].
    apply in_run_spec in E.
    destruct (Nat.ltb_spec b (bm_bits (blocks_inuse a))); [done|lia].
  - intros b Hb. apply in_run_spec in Hb. rewrite bm_all_clear_spec in Hclear.
    by apply Hclear.
Qed.

(** Property X12.  A successful allocation in an arena returns a non-empty run
    of blocks within the bitmap, every one of which was free before the call;
    after the call exactly these blocks have become in use, none of them is
    scheduled for a purge, and the returned address is that of the first block
    of the run. *)
Theorem allocation_claims_free_blocks env j n commit memid a p m a' tr :
  mi_arena_try_alloc_at env j n commit memid a = Done (p, m) a' tr ->
  p <> 0 ->
  let idx := mem_arena_block_index m in
  (0 < n)%nat /\
  (idx + n <= field_count a * MI_BITMAP_FIELD_BITS)%nat /\
  (forall b, (idx <= b < idx + n)%nat -> inuse a b = false /\ inuse a' b = true) /\
  (forall b, ~ (idx <= b < idx + n)%nat -> inuse a' b = inuse a b) /\
  (forall b, (idx <= b < idx + n)%nat -> purge a' b = false) /\
  (forall b, ~ (idx <= b < idx + n)%nat -> purge a' b = purge a b) /\
  p = a_start a + mi_arena_block_size idx.
Proof.
  intros H Hp.
  destruct (mi_arena_try_alloc_at_blocks _ _ _ _ _ _ _ _ _ _ H Hp)
    as (Hn & _ & Hrun & Hin & Hfree & Hpurge & _ & _ & _ & Hpa & _).
  cbv zeta in *. split; [done|]. split; [done|].
  split; [|split; [|split; [|split; [|done]]]].
  - intros b Hb. apply in_run_spec in Hb. split; [by apply Hfree|]. by rewrite Hin, Hb.
  - intros b Hb. rewrite Hin.
    destruct (in_run _ n b) eqn:E; [by apply in_run_spec in E|done].
  - intros b Hb. apply in_run_spec in Hb. by rewrite Hpurge, Hb.
  - intros b Hb. rewrite Hpurge.
    destruct (in_run _ n b) eqn:E; [by apply in_run_spec in E|done].
Qed.

(** Property X13.  Two successful allocations in an arena, one after the
    other, return runs of blocks that do not overlap, and after the second the
    blocks of both are in use. *)
Theorem allocations_do_not_overlap env j n1 n2 commit1 commit2 memid1 memid2
    a p1 m1 a1 tr1 p2 m2 a2 tr2 :
  mi_arena_try_alloc_at env j n1 commit1 memid1 a = Done (p1, m1) a1 tr1 -> p1 <> 0 ->
  mi_arena_try_alloc_at env j n2 commit2 memid2 a1 = Done (p2, m2) a2 tr2 -> p2 <> 0 ->
  let i1 := mem_arena_block_index m1 in
  let i2 := mem_arena_block_index m2 in
  ((i1 + n1 <= i2)%nat \/ (i2 + n2 <= i1)%nat) /\
  (forall b, (i1 <= b < i1 + n1)%nat \/ (i2 <= b < i2 + n2)%nat -> inuse a2 b = true).
Proof.
  intros H1 Hp1 H2 Hp2.
  destruct (mi_arena_try_alloc_at_blocks _ _ _ _ _ _ _ _ _ _ H1 Hp1)
    as (Hn1 & _ & _ & Hin1 & _).
  destruct (mi_arena_try_alloc_at_blocks _ _ _ _ _ _ _ _ _ _ H2 Hp2)
    as (Hn2 & _ & _ & Hin2 & Hfree2 & _).
  cbv zeta in *. set (i1 := mem_arena_block_index m1) in *.
  set (i2 := mem_arena_block_index m2) in *. split.
  - destruct (Nat.le_gt_cases (i1 + n1) i2) as [|Hlt1]; [by left|].
    destruct (Nat.le_gt_cases (i2 + n2) i1) as [|Hlt2]; [by right|]. exfalso.
    assert (Hb2 : in_run i2 n2 (Nat.max i1 i2) = true) by (apply in_run_spec; lia).
    assert (Hb1 : in_run i1 n1 (Nat.max i1 i2) = true) by (apply in_run_spec; lia).
    specialize (Hfree2 _ Hb2). rewrite Hin1, Hb1 in Hfree2. done.
  - intros b [Hb|Hb]; rewrite Hin2.
    + rewrite Hin1. apply in_run_spec in Hb. rewrite Hb. apply orb_true_r.
    + apply in_run_spec in Hb. by rewrite Hb.
Qed.

(** Property X14.  Releasing exactly the run of blocks that a successful
    allocation in an arena returned is not reported as a double free, and puts
    every block of the arena back to the in-use state it had before the
    allocation. *)
Theorem alloc_then_free_round_trip env j n commit memid a p m a1 tr1
    all_committed r a2 tr2 :
  mi_arena_try_alloc_at env j n commit memid a = Done (p, m) a1 tr1 ->
  p <> 0 ->
  arena_free_blocks env all_committed n (mem_arena_block_index m) a1 = Done r a2 tr2 ->
  r = true /\ (forall b, inuse a2 b = inuse a b) /\ arena_frame a a2.
Proof.
  intros H1 Hp H2.
  destruct (mi_arena_try_alloc_at_blocks _ _ _ _ _ _ _ _ _ _ H1 Hp)
    as (Hn & Hbits & _ & Hin & Hfree & _ & Hbm & Hclear & F & _).
  cbv zeta in *. set (idx := mem_arena_block_index m) in *.
  pose proof (arena_free_blocks_frame _ _ _ _ _ _ _ _ H2) as F2.
  apply arena_free_blocks_spec in H2 as (-> & _ & a1' & (_ & I1' & _) & -> & _).
  split; [|split; [|by eapply arena_frame_trans]].
  - apply bm_all_set_spec. intros b Hb. apply in_run_spec in Hb.
    specialize (Hin b). unfold inuse in Hin. by rewrite Hin, Hb.
  - intros b. unfold inuse at 1. cbn [blocks_inuse set_blocks_inuse].
    by apply (inuse_after_claim_release a idx n a1).
Qed.

(** ** What a free does to the purge schedule *)

(** Property X15.  With a positive purge delay, and not while preloading, the
    release of a run of blocks of an arena that is not pinned marks the blocks
    free, schedules exactly them for a purge in addition to what was
    scheduled, and sets the purge deadline of the arena: to now plus the delay
    if none was set, to a tenth of the delay later than it was otherwise.  The
    blocks are marked uncommitted if the caller says they were not fully
    committed.  The call reports a double free exactly if some block of the
    run was not in use. *)
Theorem free_releases_and_schedules env all_committed n idx a r a' tr :
  is_pinned (a_memid a) = false -> is_Some (blocks_committed a) ->
  0 < mi_arena_purge_delay env -> mi_preloading env = false ->
  arena_free_blocks env all_committed n idx a = Done r a' tr ->
  (forall b, inuse a' b = negb (in_run idx n b) && inuse a b) /\
  (forall b, purge a' b = in_run idx n b || purge a b) /\
  purge_expire a'
  = (if purge_expire a =? 0 then clock_now env + mi_arena_purge_delay env
     else purge_expire a + Z.quot (mi_arena_purge_delay env) 10) /\
  (forall b, committed a' b = (all_committed || negb (in_run idx n b)) && committed a b) /\
  (r = true <-> forall b, in_run idx n b = true -> inuse a b = true).
Proof.
  intros Hpin Hcom Hdelay Hpre H.
  pose proof (arena_free_blocks_spec _ _ _ _ _ _ _ _ H) as (Hr & _ & _).
  unfold arena_free_blocks in H. rewrite bind_get_eq in H.
  rewrite Hpin in H. cbn [orb] in H.
  rewrite (bool_decide_eq_true_2 _ Hcom) in H. cbn [negb] in H.
  apply bind_Done in H as (u & a2 & t1 & t2 & H1 & H2 & ->).
  apply bind_Done in H1 as (u1 & a1 & t3 & t4 & H0 & H1 & ->).
  assert (Hstep1 : (forall b, committed a1 b
                      = (all_committed || negb (in_run idx n b)) && committed a b) /\
                   blocks_inuse a1 = blocks_inuse a /\ blocks_purge a1 = blocks_purge a /\
                   purge_expire a1 = purge_expire a).
  { destruct all_committed; cbn [negb orb] in *.
    - minv1 H0. by repeat split.
    - apply bind_Done in H0 as (u0 & a0 & t5 & t6 & H0 & H0' & ->). minv1 H0'.
      apply committed_unclaim_across_exact in H0 as (Hc & Hi & Hp & He & _). done. }
  destruct Hstep1 as (Hc1 & Hi1 & Hp1 & He1).
  unfold mi_arena_schedule_purge in H1.
  destruct (Z.ltb_spec (mi_arena_purge_delay env) 0) as [|_]; [lia|].
  rewrite Hpre in H1. cbn [orb] in H1.
  destruct (Z.eqb_spec (mi_arena_purge_delay env) 0) as [|_]; [lia|].
  rewrite bind_get_eq in H1.
  apply bind_Done in H1 as (u2 & a3 & t5 & t6 & H1 & H3 & ->).
  apply bind_Done in H3 as (u3 & a4 & t7 & t8 & H3 & H4 & ->).
  apply ret_Done in H4 as (_ & <- & _).
  apply purge_claim_across_exact in H3 as (Hp3 & Hi3 & Hc3 & He3).
  assert (Hstep2 : purge_expire a3
                   = (if purge_expire a1 =? 0 then clock_now env + mi_arena_purge_delay env
                      else purge_expire a1 + Z.quot (mi_arena_purge_delay env) 10) /\
                   blocks_inuse a3 = blocks_inuse a1 /\ blocks_purge a3 = blocks_purge a1 /\
                   blocks_committed a3 = blocks_committed a1).
  { destruct (purge_expire a1 =? 0); cbn [negb] in H1; minv1 H1; by repeat split. }
  destruct Hstep2 as (He2 & Hi2 & Hp2 & Hc2).
  apply bitmap_rmw_inv in H2 as (bm & Hsel & _ & _ & -> & _).
  unfold sel_inuse in Hsel. injection Hsel as <-.
  split; [|split; [|split; [|split]]].
  - intros b. unfold inuse. cbn [blocks_inuse set_blocks_inuse _mi_bitmap_unclaim_across fst].
    by rewrite bm_get_clear_range, Hi3, Hi2, Hi1.
  - intros b. unfold purge at 1. cbn [blocks_purge set_blocks_inuse].
    fold (purge a2 b). rewrite Hp3. unfold purge. by rewrite Hp2, Hp1.
  - cbn [purge_expire set_blocks_inuse]. by rewrite He3, He2, He1.
  - intros b. unfold committed at 1. cbn [blocks_committed set_blocks_inuse].
    rewrite Hc3, Hc2. apply Hc1.
  - rewrite Hr, bm_all_set_spec. split.
    + intros Hall b Hb. apply in_run_spec in Hb. by apply Hall.
    + intros Hall b Hb. apply Hall, in_run_spec, Hb.
Qed.

(** Property X16.  The release of a run of blocks of a pinned arena changes
    nothing but the in-use bits of the run; with purging disabled by a
    negative delay, it leaves the purge schedule and the purge deadline of any
    arena as they were. *)
Theorem free_without_purge env all_committed n idx a r a' tr :
  arena_free_blocks env all_committed n idx a = Done r a' tr ->
  (is_pinned (a_memid a) = true ->
   a' = set_blocks_inuse (bm_clear_range (blocks_inuse a) idx n) a) /\
  (mi_arena_purge_delay env < 0 ->
   blocks_purge a' = blocks_purge a /\ purge_expire a' = purge_expire a /\
   forall b, inuse a' b = negb (in_run idx n b) && inuse a b).
Proof.
  intros H. split.
  - intros Hpin.
    apply arena_free_blocks_spec in H as (_ & _ & a1 & _ & -> & Hsame).
    rewrite Hsame; [done|]. by rewrite Hpin.
  - intros Hdelay. unfold arena_free_blocks in H. rewrite bind_get_eq in H.
    apply bind_Done in H as (u & a2 & t1 & t2 & H1 & H2 & ->).
    assert (Hsame : blocks_purge a2 = blocks_purge a /\ purge_expire a2 = purge_expire a /\
                    blocks_inuse a2 = blocks_inuse a).
    { destruct (_ || _); [by minv1 H1|].
      apply bind_Done in H1 as (u1 & a1 & t3 & t4 & H0 & H1 & ->).
      unfold mi_arena_schedule_purge in H1.
      apply Z.ltb_lt in Hdelay. rewrite Hdelay in H1. minv1 H1.
      destruct (negb all_committed); [|by minv1 H0].
      apply bind_Done in H0 as (u0 & a0 & t5 & t6 & H0 & H0' & ->). minv1 H0'.
      apply committed_unclaim_across_exact in H0 as (_ & Hi & Hp & He & _). done. }
    destruct Hsame as (Hp & He & Hi).
    apply bitmap_rmw_inv in H2 as (bm & Hsel & _ & _ & -> & _).
    unfold sel_inuse in Hsel. injection Hsel as <-.
    split; [done|]. split; [done|].
    intros b. unfold inuse. cbn [blocks_inuse set_blocks_inuse _mi_bitmap_unclaim_across fst].
    by rewrite bm_get_clear_range, Hi.
Qed.

(** ** The purge engine, bit by bit *)

Lemma in_run_false idx count j :
  in_run idx count j = false <-> ~ (idx <= j < idx + count)%nat.
Proof. rewrite <- in_run_spec. by destruct (in_run idx count j). Qed.

Ltac in_run_cases :=
  repeat match goal with
  | H : in_run _ _ _ = true |- _ => apply in_run_spec in H
  | H : in_run _ _ _ = false |- _ => apply in_run_false in H
  end.

Lemma count_ones_from_spec word : forall room from,
  (count_ones_from word from room <= room)%nat /\
  (forall k, (from <= k < from + count_ones_from word from room)%nat ->
             Z.testbit word (Z.of_nat k) = true) /\
  ((count_ones_from word from room < room)%nat ->
   Z.testbit word (Z.of_nat (from + count_ones_from word from room)) = false).
Proof.
  induction room as [|room IH]; intros from; cbn [count_ones_from].
  - split; [lia|]. split; [intros; lia|lia].
  - destruct (Z.testbit word (Z.of_nat from)) eqn:E.
    + destruct (IH (S from)) as (H1 & H2 & H3). split; [lia|]. split.
      * intros k Hk. destruct (decide (k = from)) as [->|Hne]; [done|]. apply H2. lia.
      * intros Hc.
        replace (from + S (count_ones_from word (S from) room))%nat
          with (S from + count_ones_from word (S from) room)%nat by lia.
        apply H3. lia.
    + split; [lia|]. split; [intros; lia|]. intros _. by rewrite Nat.add_0_r.
Qed.

Lemma count_run_spec word from limit :
  (count_run word from limit <= limit - from)%nat /\
  (forall k, (from <= k < from + count_run word from limit)%nat ->
             Z.testbit word (Z.of_nat k) = true) /\
  ((from + count_run word from limit < limit)%nat ->
   Z.testbit word (Z.of_nat (from + count_run word from limit)) = false).
Proof.
  unfold count_run. destruct (count_ones_from_spec word (limit - from) from) as (H1 & H2 & H3).
  split; [done|]. split; [done|]. intros H. apply H3. lia.
Qed.

Lemma word_bit_split i bitidx endidx word c b :
  (c <= endidx - bitidx)%nat ->
  (forall k, (bitidx <= k < bitidx + c)%nat -> Z.testbit word (Z.of_nat k) = true) ->
  ((bitidx + c < endidx)%nat -> Z.testbit word (Z.of_nat (bitidx + c)) = false) ->
  word_bit i bitidx endidx word b
  = in_run (i * MI_BITMAP_FIELD_BITS + bitidx) c b
    || word_bit i (bitidx + (c + 1)) endidx word b.
Proof.
  intros Hc Hset Hclr. unfold word_bit.
  set (base := (i * MI_BITMAP_FIELD_BITS)%nat).
  destruct (in_run (base + bitidx) c b) eqn:E1.
  - apply in_run_spec in E1. cbn [orb].
    assert (E : in_run (base + bitidx) (endidx - bitidx) b = true)
      by (apply in_run_spec; lia).
    rewrite E. cbn [andb]. apply Hset. lia.
  - apply in_run_false in E1. cbn [orb].
    destruct (in_run (base + (bitidx + (c + 1))) (endidx - (bitidx + (c + 1))) b) eqn:E2.
    + apply in_run_spec in E2.
      assert (E : in_run (base + bitidx) (endidx - bitidx) b = true)
        by (apply in_run_spec; lia).
      by rewrite E.
    + apply in_run_false in E2. cbn [andb].
      destruct (in_run (base + bitidx) (endidx - bitidx) b) eqn:E3; [|done].
      apply in_run_spec in E3. cbn [andb].
      assert (Hb : (b = base + (bitidx + c))%nat) by lia.
      replace (b - base)%nat with (bitidx + c)%nat by lia. apply Hclr. lia.
Qed.

Lemma purge_range_loop_exact env i startidx bitlen word :
  (0 < bitlen)%nat ->
  forall fuel bitidx ap a r a' tr,
  (startidx <= bitidx)%nat -> (startidx + bitlen - bitidx <= fuel)%nat ->
  purge_range_loop env fuel i bitidx (startidx + bitlen) bitlen word ap a = Done r a' tr ->
  r = ap || ((bitidx =? startidx)%nat
             && forallb (fun k => Z.testbit word (Z.of_nat k)) (seq startidx bitlen)) /\
  (forall b, purge a' b = negb (word_bit i bitidx (startidx + bitlen) word b) && purge a b) /\
  blocks_inuse a' = blocks_inuse a /\ purge_expire a' = purge_expire a.
Proof.
  intros Hlen. induction fuel as [|fuel IH]; intros bitidx ap a r a' tr Hge Hfuel H;
    cbn [purge_range_loop] in H.
  - apply ret_Done in H as (-> & -> & _).
    assert (E : (bitidx =? startidx)%nat = false) by (apply Nat.eqb_neq; lia).
    rewrite E, orb_false_r. split; [done|]. split; [|done].
    intros b. unfold word_bit. replace (startidx + bitlen - bitidx)%nat with 0%nat by lia.
    by rewrite in_run_0.
  - destruct (Nat.ltb_spec bitidx (startidx + bitlen)) as [Hlt|Hnlt].
    2:{ apply ret_Done in H as (-> & -> & _).
        assert (E : (bitidx =? startidx)%nat = false) by (apply Nat.eqb_neq; lia).
        rewrite E, orb_false_r. split; [done|]. split; [|done].
        intros b. unfold word_bit. replace (startidx + bitlen - bitidx)%nat with 0%nat by lia.
        by rewrite in_run_0. }
    destruct (count_run_spec word bitidx (startidx + bitlen)) as (Hc1 & Hc2 & Hc3).
    set (c := count_run word bitidx (startidx + bitlen)) in *.
    apply bind_Done in H as (ap1 & a1 & t1 & t2 & H1 & H2 & ->).
    assert (Hstep : ap1 = (if (c =? bitlen)%nat then true else ap) /\
                    (forall b, purge a1 b
                       = negb (in_run (i * MI_BITMAP_FIELD_BITS + bitidx) c b) && purge a b) /\
                    blocks_inuse a1 = blocks_inuse a /\ purge_expire a1 = purge_expire a).
    { destruct (Nat.ltb_spec 0 c) as [Hpos|Hzero].
      - apply bind_Done in H1 as (u & a0 & t3 & t4 & H0 & H1 & ->).
        apply ret_Done in H1 as (-> & <- & _).
        apply mi_arena_purge_exact in H0 as (Hp & Hi & He). done.
      - apply ret_Done in H1 as (-> & -> & _).
        assert (c = 0)%nat as -> by lia.
        assert (E : (0 =? bitlen)%nat = false) by (apply Nat.eqb_neq; lia).
        rewrite E. split; [done|]. split; [|done]. intros b. by rewrite in_run_0. }
    destruct Hstep as (-> & Hp1 & Hi1 & He1).
    apply IH in H2 as (-> & Hp2 & Hi2 & He2); [|lia|lia].
    assert (E : (bitidx + (c + 1) =? startidx)%nat = false) by (apply Nat.eqb_neq; lia).
    rewrite E, orb_false_r. split; [|split; [|split; congruence]].
    + destruct (Nat.eqb_spec c bitlen) as [Hcb|Hcb].
      * assert (bitidx = startidx) as -> by lia. rewrite Nat.eqb_refl.
        symmetry. apply orb_true_iff. right. cbn [andb]. apply forallb_forall.
        intros k Hk. apply in_seq in Hk. apply Hc2. lia.
      * destruct (Nat.eqb_spec bitidx startidx) as [->|]; [|by rewrite orb_false_r].
        cbn [andb].
        destruct (forallb _ _) eqn:Hall; [|by rewrite orb_false_r].
        exfalso. rewrite forallb_forall in Hall.
        assert (Hclr : Z.testbit word (Z.of_nat (startidx + c)) = false) by (apply Hc3; lia).
        rewrite Hall in Hclr; [done|]. apply in_seq. lia.
    + intros b. rewrite Hp2, Hp1.
      rewrite (word_bit_split i bitidx (startidx + bitlen) word c b Hc1 Hc2 Hc3).
      by destruct (in_run _ c b), (word_bit _ _ _ _ b), (purge a b).
Qed.

Lemma mi_arena_purge_range_exact env idx startidx bitlen word a r a' tr :
  (0 < bitlen)%nat ->
  mi_arena_purge_range env idx startidx bitlen word a = Done r a' tr ->
  (r = true <->
   forall k, (startidx <= k < startidx + bitlen)%nat -> Z.testbit word (Z.of_nat k) = true) /\
  (forall b, purge a' b
     = negb (word_bit idx startidx (startidx + bitlen) word b) && purge a b) /\
  blocks_inuse a' = blocks_inuse a /\
  purge_expire a' = purge_expire a.
Proof.
  intros Hlen H. unfold mi_arena_purge_range in H.
  apply (purge_range_loop_exact env idx startidx bitlen word Hlen) in H
    as (-> & Hp & Hi & He); [|lia|lia].
  rewrite Nat.eqb_refl. cbn [orb andb].
  split; [|split; [done|split; done]].
  rewrite forallb_forall. split.
  - intros Hall k Hk. apply Hall, in_seq. lia.
  - intros Hall k Hk. apply in_seq in Hk. apply Hall. lia.
Qed.

(** Property X17.  [mi_arena_purge_range] purges, of the bits [startidx ..
    startidx+bitlen) of field [idx], exactly those that are set in the word it
    is given, and leaves the in-use bits and the purge deadline alone; it
    returns true exactly if every bit of the range is set in the word. *)
Theorem mi_arena_purge_range_spec env idx startidx bitlen word a r a' tr :
  (0 < bitlen)%nat ->
  mi_arena_purge_range env idx startidx bitlen word a = Done r a' tr ->
  (r = true <->
   forall k, (startidx <= k < startidx + bitlen)%nat -> Z.testbit word (Z.of_nat k) = true) /\
  (forall b, purge a' b
     = negb (word_bit idx startidx (startidx + bitlen) word b) && purge a b) /\
  (forall b, inuse a' b = inuse a b) /\
  purge_expire a' = purge_expire a.
Proof.
  intros Hlen H.
  apply mi_arena_purge_range_exact in H as (Hr & Hp & Hi & He); [|done].
  split; [done|]. split; [done|]. split; [|done].
  intros b. unfold inuse. by rewrite Hi.
Qed.

(** The bits of a word read from field [i] of the purge bitmap. *)
Lemma load_purge_field_bits i a w a' tr :
  load_purge_field i a = Done w a' tr ->
  a' = a /\
  forall k, (k < MI_BITMAP_FIELD_BITS)%nat ->
    Z.testbit w (Z.of_nat k) = purge a (i * MI_BITMAP_FIELD_BITS + k).
Proof.
  unfold load_purge_field, purge. destruct (blocks_purge a) as [bm|]; [|done].
  destruct (bm !! i) as [f|] eqn:Hf; [|done]. intros [= <- <- _]. split; [done|].
  intros k Hk. unfold bm_get, mi_bitmap_index_field, mi_bitmap_index_bit_in_field.
  assert (Hq : ((i * MI_BITMAP_FIELD_BITS + k) / MI_BITMAP_FIELD_BITS = i)%nat).
  { unfold MI_BITMAP_FIELD_BITS in *.
    rewrite Nat.add_comm, Nat.div_add by lia. rewrite Nat.div_small by lia. done. }
  assert (Hr : ((i * MI_BITMAP_FIELD_BITS + k) mod MI_BITMAP_FIELD_BITS = k)%nat).
  { unfold MI_BITMAP_FIELD_BITS in *.
    rewrite Nat.add_comm, Nat.Div0.mod_add. by apply Nat.mod_small. }
  by rewrite Hq, Hr, Hf.
Qed.

Lemma claim_longest_free n idx a k a' tr :
  bm_all_clear (blocks_inuse a) idx (S n) = true ->
  claim_longest (S n) idx a = Done k a' tr ->
  k = S n /\ a' = set_blocks_inuse (bm_set_range (blocks_inuse a) idx (S n)) a.
Proof.
  intros Hclear H. cbn [claim_longest] in H.
  apply bind_Done in H as (ok & a1 & t1 & t2 & H1 & H2 & ->).
  apply bitmap_rmw_inv in H1 as (bm & Hsel & _ & -> & -> & _).
  injection Hsel as <-. unfold _mi_bitmap_try_claim in H2.
  rewrite Hclear in H2. cbn [fst snd] in H2. by apply ret_Done in H2 as (-> & -> & _).
Qed.

Lemma try_purge_field_loop_full env i : forall fuel bitidx word ap fp a r a' tr,
  I1 a -> (MI_BITMAP_FIELD_BITS - bitidx <= fuel)%nat ->
  (forall k, (bitidx <= k < MI_BITMAP_FIELD_BITS)%nat ->
     Z.testbit word (Z.of_nat k) = purge a (i * MI_BITMAP_FIELD_BITS + k)) ->
  try_purge_field_loop env fuel i bitidx word ap fp a = Done r a' tr ->
  snd r = fp /\
  (fst r = true <->
   ap = true \/ exists k, (bitidx <= k < MI_BITMAP_FIELD_BITS)%nat /\
                          purge a (i * MI_BITMAP_FIELD_BITS + k) = true) /\
  (forall b, purge a' b
     = negb (in_run (i * MI_BITMAP_FIELD_BITS + bitidx) (MI_BITMAP_FIELD_BITS - bitidx) b)
       && purge a b) /\
  (forall b, inuse a' b = inuse a b) /\ purge_expire a' = purge_expire a.
Proof.
  induction fuel as [|fuel IH]; intros bitidx word ap fp a r a' tr HI Hfuel Hword H;
    cbn [try_purge_field_loop] in H.
  - apply ret_Done in H as (-> & -> & _). cbn [fst snd].
    split; [done|]. split; [|split; [|done]].
    + split; [by left|]. intros [?|(k & Hk & _)]; [done|lia].
    + intros b. replace (MI_BITMAP_FIELD_BITS - bitidx)%nat with 0%nat by lia.
      by rewrite in_run_0.
  - destruct (Nat.ltb_spec bitidx MI_BITMAP_FIELD_BITS) as [Hlt|Hnlt].
    2:{ apply ret_Done in H as (-> & -> & _). cbn [fst snd].
        split; [done|]. split; [|split; [|done]].
        + split; [by left|]. intros [?|(k & Hk & _)]; [done|lia].
        + intros b. replace (MI_BITMAP_FIELD_BITS - bitidx)%nat with 0%nat by lia.
          by rewrite in_run_0. }
    destruct (count_run_spec word bitidx MI_BITMAP_FIELD_BITS) as (Hc1 & Hc2 & Hc3).
    set (c := count_run word bitidx MI_BITMAP_FIELD_BITS) in *.
    set (base := (i * MI_BITMAP_FIELD_BITS)%nat) in *.
    unfold mi_bitmap_index_create in H. fold base in H.
    apply bind_Done in H as (k & a1 & t1 & t2 & H1 & H2 & ->).
    destruct c as [|n] eqn:Ec.
    + (* no set bit at [bitidx] *)
      cbn [claim_longest] in H1. apply ret_Done in H1 as (-> & -> & _).
      cbn [Nat.ltb Nat.leb] in H2. rewrite Nat.add_0_l in H2.
      assert (Hclr : purge a (base + bitidx) = false).
      { rewrite <- Hword by lia. rewrite Nat.add_0_r in Hc3. apply Hc3. lia. }
      apply IH in H2 as (Hfp & Hap & Hp & Hi & He); [|done|lia|intros; apply Hword; lia].
      split; [done|]. split; [|split; [|done]].
      * rewrite Hap. split.
        -- intros [?|(k & Hk & Hpk)]; [by left|]. right. exists k. split; [lia|done].
        -- intros [?|(k & Hk & Hpk)]; [by left|]. right. exists k. split; [|done].
           destruct (decide (k = bitidx)) as [->|]; [congruence|lia].
      * intros b. rewrite Hp.
        destruct (in_run (base + bitidx) (MI_BITMAP_FIELD_BITS - bitidx) b) eqn:E1;
          destruct (in_run (base + (bitidx + 1)) (MI_BITMAP_FIELD_BITS - (bitidx + 1)) b)
            eqn:E2; cbn [negb andb]; try done; in_run_cases; try (exfalso; lia).
        assert (b = base + bitidx)%nat as -> by lia. done.
    + (* a run of [S n] set bits from [bitidx] *)
      assert (Hrun : forall b, in_run (base + bitidx) (S n) b = true -> purge a b = true).
      { intros b Hb. apply in_run_spec in Hb.
        replace b with (base + (b - base))%nat by lia.
        rewrite <- Hword by lia. apply Hc2. lia. }
      assert (Hclear : bm_all_clear (blocks_inuse a) (base + bitidx) (S n) = true).
      { apply bm_all_clear_spec. intros b Hb. apply HI, Hrun, in_run_spec, Hb. }
      apply (claim_longest_free _ _ _ _ _ _ Hclear) in H1 as (-> & ->).
      cbn [Nat.ltb Nat.leb] in H2.
      apply bind_Done in H2 as (w & a2 & t3 & t4 & H2 & H3 & ->).
      apply load_purge_field_bits in H2 as (-> & Hw).
      apply bind_Done in H3 as (purged & a3 & t5 & t6 & H3 & H4 & ->).
      apply mi_arena_purge_range_exact in H3 as (Hpurged & Hp3 & Hi3 & He3); [|lia].
      assert (Hfull : purged = true).
      { apply Hpurged. intros k Hk. rewrite Hw by lia. fold base.
        unfold purge. cbn [blocks_purge set_blocks_inuse]. fold (purge a (base + k)).
        apply Hrun, in_run_spec. lia. }
      subst purged. cbn [negb] in H4.
      apply bind_Done in H4 as (u & a4 & t7 & t8 & H4 & H5 & ->).
      apply bitmap_rmw_inv in H4 as (bm & Hsel & _ & _ & -> & _).
      unfold sel_inuse in Hsel. injection Hsel as <-.
      set (a1 := set_blocks_inuse (bm_set_range (blocks_inuse a) (base + bitidx) (S n)) a)
        in *.
      set (a4 := set_blocks_inuse
                   (fst (_mi_bitmap_unclaim (blocks_inuse a3) (S n) (base + bitidx))) a3) in *.
      assert (Hp4 : forall b, purge a4 b
                      = negb (in_run (base + bitidx) (S n) b) && purge a b).
      { intros b. unfold purge at 1. cbn [a4 blocks_purge set_blocks_inuse].
        fold (purge a3 b). rewrite Hp3. unfold purge at 1. cbn [a1 blocks_purge set_blocks_inuse].
        fold (purge a b). unfold word_bit. fold base.
        replace (bitidx + S n - bitidx)%nat with (S n) by lia.
        destruct (in_run (base + bitidx) (S n) b) eqn:E; cbn [negb andb]; [|done].
        apply in_run_spec in E. rewrite Hw by lia. fold base.
        replace (base + (b - base))%nat with b by lia.
        unfold purge at 1. cbn [a1 blocks_purge set_blocks_inuse]. fold (purge a b).
        rewrite (Hrun b); [done|]. by apply in_run_spec. }
      assert (Hi4 : forall b, inuse a4 b = inuse a b).
      { intros b. unfold inuse at 1.
        cbn [a4 blocks_inuse set_blocks_inuse _mi_bitmap_unclaim _mi_bitmap_unclaim_across fst].
        apply (inuse_after_claim_release a (base + bitidx) (S n) a3 Hclear).
        by rewrite Hi3. }
      assert (He4 : purge_expire a4 = purge_expire a) by (by cbn [a4 purge_expire set_blocks_inuse]).
      apply IH in H5 as (Hfp & Hap & Hp & Hi & He).
      * split; [done|]. split; [|split; [|split]].
        -- split; [intros _|intros _; apply Hap; by left].
           right. exists bitidx. split; [lia|]. apply Hrun, in_run_spec. lia.
        -- intros b. rewrite Hp, Hp4.
           destruct (in_run (base + bitidx) (MI_BITMAP_FIELD_BITS - bitidx) b) eqn:E1;
             destruct (in_run (base + (bitidx + (S n + 1)))
                         (MI_BITMAP_FIELD_BITS - (bitidx + (S n + 1))) b) eqn:E2;
             destruct (in_run (base + bitidx) (S n) b) eqn:E3; cbn [negb andb]; try done;
             in_run_cases; try (exfalso; lia).
           assert (b = base + (bitidx + S n))%nat as -> by lia.
           rewrite <- Hword by lia. apply Hc3. lia.
        -- intros b. by rewrite Hi, Hi4.
        -- by rewrite He, He4.
      * intros b Hb. rewrite Hi4. apply HI. rewrite Hp4 in Hb.
        by apply andb_true_iff in Hb as [_ ?].
      * lia.
      * intros k Hk. fold base. rewrite Hp4.
        assert (E : in_run (base + bitidx) (S n) (base + k) = false)
          by (apply in_run_false; lia).
        rewrite E. cbn [negb andb]. rewrite Hw by lia. fold base.
        unfold purge. done.
Qed.

Lemma if_true_run {S A} (c : bool) (m1 m2 : M S A) (s : S) :
  c = true -> (if c then m1 else m2) s = m1 s.
Proof. by intros ->. Qed.

Lemma if_false_run {S A} (c : bool) (m1 m2 : M S A) (s : S) :
  c = false -> (if c then m1 else m2) s = m2 s.
Proof. by intros ->. Qed.

Lemma try_purge_fields_full env : forall cnt lo ap fp a r a' tr,
  I1 a ->
  try_purge_fields env (seq lo cnt) ap fp a = Done r a' tr ->
  snd r = fp /\
  (fst r = true <->
   ap = true \/ exists b, in_run (lo * MI_BITMAP_FIELD_BITS) (cnt * MI_BITMAP_FIELD_BITS) b = true
                          /\ purge a b = true) /\
  (forall b, purge a' b
     = negb (in_run (lo * MI_BITMAP_FIELD_BITS) (cnt * MI_BITMAP_FIELD_BITS) b) && purge a b) /\
  (forall b, inuse a' b = inuse a b) /\ purge_expire a' = purge_expire a.
Proof.
  induction cnt as [|cnt IH]; intros lo ap fp a r a' tr HI H; cbn [seq try_purge_fields] in H.
  - apply ret_Done in H as (-> & -> & _). cbn [fst snd].
    split; [done|]. split; [|split; [|done]].
    + split; [by left|]. intros [?|(b & Hb & _)]; [done|]. by rewrite in_run_0 in Hb.
    + intros b. by rewrite in_run_0.
  - apply bind_Done in H as (w & a0 & t1 & t2 & H1 & H2 & ->).
    apply load_purge_field_bits in H1 as (-> & Hw).
    apply bind_Done in H2 as (flags & a1 & t3 & t4 & H2 & H3 & ->).
    set (base := (lo * MI_BITMAP_FIELD_BITS)%nat) in *.
    assert (Hfield :
      snd flags = fp /\
      (fst flags = true <->
       ap = true \/ exists k, (k < MI_BITMAP_FIELD_BITS)%nat /\ purge a (base + k) = true) /\
      (forall b, purge a1 b = negb (in_run base MI_BITMAP_FIELD_BITS b) && purge a b) /\
      (forall b, inuse a1 b = inuse a b) /\ purge_expire a1 = purge_expire a).
    { destruct (Z.eqb_spec w 0) as [Hz|Hnz].
      - rewrite if_false_run in H2 by done.
        apply ret_Done in H2 as (-> & -> & _). cbn [fst snd].
        assert (Hnone : forall k, (k < MI_BITMAP_FIELD_BITS)%nat -> purge a (base + k) = false).
        { intros k Hk. rewrite <- Hw by done. rewrite Hz. apply Z.bits_0. }
        split; [done|]. split; [|split; [|done]].
        + split; [by left|]. intros [?|(k & Hk & Hp)]; [done|]. by rewrite Hnone in Hp.
        + intros b. destruct (in_run base MI_BITMAP_FIELD_BITS b) eqn:E; [|done].
          apply in_run_spec in E. cbn [negb andb].
          replace b with (base + (b - base))%nat by lia. apply Hnone. lia.
      - rewrite if_true_run in H2 by done.
        apply (try_purge_field_loop_full env lo) in H2 as (Hfp & Hap & Hp & Hi & He);
          [|done|lia|intros k Hk; apply Hw; lia].
        rewrite Nat.add_0_r, Nat.sub_0_r in Hp.
        split; [done|]. split; [|done]. rewrite Hap. split.
        + intros [?|(k & Hk & Hpk)]; [by left|]. right. exists k. split; [lia|done].
        + intros [?|(k & Hk & Hpk)]; [by left|]. right. exists k. split; [lia|done]. }
    destruct Hfield as (Hfp & Hap & Hp1 & Hi1 & He1).
    apply IH in H3 as (Hfp' & Hap' & Hp' & Hi' & He').
    2:{ intros b Hb. rewrite Hi1. apply HI. rewrite Hp1 in Hb.
        by apply andb_true_iff in Hb as [_ ?]. }
    assert (Hsplit : forall b,
      in_run base (S cnt * MI_BITMAP_FIELD_BITS) b
      = in_run base MI_BITMAP_FIELD_BITS b
        || in_run (S lo * MI_BITMAP_FIELD_BITS) (cnt * MI_BITMAP_FIELD_BITS) b).
    { intros b. subst base. unfold MI_BITMAP_FIELD_BITS.
      destruct (in_run (lo * 64) (S cnt * 64) b) eqn:E1;
        destruct (in_run (lo * 64) 64 b) eqn:E2;
        destruct (in_run (S lo * 64) (cnt * 64) b) eqn:E3; cbn [orb]; try done;
        in_run_cases; exfalso; lia. }
    split; [congruence|]. split; [|split; [|split; [|congruence]]].
    + rewrite Hap', Hap. split.
      * intros [[?|(k & Hk & Hpk)]|(b & Hb & Hpb)].
        -- by left.
        -- right. exists (base + k)%nat. split; [|done]. rewrite Hsplit.
           apply orb_true_iff. left. apply in_run_spec. lia.
        -- right. exists b. split; [rewrite Hsplit; by rewrite Hb, orb_true_r|].
           rewrite Hp1 in Hpb. by apply andb_true_iff in Hpb as [_ ?].
      * intros [?|(b & Hb & Hpb)]; [by left; left|].
        rewrite Hsplit in Hb.
        destruct (in_run base MI_BITMAP_FIELD_BITS b) eqn:E.
        -- left. right. apply in_run_spec in E. exists (b - base)%nat.
           split; [lia|]. by replace (base + (b - base))%nat with b by lia.
        -- right. exists b. cbn [orb] in Hb. split; [done|]. by rewrite Hp1, E.
    + intros b. rewrite Hp', Hp1, Hsplit.
      by destruct (in_run base _ b), (in_run (S lo * _) _ b), (purge a b).
    + intros b. by rewrite Hi', Hi1.
Qed.

(** Property X18.  A purge sweep of an arena that is due (its deadline is set
    and has passed, or the sweep is forced), on an arena in which no block
    scheduled for a purge is in use, purges every scheduled block: afterwards
    no block is scheduled, the deadline is cleared, every block is in use
    exactly if it was before, and the call reports whether anything was
    scheduled. *)
Theorem due_sweep_purges_all_scheduled env now force a r a' tr :
  I1 a ->
  (forall bm, blocks_purge a = Some bm -> length bm = field_count a) ->
  is_pinned (a_memid a) = false -> is_Some (blocks_purge a) ->
  purge_expire a <> 0 -> (force = true \/ purge_expire a <= now) ->
  mi_arena_try_purge env now force a = Done r a' tr ->
  (forall b, purge a' b = false) /\
  purge_expire a' = 0 /\
  (forall b, inuse a' b = inuse a b) /\
  (r = true <-> exists b, purge a b = true).
Proof.
  intros HI Hlen Hpin Hsome Hexp Hdue H.
  unfold mi_arena_try_purge in H. rewrite bind_get_eq in H.
  rewrite Hpin, (bool_decide_eq_true_2 _ Hsome) in H. cbn [negb orb] in H.
  destruct (Z.eqb_spec (purge_expire a) 0) as [|_]; [done|].
  assert (Hnot : negb force && (now <? purge_expire a) = false).
  { destruct Hdue as [->|Hle]; [done|]. apply andb_false_iff. right. by apply Z.ltb_ge. }
  rewrite Hnot in H.
  apply bind_Done in H as (u & a0 & t1 & t2 & H1 & H2 & ->).
  unfold atomic_cas_purge_expire in H1. apply atomic_Done in H1 as (-> & _).
  rewrite Z.eqb_refl in H2.
  apply bind_Done in H2 as (flags & a1 & t3 & t4 & H2 & H3 & ->).
  change (field_count (set_purge_expire 0 a)) with (field_count a) in H2.
  apply try_purge_fields_full in H2 as (Hfp & Hap & Hp & Hi & He); [|done].
  rewrite Hfp in H3. cbn [negb] in H3.
  apply bind_Done in H3 as (u2 & a2 & t5 & t6 & H3 & H4 & ->).
  apply ret_Done in H3 as (_ & -> & _). apply ret_Done in H4 as (-> & -> & _).
  assert (Hbound : forall b, purge a b = true ->
                     in_run (0 * MI_BITMAP_FIELD_BITS) (field_count a * MI_BITMAP_FIELD_BITS) b
                     = true).
  { intros b Hb. unfold purge in Hb. destruct (blocks_purge a) as [bm|] eqn:Hbm; [|done].
    apply bm_get_bound in Hb. unfold bm_bits in Hb. rewrite (Hlen _ eq_refl) in Hb.
    apply in_run_spec. lia. }
  split; [|split; [|split]].
  - intros b. rewrite Hp. change (purge (set_purge_expire 0 a) b) with (purge a b).
    destruct (purge a b) eqn:E; [|by rewrite andb_false_r].
    by rewrite (Hbound b E).
  - by rewrite He.
  - intros b. by rewrite Hi.
  - rewrite Hap. split.
    + intros [?|(b & _ & Hb)]; [done|]. by exists b.
    + intros (b & Hb). right. exists b. split; [by apply Hbound|done].
Qed.

(** ** Abandoned segments *)

Lemma Z_clearbit_setbit f k : 0 <= k -> Z.clearbit (Z.setbit f k) k = Z.clearbit f k.
Proof.
  intros Hk. apply Z.bits_inj'. intros n Hn.
  rewrite !Z.clearbit_eqb, Z.setbit_eqb by done.
  by destruct (k =? n), (Z.testbit f n).
Qed.

Lemma bm_clear_set bm i : bm_clear (bm_set bm i) i = bm_clear bm i.
Proof.
  unfold bm_clear, bm_set. apply list_eq. intros j.
  destruct (decide (mi_bitmap_index_field i = j)) as [<-|Hne].
  - rewrite !list_lookup_alter_eq.
    destruct (bm !! mi_bitmap_index_field i) as [f|]; [|done]. cbn.
    f_equal. apply Z_clearbit_setbit. lia.
  - by rewrite !list_lookup_alter_ne.
Qed.

Lemma arena_eta_abandoned a : set_blocks_abandoned (blocks_abandoned a) a = a.
Proof. by destruct a. Qed.

Lemma set_arena_twice i a a1 s : set_arena i a (set_arena i a1 s) = set_arena i a s.
Proof.
  unfold set_arena, set_mi_arenas. cbn [mi_arenas mi_arena_count mi_arena_static
    mi_arena_static_top purge_guard mi_log]. by rewrite insert_insert_eq.
Qed.

Lemma on_arenas_inv {A} (m : M mi_state A) s x s' tr :
  on_arenas m s = Done x s' tr ->
  exists st' tr', m (ab_state s) = Done x st' tr' /\ s' = set_ab_state st' s.
Proof.
  unfold on_arenas. destruct (m (ab_state s)) as [y st' tr'|]; [|done].
  intros [= <- <- _]. by exists st', tr'.
Qed.

Lemma abandoned_claim_inv idx a r a' tr :
  abandoned_claim 1 idx a = Done r a' tr ->
  (idx < bm_bits (blocks_abandoned a))%nat /\ r = negb (abandoned a idx) /\
  a' = set_blocks_abandoned (bm_set (blocks_abandoned a) idx) a.
Proof.
  intros H. apply bitmap_rmw_inv in H as (bm & Hsel & Hrun & -> & -> & _).
  unfold sel_abandoned in Hsel. injection Hsel as <-.
  unfold run_in_bitmap in Hrun. apply Nat.leb_le in Hrun.
  split; [lia|]. split; [|done].
  cbn [_mi_bitmap_claim _mi_bitmap_claim_across fst snd]. unfold bm_all_clear, abandoned.
  cbn [seq forallb]. apply andb_true_r.
Qed.

Lemma abandoned_unclaim_inv idx a r a' tr :
  abandoned_unclaim 1 idx a = Done r a' tr ->
  (idx < bm_bits (blocks_abandoned a))%nat /\ r = abandoned a idx /\
  a' = set_blocks_abandoned (bm_clear (blocks_abandoned a) idx) a.
Proof.
  intros H. apply bitmap_rmw_inv in H as (bm & Hsel & Hrun & -> & -> & _).
  unfold sel_abandoned in Hsel. injection Hsel as <-.
  unfold run_in_bitmap in Hrun. apply Nat.leb_le in Hrun.
  split; [lia|]. split; [|done].
  cbn [_mi_bitmap_unclaim _mi_bitmap_unclaim_across fst snd]. unfold bm_all_set, abandoned.
  cbn [seq forallb]. apply andb_true_r.
Qed.

(** What marking and reclaiming do to a segment that lives in an arena. *)
Lemma mark_abandoned_arena_inv segment s seg1 s1 tr :
  memkind (seg_memid segment) = MI_MEM_ARENA ->
  _mi_arena_segment_mark_abandoned segment s = Done seg1 s1 tr ->
  let i := mi_arena_id_index (mem_arena_id (seg_memid segment)) in
  let b := mem_arena_block_index (seg_memid segment) in
  exists a, mi_arenas (ab_state s) !! i = Some a /\ (i < MI_MAX_ARENAS)%nat /\
    (b < bm_bits (blocks_abandoned a))%nat /\
    seg1 = set_seg_thread_id 0 segment /\
    s1 = mk_abandon_state
           (set_arena i (set_blocks_abandoned (bm_set (blocks_abandoned a) b) a) (ab_state s))
           (if abandoned a b then abandoned_count s
            else size_wrap (abandoned_count s + 1)).
Proof.
  intros Hk H. cbv zeta. unfold _mi_arena_segment_mark_abandoned in H.
  cbn [set_seg_thread_id seg_memid] in H. rewrite Hk in H. cbn [mi_memkind_eqb negb] in H.
  unfold mi_arena_memid_indices in H.
  apply bind_Done in H as (loaded & s0 & t1 & t2 & H1 & H2 & ->).
  apply on_arenas_inv in H1 as (st' & tr' & H1 & ->).
  apply load_arena_inv in H1 as (Hlt & -> & -> & _).
  destruct (mi_arenas (ab_state s) !! _) as [a|] eqn:Ha; [|done].
  apply bind_Done in H2 as (was & s2 & t3 & t4 & H2 & H3 & ->).
  apply on_arenas_inv in H2 as (st2 & tr2 & H2 & ->).
  cbn [ab_state set_ab_state] in H2.
  apply with_arena_inv in H2 as (a0 & a' & tr3 & Ha0 & Hrun & -> & _).
  destruct s as [st c]. cbn [ab_state] in *.
  rewrite Ha in Ha0. injection Ha0 as <-.
  apply abandoned_claim_inv in Hrun as (Hb & -> & ->).
  exists a. split; [done|]. split; [done|]. split; [done|].
  apply bind_Done in H3 as (u & s3 & t5 & t6 & H3 & H4 & ->).
  apply ret_Done in H4 as (-> & -> & _). split; [done|].
  destruct (abandoned a _); cbn [negb] in H3.
  - by apply ret_Done in H3 as (_ & -> & _).
  - unfold atomic_increment_abandoned_count in H3. by apply atomic_Done in H3 as (-> & _).
Qed.

Lemma clear_abandoned_arena_inv tid segment s r seg1 s1 tr :
  memkind (seg_memid segment) = MI_MEM_ARENA ->
  _mi_arena_segment_clear_abandoned tid segment s = Done (r, seg1) s1 tr ->
  let i := mi_arena_id_index (mem_arena_id (seg_memid segment)) in
  let b := mem_arena_block_index (seg_memid segment) in
  exists a, mi_arenas (ab_state s) !! i = Some a /\ (i < MI_MAX_ARENAS)%nat /\
    (b < bm_bits (blocks_abandoned a))%nat /\
    r = abandoned a b /\
    seg1 = (if abandoned a b then set_seg_thread_id tid segment else segment) /\
    s1 = mk_abandon_state
           (set_arena i (set_blocks_abandoned (bm_clear (blocks_abandoned a) b) a) (ab_state s))
           (if abandoned a b then size_wrap (abandoned_count s - 1)
            else abandoned_count s).
Proof.
  intros Hk H. cbv zeta. unfold _mi_arena_segment_clear_abandoned in H.
  rewrite Hk in H. cbn [mi_memkind_eqb negb] in H.
  unfold mi_arena_memid_indices in H.
  apply bind_Done in H as (loaded & s0 & t1 & t2 & H1 & H2 & ->).
  apply on_arenas_inv in H1 as (st' & tr' & H1 & ->).
  apply load_arena_inv in H1 as (Hlt & -> & -> & _).
  destruct (mi_arenas (ab_state s) !! _) as [a|] eqn:Ha; [|done].
  apply bind_Done in H2 as (was & s2 & t3 & t4 & H2 & H3 & ->).
  apply on_arenas_inv in H2 as (st2 & tr2 & H2 & ->).
  cbn [ab_state set_ab_state] in H2.
  apply with_arena_inv in H2 as (a0 & a' & tr3 & Ha0 & Hrun & -> & _).
  destruct s as [st c]. cbn [ab_state] in *.
  rewrite Ha in Ha0. injection Ha0 as <-.
  apply abandoned_unclaim_inv in Hrun as (Hb & -> & ->).
  exists a. split; [done|]. split; [done|]. split; [done|].
  destruct (abandoned a _).
  - apply bind_Done in H3 as (u & s3 & t5 & t6 & H3 & H4 & ->).
    apply ret_Done in H4 as (H4 & -> & _). injection H4 as <- <-.
    unfold atomic_decrement_abandoned_count in H3. by apply atomic_Done in H3 as (-> & _).
  - apply ret_Done in H3 as (H3 & -> & _). by injection H3 as <- <-.
Qed.

(** Property X19.  Marking a segment that lives in an arena as abandoned, when
    it was not marked, counts it and sets its bit in the abandoned bitmap;
    reclaiming it then succeeds, hands the segment to the reclaiming thread,
    and leaves the arenas and the count of abandoned segments exactly as they
    were before the segment was marked. *)
Theorem abandon_then_reclaim_round_trip tid segment s a seg1 s1 tr1 r seg2 s2 tr2 :
  memkind (seg_memid segment) = MI_MEM_ARENA ->
  mi_arenas (ab_state s) !! mi_arena_id_index (mem_arena_id (seg_memid segment)) = Some a ->
  abandoned a (mem_arena_block_index (seg_memid segment)) = false ->
  0 <= abandoned_count s < 2 ^ 64 - 1 ->
  _mi_arena_segment_mark_abandoned segment s = Done seg1 s1 tr1 ->
  _mi_arena_segment_clear_abandoned tid seg1 s1 = Done (r, seg2) s2 tr2 ->
  seg_thread_id seg1 = 0 /\
  abandoned_count s1 = abandoned_count s + 1 /\
  (exists a1,
     mi_arenas (ab_state s1) !! mi_arena_id_index (mem_arena_id (seg_memid segment)) = Some a1
     /\ abandoned a1 (mem_arena_block_index (seg_memid segment)) = true) /\
  r = true /\ seg_thread_id seg2 = tid /\ seg_memid seg2 = seg_memid segment /\
  s2 = s.
Proof.
  intros Hk Ha Hclear Hcount H1 H2.
  apply (mark_abandoned_arena_inv _ _ _ _ _ Hk) in H1
    as (a0 & Ha0 & Hlt & Hb & -> & ->). cbv zeta in *.
  rewrite Ha in Ha0. injection Ha0 as <-. rewrite Hclear in *.
  apply clear_abandoned_arena_inv in H2 as (a1 & Ha1 & _ & _ & -> & -> & ->); [|done].
  cbn [set_seg_thread_id seg_memid seg_thread_id ab_state abandoned_count] in *.
  set (i := mi_arena_id_index (mem_arena_id (seg_memid segment))) in *.
  set (b := mem_arena_block_index (seg_memid segment)) in *.
  unfold set_arena at 1 in Ha1. cbn [set_mi_arenas mi_arenas] in Ha1.
  rewrite lookup_insert_eq in Ha1. injection Ha1 as <-.
  assert (Hset : abandoned (set_blocks_abandoned (bm_set (blocks_abandoned a) b) a) b = true).
  { unfold abandoned. cbn [blocks_abandoned set_blocks_abandoned]. rewrite bm_get_set.
    apply orb_true_iff. left. apply andb_true_iff. split; [by apply Nat.eqb_eq|].
    by apply Nat.ltb_lt. }
  rewrite Hset.
  split; [done|]. split; [apply size_wrap_small; lia|].
  split; [eexists; split; [unfold set_arena; cbn [set_mi_arenas mi_arenas];
                           apply lookup_insert_eq|done]|].
  split; [done|]. split; [done|]. split; [done|].
  cbn [blocks_abandoned set_blocks_abandoned].
  rewrite bm_clear_set, (bm_clear_clear _ _ Hclear).
  rewrite set_arena_twice.
  replace (set_blocks_abandoned (blocks_abandoned a)
             (set_blocks_abandoned (bm_set (blocks_abandoned a) b) a)) with a
    by (by destruct a).
  rewrite (set_arena_same _ _ _ Ha).
  rewrite (size_wrap_small (abandoned_count s + 1)) by lia.
  rewrite size_wrap_small by lia.
  destruct s as [st c]. cbn [ab_state abandoned_count]. f_equal. lia.
Qed.

(** Property X20.  A segment is reclaimed at most once: after a successful
    reclaim by a thread, a second reclaim of the segment fails and changes
    neither the segment, nor the arenas, nor the count of abandoned segments. *)
Theorem reclaim_at_most_once tid1 tid2 segment s seg1 s1 tr1 r2 seg2 s2 tr2 :
  tid1 <> 0 ->
  _mi_arena_segment_clear_abandoned tid1 segment s = Done (true, seg1) s1 tr1 ->
  _mi_arena_segment_clear_abandoned tid2 seg1 s1 = Done (r2, seg2) s2 tr2 ->
  seg_thread_id seg1 = tid1 /\
  abandoned_count s1 = size_wrap (abandoned_count s - 1) /\
  r2 = false /\ seg2 = seg1 /\ s2 = s1.
Proof.
  intros Htid H1 H2.
  destruct (mi_memkind_eqb (memkind (seg_memid segment)) MI_MEM_ARENA) eqn:Hk.
  - assert (Hk' : memkind (seg_memid segment) = MI_MEM_ARENA)
      by (by destruct (memkind (seg_memid segment))).
    apply clear_abandoned_arena_inv in H1 as (a & Ha & Hlt & Hb & Hr & -> & ->); [|done].
    cbv zeta in *. rewrite <- Hr in *.
    apply clear_abandoned_arena_inv in H2 as (a1 & Ha1 & _ & _ & -> & -> & ->); [|done].
    cbn [set_seg_thread_id seg_memid seg_thread_id ab_state abandoned_count] in *.
    set (i := mi_arena_id_index (mem_arena_id (seg_memid segment))) in *.
    set (b := mem_arena_block_index (seg_memid segment)) in *.
    unfold set_arena at 1 in Ha1. cbn [set_mi_arenas mi_arenas] in Ha1.
    rewrite lookup_insert_eq in Ha1. injection Ha1 as <-.
    assert (Hclr : abandoned (set_blocks_abandoned (bm_clear (blocks_abandoned a) b) a) b
                   = false).
    { unfold abandoned. cbn [blocks_abandoned set_blocks_abandoned]. rewrite bm_get_clear.
      apply andb_false_iff. left. apply negb_false_iff. by apply Nat.eqb_eq. }
    rewrite Hclr. split; [done|]. split; [done|]. split; [done|]. split; [done|].
    cbn [blocks_abandoned set_blocks_abandoned]. f_equal.
    rewrite set_arena_twice. f_equal.
    rewrite (bm_clear_clear (bm_clear (blocks_abandoned a) b) b); [by destruct a|].
    exact Hclr.
  - unfold _mi_arena_segment_clear_abandoned in H1, H2. rewrite Hk in H1. cbn [negb] in H1.
    destruct (seg_thread_id segment =? 0); [|by apply ret_Done in H1 as (? & _)].
    apply bind_Done in H1 as (u & s0 & t1 & t2 & H1 & H1' & ->).
    apply ret_Done in H1' as (H1' & -> & _). injection H1' as ->.
    unfold atomic_decrement_abandoned_count in H1. apply atomic_Done in H1 as (-> & _).
    cbn [set_seg_thread_id seg_memid seg_thread_id] in H2. rewrite Hk in H2. cbn [negb] in H2.
    apply Z.eqb_neq in Htid. rewrite Htid in H2.
    apply ret_Done in H2 as (H2 & -> & _). injection H2 as -> ->.
    repeat split; reflexivity.
Qed.

Lemma land_mask_testbit f k :
  (Z.land f (Z.shiftl 1 (Z.of_nat k)) =? Z.shiftl 1 (Z.of_nat k)) = Z.testbit f (Z.of_nat k).
Proof.
  assert (Hmask : forall n, 0 <= n ->
            Z.testbit (Z.shiftl 1 (Z.of_nat k)) n = (Z.of_nat k =? n)).
  { intros n Hn. rewrite Z.shiftl_spec by done.
    destruct (Z.eqb_spec (Z.of_nat k) n) as [<-|Hne].
    - by rewrite Z.sub_diag.
    - destruct (Z.lt_ge_cases n (Z.of_nat k)); [apply Z.testbit_neg_r; lia|].
      apply (Z.bits_above_log2 1); [done|]. cbn. lia. }
  destruct (Z.testbit f (Z.of_nat k)) eqn:E.
  - apply Z.eqb_eq. apply Z.bits_inj'. intros n Hn. rewrite Z.land_spec, Hmask by done.
    destruct (Z.eqb_spec (Z.of_nat k) n) as [<-|]; [by rewrite E|apply andb_false_r].
  - apply Z.eqb_neq. intros Heq.
    assert (Hbit : Z.testbit (Z.land f (Z.shiftl 1 (Z.of_nat k))) (Z.of_nat k) = true).
    { rewrite Heq, Hmask by lia. apply Z.eqb_refl. }
    rewrite Z.land_spec, E in Hbit. done.
Qed.

Lemma abandoned_next_bit_spec field fi : forall bits a r a' tr,
  abandoned_next_bit bits field fi a = Done r a' tr ->
  (r = None /\ a' = a) \/
  (exists bit, bit ∈ bits /\ r = Some (mi_bitmap_index_create fi bit) /\
     abandoned a (mi_bitmap_index_create fi bit) = true /\
     a' = set_blocks_abandoned
            (bm_clear (blocks_abandoned a) (mi_bitmap_index_create fi bit)) a).
Proof.
  induction bits as [|bit rest IH]; intros a r a' tr H; cbn [abandoned_next_bit] in H.
  - apply ret_Done in H as (-> & -> & _). by left.
  - assert (Hrest : forall tr0, abandoned_next_bit rest field fi a = Done r a' tr0 ->
              (r = None /\ a' = a) \/
              (exists bit0, bit0 ∈ bit :: rest /\ r = Some (mi_bitmap_index_create fi bit0) /\
                 abandoned a (mi_bitmap_index_create fi bit0) = true /\
                 a' = set_blocks_abandoned
                        (bm_clear (blocks_abandoned a) (mi_bitmap_index_create fi bit0)) a)).
    { intros tr0 H'. apply IH in H' as [?|(bit0 & Hin & ?)]; [by left|].
      right. exists bit0. split; [by right|done]. }
    destruct (Z.land field _ =? _); [|by eapply Hrest].
    apply bind_Done in H as (ok & a1 & t1 & t2 & H1 & H2 & ->).
    apply abandoned_unclaim_inv in H1 as (_ & -> & ->).
    destruct (abandoned a (mi_bitmap_index_create fi bit)) eqn:E.
    + apply ret_Done in H2 as (-> & -> & _). right. exists bit. split; [by left|done].
    + rewrite (bm_clear_clear _ _ E), arena_eta_abandoned in H2.
      apply Hrest in H2 as [(-> & ->)|?]; [by left|by right].
Qed.

Lemma abandoned_next_field_spec : forall n f0 bit_idx a r a' tr,
  (bit_idx <= MI_BITMAP_FIELD_BITS)%nat ->
  abandoned_next_field (seq f0 n) bit_idx a = Done r a' tr ->
  (r = None /\ a' = a) \/
  (exists idx, r = Some idx /\ (f0 * MI_BITMAP_FIELD_BITS + bit_idx <= idx)%nat /\
     abandoned a idx = true /\
     a' = set_blocks_abandoned (bm_clear (blocks_abandoned a) idx) a).
Proof.
  induction n as [|n IH]; intros f0 bit_idx a r a' tr Hbit H.
  - cbn [seq abandoned_next_field] in H. apply ret_Done in H as (-> & -> & _). by left.
  - change (seq f0 (S n)) with (f0 :: seq (S f0) n) in H.
    cbn [abandoned_next_field] in H.
    apply bind_Done in H as (field & a0 & t1 & t2 & H1 & H2 & ->).
    assert (a0 = a) as ->.
    { unfold load_abandoned_field in H1. destruct (_ !! _); [|done]. by injection H1. }
    apply bind_Done in H2 as (found & a1 & t3 & t4 & H2 & H3 & ->).
    assert (Hfound : (found = None /\ a1 = a) \/
              (exists idx, found = Some idx /\ (f0 * MI_BITMAP_FIELD_BITS + bit_idx <= idx)%nat /\
                 abandoned a idx = true /\
                 a1 = set_blocks_abandoned (bm_clear (blocks_abandoned a) idx) a)).
    { destruct (negb (field =? 0)).
      - apply abandoned_next_bit_spec in H2 as [?|(bit & Hin & -> & Hab & ->)]; [by left|].
        right. eexists. split; [done|]. split; [|done].
        apply elem_of_seq in Hin. unfold mi_bitmap_index_create. lia.
      - apply ret_Done in H2 as (-> & -> & _). by left. }
    destruct Hfound as [(-> & ->)|(idx & -> & Hle & Hab & ->)].
    + apply IH in H3; [|lia]. destruct H3 as [?|(idx & -> & Hle & Hab & ->)]; [by left|].
      right. exists idx. split; [done|]. split; [|done].
      unfold MI_BITMAP_FIELD_BITS in *. lia.
    + apply ret_Done in H3 as (-> & -> & _). right. by exists idx.
Qed.

Lemma set_ab_state_same s : set_ab_state (ab_state s) s = s.
Proof. by destruct s. Qed.

Lemma abandoned_next_arena_spec start max_arena : forall n c0 field_idx bit_idx s r s' tr,
  (bit_idx <= MI_BITMAP_FIELD_BITS)%nat ->
  abandoned_next_arena (seq c0 n) start max_arena field_idx bit_idx s = Done r s' tr ->
  (r = None /\ s' = s) \/
  (exists count idx a,
     let i := if (max_arena <=? start + count)%nat
              then ((start + count) mod max_arena)%nat else (start + count)%nat in
     r = Some (count, idx, mi_arena_block_start a idx) /\
     (c0 <= count < c0 + n)%nat /\
     (count = c0 -> (field_idx * MI_BITMAP_FIELD_BITS + bit_idx <= idx)%nat) /\
     mi_arenas (ab_state s) !! i = Some a /\ (i < MI_MAX_ARENAS)%nat /\
     abandoned a idx = true /\
     s' = mk_abandon_state
            (set_arena i (set_blocks_abandoned (bm_clear (blocks_abandoned a) idx) a)
               (ab_state s))
            (size_wrap (abandoned_count s - 1))).
Proof.
  induction n as [|n IH]; intros c0 field_idx bit_idx s r s' tr Hbit H.
  - cbn [seq abandoned_next_arena] in H. apply ret_Done in H as (-> & -> & _). by left.
  - change (seq c0 (S n)) with (c0 :: seq (S c0) n) in H.
    cbn [abandoned_next_arena] in H.
    set (i := if (max_arena <=? start + c0)%nat
              then ((start + c0) mod max_arena)%nat else (start + c0)%nat) in *.
    assert (Hrest : forall tr0,
              abandoned_next_arena (seq (S c0) n) start max_arena 0 0 s = Done r s' tr0 ->
              (r = None /\ s' = s) \/
              (exists count idx a,
                 let i := if (max_arena <=? start + count)%nat
                          then ((start + count) mod max_arena)%nat else (start + count)%nat in
                 r = Some (count, idx, mi_arena_block_start a idx) /\
                 (c0 <= count < c0 + S n)%nat /\
                 (count = c0 -> (field_idx * MI_BITMAP_FIELD_BITS + bit_idx <= idx)%nat) /\
                 mi_arenas (ab_state s) !! i = Some a /\ (i < MI_MAX_ARENAS)%nat /\
                 abandoned a idx = true /\
                 s' = mk_abandon_state
                        (set_arena i
                           (set_blocks_abandoned (bm_clear (blocks_abandoned a) idx) a)
                           (ab_state s))
                        (size_wrap (abandoned_count s - 1)))).
    { intros tr0 H'. apply IH in H'; [|lia].
      destruct H' as [?|(count & idx & a & Hr & Hc & _ & Hrestx)]; [by left|].
      right. exists count, idx, a. cbv zeta.
      split; [done|]. split; [lia|]. split; [lia|done]. }
    apply bind_Done in H as (loaded & s0 & t1 & t2 & H1 & H2 & ->).
    apply on_arenas_inv in H1 as (st' & tr' & H1 & ->).
    apply load_arena_inv in H1 as (Hlt & -> & -> & _).
    rewrite set_ab_state_same in H2.
    destruct (mi_arenas (ab_state s) !! i) as [arena|] eqn:Ha; [|by eapply Hrest].
    apply bind_Done in H2 as (found & s1 & t3 & t4 & H2 & H3 & ->).
    apply on_arenas_inv in H2 as (st1 & tr1 & H2 & ->).
    apply with_arena_inv in H2 as (a0 & a' & tr3 & Ha0 & Hrun & -> & _).
    rewrite Ha in Ha0. injection Ha0 as <-.
    apply abandoned_next_field_spec in Hrun; [|done].
    destruct Hrun as [(-> & ->)|(idx & -> & Hle & Hab & ->)].
    + rewrite (set_arena_same _ _ _ Ha), set_ab_state_same in H3. by eapply Hrest.
    + apply bind_Done in H3 as (u & s2 & t5 & t6 & H3 & H4 & ->).
      unfold atomic_decrement_abandoned_count in H3. apply atomic_Done in H3 as (-> & _).
      apply ret_Done in H4 as (-> & -> & _).
      right. exists c0, idx, arena. cbv zeta. fold i.
      split; [done|]. split; [lia|]. split; [done|]. split; [done|]. split; [done|].
      split; [done|]. by destruct s.
Qed.

(** Property X21.  A call of [_mi_arena_segment_clear_abandoned_next] that
    returns a segment returns the address of a block whose abandoned bit was
    set, in an arena registered below the count; the call has cleared that bit
    and no other, has counted the abandoned segments down by one, and leaves
    the cursor at the block it returned.  The scan goes strictly forward from
    the position of the cursor: the block at that position itself is never
    returned, so that a scan from a fresh cursor skips block 0 of the arena it
    starts at. *)
Theorem reclaim_next_returns_abandoned prev s p cur s' tr :
  _mi_arena_segment_clear_abandoned_next prev s = Done (p, cur) s' tr ->
  p <> 0 ->
  let max_arena := mi_arena_count (ab_state s) in
  let i := if (max_arena <=? cur_start prev + cur_count cur)%nat
           then ((cur_start prev + cur_count cur) mod max_arena)%nat
           else (cur_start prev + cur_count cur)%nat in
  exists a,
    mi_arenas (ab_state s) !! i = Some a /\ (i < max_arena)%nat /\
    abandoned a (cur_bitmap_idx cur) = true /\
    p = mi_arena_block_start a (cur_bitmap_idx cur) /\
    ab_state s'
    = set_arena i
        (set_blocks_abandoned (bm_clear (blocks_abandoned a) (cur_bitmap_idx cur)) a)
        (ab_state s) /\
    abandoned_count s' = size_wrap (abandoned_count s - 1) /\
    cur_start cur = cur_start prev /\
    (cur_count cur < max_arena)%nat /\
    ((cur_count prev < cur_count cur)%nat \/
     (cur_count cur = cur_count prev /\ (cur_bitmap_idx prev < cur_bitmap_idx cur)%nat)).
Proof.
  intros H Hp. cbv zeta. unfold _mi_arena_segment_clear_abandoned_next in H.
  rewrite bind_get_eq in H.
  destruct (Nat.leb_spec (mi_arena_count (ab_state s)) 0) as [|Hmax]; cbn [orb] in H.
  { apply ret_Done in H as (H & _). by injection H as -> _. }
  destruct (abandoned_count s =? 0).
  { apply ret_Done in H as (H & _). by injection H as -> _. }
  apply bind_Done in H as (found & s1 & t1 & t2 & H1 & H2 & ->).
  apply abandoned_next_arena_spec in H1.
  2:{ unfold mi_bitmap_index_bit_in_field.
      pose proof (Nat.mod_upper_bound (cur_bitmap_idx prev) MI_BITMAP_FIELD_BITS ltac:(done)).
      lia. }
  destruct H1 as [(-> & ->)|(count & idx & a & -> & Hc & Hfirst & Ha & Hlt & Hab & ->)].
  - apply ret_Done in H2 as (H2 & _). by injection H2 as -> _.
  - apply ret_Done in H2 as (H2 & -> & _). injection H2 as -> ->.
    cbn [cur_start cur_count cur_bitmap_idx ab_state abandoned_count]. cbv zeta in Ha.
    exists a. split; [done|]. split.
    { destruct (Nat.leb_spec (mi_arena_count (ab_state s)) (cur_start prev + count)).
      - apply Nat.mod_upper_bound. lia.
      - lia. }
    split; [done|]. split; [done|]. split; [done|]. split; [done|]. split; [done|].
    split; [lia|].
    destruct (decide (count = cur_count prev)) as [->|Hne]; [right|left; lia].
    split; [done|]. specialize (Hfirst eq_refl).
    pose proof (Nat.div_mod_eq (cur_bitmap_idx prev) MI_BITMAP_FIELD_BITS) as Hdm.
    unfold mi_bitmap_index_field, mi_bitmap_index_bit_in_field in Hfirst.
    unfold MI_BITMAP_FIELD_BITS in *. lia.
Qed.

(** ** A scan that finds nothing *)

Lemma abandoned_field_bit a fi field bit :
  blocks_abandoned a !! fi = Some field -> (bit < MI_BITMAP_FIELD_BITS)%nat ->
  abandoned a (mi_bitmap_index_create fi bit) = Z.testbit field (Z.of_nat bit).
Proof.
  intros Hf Hbit.
  unfold abandoned, bm_get, mi_bitmap_index_create, mi_bitmap_index_field,
    mi_bitmap_index_bit_in_field.
  assert (Hnz : MI_BITMAP_FIELD_BITS <> 0%nat) by done.
  rewrite Nat.div_add_l, (Nat.div_small bit), Nat.add_0_r, Hf by done.
  by rewrite Nat.add_comm, Nat.Div0.mod_add, Nat.mod_small.
Qed.

Lemma abandoned_next_bit_none field fi : forall bits a a' tr,
  blocks_abandoned a !! fi = Some field ->
  (forall bit, bit ∈ bits -> (bit < MI_BITMAP_FIELD_BITS)%nat) ->
  abandoned_next_bit bits field fi a = Done None a' tr ->
  forall bit, bit ∈ bits -> abandoned a (mi_bitmap_index_create fi bit) = false.
Proof.
  induction bits as [|bit rest IH]; intros a a' tr Hf Hbits H bit0 Hin.
  { by apply elem_of_nil in Hin. }
  cbn [abandoned_next_bit] in H. rewrite land_mask_testbit in H.
  pose proof (abandoned_field_bit a fi field bit Hf (Hbits bit ltac:(by left))) as Hbit.
  assert (Hhead : abandoned a (mi_bitmap_index_create fi bit) = false /\
                  exists tr0, abandoned_next_bit rest field fi a = Done None a' tr0).
  { destruct (Z.testbit field (Z.of_nat bit)) eqn:E; [|split; [done|by eexists]].
    apply bind_Done in H as (ok & a1 & t1 & t2 & H1 & H2 & _).
    apply abandoned_unclaim_inv in H1 as (_ & -> & ->). rewrite Hbit in H2.
    by apply ret_Done in H2 as (? & _). }
  destruct Hhead as (Hclear & tr0 & Hrest).
  apply elem_of_cons in Hin as [->|Hin]; [done|].
  eapply IH; [done| |done..]. intros b Hb. apply Hbits. by right.
Qed.

Lemma abandoned_next_field_none : forall n f0 bit_idx a a' tr,
  (bit_idx <= MI_BITMAP_FIELD_BITS)%nat ->
  abandoned_next_field (seq f0 n) bit_idx a = Done None a' tr ->
  forall b, (f0 * MI_BITMAP_FIELD_BITS + bit_idx <= b < (f0 + n) * MI_BITMAP_FIELD_BITS)%nat ->
            abandoned a b = false.
Proof.
  induction n as [|n IH]; intros f0 bit_idx a a' tr Hbit H b Hb.
  { unfold MI_BITMAP_FIELD_BITS in *. lia. }
  change (seq f0 (S n)) with (f0 :: seq (S f0) n) in H.
  cbn [abandoned_next_field] in H.
  apply bind_Done in H as (field & a0 & t1 & t2 & H1 & H2 & _).
  assert (Hf : blocks_abandoned a !! f0 = Some field /\ a0 = a).
  { unfold load_abandoned_field in H1. destruct (_ !! _); [|done]. by injection H1 as -> ->. }
  destruct Hf as [Hf ->].
  apply bind_Done in H2 as (found & a1 & t3 & t4 & H2 & H3 & _).
  assert (Hfirst : found = None /\ a1 = a /\
            forall bit, (bit_idx <= bit < MI_BITMAP_FIELD_BITS)%nat ->
                        abandoned a (mi_bitmap_index_create f0 bit) = false).
  { destruct (Z.eqb_spec field 0) as [->|Hnz]; cbn [negb] in H2.
    - apply ret_Done in H2 as (-> & -> & _). split; [done|]. split; [done|].
      intros bit Hb0. rewrite (abandoned_field_bit a f0 0 bit Hf) by lia.
      apply Z.testbit_0_l.
    - destruct found as [idx|].
      { by apply ret_Done in H3 as (? & _). }
      pose proof (abandoned_next_bit_spec _ _ _ _ _ _ _ H2) as [(_ & ->)|(? & _ & ? & _)];
        [|done].
      split; [done|]. split; [done|]. intros bit Hb0.
      eapply abandoned_next_bit_none; [exact Hf| |exact H2|].
      + intros b0 Hb1. apply elem_of_seq in Hb1. lia.
      + apply elem_of_seq. lia. }
  destruct Hfirst as (-> & -> & Hfirst).
  destruct (Nat.lt_ge_cases b ((f0 + 1) * MI_BITMAP_FIELD_BITS)) as [Hlt|Hge].
  - assert (Hb0 : b = mi_bitmap_index_create f0 (b - f0 * MI_BITMAP_FIELD_BITS)).
    { unfold mi_bitmap_index_create, MI_BITMAP_FIELD_BITS in *. lia. }
    rewrite Hb0. apply Hfirst. unfold MI_BITMAP_FIELD_BITS in *. lia.
  - eapply IH; [|exact H3|]; unfold MI_BITMAP_FIELD_BITS in *; lia.
Qed.

Lemma abandoned_next_arena_none start max_arena : forall n c0 field_idx bit_idx s s' tr,
  (bit_idx <= MI_BITMAP_FIELD_BITS)%nat ->
  abandoned_next_arena (seq c0 n) start max_arena field_idx bit_idx s = Done None s' tr ->
  forall count a b,
    (c0 <= count < c0 + n)%nat ->
    mi_arenas (ab_state s)
      !! (if (max_arena <=? start + count)%nat
          then ((start + count) mod max_arena)%nat else (start + count)%nat) = Some a ->
    (count = c0 -> (field_idx * MI_BITMAP_FIELD_BITS + bit_idx <= b)%nat) ->
    (b < field_count a * MI_BITMAP_FIELD_BITS)%nat ->
    abandoned a b = false.
Proof.
  induction n as [|n IH]; intros c0 field_idx bit_idx s s' tr Hbit H count a b Hc Ha Hfrom Hb.
  { lia. }
  change (seq c0 (S n)) with (c0 :: seq (S c0) n) in H.
  cbn [abandoned_next_arena] in H.
  set (i := if (max_arena <=? start + c0)%nat
            then ((start + c0) mod max_arena)%nat else (start + c0)%nat) in *.
  apply bind_Done in H as (loaded & s0 & t1 & t2 & H1 & H2 & _).
  apply on_arenas_inv in H1 as (st' & tr' & H1 & ->).
  apply load_arena_inv in H1 as (Hlt & -> & -> & _).
  rewrite set_ab_state_same in H2.
  assert (Hthis : (forall a0, mi_arenas (ab_state s) !! i = Some a0 ->
                     forall b0, (field_idx * MI_BITMAP_FIELD_BITS + bit_idx <= b0)%nat ->
                                (b0 < field_count a0 * MI_BITMAP_FIELD_BITS)%nat ->
                                abandoned a0 b0 = false) /\
                  exists tr0, abandoned_next_arena (seq (S c0) n) start max_arena 0 0 s
                              = Done None s' tr0).
  { destruct (mi_arenas (ab_state s) !! i) as [arena|] eqn:Harena.
    2:{ split; [done|by eexists]. }
    apply bind_Done in H2 as (found & s1 & t3 & t4 & H2 & H3 & _).
    apply on_arenas_inv in H2 as (st1 & tr1 & H2 & ->).
    apply with_arena_inv in H2 as (a0 & a' & tr3 & Ha0 & Hrun & -> & _).
    rewrite Harena in Ha0. injection Ha0 as <-.
    destruct found as [idx|].
    { apply bind_Done in H3 as (u & s2 & t5 & t6 & _ & H4 & _).
      by apply ret_Done in H4 as (? & _). }
    pose proof (abandoned_next_field_spec _ _ _ _ _ _ _ Hbit Hrun) as [(_ & ->)|(? & ? & _)];
      [|done].
    rewrite (set_arena_same _ _ _ Harena), set_ab_state_same in H3.
    split; [|by eexists].
    intros a0 [= <-] b0 Hb0 Hb1.
    eapply abandoned_next_field_none; [exact Hbit|exact Hrun|].
    unfold MI_BITMAP_FIELD_BITS in *. nia. }
  destruct Hthis as (Hthis & tr0 & Hrest).
  destruct (Nat.eq_dec count c0) as [->|Hne].
  - eapply Hthis; [exact Ha|by apply Hfrom|done].
  - eapply (IH (S c0) 0%nat 0%nat); [lia|exact Hrest| |exact Ha| |done]; lia.
Qed.

(** Property X30.  In a registry where no arena starts at address 0, a
    call of [_mi_arena_segment_clear_abandoned_next] that returns NULL
    changes nothing.  If there are arenas and the count of abandoned
    segments is not 0, it has found no abandoned block after the position
    of the cursor: none with a higher index in the arena of the cursor, and
    none in the arenas that follow it in the round; and it resets the
    cursor to the start of the round.  The block at the position of the
    cursor itself is not examined. *)
Theorem reclaim_scan_is_complete prev s cur s' tr :
  starts_nonzero (ab_state s) ->
  _mi_arena_segment_clear_abandoned_next prev s = Done (0, cur) s' tr ->
  let max_arena := mi_arena_count (ab_state s) in
  s' = s /\
  (max_arena = 0%nat \/ abandoned_count s = 0 -> cur = prev) /\
  (max_arena <> 0%nat -> abandoned_count s <> 0 ->
   cur = mk_cursor (cur_start prev) 0 0 /\
   forall count a b,
     (cur_count prev <= count < max_arena)%nat ->
     mi_arenas (ab_state s)
       !! (if (max_arena <=? cur_start prev + count)%nat
           then ((cur_start prev + count) mod max_arena)%nat
           else (cur_start prev + count)%nat) = Some a ->
     (count = cur_count prev -> (cur_bitmap_idx prev < b)%nat) ->
     (b < field_count a * MI_BITMAP_FIELD_BITS)%nat ->
     abandoned a b = false).
Proof.
  intros Hs H. cbv zeta. unfold _mi_arena_segment_clear_abandoned_next in H.
  rewrite bind_get_eq in H.
  destruct (Nat.leb_spec (mi_arena_count (ab_state s)) 0) as [Hz|Hnz]; cbn [orb] in H.
  { apply ret_Done in H as (Hr & -> & _). injection Hr as ->.
    split; [done|]. split; [done|]. intros; lia. }
  destruct (Z.eqb_spec (abandoned_count s) 0) as [Hz|Hac].
  { apply ret_Done in H as (Hr & -> & _). injection Hr as ->.
    split; [done|]. split; [done|]. done. }
  assert (Hbit : (mi_bitmap_index_bit_in_field (cur_bitmap_idx prev) + 1
                  <= MI_BITMAP_FIELD_BITS)%nat).
  { unfold mi_bitmap_index_bit_in_field.
    pose proof (Nat.mod_upper_bound (cur_bitmap_idx prev) MI_BITMAP_FIELD_BITS ltac:(done)).
    lia. }
  apply bind_Done in H as (found & s1 & t1 & t2 & H1 & H2 & _).
  destruct found as [[[count bitmap_idx] segment]|].
  { exfalso. apply ret_Done in H2 as (Hr & _). injection Hr as Hseg _.
    apply abandoned_next_arena_spec in H1; [|done].
    destruct H1 as [(? & _)|(count' & idx & a & Hr & _ & _ & Ha & _)]; [done|].
    cbv zeta in Hr, Ha. injection Hr as _ _ ->.
    pose proof (Hs _ _ Ha) as Hstart. cbn beta in Hstart.
    unfold mi_arena_block_start, mi_arena_block_size in Hseg.
    pose proof (size_wrap_nonneg (Z.of_nat (mi_bitmap_index_bit idx) * MI_ARENA_BLOCK_SIZE)).
    lia. }
  apply ret_Done in H2 as (Hr & -> & _). injection Hr as ->.
  pose proof (abandoned_next_arena_spec _ _ _ _ _ _ _ _ _ _ Hbit H1) as [(_ & ->)|(? & ? & ? & ? & _)];
    [|done].
  split; [done|]. split; [intros [?|?]; [lia|done]|]. intros _ _. split; [done|].
  intros count a b Hc Ha Hfrom Hb.
  eapply abandoned_next_arena_none; [exact Hbit|exact H1| |exact Ha| |exact Hb].
  - lia.
  - intros ->. specialize (Hfrom eq_refl).
    unfold mi_bitmap_index_field, mi_bitmap_index_bit_in_field.
    pose proof (Nat.div_mod_eq (cur_bitmap_idx prev) MI_BITMAP_FIELD_BITS). lia.
Qed.

(** ** No invalid access

    [Fault] stands for an access outside an array or through a NULL
    pointer.  The lemmas below show that the allocation path, the purge
    sweep and, for a memid that names a run of blocks within the bitmaps of
    a registered arena, the free path never reach it from a state as the
    operations themselves keep it. *)

Lemma frame_alloc env j n commit memid :
  pres arena_frame (mi_arena_try_alloc_at env j n commit memid).
Proof. intros a r a' tr. apply mi_arena_try_alloc_at_frame. Qed.

Lemma frame_free env all_committed blocks idx :
  pres arena_frame (arena_free_blocks env all_committed blocks idx).
Proof. intros a r a' tr. apply arena_free_blocks_frame. Qed.

Lemma frame_sweep a a' : sweep_rel a a' -> arena_frame a a'.
Proof. by intros [? _]. Qed.

Lemma arena_safe_frame a a' : arena_frame a a' -> arena_safe a -> arena_safe a'.
Proof.
  intros F [Hwf Hpc]. split; [by eapply arena_frame_wf|].
  intros [bm Hbm]. pose proof (fr_purge_len _ _ F) as Hp. rewrite Hbm in Hp.
  destruct (blocks_purge a) as [bm0|] eqn:E; [|done].
  eapply frame_is_Some_committed; [exact F|]. apply Hpc. eauto.
Qed.

Lemma ok_rel_refl s : ok_rel s s.
Proof. by intros ?. Qed.

Lemma ok_rel_trans s1 s2 s3 : ok_rel s1 s2 -> ok_rel s2 s3 -> ok_rel s1 s3.
Proof. unfold ok_rel. auto. Qed.

Lemma arenas_rel_ok s s' : arenas_rel arena_frame s s' -> ok_rel s s'.
Proof.
  intros Hrel (Hb & Hst & Hinv). pose proof Hrel as (Hc & Hbuf & Htop & Hj).
  split; [by eapply (arenas_rel_bounded arena_frame)|]. split.
  - unfold static_ok in *. by rewrite Hbuf, Htop.
  - intros j a' Ha'. specialize (Hj j). rewrite Ha' in Hj.
    inversion Hj as [a0 a1 F E1 E2|]; subst. symmetry in E1.
    eapply arena_safe_frame; [exact F|]. by eapply Hinv.
Qed.

Lemma mi_arena_meta_zalloc_ok env size :
  0 <= size -> pres ok_rel (mi_arena_meta_zalloc env size).
Proof.
  intros Hsize s r s' tr H (Hb & Hst & Hinv).
  pose proof (mi_arena_meta_zalloc_same_registry env size s r s' tr H) as (Ha & Hc & _).
  split; [|split].
  - destruct Hb as [Hb1 Hb2]. split; [by rewrite Hc|]. intros j. rewrite Ha, Hc. apply Hb2.
  - unfold mi_arena_meta_zalloc in H.
    apply bind_Done in H as (r1 & s1 & t1 & t2 & H1 & H2 & ->).
    assert (Hal : 0 <= MI_MAX_ALIGN_SIZE <= 2 ^ 63) by (unfold MI_MAX_ALIGN_SIZE; lia).
    assert (Hst1 : static_ok s1).
    { destruct r1 as [[i|] memid].
      - by apply mi_arena_static_zalloc_success in H1 as (_ & _ & _ & _ & _ & _ & _ & ?).
      - by apply mi_arena_static_zalloc_null in H1 as (-> & _). }
    destruct r1 as [[i|] memid]; [by apply ret_Done in H2 as (_ & -> & _)|].
    destruct (_mi_os_alloc env size) as [p m].
    destruct (p =? 0); by apply ret_Done in H2 as (_ & -> & _).
  - intros j a. rewrite Ha. apply Hinv.
Qed.

Lemma arena_init_safe env id start size large numa excl memid meta_memid :
  MI_ARENA_BLOCK_SIZE <= size < 2 ^ 64 ->
  arena_safe (set_a_id id (arena_init env start size large numa excl memid meta_memid)).
Proof.
  intros Hsize. split.
  - by apply arena_wf_set_a_id, arena_init_wf.
  - pose proof (arena_init_plain env start size large numa excl memid meta_memid)
      as (_ & _ & _ & _ & _ & _ & Hp & Hc & _).
    cbv zeta in Hp, Hc.
    change (blocks_purge (set_a_id id ?a)) with (blocks_purge a).
    change (blocks_committed (set_a_id id ?a)) with (blocks_committed a).
    rewrite Hp, Hc. destruct (is_pinned memid); [by intros [? ?]|eauto].
Qed.

Lemma mi_arena_add_ok arena :
  (forall id, arena_safe (set_a_id id arena)) -> pres ok_rel (mi_arena_add arena).
Proof.
  intros Hsafe s r s' tr H (Hb & Hst & Hinv).
  pose proof (mi_arena_add_grow eq (fun _ => eq_refl) arena s r s' tr H Hb) as [Hb' _].
  rewrite mi_arena_add_eval in H. cbv zeta in H.
  destruct (Nat.leb_spec MI_MAX_ARENAS (mi_arena_count s)) as [Hfull|Hroom].
  - injection H as _ <- _. done.
  - injection H as _ <- _. split; [done|]. split; [done|].
    intros j a. cbn [set_arena set_mi_arenas set_mi_arena_count mi_arenas].
    rewrite lookup_insert. case_decide as E; [intros [= <-]; apply Hsafe|apply Hinv].
Qed.

Lemma manage_ex2_ok env start size large numa excl memid :
  size < 2 ^ 64 ->
  pres ok_rel (mi_manage_os_memory_ex2 env start size large numa excl memid).
Proof.
  intros Hsz. unfold mi_manage_os_memory_ex2. cbv zeta.
  destruct (Z.ltb_spec size MI_ARENA_BLOCK_SIZE) as [|Hge]; [apply (pres_ret _ ok_rel_refl)|].
  apply (pres_bind _ ok_rel_trans).
  - apply mi_arena_meta_zalloc_ok, size_wrap_nonneg.
  - intros [[mp|] meta]; [|apply (pres_ret _ ok_rel_refl)].
    apply mi_arena_add_ok. intros id. by apply arena_init_safe.
Qed.

Lemma emit_ok e : pres ok_rel (emit e).
Proof.
  eapply pres_weaken; [apply arenas_rel_ok|].
  apply (emit_arenas_rel arena_frame arena_frame_refl).
Qed.

Lemma reserve_os_memory_ex_ok env size commit allow_large excl :
  pres ok_rel (mi_reserve_os_memory_ex env size commit allow_large excl).
Proof.
  unfold mi_reserve_os_memory_ex. cbv zeta.
  destruct (_mi_os_alloc_aligned _ _ _ _ _) as [start memid].
  apply pres_if; [apply (pres_ret _ ok_rel_refl)|].
  apply (pres_bind _ ok_rel_trans).
  - apply manage_ex2_ok. by apply _mi_align_up_range.
  - intros r. apply pres_if; [|apply (pres_ret _ ok_rel_refl)].
    apply (pres_bind _ ok_rel_trans); [apply emit_ok|intros _; apply (pres_ret _ ok_rel_refl)].
Qed.

Lemma arena_reserve_ok env req_size allow_large req arena_id :
  pres ok_rel (mi_arena_reserve env req_size allow_large req arena_id).
Proof.
  unfold mi_arena_reserve.
  apply (pres_bind _ ok_rel_trans); [apply (pres_get _ ok_rel_refl)|intros s0].
  destruct (mi_arena_reserve_target _ _ _ _) as [[sz c]|]; [|apply (pres_ret _ ok_rel_refl)].
  apply (pres_bind _ ok_rel_trans);
    [apply reserve_os_memory_ex_ok|intros r; apply (pres_ret _ ok_rel_refl)].
Qed.

Lemma try_alloc_at_id_ok env arena_id match_numa numa size alignment commit allow_large
    req memid :
  pres ok_rel
    (mi_arena_try_alloc_at_id env arena_id match_numa numa size alignment commit allow_large
       req memid).
Proof.
  eapply pres_weaken; [apply arenas_rel_ok|].
  apply (try_alloc_at_id_arenas_rel arena_frame arena_frame_refl arena_frame_trans frame_alloc).
Qed.

Lemma try_alloc_loop_ok env indices match_numa numa size alignment commit allow_large
    req memid :
  pres ok_rel
    (try_alloc_loop env indices match_numa numa size alignment commit allow_large req memid).
Proof.
  eapply pres_weaken; [apply arenas_rel_ok|].
  apply (try_alloc_loop_arenas_rel arena_frame arena_frame_refl arena_frame_trans frame_alloc).
Qed.

Lemma try_alloc_ok env numa size alignment commit allow_large req memid :
  pres ok_rel (mi_arena_try_alloc env numa size alignment commit allow_large req memid).
Proof.
  eapply pres_weaken; [apply arenas_rel_ok|].
  apply (try_alloc_arenas_rel arena_frame arena_frame_refl arena_frame_trans frame_alloc).
Qed.

Lemma arenas_try_purge_ok env force visit_all :
  pres ok_rel (mi_arenas_try_purge env force visit_all).
Proof.
  eapply pres_weaken; [apply arenas_rel_ok|].
  apply (arenas_try_purge_arenas_rel arena_frame arena_frame_refl arena_frame_trans
           frame_sweep).
Qed.

Lemma arena_free_ok env p size csize memid :
  pres ok_rel (_mi_arena_free env p size csize memid).
Proof.
  eapply pres_weaken; [apply arenas_rel_ok|].
  apply (arena_free_arenas_rel arena_frame arena_frame_refl arena_frame_trans frame_free
           frame_sweep).
Qed.

Lemma alloc_aligned_ok env size alignment align_offset commit allow_large req :
  pres ok_rel (_mi_arena_alloc_aligned env size alignment align_offset commit allow_large req).
Proof.
  unfold _mi_arena_alloc_aligned. cbv zeta.
  apply (pres_bind _ ok_rel_trans).
  - apply pres_if; [|apply (pres_ret _ ok_rel_refl)].
    apply pres_if; [|apply (pres_ret _ ok_rel_refl)].
    apply (pres_bind _ ok_rel_trans); [apply try_alloc_ok|intros r].
    apply pres_if; [apply (pres_ret _ ok_rel_refl)|].
    apply pres_if; [|apply (pres_ret _ ok_rel_refl)].
    apply (pres_bind _ ok_rel_trans); [apply arena_reserve_ok|intros res].
    apply pres_if; [|apply (pres_ret _ ok_rel_refl)].
    apply (pres_bind _ ok_rel_trans); [apply try_alloc_at_id_ok|intros r2].
    apply pres_if; apply (pres_ret _ ok_rel_refl).
  - intros r. apply pres_if; [apply (pres_ret _ ok_rel_refl)|]. apply pres_if.
    + apply (pres_bind _ ok_rel_trans); [apply emit_ok|intros _; apply (pres_ret _ ok_rel_refl)].
    + apply pres_if; apply (pres_ret _ ok_rel_refl).
Qed.

Lemma state_ok_init : state_ok mi_state_init.
Proof.
  split; [apply registry_bounded_init|]. split.
  - split; [vm_compute; split; discriminate|]. apply length_replicate.
  - intros j a H. unfold mi_state_init in H. cbn [mi_arenas] in H.
    by rewrite lookup_empty in H.
Qed.

Lemma state_ok_run_op env op s r s' tr :
  state_ok s -> op_ok any_free size_t_size s op ->
  run_op env op s = Done r s' tr -> state_ok s'.
Proof.
  intros Hs Hok H. revert Hs. change (ok_rel s s'). revert H.
  destruct op; cbn [run_op op_ok] in *.
  - apply (pres_bind _ ok_rel_trans);
      [apply alloc_aligned_ok|intros _; apply (pres_ret _ ok_rel_refl)].
  - apply arena_free_ok.
  - apply arenas_try_purge_ok.
  - apply (pres_bind _ ok_rel_trans); [|intros _; apply (pres_ret _ ok_rel_refl)].
    by apply manage_ex2_ok.
  - apply (pres_bind _ ok_rel_trans);
      [apply reserve_os_memory_ex_ok|intros _; apply (pres_ret _ ok_rel_refl)].
Qed.

Lemma state_ok_reachable s : reachable (op_ok any_free size_t_size) s -> state_ok s.
Proof.
  induction 1 as [|env op s r s' tr _ IH Hok Hrun]; [apply state_ok_init|].
  by eapply state_ok_run_op.
Qed.

Lemma no_fault_if {S A} (c : bool) (m1 m2 : M S A) (s : S) :
  (c = true -> no_fault m1 s) -> (c = false -> no_fault m2 s) ->
  no_fault (if c then m1 else m2) s.
Proof. destruct c; auto. Qed.

Lemma mi_arena_try_claim_no_fault n a :
  arena_wf a -> no_fault (mi_arena_try_claim n) a.
Proof.
  intros (Hlen & _). unfold mi_arena_try_claim. apply no_fault_bind_get.
  rewrite Hlen, Nat.ltb_irrefl.
  destruct (_mi_bitmap_try_find_from_claim_across _ _ _ _) as [[bm idx]|];
    [|apply no_fault_ret].
  apply no_fault_bind; [apply no_fault_atomic|intros u a1 t1 _].
  apply no_fault_bind; [apply no_fault_atomic|intros u2 a2 t2 _; apply no_fault_ret].
Qed.

Lemma alloc_unschedule_no_fault n idx a :
  run_in_arena idx n a -> no_fault (alloc_unschedule n idx) a.
Proof.
  intros Hrun. unfold alloc_unschedule. apply no_fault_bind_get.
  destruct (blocks_purge a) as [bm|] eqn:E; [|apply no_fault_ret].
  apply no_fault_bind; [|intros; apply no_fault_ret].
  eapply bitmap_rmw_no_fault; [exact E|by eapply run_in_arena_purge].
Qed.

Lemma alloc_set_dirty_no_fault n idx memid a :
  run_in_arena idx n a -> no_fault (alloc_set_dirty n idx memid) a.
Proof.
  intros Hrun. unfold alloc_set_dirty. apply no_fault_bind_get.
  destruct (blocks_dirty a) as [bm|] eqn:E; [|apply no_fault_ret].
  destruct (initially_zero (a_memid a)); [|apply no_fault_ret].
  apply no_fault_bind; [|intros; apply no_fault_ret].
  eapply bitmap_rmw_no_fault; [exact E|by eapply run_in_arena_dirty].
Qed.

Lemma alloc_set_commit_no_fault env n idx commit p memid a :
  run_in_arena idx n a -> no_fault (alloc_set_commit env n idx commit p memid) a.
Proof.
  intros Hrun. unfold alloc_set_commit. apply no_fault_bind_get.
  destruct (blocks_committed a) as [bm|] eqn:E; [|apply no_fault_ret].
  destruct commit.
  - apply no_fault_bind.
    + eapply bitmap_rmw_no_fault; [exact E|by eapply run_in_arena_committed].
    + intros r a1 t1 _. destruct (snd r); [|apply no_fault_ret].
      destruct (os_commit env p (mi_arena_block_size n)) as [ok commit_zero].
      destruct (negb ok); apply no_fault_ret.
  - apply no_fault_bind; [|intros; apply no_fault_ret].
    eapply bitmap_read_no_fault; [exact E|by eapply run_in_arena_committed].
Qed.

Lemma mi_arena_try_alloc_at_no_fault env j n commit memid a :
  arena_wf a -> no_fault (mi_arena_try_alloc_at env j n commit memid) a.
Proof.
  intros Hwf. unfold mi_arena_try_alloc_at.
  apply no_fault_bind; [by apply mi_arena_try_claim_no_fault|].
  intros claimed a1 t1 H1.
  apply mi_arena_try_claim_inv in H1
    as [[-> ->]|(idx & -> & Hn & Hrun & Hlen & Hclear & ->)]; [apply no_fault_ret|].
  set (a1 := set_search_idx _ _).
  assert (F1 : arena_frame a a1).
  { eapply arena_frame_trans; [|apply set_search_idx_frame].
    apply set_blocks_inuse_frame, bm_set_range_length. }
  assert (Hr1 : run_in_arena idx n a1).
  { split; [by eapply arena_frame_wf|]. by rewrite (fr_field_count _ _ F1). }
  apply no_fault_bind_get. cbv zeta.
  apply no_fault_bind; [by apply alloc_unschedule_no_fault|].
  intros u a2 t2 H2. apply alloc_unschedule_spec in H2 as (F2 & _).
  assert (Hr2 : run_in_arena idx n a2) by (by eapply run_in_arena_frame).
  apply no_fault_bind; [by apply alloc_set_dirty_no_fault|].
  intros m3 a3 t3 H3.
  eapply alloc_set_dirty_spec in H3 as [(F3 & _) _];
    [|apply memid_names_set_is_pinned; by repeat split].
  assert (Hr3 : run_in_arena idx n a3) by (by eapply run_in_arena_frame).
  apply no_fault_bind; [by apply alloc_set_commit_no_fault|].
  intros; apply no_fault_ret.
Qed.

Lemma with_arena_no_fault {A} i (m : M mi_arena_t A) s a :
  mi_arenas s !! i = Some a -> no_fault m a -> no_fault (with_arena i m) s.
Proof.
  intros Ha (x & a' & tr & Hm). eexists _, _, _. by eapply with_arena_Done.
Qed.

Lemma load_arena_no_fault i s : (i < MI_MAX_ARENAS)%nat -> no_fault (load_arena i) s.
Proof.
  intros Hi. unfold load_arena. apply Nat.ltb_lt in Hi. rewrite Hi. by eexists _, _, _.
Qed.

Lemma try_alloc_at_id_no_fault env arena_id match_numa numa size alignment commit allow_large
    req memid s :
  state_ok s -> (mi_arena_id_index arena_id < MI_MAX_ARENAS)%nat ->
  no_fault (mi_arena_try_alloc_at_id env arena_id match_numa numa size alignment commit
              allow_large req memid) s.
Proof.
  intros (_ & _ & Hinv) Hi. unfold mi_arena_try_alloc_at_id. cbv zeta.
  apply no_fault_bind; [by apply load_arena_no_fault|].
  intros loaded s1 t1 H1. apply load_arena_inv in H1 as (_ & -> & -> & _).
  destruct (mi_arenas s !! _) as [arena|] eqn:Ha; [|apply no_fault_ret].
  destruct (_ && _); [apply no_fault_ret|].
  destruct (negb _); [apply no_fault_ret|].
  destruct (_ && _); [apply no_fault_ret|].
  eapply with_arena_no_fault; [exact Ha|].
  apply mi_arena_try_alloc_at_no_fault. by destruct (Hinv _ _ Ha).
Qed.

Lemma try_alloc_loop_no_fault env indices : forall match_numa numa size alignment commit
    allow_large req memid s,
  state_ok s -> (forall i, i ∈ indices -> (i < MI_MAX_ARENAS)%nat) ->
  no_fault (try_alloc_loop env indices match_numa numa size alignment commit allow_large
              req memid) s.
Proof.
  induction indices as [|i rest IH]; intros match_numa numa size alignment commit
    allow_large req memid s Hs Hin; cbn [try_alloc_loop]; [apply no_fault_ret|].
  apply no_fault_bind.
  - apply try_alloc_at_id_no_fault; [done|].
    rewrite mi_arena_id_index_create. apply Hin. by left.
  - intros r s1 t1 H1. apply try_alloc_at_id_ok in H1. specialize (H1 Hs).
    destruct (negb _); [apply no_fault_ret|].
    apply IH; [done|]. intros k Hk. apply Hin. by right.
Qed.

Lemma try_alloc_no_fault env numa size alignment commit allow_large req memid s :
  state_ok s ->
  no_fault (mi_arena_try_alloc env numa size alignment commit allow_large req memid) s.
Proof.
  intros Hs. pose proof Hs as ((Hcount & _) & _).
  unfold mi_arena_try_alloc. apply no_fault_bind_get. cbv zeta.
  destruct (_ =? _)%nat; [apply no_fault_ret|].
  assert (Hseq : forall i, i ∈ seq 0 (mi_arena_count s) -> (i < MI_MAX_ARENAS)%nat).
  { intros i Hi. apply elem_of_seq in Hi. lia. }
  destruct (negb (req =? _mi_arena_id_none)).
  - destruct (Nat.ltb_spec (mi_arena_id_index req) (mi_arena_count s)) as [Hlt|];
      [|apply no_fault_ret].
    apply no_fault_bind; [apply try_alloc_at_id_no_fault; [done|lia]|].
    intros r s1 t1 _. destruct (negb _); apply no_fault_ret.
  - apply no_fault_bind; [by apply try_alloc_loop_no_fault|].
    intros r s1 t1 H1. pose proof (try_alloc_loop_ok _ _ _ _ _ _ _ _ _ _ _ _ _ _ H1 Hs) as Hs1.
    assert (Hc1 : mi_arena_count s1 = mi_arena_count s).
    { by apply (try_alloc_loop_arenas_rel arena_frame arena_frame_refl arena_frame_trans
                  frame_alloc) in H1 as (? & _). }
    destruct (negb _); [apply no_fault_ret|].
    destruct (0 <=? numa); [|apply no_fault_ret].
    apply no_fault_bind; [by apply try_alloc_loop_no_fault|].
    intros r2 s2 t2 _. destruct (negb _); apply no_fault_ret.
Qed.

Lemma mi_arena_meta_zalloc_no_fault env size s :
  state_ok s -> 0 <= size -> no_fault (mi_arena_meta_zalloc env size) s.
Proof.
  intros (_ & Hst & _) Hsize. unfold mi_arena_meta_zalloc.
  apply no_fault_bind.
  - apply mi_arena_static_zalloc_total; [done|done|unfold MI_MAX_ALIGN_SIZE; lia].
  - intros [[i|] memid] s1 t1 _; [apply no_fault_ret|].
    destruct (_mi_os_alloc env size) as [p m]. destruct (p =? 0); apply no_fault_ret.
Qed.

Lemma mi_arena_add_no_fault arena s : no_fault (mi_arena_add arena) s.
Proof.
  unfold no_fault. rewrite mi_arena_add_eval. cbv zeta.
  destruct (_ <=? _)%nat; by eexists _, _, _.
Qed.

Lemma manage_ex2_no_fault env start size large numa excl memid s :
  state_ok s ->
  no_fault (mi_manage_os_memory_ex2 env start size large numa excl memid) s.
Proof.
  intros Hs. unfold mi_manage_os_memory_ex2. cbv zeta.
  destruct (size <? MI_ARENA_BLOCK_SIZE); [apply no_fault_ret|].
  apply no_fault_bind; [apply mi_arena_meta_zalloc_no_fault; [done|apply size_wrap_nonneg]|].
  intros [[mp|] meta] s1 t1 _; [apply mi_arena_add_no_fault|apply no_fault_ret].
Qed.

Lemma no_fault_emit e s : no_fault (emit e) s.
Proof. by eexists _, _, _. Qed.

Lemma reserve_os_memory_ex_no_fault env size commit allow_large excl s :
  state_ok s -> no_fault (mi_reserve_os_memory_ex env size commit allow_large excl) s.
Proof.
  intros Hs. unfold mi_reserve_os_memory_ex. cbv zeta.
  destruct (_mi_os_alloc_aligned _ _ _ _ _) as [start memid].
  destruct (start =? 0); [apply no_fault_ret|].
  apply no_fault_bind; [by apply manage_ex2_no_fault|].
  intros r s1 t1 _. destruct (negb (fst r)); [|apply no_fault_ret].
  apply no_fault_bind; [apply no_fault_emit|intros; apply no_fault_ret].
Qed.

Lemma arena_reserve_no_fault env req_size allow_large req arena_id s :
  state_ok s -> no_fault (mi_arena_reserve env req_size allow_large req arena_id) s.
Proof.
  intros Hs. unfold mi_arena_reserve. apply no_fault_bind_get.
  destruct (mi_arena_reserve_target _ _ _ _) as [[sz c]|]; [|apply no_fault_ret].
  apply no_fault_bind; [by apply reserve_os_memory_ex_no_fault|].
  intros; apply no_fault_ret.
Qed.

Lemma reserve_os_memory_ex_id env size commit allow_large excl s id s' tr :
  mi_reserve_os_memory_ex env size commit allow_large excl s = Done (0, id) s' tr ->
  (mi_arena_count s < MI_MAX_ARENAS)%nat /\ id = mi_arena_id_create (mi_arena_count s).
Proof.
  unfold mi_reserve_os_memory_ex.
  destruct (_mi_os_alloc_aligned _ _ _ _ _) as [start memid].
  destruct (start =? 0).
  { intros H. apply ret_Done in H as (H & _). injection H as E _. unfold ENOMEM in E. lia. }
  intros H. apply bind_Done in H as (r & s1 & t1 & t2 & H1 & H2 & ->).
  apply mi_manage_os_memory_ex2_inv in H1
    as [(Hf & _)|(Hf & _ & Hroom & Hid & _)]; rewrite Hf in H2; cbn [negb] in H2.
  - apply bind_Done in H2 as (u & s2 & t3 & t4 & _ & H3 & ->).
    apply ret_Done in H3 as (H3 & _). injection H3 as E _. unfold ENOMEM in E. lia.
  - apply ret_Done in H2 as (H2 & _). injection H2 as ->. done.
Qed.

(** The id that a successful [mi_arena_reserve] stores names a slot of the
    array. *)
Lemma arena_reserve_id env req_size allow_large req arena_id s id s' tr :
  mi_arena_reserve env req_size allow_large req arena_id s = Done (true, id) s' tr ->
  (mi_arena_id_index id < MI_MAX_ARENAS)%nat.
Proof.
  unfold mi_arena_reserve. rewrite bind_get_eq.
  destruct (mi_arena_reserve_target _ _ _ _) as [[sz c]|]; [|intros H; by minv1 H].
  intros H. apply bind_Done in H as (r & s1 & t1 & t2 & H1 & H2 & ->).
  apply ret_Done in H2 as (H2 & _ & _). injection H2 as Herr ->.
  destruct r as [err rid]. cbn [fst snd] in *. symmetry in Herr. apply Z.eqb_eq in Herr.
  subst err. apply reserve_os_memory_ex_id in H1 as (Hroom & ->).
  by rewrite mi_arena_id_index_create.
Qed.

Lemma alloc_aligned_no_fault env size alignment align_offset commit allow_large req s :
  state_ok s ->
  no_fault (_mi_arena_alloc_aligned env size alignment align_offset commit allow_large req) s.
Proof.
  intros Hs. unfold _mi_arena_alloc_aligned. cbv zeta.
  apply no_fault_bind.
  - destruct (_ || _); [|apply no_fault_ret].
    destruct (_ && _); [|apply no_fault_ret].
    apply no_fault_bind; [by apply try_alloc_no_fault|].
    intros r s1 t1 H1. apply try_alloc_ok in H1. specialize (H1 Hs).
    destruct (negb _); [apply no_fault_ret|].
    destruct (req =? _mi_arena_id_none); [|apply no_fault_ret].
    apply no_fault_bind; [by apply arena_reserve_no_fault|].
    intros [ok id] s2 t2 H2. cbn [fst snd].
    pose proof (arena_reserve_ok _ _ _ _ _ _ _ _ _ H2 H1) as Hs2.
    destruct ok; [|apply no_fault_ret].
    apply arena_reserve_id in H2.
    apply no_fault_bind; [by apply try_alloc_at_id_no_fault|].
    intros r2 s3 t3 _. destruct (negb _); apply no_fault_ret.
  - intros r s1 t1 _. destruct (negb _); [apply no_fault_ret|].
    destruct (_ || _).
    + apply no_fault_bind; [apply no_fault_emit|intros; apply no_fault_ret].
    + destruct (0 <? align_offset); apply no_fault_ret.
Qed.

(** *** The purge sweep *)

Lemma claim_longest_bound bitlen : forall idx a k a' tr,
  claim_longest bitlen idx a = Done k a' tr -> (k <= bitlen)%nat.
Proof.
  induction bitlen as [|n IH]; intros idx a k a' tr H; cbn [claim_longest] in H.
  - apply ret_Done in H as (-> & _). lia.
  - apply bind_Done in H as (ok & a1 & t1 & t2 & H1 & H2 & ->).
    destruct ok; [apply ret_Done in H2 as (-> & _); lia|].
    apply IH in H2. lia.
Qed.

Lemma claim_longest_no_fault bitlen : forall idx a,
  (idx + bitlen <= bm_bits (blocks_inuse a))%nat -> no_fault (claim_longest bitlen idx) a.
Proof.
  induction bitlen as [|n IH]; intros idx a Hb; cbn [claim_longest]; [apply no_fault_ret|].
  apply no_fault_bind.
  - eapply bitmap_rmw_no_fault; [reflexivity|]. by apply Nat.leb_le.
  - intros ok a1 t1 H1. destruct ok; [apply no_fault_ret|].
    apply bitmap_rmw_inv in H1 as (bm & Hsel & _ & _ & -> & _).
    injection Hsel as <-. apply IH.
    cbn [blocks_inuse set_blocks_inuse]. unfold _mi_bitmap_try_claim.
    destruct (bm_all_clear _ _ _); cbn [fst]; unfold bm_bits in *;
      rewrite ?bm_set_range_length; lia.
Qed.

Lemma load_purge_field_no_fault i a :
  arena_wf a -> is_Some (blocks_purge a) -> (i < field_count a)%nat ->
  no_fault (load_purge_field i) a.
Proof.
  intros (_ & Hp & _) [bm Hbm] Hi. unfold no_fault, load_purge_field. rewrite Hbm.
  destruct (bm !! i) as [f|] eqn:E; [by eexists _, _, _|].
  apply lookup_ge_None in E. rewrite (Hp _ Hbm) in E. lia.
Qed.

Lemma purge_range_loop_no_fault env i endidx bitlen word : forall fuel bitidx ap a,
  arena_wf a -> is_Some (blocks_committed a) ->
  (i * MI_BITMAP_FIELD_BITS + endidx <= field_count a * MI_BITMAP_FIELD_BITS)%nat ->
  no_fault (purge_range_loop env fuel i bitidx endidx bitlen word ap) a.
Proof.
  induction fuel as [|fuel IH]; intros bitidx ap a Hwf Hc Hend; cbn [purge_range_loop];
    [apply no_fault_ret|].
  destruct (Nat.ltb_spec bitidx endidx) as [Hlt|]; [|apply no_fault_ret].
  destruct (count_run_spec word bitidx endidx) as (Hc1 & _).
  set (c := count_run word bitidx endidx) in *.
  apply no_fault_bind.
  - destruct (0 <? c)%nat; [|apply no_fault_ret].
    apply no_fault_bind; [|intros; apply no_fault_ret].
    apply mi_arena_purge_no_fault; [|done]. split; [done|].
    unfold mi_bitmap_index_create. lia.
  - intros ap1 a1 t1 H1.
    assert (F : arena_frame a a1).
    { destruct (0 <? c)%nat; [|by apply ret_Done in H1 as (_ & -> & _); apply arena_frame_refl].
      apply bind_Done in H1 as (u & a0 & t2 & t3 & H0 & H1 & ->).
      apply ret_Done in H1 as (_ & <- & _).
      by apply mi_arena_purge_rel, purge_rel_frame in H0. }
    apply IH; [by eapply arena_frame_wf|by eapply frame_is_Some_committed|].
    by rewrite (fr_field_count _ _ F).
Qed.

Lemma try_purge_field_loop_no_fault env i : forall fuel bitidx word ap fp a,
  arena_safe a -> is_Some (blocks_purge a) -> (i < field_count a)%nat ->
  no_fault (try_purge_field_loop env fuel i bitidx word ap fp) a.
Proof.
  induction fuel as [|fuel IH]; intros bitidx word ap fp a Hsafe Hp Hi;
    cbn [try_purge_field_loop]; [apply no_fault_ret|].
  destruct (Nat.ltb_spec bitidx MI_BITMAP_FIELD_BITS) as [Hlt|]; [|apply no_fault_ret].
  destruct (count_run_spec word bitidx MI_BITMAP_FIELD_BITS) as (Hc1 & _).
  set (c := count_run word bitidx MI_BITMAP_FIELD_BITS) in *.
  pose proof Hsafe as [Hwf Hpc]. pose proof Hwf as (Hlen & _).
  assert (Hfield : (i * MI_BITMAP_FIELD_BITS + MI_BITMAP_FIELD_BITS
                    <= field_count a * MI_BITMAP_FIELD_BITS)%nat).
  { unfold MI_BITMAP_FIELD_BITS in *. lia. }
  apply no_fault_bind.
  { apply claim_longest_no_fault. unfold bm_bits, mi_bitmap_index_create. rewrite Hlen. lia. }
  intros k a1 t1 H1. pose proof (claim_longest_bound _ _ _ _ _ _ H1) as Hk.
  assert (F1 : arena_frame a a1).
  { apply claim_longest_spec in H1 as [[_ ->]|(_ & _ & ->)]; [apply arena_frame_refl|].
    apply set_blocks_inuse_frame, bm_set_range_length. }
  assert (Hsafe1 : arena_safe a1) by (by eapply arena_safe_frame).
  assert (Hp1 : is_Some (blocks_purge a1)) by (by eapply frame_is_Some_purge).
  assert (Hi1 : (i < field_count a1)%nat) by (by rewrite (fr_field_count _ _ F1)).
  destruct (0 <? k)%nat; [|by apply IH].
  apply no_fault_bind; [apply load_purge_field_no_fault; [apply Hsafe1|done|done]|].
  intros w a2 t2 H2. apply load_purge_field_inv in H2 as ->.
  apply no_fault_bind.
  { apply purge_range_loop_no_fault; [apply Hsafe1|by apply Hsafe1|].
    rewrite (fr_field_count _ _ F1). lia. }
  intros purged a3 t3 H3.
  assert (F3 : arena_frame a1 a3) by (by apply mi_arena_purge_range_rel, purge_rel_frame in H3).
  apply no_fault_bind.
  { eapply bitmap_rmw_no_fault; [reflexivity|]. apply Nat.leb_le.
    unfold bm_bits, mi_bitmap_index_create.
    rewrite (fr_inuse_len _ _ F3), (fr_inuse_len _ _ F1), Hlen. lia. }
  intros u a4 t4 H4.
  assert (F4 : arena_frame a3 a4).
  { apply bitmap_rmw_inv in H4 as (bm & Hsel & _ & _ & -> & _). injection Hsel as <-.
    apply set_blocks_inuse_frame. cbn [_mi_bitmap_unclaim _mi_bitmap_unclaim_across fst].
    apply bm_clear_range_length. }
  assert (F : arena_frame a1 a4) by (by eapply arena_frame_trans).
  apply IH; [by eapply arena_safe_frame|by eapply frame_is_Some_purge|].
  by rewrite (fr_field_count _ _ F).
Qed.

Lemma try_purge_fields_no_fault env : forall fields ap fp a,
  arena_safe a -> is_Some (blocks_purge a) ->
  (forall i, i ∈ fields -> (i < field_count a)%nat) ->
  no_fault (try_purge_fields env fields ap fp) a.
Proof.
  induction fields as [|i rest IH]; intros ap fp a Hsafe Hp Hin; cbn [try_purge_fields];
    [apply no_fault_ret|].
  assert (Hi : (i < field_count a)%nat) by (apply Hin; by left).
  apply no_fault_bind; [apply load_purge_field_no_fault; [apply Hsafe|done|done]|].
  intros w a1 t1 H1. apply load_purge_field_inv in H1 as ->.
  apply no_fault_bind.
  { apply no_fault_if; intros _; [by apply try_purge_field_loop_no_fault|apply no_fault_ret]. }
  intros flags a2 t2 H2.
  assert (F : arena_frame a a2).
  { destruct (negb (w =? 0)) eqn:E.
    - by apply try_purge_field_loop_rel in H2 as [? _].
    - apply ret_Done in H2 as (_ & -> & _). apply arena_frame_refl. }
  apply IH; [by eapply arena_safe_frame|by eapply frame_is_Some_purge|].
  intros k Hk. rewrite (fr_field_count _ _ F). apply Hin. by right.
Qed.

Lemma mi_arena_try_purge_no_fault env now force a :
  arena_safe a -> no_fault (mi_arena_try_purge env now force) a.
Proof.
  intros Hsafe. unfold mi_arena_try_purge. apply no_fault_bind_get. cbv zeta.
  destruct (is_pinned (a_memid a)); cbn [orb]; [apply no_fault_ret|].
  destruct (bool_decide_reflect (is_Some (blocks_purge a))) as [Hp|]; cbn [negb];
    [|apply no_fault_ret].
  destruct (purge_expire a =? 0); [apply no_fault_ret|].
  destruct (_ && _); [apply no_fault_ret|].
  apply no_fault_bind; [apply no_fault_atomic|].
  intros u a1 t1 H1.
  assert (F1 : arena_frame a a1).
  { unfold atomic_cas_purge_expire in H1. apply atomic_Done in H1 as (-> & _).
    destruct (_ =? _); [apply set_purge_expire_frame|apply arena_frame_refl]. }
  apply no_fault_bind.
  { apply try_purge_fields_no_fault; [by eapply arena_safe_frame|by eapply frame_is_Some_purge|].
    intros i Hi. apply elem_of_seq in Hi. rewrite (fr_field_count _ _ F1). lia. }
  intros flags a2 t2 _.
  apply no_fault_bind; [|intros; apply no_fault_ret].
  destruct (negb (snd flags)); [apply no_fault_atomic|apply no_fault_ret].
Qed.

Lemma arenas_try_purge_loop_no_fault env indices : forall now force max_purge_count s,
  state_ok s -> (forall i, i ∈ indices -> (i < MI_MAX_ARENAS)%nat) ->
  no_fault (arenas_try_purge_loop env indices now force max_purge_count) s.
Proof.
  induction indices as [|i rest IH]; intros now force mpc s Hs Hin;
    cbn [arenas_try_purge_loop]; [apply no_fault_ret|].
  assert (Hrest : forall k, k ∈ rest -> (k < MI_MAX_ARENAS)%nat)
    by (intros k Hk; apply Hin; by right).
  apply no_fault_bind; [apply load_arena_no_fault, Hin; by left|].
  intros loaded s1 t1 H1. apply load_arena_inv in H1 as (_ & -> & -> & _).
  destruct (mi_arenas s !! i) as [arena|] eqn:Ha; [|by apply IH].
  apply no_fault_bind.
  { eapply with_arena_no_fault; [exact Ha|]. apply mi_arena_try_purge_no_fault.
    destruct Hs as (_ & _ & Hinv). by apply (Hinv _ _ Ha). }
  intros purged s2 t2 H2.
  assert (Hs2 : state_ok s2).
  { revert Hs. apply arenas_rel_ok.
    eapply (with_arena_arenas_rel arena_frame arena_frame_refl); [|exact H2].
    intros a x a' tr H. eapply frame_sweep, mi_arena_try_purge_rel, H. }
  destruct purged; [|by apply IH].
  destruct (_ <=? _)%nat; [apply no_fault_ret|by apply IH].
Qed.

Lemma arenas_try_purge_no_fault env force visit_all s :
  state_ok s -> no_fault (mi_arenas_try_purge env force visit_all) s.
Proof.
  intros Hs. pose proof Hs as ((Hcount & _) & _).
  unfold mi_arenas_try_purge. cbv zeta.
  destruct (_ || _); [apply no_fault_ret|].
  apply no_fault_bind_get.
  destruct (_ =? _)%nat; [apply no_fault_ret|].
  destruct (purge_guard s); [apply no_fault_ret|].
  apply no_fault_bind; [apply no_fault_atomic|].
  intros u s1 t1 H1. apply atomic_Done in H1 as (-> & _).
  apply no_fault_bind; [|intros; apply no_fault_atomic].
  apply arenas_try_purge_loop_no_fault; [done|].
  intros i Hi. apply elem_of_seq in Hi. lia.
Qed.

(** *** The free path *)

Lemma arena_free_in_arena_no_fault env p size csize memid s :
  state_ok s -> free_args_valid s size memid ->
  no_fault (arena_free_in_arena env p size csize memid) s.
Proof.
  intros (_ & _ & Hinv) [Hi Hrun].
  unfold arena_free_in_arena, mi_arena_memid_indices, _mi_error_message. cbv zeta.
  apply no_fault_bind; [by apply load_arena_no_fault|].
  intros loaded s1 t1 H1. apply load_arena_inv in H1 as (_ & -> & -> & _).
  destruct (mi_arenas s !! _) as [arena|] eqn:Ha.
  2:{ apply no_fault_bind; [apply no_fault_emit|intros; apply no_fault_ret]. }
  destruct (Nat.leb_spec (field_count arena)
              (mi_bitmap_index_field (mem_arena_block_index memid))) as [|Hfield].
  { apply no_fault_bind; [apply no_fault_emit|intros; apply no_fault_ret]. }
  apply no_fault_bind.
  - eapply with_arena_no_fault; [exact Ha|]. apply arena_free_blocks_no_fault.
    split; [by destruct (Hinv _ _ Ha)|]. by apply Hrun.
  - intros all_inuse s2 t2 _. destruct (negb all_inuse); [|apply no_fault_ret].
    apply no_fault_bind; [apply no_fault_emit|intros; apply no_fault_ret].
Qed.

Lemma arena_free_in_arena_valid env p size csize memid s r s' tr :
  state_ok s ->
  arena_free_in_arena env p size csize memid s = Done r s' tr ->
  free_args_valid s size memid.
Proof.
  intros (_ & _ & Hinv) H.
  unfold arena_free_in_arena, mi_arena_memid_indices in H.
  apply bind_Done in H as (loaded & s1 & t1 & t2 & H1 & H2 & ->).
  apply load_arena_inv in H1 as (Hi & -> & -> & _).
  split; [done|]. intros a Ha Hfield. cbv zeta in *. rewrite Ha in H2.
  apply Nat.leb_gt in Hfield. rewrite Hfield in H2.
  apply bind_Done in H2 as (all_inuse & s2 & t3 & t4 & H2 & _).
  apply with_arena_inv in H2 as (a0 & a' & tr' & Ha0 & Hrun & _).
  rewrite Ha in Ha0. injection Ha0 as <-.
  apply arena_free_blocks_spec in Hrun as (_ & Hbits & _).
  destruct (Hinv _ _ Ha) as [(Hlen & _) _]. unfold bm_bits in Hbits. by rewrite Hlen in Hbits.
Qed.

Lemma arena_free_in_arena_ok env p size csize memid :
  pres ok_rel (arena_free_in_arena env p size csize memid).
Proof.
  eapply pres_weaken; [apply arenas_rel_ok|].
  apply (arena_free_in_arena_arenas_rel arena_frame arena_frame_refl arena_frame_trans
           frame_free).
Qed.

(** Property X22.  In every state that the operations of the interface reach,
    [_mi_arena_alloc_aligned] returns for all arguments: the allocation path
    makes no invalid access. *)
Theorem alloc_never_faults env s size alignment align_offset commit allow_large req_arena_id :
  reachable (op_ok any_free size_t_size) s ->
  exists r s' tr,
    _mi_arena_alloc_aligned env size alignment align_offset commit allow_large req_arena_id s
    = Done r s' tr.
Proof. intros Hs. by apply alloc_aligned_no_fault, state_ok_reachable. Qed.

(** Property X23.  In every state that the operations of the interface reach,
    [_mi_arenas_collect] returns: the purge sweep makes no invalid
    access. *)
Theorem collect_never_faults env s force_purge :
  reachable (op_ok any_free size_t_size) s ->
  exists r s' tr, _mi_arenas_collect env force_purge s = Done r s' tr.
Proof. intros Hs. by apply arenas_try_purge_no_fault, state_ok_reachable. Qed.

(** Property X24.  In every state that the operations of the interface reach,
    a free of memory that is not of arena kind returns, and a free of arena
    memory returns exactly if its memid names a slot of the registry array and
    a run of blocks that ends within the bitmaps of the arena registered
    there; otherwise it makes an invalid access. *)
Theorem free_faults_exactly_on_invalid_memid env s p size csize memid :
  reachable (op_ok any_free size_t_size) s ->
  (memkind memid <> MI_MEM_ARENA ->
   exists r s' tr, _mi_arena_free env p size csize memid s = Done r s' tr) /\
  (p <> 0 -> size <> 0 -> memkind memid = MI_MEM_ARENA ->
   ((exists r s' tr, _mi_arena_free env p size csize memid s = Done r s' tr)
    <-> free_args_valid s size memid)).
Proof.
  intros Hreach. apply state_ok_reachable in Hreach as Hs. split.
  - intros Hk. change (no_fault (_mi_arena_free env p size csize memid) s).
    unfold _mi_arena_free.
    destruct (p =? 0); [apply no_fault_ret|].
    destruct (size =? 0); [apply no_fault_ret|].
    apply no_fault_bind.
    + destruct (mi_memkind_is_os (memkind memid)).
      * apply no_fault_bind; [apply no_fault_emit|intros; apply no_fault_ret].
      * destruct (mi_memkind_eqb (memkind memid) MI_MEM_ARENA) eqn:E; [|apply no_fault_ret].
        by destruct (memkind memid).
    + intros continue s1 t1 H1.
      assert (Hs1 : state_ok s1).
      { destruct (mi_memkind_is_os (memkind memid)).
        - apply bind_Done in H1 as (u & s2 & t2 & t3 & H1 & H2 & ->).
          apply ret_Done in H2 as (_ & -> & _). apply emit_ok in H1. by apply H1.
        - destruct (mi_memkind_eqb (memkind memid) MI_MEM_ARENA) eqn:E.
          + by destruct (memkind memid).
          + by apply ret_Done in H1 as (_ & -> & _). }
      destruct continue; [by apply arenas_try_purge_no_fault|apply no_fault_ret].
  - intros Hp Hsize Hk. unfold _mi_arena_free.
    apply Z.eqb_neq in Hp, Hsize. rewrite Hp, Hsize, Hk.
    cbn [mi_memkind_is_os mi_memkind_eqb]. split.
    + intros (r & s' & tr & H).
      apply bind_Done in H as (continue & s1 & t1 & t2 & H1 & _).
      by eapply arena_free_in_arena_valid.
    + intros Hvalid. change (no_fault (do continue <- arena_free_in_arena env p size csize memid;
                                       if continue then mi_arenas_try_purge env false false
                                       else ret tt) s).
      apply no_fault_bind; [by apply arena_free_in_arena_no_fault|].
      intros continue s1 t1 H1. apply arena_free_in_arena_ok in H1. specialize (H1 Hs).
      destruct continue; [by apply arenas_try_purge_no_fault|apply no_fault_ret].
Qed.

(** ** The choice of an arena *)

Lemma claim_fails_not_succeeds a n : claim_fails a n -> claim_succeeds a n -> False.
Proof. intros [tr H] (idx & a' & tr' & H'). congruence. Qed.

Lemma mi_arena_try_alloc_at_refused env j n commit memid a m a' tr :
  mi_arena_try_alloc_at env j n commit memid a = Done (0, m) a' tr ->
  0 < a_start a ->
  a' = a /\ m = memid /\ claim_fails a n.
Proof.
  intros H Hstart.
  pose proof (mi_arena_try_alloc_at_spec _ _ _ _ _ _ _ _ _ _ H) as Hspec.
  unfold mi_arena_try_alloc_at in H.
  apply bind_Done in H as (claimed & a1 & t1 & t2 & H1 & H2 & ->).
  destruct claimed as [idx|].
  - exfalso.
    destruct Hspec as [(_ & _ & _)|(idx' & _ & _ & _ & _ & _ & _ & Hp & _)].
    + apply mi_arena_try_claim_inv in H1 as [[? _]|(idx' & _ & _ & _ & _ & _ & ->)]; [done|].
      rewrite bind_get_eq in H2.
      apply bind_Done in H2 as (u & a2 & t3 & t4 & _ & H3 & _).
      apply bind_Done in H3 as (m3 & a3 & t5 & t6 & _ & H4 & _).
      apply bind_Done in H4 as (m4 & a4 & t7 & t8 & _ & H5 & _).
      apply ret_Done in H5 as (Hr & _). injection Hr as Hp _.
      unfold mi_arena_block_start in Hp. cbn [a_start set_search_idx set_blocks_inuse] in Hp.
      pose proof (size_wrap_nonneg (Z.of_nat (mi_bitmap_index_bit idx) * MI_ARENA_BLOCK_SIZE)).
      unfold mi_arena_block_size in Hp. lia.
    + pose proof (size_wrap_nonneg (Z.of_nat idx' * MI_ARENA_BLOCK_SIZE)).
      unfold mi_arena_block_size in Hp. lia.
  - pose proof H1 as Hclaim.
    apply mi_arena_try_claim_inv in H1 as [[_ ->]|(idx' & ? & _)]; [|done].
    apply ret_Done in H2 as (Hr & -> & _). injection Hr as <-.
    split; [done|]. split; [done|]. by exists t1.
Qed.

Lemma mi_arena_try_alloc_at_claimed env j n commit memid a p m a' tr :
  mi_arena_try_alloc_at env j n commit memid a = Done (p, m) a' tr ->
  p <> 0 -> claim_succeeds a n.
Proof.
  intros H Hp. unfold mi_arena_try_alloc_at in H.
  apply bind_Done in H as (claimed & a1 & t1 & t2 & H1 & H2 & ->).
  destruct claimed as [idx|]; [by exists idx, a1, t1|].
  apply ret_Done in H2 as (Hr & _). injection Hr as Hp0 _. by rewrite Hp0 in Hp.
Qed.

Section Choice.
Variable env : mi_env.
Variables (numa_node size alignment : Z) (commit allow_large : bool).

Local Abbreviation bcount := (mi_block_count_of_size size).

(** What an attempt on the arena of slot [i] tells, for a request that names
    no arena. *)
Lemma try_alloc_at_id_choice i match_numa_node memid s p m s' tr :
  mi_arena_try_alloc_at_id env (mi_arena_id_create i) match_numa_node numa_node size alignment
    commit allow_large _mi_arena_id_none memid s = Done (p, m) s' tr ->
  starts_nonzero s ->
  (p = 0 /\ s' = s /\ m = memid /\
   forall a, mi_arenas s !! i = Some a -> arena_eligible allow_large a = true ->
             numa_suitable numa_node a = match_numa_node -> claim_fails a bcount)
  \/
  (p <> 0 /\ exists a,
     mi_arenas s !! i = Some a /\ arena_eligible allow_large a = true /\
     numa_suitable numa_node a = match_numa_node /\
     claim_succeeds a bcount /\ has_free_run a bcount /\
     memkind m = MI_MEM_ARENA /\ mem_arena_id m = a_id a /\
     p = a_start a + mi_arena_block_size (mem_arena_block_index m) /\
     starts_nonzero s').
Proof.
  unfold mi_arena_try_alloc_at_id. rewrite mi_arena_id_index_create. intros H Hs.
  apply bind_Done in H as (loaded & s1 & t1 & t2 & H1 & H2 & ->).
  apply load_arena_inv in H1 as (Hi & -> & -> & ->).
  destruct (mi_arenas s !! i) as [a|] eqn:Ha.
  2:{ apply ret_Done in H2 as (Hr & -> & _). injection Hr as -> ->. left. by repeat split. }
  unfold arena_eligible, numa_suitable.
  destruct (negb allow_large && is_large a) eqn:Hlarge.
  { apply ret_Done in H2 as (Hr & -> & _). injection Hr as -> ->. left.
    repeat split; try done. intros a0 [= <-] He _.
    apply andb_true_iff in Hlarge as [Hal Hl]. apply negb_true_iff in Hal.
    by rewrite Hal, Hl in He. }
  destruct (mi_arena_id_is_suitable (a_id a) (exclusive a) _mi_arena_id_none) eqn:Hsuit;
    cbn [negb] in H2.
  2:{ apply ret_Done in H2 as (Hr & -> & _). injection Hr as -> ->. left.
      repeat split; try done. intros a0 [= <-] He _. by rewrite Hsuit, andb_false_r in He. }
  assert (Hel : (allow_large || negb (is_large a)) && true = true).
  { rewrite andb_true_r. by destruct allow_large, (is_large a). }
  rewrite Z.eqb_refl in H2. cbn [andb] in H2.
  set (suitable := (numa_node <? 0) || (a_numa_node a <? 0) || (a_numa_node a =? numa_node))
    in *.
  destruct (if match_numa_node then negb suitable else suitable) eqn:Hnuma.
  { apply ret_Done in H2 as (Hr & -> & _). injection Hr as -> ->. left.
    repeat split; try done. intros a0 [= <-] _ Hm. fold suitable in Hm.
    by destruct match_numa_node, suitable. }
  assert (Hm : suitable = match_numa_node) by (by destruct match_numa_node, suitable).
  apply with_arena_inv in H2 as (a0 & a' & tr' & Ha0 & H2 & -> & ->).
  rewrite Ha in Ha0. injection Ha0 as <-.
  pose proof (Hs _ _ Ha) as Hstart. cbn beta in Hstart.
  destruct (Z.eq_dec p 0) as [->|Hp].
  - left. apply mi_arena_try_alloc_at_refused in H2 as (-> & -> & Hfull); [|done].
    split; [done|]. split; [by apply set_arena_same|]. split; [done|].
    by intros a0 [= <-] _ _.
  - right. split; [done|]. exists a.
    pose proof (mi_arena_try_alloc_at_claimed _ _ _ _ _ _ _ _ _ _ H2 Hp) as Hclaim.
    pose proof (mi_arena_try_alloc_at_blocks _ _ _ _ _ _ _ _ _ _ H2 Hp) as Hb.
    cbv zeta in Hb.
    destruct Hb as (_ & _ & Hrun & _ & Hfree & _ & _ & _ & F & Hpa & Hk & Hid & _).
    split; [done|]. split; [by rewrite Hsuit|]. split; [done|]. split; [done|]. split.
    { exists (mem_arena_block_index m). split; [done|]. intros b Hb.
      apply Hfree, in_run_spec. lia. }
    split; [done|]. split; [done|]. split; [done|].
    intros j b. unfold set_arena. cbn [mi_arenas set_mi_arenas]. rewrite lookup_insert.
    case_decide as E; [intros [= <-]; by rewrite (fr_start _ _ F)|apply Hs].
Qed.

(** The loop over the slots [start .. start+len): the first arena that
    passes the checks and on which the claim succeeds wins. *)
Lemma try_alloc_loop_choice len match_numa_node : forall start memid s p m s' tr,
  try_alloc_loop env (seq start len) match_numa_node numa_node size alignment commit
    allow_large _mi_arena_id_none memid s = Done (p, m) s' tr ->
  starts_nonzero s ->
  (p = 0 /\ s' = s /\ m = memid /\
   forall j a, (start <= j < start + len)%nat -> mi_arenas s !! j = Some a ->
     arena_eligible allow_large a = true -> numa_suitable numa_node a = match_numa_node ->
     claim_fails a bcount)
  \/
  (p <> 0 /\ exists i a,
     (start <= i < start + len)%nat /\
     mi_arenas s !! i = Some a /\ arena_eligible allow_large a = true /\
     numa_suitable numa_node a = match_numa_node /\
     claim_succeeds a bcount /\ has_free_run a bcount /\
     memkind m = MI_MEM_ARENA /\ mem_arena_id m = a_id a /\
     p = a_start a + mi_arena_block_size (mem_arena_block_index m) /\
     starts_nonzero s' /\
     forall j a', (start <= j < i)%nat -> mi_arenas s !! j = Some a' ->
       arena_eligible allow_large a' = true -> numa_suitable numa_node a' = match_numa_node ->
       claim_fails a' bcount).
Proof.
  induction len as [|len IH]; intros start memid s p m s' tr H Hs.
  { cbn [seq try_alloc_loop] in H. apply ret_Done in H as (Hr & -> & _).
    injection Hr as -> ->. left. repeat split; try done. intros; lia. }
  cbn [seq try_alloc_loop] in H.
  apply bind_Done in H as ([p1 m1] & s1 & t1 & t2 & H1 & H2 & ->).
  apply try_alloc_at_id_choice in H1; [|done].
  destruct H1 as [(-> & -> & -> & Hfull)|(Hp1 & a & Ha)].
  - cbn [fst snd negb] in H2. rewrite Z.eqb_refl in H2. cbn [negb] in H2.
    apply IH in H2; [|done].
    destruct H2 as [(-> & -> & -> & Hrest)|(Hp & i & a & Hi & Ha & Hrest)].
    + left. repeat split; try done. intros j a Hj.
      destruct (Nat.eq_dec j start) as [->|]; [apply Hfull|apply Hrest; lia].
    + right. split; [done|]. exists i, a. split; [lia|]. split; [done|].
      destruct Hrest as (? & ? & ? & ? & ? & ? & ? & ? & Hbefore).
      repeat split; try done. intros j a' Hj.
      destruct (Nat.eq_dec j start) as [->|]; [apply Hfull|apply Hbefore; lia].
  - cbn [fst snd] in H2. apply Z.eqb_neq in Hp1 as Hp1'. rewrite Hp1' in H2. cbn [negb] in H2.
    apply ret_Done in H2 as (Hr & -> & _). injection Hr as -> ->.
    right. split; [done|]. exists start, a. split; [lia|].
    destruct Ha as (? & ? & ? & ? & ? & ? & ? & ? & ?). repeat split; try done. intros; lia.
Qed.

End Choice.

(** Property X25.  For a request that names no arena, in a registry where
    no arena starts at address 0, [mi_arena_try_alloc] returns NULL only
    when the block claim, [mi_arena_try_claim], fails on every arena it may
    use (below the count, not of large pages unless allowed, not
    exclusive); it then leaves the state and the memid as they were. *)
Theorem arena_alloc_null_only_when_claims_fail env numa_node size alignment commit allow_large
    memid s m s' tr :
  starts_nonzero s ->
  mi_arena_try_alloc env numa_node size alignment commit allow_large _mi_arena_id_none memid s
    = Done (0, m) s' tr ->
  s' = s /\ m = memid /\
  forall j a, (j < mi_arena_count s)%nat -> mi_arenas s !! j = Some a ->
    arena_eligible allow_large a = true -> claim_fails a (mi_block_count_of_size size).
Proof.
  intros Hs. unfold mi_arena_try_alloc. rewrite bind_get_eq.
  destruct (Nat.eqb_spec (mi_arena_count s) 0) as [Hc|_].
  { intros H. apply ret_Done in H as (Hr & -> & _). injection Hr as ->.
    repeat split; try done. intros; lia. }
  change (_mi_arena_id_none =? _mi_arena_id_none) with true. cbn [negb]. intros H.
  apply bind_Done in H as ([p1 m1] & s1 & t1 & t2 & H1 & H2 & ->).
  apply try_alloc_loop_choice in H1; [|done].
  destruct H1 as [(-> & -> & -> & Hlocal)|(Hp1 & _)].
  2:{ cbn [fst] in H2. apply Z.eqb_neq in Hp1 as Hp1'. rewrite Hp1' in H2. cbn [negb] in H2.
      apply ret_Done in H2 as (Hr & _). by injection Hr as <-. }
  cbn [fst snd] in H2. rewrite Z.eqb_refl in H2. cbn [negb] in H2.
  destruct (Z.leb_spec 0 numa_node) as [Hnuma|Hnuma].
  - apply bind_Done in H2 as ([p2 m2] & s2 & t3 & t4 & H2 & H3 & ->).
    apply try_alloc_loop_choice in H2; [|done].
    destruct H2 as [(-> & -> & -> & Hother)|(Hp2 & _)].
    2:{ cbn [fst] in H3. apply Z.eqb_neq in Hp2 as Hp2'. rewrite Hp2' in H3. cbn [negb] in H3.
        apply ret_Done in H3 as (Hr & _). by injection Hr as <-. }
    cbn [fst snd] in H3. rewrite Z.eqb_refl in H3. cbn [negb] in H3.
    apply ret_Done in H3 as (Hr & -> & _). injection Hr as ->.
    repeat split; try done. intros j a Hj Ha He.
    destruct (numa_suitable numa_node a) eqn:E.
    + eapply Hlocal; [|done..]. lia.
    + eapply Hother; [|done..]. lia.
  - apply ret_Done in H2 as (Hr & -> & _). injection Hr as ->.
    repeat split; try done. intros j a Hj Ha He.
    eapply Hlocal; [|done..| ]; [lia|].
    unfold numa_suitable. by destruct (Z.ltb_spec numa_node 0); [|lia].
Qed.

(** Property X26.  For a request that names no arena, in a registry where
    no arena starts at address 0, the memory that [mi_arena_try_alloc]
    returns comes from the first arena in its order of preference on which
    the block claim, [mi_arena_try_claim], succeeds: among the arenas it
    may use, those that suit the numa node come before the others, and
    within each group the lowest slot comes first.  The blocks it returns
    were free in that arena. *)
Theorem arena_choice_numa_local_first env numa_node size alignment commit allow_large
    memid s p m s' tr :
  starts_nonzero s ->
  mi_arena_try_alloc env numa_node size alignment commit allow_large _mi_arena_id_none memid s
    = Done (p, m) s' tr ->
  p <> 0 ->
  exists i a,
    (i < mi_arena_count s)%nat /\ mi_arenas s !! i = Some a /\
    arena_eligible allow_large a = true /\
    claim_succeeds a (mi_block_count_of_size size) /\
    has_free_run a (mi_block_count_of_size size) /\
    memkind m = MI_MEM_ARENA /\ mem_arena_id m = a_id a /\
    p = a_start a + mi_arena_block_size (mem_arena_block_index m) /\
    forall j a', (j < mi_arena_count s)%nat -> mi_arenas s !! j = Some a' ->
      arena_eligible allow_large a' = true ->
      claim_succeeds a' (mi_block_count_of_size size) ->
      (numa_suitable numa_node a' = true ->
       numa_suitable numa_node a = true /\ (i <= j)%nat) /\
      (numa_suitable numa_node a' = false -> numa_suitable numa_node a = false ->
       (i <= j)%nat).
Proof.
  intros Hs. unfold mi_arena_try_alloc. rewrite bind_get_eq.
  destruct (Nat.eqb_spec (mi_arena_count s) 0) as [Hc|_].
  { intros H Hp. apply ret_Done in H as (Hr & _). by injection Hr as -> _. }
  change (_mi_arena_id_none =? _mi_arena_id_none) with true. cbn [negb]. intros H Hp.
  apply bind_Done in H as ([p1 m1] & s1 & t1 & t2 & H1 & H2 & ->).
  apply try_alloc_loop_choice in H1; [|done].
  destruct H1 as [(-> & -> & -> & Hlocal)
                 |(Hp1 & i & a & Hi & Ha & He & Hnuma & Hcl & Hrun & Hk & Hid & Hpa & _
                   & Hbefore)].
  2:{ cbn [fst] in H2. apply Z.eqb_neq in Hp1 as Hp1'. rewrite Hp1' in H2. cbn [negb] in H2.
      apply ret_Done in H2 as (Hr & _). injection Hr as -> ->.
      exists i, a. split; [lia|]. split; [done|]. split; [done|]. split; [done|].
      split; [done|]. split; [done|]. split; [done|]. split; [done|].
      intros j a' Hj Ha' He' Hcl'. split; [|congruence].
      intros Hnuma'. split; [done|].
      destruct (Nat.le_gt_cases i j) as [|Hlt]; [done|].
      exfalso. eapply claim_fails_not_succeeds; [|exact Hcl'].
      eapply Hbefore; [|done..]. lia. }
  cbn [fst snd] in H2. rewrite Z.eqb_refl in H2. cbn [negb] in H2.
  destruct (Z.leb_spec 0 numa_node) as [Hnuma|Hnuma].
  2:{ apply ret_Done in H2 as (Hr & _). by injection Hr as -> _. }
  apply bind_Done in H2 as ([p2 m2] & s2 & t3 & t4 & H2 & H3 & ->).
  apply try_alloc_loop_choice in H2; [|done].
  destruct H2 as [(-> & _)
                 |(Hp2 & i & a & Hi & Ha & He & Hna & Hcl & Hrun & Hk & Hid & Hpa & _
                   & Hbefore)].
  { cbn [fst] in H3. rewrite Z.eqb_refl in H3. cbn [negb] in H3.
    apply ret_Done in H3 as (Hr & _). by injection Hr as -> _. }
  cbn [fst] in H3. apply Z.eqb_neq in Hp2 as Hp2'. rewrite Hp2' in H3. cbn [negb] in H3.
  apply ret_Done in H3 as (Hr & _). injection Hr as -> ->.
  exists i, a. split; [lia|]. split; [done|]. split; [done|]. split; [done|].
  split; [done|]. split; [done|]. split; [done|]. split; [done|].
  intros j a' Hj Ha' He' Hcl'. split.
  - intros Hnuma'. exfalso. eapply claim_fails_not_succeeds; [|exact Hcl'].
    eapply Hlocal; [|done..]. lia.
  - intros Hnuma' _.
    destruct (Nat.le_gt_cases i j) as [|Hlt]; [done|].
    exfalso. eapply claim_fails_not_succeeds; [|exact Hcl'].
    eapply Hbefore; [|done..]. lia.
Qed.

(** ** The options of an allocation *)

Lemma os_result_memkind r : fst (os_result r) <> 0 -> memkind (snd (os_result r)) = MI_MEM_OS.
Proof. by destruct r. Qed.

(** Property X27.  [_mi_arena_alloc_aligned] respects its options: memory
    of an arena is returned only if arena allocation is not disallowed or
    an arena was requested, and only for requests of at least
    [MI_ARENA_MIN_OBJ_SIZE] bytes with an alignment of at most
    [MI_SEGMENT_ALIGN] and no alignment offset; memory of the OS is
    returned only if OS allocation is not disallowed and no arena was
    requested; and a request that is refused because the OS may not be
    used returns NULL with [errno] set to [ENOMEM]. *)
Theorem alloc_respects_options env s size alignment align_offset commit allow_large
    req_arena_id p m s' tr :
  _mi_arena_alloc_aligned env size alignment align_offset commit allow_large req_arena_id s
    = Done (p, m) s' tr ->
  (p <> 0 ->
   (memkind m = MI_MEM_ARENA /\
    (opt_disallow_arena_alloc env = false \/ req_arena_id <> _mi_arena_id_none) /\
    MI_ARENA_MIN_OBJ_SIZE <= size /\ alignment <= MI_SEGMENT_ALIGN /\ align_offset = 0)
   \/
   (memkind m = MI_MEM_OS /\ opt_disallow_os_alloc env = false /\
    req_arena_id = _mi_arena_id_none)) /\
  (p = 0 -> opt_disallow_os_alloc env = true \/ req_arena_id <> _mi_arena_id_none ->
   exists l, mi_log s' = l ++ [EvErrno ENOMEM]).
Proof.
  unfold _mi_arena_alloc_aligned. intros H.
  apply bind_Done in H as (r1 & s1 & t1 & t2 & H1 & H2 & ->).
  assert (Harena : fst r1 <> 0 ->
            memkind (snd r1) = MI_MEM_ARENA /\
            (opt_disallow_arena_alloc env = false \/ req_arena_id <> _mi_arena_id_none) /\
            MI_ARENA_MIN_OBJ_SIZE <= size /\ alignment <= MI_SEGMENT_ALIGN /\ align_offset = 0).
  { intros Hp1.
    assert (Hname : forall r s0, alloc_result names_arena req_arena_id size r s0 ->
                                 fst r <> 0 -> memkind (snd r) = MI_MEM_ARENA).
    { intros r s0 Hres Hp. destruct (Hres Hp) as (j & a & _ & _ & _ & idx & Hk & _). exact Hk. }
    destruct (negb (opt_disallow_arena_alloc env) || negb (req_arena_id =? _mi_arena_id_none))
      eqn:Hallow.
    2:{ apply ret_Done in H1 as (-> & _). done. }
    destruct ((MI_ARENA_MIN_OBJ_SIZE <=? size) && (alignment <=? MI_SEGMENT_ALIGN)
              && (align_offset =? 0)) eqn:Hc.
    2:{ apply ret_Done in H1 as (-> & _). done. }
    apply andb_true_iff in Hc as [Hc Hoff]. apply andb_true_iff in Hc as [Hsz Hal].
    split; [|split; [|split; [lia|split; [lia|lia]]]].
    2:{ apply orb_true_iff in Hallow as [Ha|Ha]; [left|right].
        - by apply negb_true_iff in Ha.
        - apply negb_true_iff, Z.eqb_neq in Ha. done. }
    apply bind_Done in H1 as (r0 & s0 & t3 & t4 & H0 & H1 & ->).
    pose proof (Res_try_alloc (fun _ _ => True) names_arena
                  (fun _ _ _ _ _ _ _ _ _ _ _ => I)
                  (fun env j n commit memid a r a' tr _ =>
                     names_arena_alloc_any env j n commit memid a r a' tr)
                  _ _ _ _ _ _ _ _ _ _ _ _ (fun _ _ _ => I) H0) as Hres0.
    destruct (Z.eqb_spec (fst r0) 0) as [Hz|Hnz]; cbn [negb] in H1.
    2:{ apply ret_Done in H1 as (-> & _). by eapply Hname. }
    destruct (req_arena_id =? _mi_arena_id_none).
    2:{ apply ret_Done in H1 as (-> & _). done. }
    apply bind_Done in H1 as (res & s2 & t5 & t6 & _ & H3 & _).
    destruct (fst res).
    2:{ apply ret_Done in H3 as (-> & _). done. }
    apply bind_Done in H3 as (r2 & s3 & t7 & t8 & H3 & H4 & _).
    apply (Res_try_alloc_at_id (fun _ _ => True) names_arena
             (fun env j n commit memid a r a' tr _ =>
                names_arena_alloc_any env j n commit memid a r a' tr)) in H3;
      [|exact (fun _ _ _ => I)].
    destruct (Z.eqb_spec (fst r2) 0) as [Hz2|Hnz2]; cbn [negb] in H4.
    + apply ret_Done in H4 as (-> & _). done.
    + apply ret_Done in H4 as (-> & _). by eapply Hname. }
  split.
  - intros Hp. destruct (Z.eqb_spec (fst r1) 0) as [Hz|Hnz]; cbn [negb] in H2.
    + right.
      destruct (opt_disallow_os_alloc env || negb (req_arena_id =? _mi_arena_id_none)) eqn:Hos.
      { apply bind_Done in H2 as (u & s2 & t3 & t4 & _ & H3 & _).
        apply ret_Done in H3 as (Hr & _). by injection Hr as -> _. }
      apply orb_false_iff in Hos as [Hos Hreq]. apply negb_false_iff, Z.eqb_eq in Hreq.
      split; [|done].
      destruct (0 <? align_offset); apply ret_Done in H2 as (Hr & _).
      * unfold _mi_os_alloc_aligned_at_offset in Hr.
        pose proof (os_result_memkind (os_alloc_aligned_at_offset_prim env size alignment
                                         align_offset commit allow_large)) as Hk.
        rewrite <- Hr in Hk. by apply Hk.
      * unfold _mi_os_alloc_aligned in Hr.
        pose proof (os_result_memkind (os_alloc_aligned_prim env size alignment
                                         commit allow_large)) as Hk.
        rewrite <- Hr in Hk. by apply Hk.
    + left. apply ret_Done in H2 as (Hr & _). rewrite <- Hr in Harena. by apply Harena.
  - intros Hp Hos.
    assert (Hos' : opt_disallow_os_alloc env || negb (req_arena_id =? _mi_arena_id_none) = true).
    { destruct Hos as [->|Hreq]; [done|]. apply Z.eqb_neq in Hreq. rewrite Hreq.
      apply orb_true_r. }
    rewrite Hos' in H2.
    destruct (Z.eqb_spec (fst r1) 0) as [Hz|Hnz]; cbn [negb] in H2.
    + apply bind_Done in H2 as (u & s2 & t3 & t4 & H2 & H3 & _).
      apply ret_Done in H3 as (Hr & -> & _). injection Hr as -> ->.
      apply modify_Done in H2 as (-> & _).
      by exists (mi_log s1).
    + apply ret_Done in H2 as (Hr & _). by rewrite <- Hr in Hnz.
Qed.

(** ** Reserving huge OS pages *)

Lemma on_registry_inv {A} (m : M mi_state A) s x s' tr :
  on_registry m s = Done x s' tr ->
  exists st' tr', m (hp_state s) = Done x st' tr' /\ s' = set_hp_state st' s.
Proof.
  unfold on_registry. destruct (m (hp_state s)) as [y st' tr'|]; [|done].
  intros [= <- <- _]. by exists st', tr'.
Qed.

Lemma emit_huge_Done e s u s' tr :
  emit_huge e s = Done u s' tr -> s' = mk_huge_state (hp_state s) (hp_log s ++ [e]) /\ tr = [].
Proof. unfold emit_huge. intros H. by apply modify_Done in H as [-> ->]. Qed.

(** What a reservation at a node adds to the log of requests. *)
Lemma reserve_huge_at_ex_log env os pages numa_node timeout_msecs excl s err id s' tr :
  mi_reserve_huge_os_pages_at_ex env os pages numa_node timeout_msecs excl s
    = Done (err, id) s' tr ->
  (err = 0 \/ err = ENOMEM) /\
  (pages <> 0 ->
   exists w, hp_log s' = hp_log s ++ HugeRequest pages (huge_numa_node os numa_node)
                                       timeout_msecs :: w /\
             (err = 0 -> w = [])).
Proof.
  unfold mi_reserve_huge_os_pages_at_ex. intros H.
  destruct (Z.eqb_spec pages 0) as [Hz|Hnz].
  { apply ret_Done in H as (Hr & _). injection Hr as -> _. split; [by left|done]. }
  destruct (_ && _); [done|].
  apply bind_Done in H as (u & s1 & t1 & t2 & H1 & H2 & _).
  apply emit_huge_Done in H1 as (-> & _).
  destruct (_ || _).
  - apply bind_Done in H2 as (u2 & s2 & t3 & t4 & H2 & H3 & _).
    apply emit_huge_Done in H2 as (-> & _).
    apply ret_Done in H3 as (Hr & -> & _). injection Hr as -> _.
    split; [by right|]. intros _. exists [HugeWarning pages].
    cbn [hp_log]. rewrite <- app_assoc. split; [done|]. unfold ENOMEM. done.
  - apply bind_Done in H2 as (r & s2 & t3 & t4 & H2 & H3 & _).
    apply on_registry_inv in H2 as (st' & tr' & _ & ->).
    destruct (fst r); cbn [negb] in H3.
    + apply ret_Done in H3 as (Hr & -> & _). injection Hr as -> _.
      split; [by left|]. intros _. by exists [].
    + apply bind_Done in H3 as (u3 & s3 & t5 & t6 & H3 & H4 & _).
      apply on_registry_inv in H3 as (st2 & tr2 & _ & ->).
      apply ret_Done in H4 as (Hr & -> & _). injection Hr as -> _.
      split; [by right|]. intros _. exists []. split; [done|]. unfold ENOMEM. done.
Qed.

(** Property X28.  [mi_reserve_huge_os_pages_at_ex] does nothing for 0
    pages.  Otherwise it makes one request to the OS, on node -1 for a node
    below -1 and on the node modulo the node count of the OS for a node from
    0; then either it returns 0 and has registered, in the slot at the old
    count, an arena of large pages on that node with the memory and the
    memid the OS returned, or it returns [ENOMEM] with the registry and the
    count unchanged: after a warning if the OS returned no memory, and
    after giving the memory back to the OS if the arena could not be
    registered. *)
Theorem reserve_huge_os_pages_at_ex_outcome env os pages numa_node timeout_msecs excl
    s err id s' tr :
  mi_reserve_huge_os_pages_at_ex env os pages numa_node timeout_msecs excl s
    = Done (err, id) s' tr ->
  (pages = 0 -> err = 0 /\ id = -1 /\ s' = s /\ tr = []) /\
  (pages <> 0 ->
   let node := if numa_node <? -1 then -1
               else if numa_node =? -1 then -1
               else numa_node mod os_numa_node_count os in
   let mem := os_alloc_huge_os_pages_prim os pages node timeout_msecs in
   (err = 0 /\ huge_ptr mem <> 0 /\ huge_pages_reserved mem <> 0 /\
    hp_log s' = hp_log s ++ [HugeRequest pages node timeout_msecs] /\
    mi_log (hp_state s') = mi_log (hp_state s) /\
    mi_arena_count (hp_state s') = S (mi_arena_count (hp_state s)) /\
    id = mi_arena_id_create (mi_arena_count (hp_state s)) /\
    exists a, mi_arenas (hp_state s') !! mi_arena_count (hp_state s) = Some a /\
      a_id a = id /\ a_start a = huge_ptr mem /\ a_memid a = huge_memid mem /\
      is_large a = true /\ a_numa_node a = node /\ exclusive a = excl /\
      block_count a = Z.to_nat (huge_size mem / MI_ARENA_BLOCK_SIZE))
   \/
   (err = ENOMEM /\
    mi_arenas (hp_state s') = mi_arenas (hp_state s) /\
    mi_arena_count (hp_state s') = mi_arena_count (hp_state s) /\
    if (huge_ptr mem =? 0) || (huge_pages_reserved mem =? 0)
    then id = -1 /\ mi_log (hp_state s') = mi_log (hp_state s) /\
         hp_log s' = hp_log s ++ [HugeRequest pages node timeout_msecs; HugeWarning pages]
    else mi_log (hp_state s')
         = mi_log (hp_state s) ++ [EvOsFree (huge_ptr mem) (huge_size mem)] /\
         hp_log s' = hp_log s ++ [HugeRequest pages node timeout_msecs])).
Proof.
  unfold mi_reserve_huge_os_pages_at_ex. intros H.
  destruct (Z.eqb_spec pages 0) as [Hz|Hnz].
  { apply ret_Done in H as (Hr & -> & ->). injection Hr as -> ->. by split. }
  split; [done|]. intros _.
  destruct (_ && _); [done|].
  assert (Hnode : huge_numa_node os numa_node
                  = if numa_node <? -1 then -1
                    else if numa_node =? -1 then -1
                    else numa_node mod os_numa_node_count os).
  { unfold huge_numa_node.
    destruct (Z.ltb_spec numa_node (-1)); [done|].
    destruct (Z.eqb_spec numa_node (-1)) as [->|]; [done|].
    destruct (Z.leb_spec 0 numa_node); [done|lia]. }
  cbv zeta. rewrite <- Hnode. clear Hnode.
  set (node := huge_numa_node os numa_node) in *.
  set (mem := os_alloc_huge_os_pages_prim os pages node timeout_msecs) in *.
  apply bind_Done in H as (u & s1 & t1 & t2 & H1 & H2 & _).
  apply emit_huge_Done in H1 as (-> & _).
  destruct ((huge_ptr mem =? 0) || (huge_pages_reserved mem =? 0)) eqn:Hmem.
  { apply bind_Done in H2 as (u2 & s2 & t3 & t4 & H2 & H3 & _).
    apply emit_huge_Done in H2 as (-> & _).
    apply ret_Done in H3 as (Hr & -> & _). injection Hr as -> ->.
    right. cbn [hp_state hp_log]. rewrite <- app_assoc. done. }
  apply orb_false_iff in Hmem as [Hp Hres]. apply Z.eqb_neq in Hp, Hres.
  apply bind_Done in H2 as (r & s2 & t3 & t4 & H2 & H3 & _).
  apply on_registry_inv in H2 as (st' & tr' & H2 & ->). cbn [hp_state] in H2.
  apply mi_manage_os_memory_ex2_inv in H2
    as [(Hf & (Ha & Hc & Hl) & _)|(Hf & Hge & Hroom & Hid & Hcount & Hl & meta & Harenas)];
    rewrite Hf in H3; cbn [negb] in H3.
  - apply bind_Done in H3 as (u3 & s3 & t5 & t6 & H3 & H4 & _).
    apply on_registry_inv in H3 as (st2 & tr2 & H3 & ->). cbn [hp_state set_hp_state] in H3.
    unfold emit in H3. apply modify_Done in H3 as (-> & _).
    apply ret_Done in H4 as (Hr & -> & _). injection Hr as -> ->.
    right. cbn [hp_state hp_log set_hp_state set_mi_log mi_arenas mi_arena_count mi_log].
    by rewrite Ha, Hc, Hl.
  - apply ret_Done in H3 as (Hr & -> & _). injection Hr as -> ->.
    left. cbn [hp_state hp_log set_hp_state].
    split; [done|]. split; [done|]. split; [done|]. split; [done|]. split; [done|].
    split; [done|]. split; [done|].
    eexists. split; [rewrite Harenas; apply lookup_insert_eq|].
    pose proof (arena_init_plain env (huge_ptr mem) (huge_size mem) true node excl
                  (huge_memid mem) meta) as (H1 & H2 & H3 & H4 & H5 & _).
    cbv zeta in H1, H2, H3, H4, H5.
    split; [done|]. split; [exact H1|]. split; [exact H2|]. split; [exact H5|].
    split; [exact H4|]. split; [exact H3|].
    apply (arena_init_block_count env (huge_ptr mem) (huge_size mem) true node excl
             (huge_memid mem) meta).
Qed.

Lemma int_cast_small x : 0 <= x < 2 ^ 31 -> int_cast x = x.
Proof. intros Hx. unfold int_cast. rewrite Z.mod_small; lia. Qed.

Lemma huge_numa_node_nonneg os x :
  0 <= x -> huge_numa_node os x = x mod os_numa_node_count os.
Proof.
  intros Hx. unfold huge_numa_node.
  destruct (Z.ltb_spec x (-1)); [lia|]. by destruct (Z.leb_spec 0 x); [|lia].
Qed.

Lemma requested_pages_seq pages numa_count node timeout_per len : forall a,
  requested_pages
    (map (fun i : nat => HugeRequest (interleave_node_pages pages numa_count (Z.of_nat i))
                           (node i) timeout_per) (seq a len))
  = pages / numa_count * Z.of_nat len
    + Z.max 0 (Z.min (Z.of_nat (a + len)) (pages mod numa_count) - Z.of_nat a).
Proof.
  induction len as [|len IH]; intros a.
  { cbn [seq map requested_pages fold_right]. lia. }
  cbn [seq map]. unfold requested_pages in *. cbn [fold_right]. rewrite IH.
  unfold interleave_node_pages.
  destruct (Z.ltb_spec (Z.of_nat a) (pages mod numa_count)); lia.
Qed.

Section Interleave.
Variable env : mi_env.
Variable os : mi_huge_os.
Variables pages numa_count timeout_per : Z.
Hypothesis Hpages : 0 < pages < 2 ^ 64.
Hypothesis Hcount : 0 < numa_count < 2 ^ 31.

(** The pages still to request when the loop reaches node [i]. *)
Local Abbreviation remaining i :=
  (pages / numa_count * (numa_count - i) + Z.max 0 (pages mod numa_count - i)).

Lemma interleave_loop_log fuel : forall i s err s' tr,
  Z.of_nat i + Z.of_nat fuel = numa_count ->
  interleave_loop env os fuel (Z.of_nat i) numa_count (remaining (Z.of_nat i))
    (pages / numa_count) (pages mod numa_count) timeout_per s = Done err s' tr ->
  (err = 0 \/ err = ENOMEM) /\
  (err = 0 ->
   hp_log s'
   = hp_log s
     ++ map (fun j : nat =>
               HugeRequest (interleave_node_pages pages numa_count (Z.of_nat j))
                 (Z.of_nat j mod os_numa_node_count os) timeout_per)
            (seq i (Z.to_nat (Z.min numa_count pages) - i))).
Proof.
  pose proof (Z.div_mod pages numa_count ltac:(lia)) as Hdm.
  pose proof (Z.mod_pos_bound pages numa_count ltac:(lia)) as Hm.
  assert (Hc : 0 <= pages / numa_count) by (apply Z.div_pos; lia).
  induction fuel as [|fuel IH]; intros i s err s' tr Hi H.
  { cbn [interleave_loop] in H. apply ret_Done in H as (-> & -> & _).
    split; [by left|]. intros _.
    replace (Z.to_nat (Z.min numa_count pages) - i)%nat with 0%nat by lia.
    cbn [seq map]. by rewrite app_nil_r. }
  cbn [interleave_loop] in H.
  destruct (Z.ltb_spec (Z.of_nat i) numa_count) as [Hlt|]; [|lia]. cbn [andb] in H.
  destruct (Z.ltb_spec 0 (remaining (Z.of_nat i))) as [Hrem|Hrem].
  2:{ apply ret_Done in H as (-> & -> & _). split; [by left|]. intros _.
      assert (Hk : (Z.to_nat (Z.min numa_count pages) - i = 0)%nat).
      { destruct (Z.eq_dec (pages / numa_count) 0) as [E|E]; [rewrite E in *; lia|nia]. }
      rewrite Hk. cbn [seq map]. by rewrite app_nil_r. }
  assert (Hik : (i < Z.to_nat (Z.min numa_count pages))%nat).
  { destruct (Z.eq_dec (pages / numa_count) 0) as [E|E]; [rewrite E in *; lia|].
    assert (numa_count <= pages) by nia. lia. }
  set (node_pages := if Z.of_nat i <? pages mod numa_count
                     then size_wrap (pages / numa_count + 1) else pages / numa_count) in *.
  assert (Hnp : node_pages = interleave_node_pages pages numa_count (Z.of_nat i)).
  { unfold node_pages, interleave_node_pages.
    destruct (Z.ltb_spec (Z.of_nat i) (pages mod numa_count)); [|lia].
    apply size_wrap_small. nia. }
  assert (Hnp1 : 0 < node_pages <= remaining (Z.of_nat i)).
  { rewrite Hnp. unfold interleave_node_pages.
    destruct (Z.ltb_spec (Z.of_nat i) (pages mod numa_count)); nia. }
  apply bind_Done in H as (err1 & s1 & t1 & t2 & H1 & H2 & _).
  unfold mi_reserve_huge_os_pages_at in H1.
  apply bind_Done in H1 as ([e1 id1] & s0 & t3 & t4 & H1 & H3 & _).
  apply ret_Done in H3 as (-> & -> & _). cbn [fst] in H2.
  apply reserve_huge_at_ex_log in H1 as (Herr & Hlog).
  destruct (Hlog ltac:(lia)) as (w & Hlog1 & Hw). clear Hlog.
  destruct (Z.eqb_spec e1 0) as [->|Hne]; cbn [negb] in H2.
  2:{ apply ret_Done in H2 as (-> & _). split; [done|]. intros ->. done. }
  rewrite (Hw eq_refl) in Hlog1.
  destruct (Z.ltb_spec (remaining (Z.of_nat i)) node_pages) as [|_]; [lia|].
  replace (Z.of_nat i + 1) with (Z.of_nat (S i)) in H2 by lia.
  replace (remaining (Z.of_nat i) - node_pages) with (remaining (Z.of_nat (S i))) in H2.
  2:{ rewrite Hnp. unfold interleave_node_pages.
      destruct (Z.ltb_spec (Z.of_nat i) (pages mod numa_count)); nia. }
  apply IH in H2 as (Herr2 & Hlog2); [|lia].
  split; [done|]. intros He. rewrite (Hlog2 He), Hlog1.
  rewrite int_cast_small, huge_numa_node_nonneg, Hnp by lia.
  replace (Z.to_nat (Z.min numa_count pages) - i)%nat
    with (S (Z.to_nat (Z.min numa_count pages) - S i)) by lia.
  cbn [seq map]. by rewrite <- app_assoc.
Qed.

End Interleave.

(** Property X29.  [mi_reserve_huge_os_pages_interleave] returns 0 or
    [ENOMEM].  When it returns 0 for a positive number of pages (over fewer
    than 2^31 nodes), it has made exactly one request for each of the first
    min(numa_count, pages) nodes, in order, each for an even share of the
    pages and one more for the first [pages mod numa_count] nodes, and the
    requests add up to exactly the pages asked for. *)
Theorem interleave_requests_all_pages env os pages numa_nodes timeout_msecs s err s' tr :
  0 < pages < 2 ^ 64 ->
  interleave_numa_count os numa_nodes < 2 ^ 31 ->
  mi_reserve_huge_os_pages_interleave env os pages numa_nodes timeout_msecs s
    = Done err s' tr ->
  let numa_count := interleave_numa_count os numa_nodes in
  let timeout_per := interleave_timeout_per timeout_msecs numa_count in
  (err = 0 \/ err = ENOMEM) /\
  (err = 0 ->
   hp_log s' = hp_log s ++ interleave_requests os pages numa_count timeout_per /\
   requested_pages (interleave_requests os pages numa_count timeout_per) = pages).
Proof.
  intros Hpages Hcount H. cbv zeta.
  assert (Hpos : 0 < interleave_numa_count os numa_nodes).
  { unfold interleave_numa_count.
    destruct (Z.ltb_spec 0 numa_nodes);
      [destruct (Z.leb_spec numa_nodes 0); lia|].
    destruct (Z.leb_spec (os_numa_node_count os) 0); lia. }
  set (numa_count := interleave_numa_count os numa_nodes) in *.
  unfold mi_reserve_huge_os_pages_interleave in H.
  destruct (Z.eqb_spec pages 0); [lia|]. cbv zeta in H. fold numa_count in H.
  pose proof (Z.div_mod pages numa_count ltac:(lia)) as Hdm.
  pose proof (Z.mod_pos_bound pages numa_count ltac:(lia)) as Hm.
  assert (Hc : 0 <= pages / numa_count) by (apply Z.div_pos; lia).
  replace pages with (pages / numa_count * (numa_count - Z.of_nat 0)
                      + Z.max 0 (pages mod numa_count - Z.of_nat 0)) in H at 1 by lia.
  change 0 with (Z.of_nat 0) in H at 1.
  apply (interleave_loop_log env os pages numa_count) in H as (Herr & Hlog); [|lia..].
  split; [done|]. intros He. unfold interleave_requests.
  rewrite Nat.sub_0_r in Hlog. split; [by apply Hlog|].
  rewrite requested_pages_seq, Nat.add_0_l, Z2Nat.id by lia.
  destruct (Z.eq_dec (pages / numa_count) 0) as [E|E]; [rewrite E in *; lia|].
  assert (numa_count <= pages) by nia. rewrite (Z.min_l numa_count pages) by lia. lia.
Qed.

(** ** The further properties at concrete inputs *)

Lemma reachable_demo_managed free_ok : reachable (op_ok free_ok size_t_size) demo_managed.
Proof.
  destruct demo_managed_run as (tr & H).
  eapply reach_step; [apply reach_init| |exact H]. reflexivity.
Qed.

Lemma registry_bounded_demo_managed : registry_bounded demo_managed.
Proof. eapply registry_bounded_reachable, (reachable_demo_managed any_free). Qed.

Lemma I1_demo_freed_arena : I1 demo_freed_arena.
Proof.
  assert (H : run_op env_demo (OpFree demo_p (64 * MI_MiB) (64 * MI_MiB) demo_memid)
                demo_allocated = Done tt demo_freed (trace_of demo_free_run))
    by (vm_compute; reflexivity).
  apply (I1_state_run_op _ _ _ _ _ _ I1_state_demo_allocated H 0%nat).
  vm_compute. reflexivity.
Qed.

Lemma arena_memid_round_trip_witness :
  (3 < MI_MAX_ARENAS)%nat /\
  mi_arena_memid_indices (mi_memid_create_arena (mi_arena_id_create 3) true 5)
  = (3%nat, 5%nat, true) /\
  mi_arena_id_create 3 <> _mi_arena_id_none /\
  _mi_arena_memid_is_suitable (mi_memid_create_arena (mi_arena_id_create 3) true 5)
    (mi_arena_id_create 3) = true /\
  _mi_arena_memid_is_suitable (mi_memid_create_arena (mi_arena_id_create 3) true 5)
    _mi_arena_id_none = negb true.
Proof.
  assert (H : (3 < MI_MAX_ARENAS)%nat) by (unfold MI_MAX_ARENAS; lia).
  split; [exact H|]. exact (arena_memid_round_trip 3 true 5 H).
Defined.

Lemma alloc_result_is_suitable_witness :
  demo_alloc_run = Done (demo_p, demo_memid) demo_allocated (trace_of demo_alloc_run) /\
  demo_p <> 0 /\
  _mi_arena_memid_is_suitable demo_memid 0 = true.
Proof.
  assert (H1 : _mi_arena_alloc_aligned env_demo (64 * MI_MiB) (64 * MI_MiB) 0 true false 0
                 demo_managed
               = Done (demo_p, demo_memid) demo_allocated (trace_of demo_alloc_run))
    by (vm_compute; reflexivity).
  assert (H2 : demo_p <> 0) by (vm_compute; discriminate).
  split; [exact H1|]. split; [exact H2|].
  exact (alloc_result_is_suitable _ _ _ _ _ _ _ _ _ _ _ _ H1 H2).
Defined.

Lemma mi_arena_area_checks_id_witness :
  mi_arena_area 1 demo_managed
  = Done (a_start demo_managed_arena, mi_arena_size demo_managed_arena) demo_managed [] /\
  mi_arena_area 0 demo_managed = Done (0, 0) demo_managed [] /\
  mi_arena_area 2 demo_managed = Done (0, 0) demo_managed [].
Proof.
  split; [|split].
  - destruct (mi_arena_area_checks_id 1 demo_managed) as (r & H & _ & H2).
    rewrite H, (H2 demo_managed_arena); [reflexivity|unfold MI_MAX_ARENAS; lia|].
    vm_compute. reflexivity.
  - destruct (mi_arena_area_checks_id 0 demo_managed) as (r & H & H1 & _).
    rewrite H, H1; [reflexivity|]. left. lia.
  - destruct (mi_arena_area_checks_id 2 demo_managed) as (r & H & H1 & _).
    rewrite H, H1; [reflexivity|]. right. right. vm_compute. reflexivity.
Defined.

Lemma managed_arena_starts_empty_witness :
  256 * MI_MiB < 2 ^ 64 /\
  demo_manage_run = Done (true, 1) demo_managed (trace_of demo_manage_run) /\
  1 = mi_arena_id_create (mi_arena_count mi_state_init) /\
  mi_arena_count demo_managed = S (mi_arena_count mi_state_init) /\
  (forall j, j <> mi_arena_count mi_state_init ->
     mi_arenas demo_managed !! j = mi_arenas mi_state_init !! j) /\
  exists a, mi_arenas demo_managed !! mi_arena_count mi_state_init = Some a /\
    a_id a = 1 /\ a_start a = 1024 * MI_MiB /\ exclusive a = false /\ a_numa_node a = -1 /\
    memkind (a_memid a) = MI_MEM_EXTERNAL /\
    Z.of_nat (block_count a) = 256 * MI_MiB / MI_ARENA_BLOCK_SIZE /\
    purge_expire a = 0 /\
    (forall b, (b < block_count a)%nat -> inuse a b = false) /\
    (forall b, purge a b = false) /\
    (forall b, (b < block_count a)%nat -> committed a b = false || true).
Proof.
  assert (H1 : 256 * MI_MiB < 2 ^ 64) by reflexivity.
  assert (H2 : mi_manage_os_memory_ex env_demo (1024 * MI_MiB) (256 * MI_MiB) true false true
                 (-1) false mi_state_init
               = Done (true, 1) demo_managed (trace_of demo_manage_run))
    by (vm_compute; reflexivity).
  split; [exact H1|]. split; [exact H2|].
  exact (managed_arena_starts_empty _ _ _ _ _ _ _ _ _ _ _ _ H1 H2).
Defined.

Lemma manage_fails_cleanly_witness :
  1024 < MI_ARENA_BLOCK_SIZE /\
  mi_manage_os_memory_ex env_demo (1024 * MI_MiB) 1024 true false true (-1) false demo_managed
  = Done (false, _mi_arena_id_none) demo_managed [].
Proof.
  assert (H : 1024 < MI_ARENA_BLOCK_SIZE) by reflexivity.
  split; [exact H|].
  exact (proj1 (proj2 (manage_fails_cleanly env_demo (1024 * MI_MiB) 1024 true false true (-1)
                         false demo_managed)) H).
Defined.

Lemma managed_area_round_trip_witness :
  256 * MI_MiB < 2 ^ 64 /\
  mi_arena_area 1 demo_managed
  = Done (1024 * MI_MiB, 256 * MI_MiB / MI_ARENA_BLOCK_SIZE * MI_ARENA_BLOCK_SIZE)
      demo_managed [].
Proof.
  assert (H1 : 256 * MI_MiB < 2 ^ 64) by reflexivity.
  assert (H2 : mi_manage_os_memory_ex env_demo (1024 * MI_MiB) (256 * MI_MiB) true false true
                 (-1) false mi_state_init
               = Done (true, 1) demo_managed (trace_of demo_manage_run))
    by (vm_compute; reflexivity).
  split; [exact H1|].
  exact (managed_area_round_trip _ _ _ _ _ _ _ _ _ _ _ _ H1 H2).
Defined.

Lemma reserve_os_memory_outcome_witness :
  demo_reserve_run
  = Done (0, 1) (state_after demo_reserve_run) (trace_of demo_reserve_run) /\
  exists a, mi_arenas (state_after demo_reserve_run) !! 0%nat = Some a /\
    a_id a = 1 /\ a_start a = 4096 * MI_MiB /\ exclusive a = false /\ a_numa_node a = -1 /\
    block_count a = 4%nat.
Proof.
  assert (H : mi_reserve_os_memory_ex env_demo (256 * MI_MiB) true false false mi_state_init
              = Done (0, 1) (state_after demo_reserve_run) (trace_of demo_reserve_run))
    by (vm_compute; reflexivity).
  split; [exact H|].
  destruct (reserve_os_memory_outcome _ _ _ _ _ _ _ _ _ _ H)
    as [(_ & _ & _ & _ & _ & a & Ha & Hid & Hstart & Hexcl & Hnuma & _ & Hbc)
       |(Herr & _)]; [|discriminate Herr].
  exists a. repeat split; assumption.
Defined.

Lemma mi_arena_contains_spec_witness :
  (mi_arena_count demo_managed <= MI_MAX_ARENAS)%nat /\
  exists b, _mi_arena_contains (1024 * MI_MiB + 5) demo_managed = Done b demo_managed [] /\
    (b = true <->
     exists i a, (i < mi_arena_count demo_managed)%nat /\ mi_arenas demo_managed !! i = Some a /\
                 arena_has a (1024 * MI_MiB + 5)).
Proof.
  assert (H : (mi_arena_count demo_managed <= MI_MAX_ARENAS)%nat) by (vm_compute; lia).
  split; [exact H|]. exact (mi_arena_contains_spec (1024 * MI_MiB + 5) demo_managed H).
Defined.

Lemma registry_only_grows_witness :
  registry_bounded demo_managed /\
  registry_bounded demo_allocated /\
  (mi_arena_count demo_managed <= mi_arena_count demo_allocated)%nat /\
  forall j a, mi_arenas demo_managed !! j = Some a ->
    exists a', mi_arenas demo_allocated !! j = Some a' /\ arena_frame a a'.
Proof.
  assert (H : run_op env_demo (OpAlloc (64 * MI_MiB) (64 * MI_MiB) 0 true false 0) demo_managed
              = Done tt demo_allocated
                  (trace_of (run_op env_demo (OpAlloc (64 * MI_MiB) (64 * MI_MiB) 0 true false 0)
                               demo_managed)))
    by (vm_compute; reflexivity).
  split; [exact registry_bounded_demo_managed|].
  exact (registry_only_grows _ _ _ _ _ _ registry_bounded_demo_managed H).
Defined.

Lemma purge_sweep_keeps_blocks_witness :
  demo_sweep_run = Done tt (state_after demo_sweep_run) (trace_of demo_sweep_run) /\
  mi_arena_count (state_after demo_sweep_run) = mi_arena_count demo_freed /\
  purge_guard (state_after demo_sweep_run) = purge_guard demo_freed /\
  mi_log (state_after demo_sweep_run) = mi_log demo_freed /\
  (forall j, mi_arenas demo_freed !! j = None ->
     mi_arenas (state_after demo_sweep_run) !! j = None) /\
  (forall j a, mi_arenas demo_freed !! j = Some a ->
     exists a', mi_arenas (state_after demo_sweep_run) !! j = Some a' /\
       (forall b, inuse a' b = inuse a b) /\
       (forall b, purge a' b = true -> purge a b = true) /\
       blocks_dirty a' = blocks_dirty a /\
       blocks_abandoned a' = blocks_abandoned a /\
       a_start a' = a_start a /\ block_count a' = block_count a).
Proof.
  assert (H : mi_arenas_try_purge env_demo true true demo_freed
              = Done tt (state_after demo_sweep_run) (trace_of demo_sweep_run))
    by (vm_compute; reflexivity).
  split; [exact H|]. exact (purge_sweep_keeps_blocks _ _ _ _ _ _ _ H).
Defined.

Lemma allocated_memory_is_contained_witness :
  reachable (op_ok free_in_bounds size_t_size) demo_managed /\
  demo_p <> 0 /\ memkind demo_memid = MI_MEM_ARENA /\
  forall q,
    demo_p <= q < demo_p + Z.of_nat (mi_block_count_of_size (64 * MI_MiB)) * MI_ARENA_BLOCK_SIZE ->
    _mi_arena_contains q demo_allocated = Done true demo_allocated [].
Proof.
  assert (H1 : _mi_arena_alloc_aligned env_demo (64 * MI_MiB) (64 * MI_MiB) 0 true false 0
                 demo_managed
               = Done (demo_p, demo_memid) demo_allocated (trace_of demo_alloc_run))
    by (vm_compute; reflexivity).
  assert (H2 : demo_p <> 0) by (vm_compute; discriminate).
  assert (H3 : memkind demo_memid = MI_MEM_ARENA) by (vm_compute; reflexivity).
  split; [exact (reachable_demo_managed free_in_bounds)|]. split; [exact H2|].
  split; [exact H3|].
  exact (allocated_memory_is_contained _ _ _ _ _ _ _ _ _ _ _ _
           (reachable_demo_managed free_in_bounds) H1 H2 H3).
Defined.

Lemma allocation_claims_free_blocks_witness :
  exists p m a' tr,
    mi_arena_try_alloc_at env_demo 0 2 true _mi_memid_none demo_allocated_arena
      = Done (p, m) a' tr /\
    p <> 0 /\
    (0 < 2)%nat /\
    (mem_arena_block_index m + 2 <= field_count demo_allocated_arena * MI_BITMAP_FIELD_BITS)%nat /\
    (forall b, (mem_arena_block_index m <= b < mem_arena_block_index m + 2)%nat ->
       inuse demo_allocated_arena b = false /\ inuse a' b = true) /\
    (forall b, ~ (mem_arena_block_index m <= b < mem_arena_block_index m + 2)%nat ->
       inuse a' b = inuse demo_allocated_arena b) /\
    (forall b, (mem_arena_block_index m <= b < mem_arena_block_index m + 2)%nat ->
       purge a' b = false) /\
    (forall b, ~ (mem_arena_block_index m <= b < mem_arena_block_index m + 2)%nat ->
       purge a' b = purge demo_allocated_arena b) /\
    p = a_start demo_allocated_arena + mi_arena_block_size (mem_arena_block_index m).
Proof.
  eexists _, _, _, _. split; [vm_compute; reflexivity|]. split; [vm_compute; discriminate|].
  eapply (allocation_claims_free_blocks env_demo 0 2 true _mi_memid_none demo_allocated_arena).
  - vm_compute. reflexivity.
  - vm_compute. discriminate.
Defined.

Lemma allocations_do_not_overlap_witness :
  exists p1 m1 a1 tr1 p2 m2 a2 tr2,
    mi_arena_try_alloc_at env_demo 0 1 true _mi_memid_none demo_managed_arena
      = Done (p1, m1) a1 tr1 /\ p1 <> 0 /\
    mi_arena_try_alloc_at env_demo 0 2 false _mi_memid_none a1 = Done (p2, m2) a2 tr2 /\
    p2 <> 0 /\
    ((mem_arena_block_index m1 + 1 <= mem_arena_block_index m2)%nat \/
     (mem_arena_block_index m2 + 2 <= mem_arena_block_index m1)%nat) /\
    (forall b, (mem_arena_block_index m1 <= b < mem_arena_block_index m1 + 1)%nat \/
               (mem_arena_block_index m2 <= b < mem_arena_block_index m2 + 2)%nat ->
               inuse a2 b = true).
Proof.
  eexists _, _, _, _, _, _, _, _.
  split; [vm_compute; reflexivity|]. split; [vm_compute; discriminate|].
  split; [vm_compute; reflexivity|]. split; [vm_compute; discriminate|].
  eapply (allocations_do_not_overlap env_demo 0 1 2 true false _mi_memid_none _mi_memid_none
           demo_managed_arena).
  - vm_compute. reflexivity.
  - vm_compute. discriminate.
  - vm_compute. reflexivity.
  - vm_compute. discriminate.
Defined.

Lemma alloc_then_free_round_trip_witness :
  exists p m a1 tr1 r a2 tr2,
    mi_arena_try_alloc_at env_demo 0 2 true _mi_memid_none demo_allocated_arena
      = Done (p, m) a1 tr1 /\
    p <> 0 /\
    arena_free_blocks env_demo true 2 (mem_arena_block_index m) a1 = Done r a2 tr2 /\
    r = true /\ (forall b, inuse a2 b = inuse demo_allocated_arena b) /\
    arena_frame demo_allocated_arena a2.
Proof.
  eexists _, _, _, _, _, _, _.
  split; [vm_compute; reflexivity|]. split; [vm_compute; discriminate|].
  split; [vm_compute; reflexivity|].
  eapply (alloc_then_free_round_trip env_demo 0 2 true _mi_memid_none demo_allocated_arena
            _ _ _ _ true).
  - vm_compute. reflexivity.
  - vm_compute. discriminate.
  - vm_compute. reflexivity.
Defined.

Lemma free_releases_and_schedules_witness :
  is_pinned (a_memid demo_allocated_arena) = false /\
  is_Some (blocks_committed demo_allocated_arena) /\
  0 < mi_arena_purge_delay env_demo /\ mi_preloading env_demo = false /\
  exists r a' tr,
    arena_free_blocks env_demo true 1 0 demo_allocated_arena = Done r a' tr /\
    (forall b, inuse a' b = negb (in_run 0 1 b) && inuse demo_allocated_arena b) /\
    (forall b, purge a' b = in_run 0 1 b || purge demo_allocated_arena b) /\
    purge_expire a'
    = (if purge_expire demo_allocated_arena =? 0
       then clock_now env_demo + mi_arena_purge_delay env_demo
       else purge_expire demo_allocated_arena + Z.quot (mi_arena_purge_delay env_demo) 10) /\
    (forall b, committed a' b
               = (true || negb (in_run 0 1 b)) && committed demo_allocated_arena b) /\
    (r = true <-> forall b, in_run 0 1 b = true -> inuse demo_allocated_arena b = true).
Proof.
  assert (H1 : is_pinned (a_memid demo_allocated_arena) = false) by (vm_compute; reflexivity).
  assert (H2 : is_Some (blocks_committed demo_allocated_arena))
    by (eexists; vm_compute; reflexivity).
  assert (H3 : 0 < mi_arena_purge_delay env_demo) by (vm_compute; reflexivity).
  assert (H4 : mi_preloading env_demo = false) by reflexivity.
  split; [exact H1|]. split; [exact H2|]. split; [exact H3|]. split; [exact H4|].
  eexists _, _, _. split; [vm_compute; reflexivity|].
  eapply (free_releases_and_schedules env_demo true 1 0 demo_allocated_arena _ _ _ H1 H2 H3 H4).
  vm_compute. reflexivity.
Defined.

Lemma free_without_purge_witness :
  is_pinned (a_memid demo_pinned_arena) = true /\
  inuse demo_pinned_arena 0 = true /\
  exists r a' tr,
    arena_free_blocks env_demo true 1 0 demo_pinned_arena = Done r a' tr /\
    a' = set_blocks_inuse (bm_clear_range (blocks_inuse demo_pinned_arena) 0 1)
           demo_pinned_arena.
Proof.
  assert (H1 : is_pinned (a_memid demo_pinned_arena) = true) by (vm_compute; reflexivity).
  split; [exact H1|]. split; [vm_compute; reflexivity|].
  eexists _, _, _. split; [vm_compute; reflexivity|].
  refine (proj1 (free_without_purge env_demo true 1 0 demo_pinned_arena _ _ _ _) H1).
  vm_compute. reflexivity.
Defined.

Lemma mi_arena_purge_range_spec_witness :
  (0 < 2)%nat /\
  exists r a' tr,
    mi_arena_purge_range env_demo 0 0 2 1 demo_freed_arena = Done r a' tr /\
    (r = true <->
     forall k, (0 <= k < 0 + 2)%nat -> Z.testbit 1 (Z.of_nat k) = true) /\
    (forall b, purge a' b = negb (word_bit 0 0 (0 + 2) 1 b) && purge demo_freed_arena b) /\
    (forall b, inuse a' b = inuse demo_freed_arena b) /\
    purge_expire a' = purge_expire demo_freed_arena.
Proof.
  assert (H : (0 < 2)%nat) by lia.
  split; [exact H|].
  eexists _, _, _. split; [vm_compute; reflexivity|].
  eapply (mi_arena_purge_range_spec env_demo 0 0 2 1 demo_freed_arena _ _ _ H).
  vm_compute. reflexivity.
Defined.

Lemma due_sweep_purges_all_scheduled_witness :
  I1 demo_freed_arena /\
  is_pinned (a_memid demo_freed_arena) = false /\ is_Some (blocks_purge demo_freed_arena) /\
  purge_expire demo_freed_arena <> 0 /\
  purge demo_freed_arena 0 = true /\
  exists r a' tr,
    mi_arena_try_purge env_demo 1000 true demo_freed_arena = Done r a' tr /\
    (forall b, purge a' b = false) /\
    purge_expire a' = 0 /\
    (forall b, inuse a' b = inuse demo_freed_arena b) /\
    (r = true <-> exists b, purge demo_freed_arena b = true).
Proof.
  assert (H2 : forall bm, blocks_purge demo_freed_arena = Some bm ->
                          length bm = field_count demo_freed_arena).
  { intros bm E. vm_compute in E. injection E as <-. vm_compute. reflexivity. }
  assert (H3 : is_pinned (a_memid demo_freed_arena) = false) by (vm_compute; reflexivity).
  assert (H4 : is_Some (blocks_purge demo_freed_arena)) by (eexists; vm_compute; reflexivity).
  assert (H5 : purge_expire demo_freed_arena <> 0) by (vm_compute; discriminate).
  split; [exact I1_demo_freed_arena|]. split; [exact H3|]. split; [exact H4|].
  split; [exact H5|]. split; [vm_compute; reflexivity|].
  eexists _, _, _. split; [vm_compute; reflexivity|].
  eapply (due_sweep_purges_all_scheduled env_demo 1000 true demo_freed_arena _ _ _
           I1_demo_freed_arena H2 H3 H4 H5 (or_introl eq_refl)).
  vm_compute. reflexivity.
Defined.

Lemma abandon_then_reclaim_round_trip_witness :
  memkind (seg_memid demo_segment) = MI_MEM_ARENA /\
  seg_thread_id demo_segment = 7 /\
  demo_mark_run = Done demo_marked_segment demo_marked (trace_of demo_mark_run) /\
  demo_reclaim_run
  = Done (true, demo_reclaimed_segment) demo_reclaimed (trace_of demo_reclaim_run) /\
  seg_thread_id demo_marked_segment = 0 /\
  abandoned_count demo_marked = abandoned_count demo_abandon + 1 /\
  (exists a1,
     mi_arenas (ab_state demo_marked) !! mi_arena_id_index (mem_arena_id (seg_memid demo_segment))
     = Some a1 /\
     abandoned a1 (mem_arena_block_index (seg_memid demo_segment)) = true) /\
  true = true /\ seg_thread_id demo_reclaimed_segment = 42 /\
  seg_memid demo_reclaimed_segment = seg_memid demo_segment /\
  demo_reclaimed = demo_abandon.
Proof.
  assert (H1 : memkind (seg_memid demo_segment) = MI_MEM_ARENA) by (vm_compute; reflexivity).
  assert (H2 : mi_arenas (ab_state demo_abandon)
                 !! mi_arena_id_index (mem_arena_id (seg_memid demo_segment))
               = Some (default arena_cursor_at_1 (mi_arenas demo_allocated2 !! 0%nat)))
    by (vm_compute; reflexivity).
  assert (H3 : abandoned (default arena_cursor_at_1 (mi_arenas demo_allocated2 !! 0%nat))
                 (mem_arena_block_index (seg_memid demo_segment)) = false)
    by (vm_compute; reflexivity).
  assert (H4 : 0 <= abandoned_count demo_abandon < 2 ^ 64 - 1) by (vm_compute; split; [discriminate|reflexivity]).
  assert (H5 : _mi_arena_segment_mark_abandoned demo_segment demo_abandon
               = Done demo_marked_segment demo_marked (trace_of demo_mark_run))
    by (vm_compute; reflexivity).
  assert (H6 : _mi_arena_segment_clear_abandoned 42 demo_marked_segment demo_marked
               = Done (true, demo_reclaimed_segment) demo_reclaimed (trace_of demo_reclaim_run))
    by (vm_compute; reflexivity).
  split; [exact H1|]. split; [reflexivity|]. split; [exact H5|]. split; [exact H6|].
  exact (abandon_then_reclaim_round_trip 42 demo_segment demo_abandon _ _ _ _ _ _ _ _
           H1 H2 H3 H4 H5 H6).
Defined.

Lemma reclaim_at_most_once_witness :
  42 <> 0 /\
  demo_reclaim_run
  = Done (true, demo_reclaimed_segment) demo_reclaimed (trace_of demo_reclaim_run) /\
  exists r2 seg2 s2 tr2,
    _mi_arena_segment_clear_abandoned 43 demo_reclaimed_segment demo_reclaimed
      = Done (r2, seg2) s2 tr2 /\
    seg_thread_id demo_reclaimed_segment = 42 /\
    abandoned_count demo_reclaimed = size_wrap (abandoned_count demo_marked - 1) /\
    r2 = false /\ seg2 = demo_reclaimed_segment /\ s2 = demo_reclaimed.
Proof.
  assert (H1 : 42 <> 0) by discriminate.
  assert (H2 : _mi_arena_segment_clear_abandoned 42 demo_marked_segment demo_marked
               = Done (true, demo_reclaimed_segment) demo_reclaimed (trace_of demo_reclaim_run))
    by (vm_compute; reflexivity).
  assert (H3 : _mi_arena_segment_clear_abandoned 43 demo_reclaimed_segment demo_reclaimed
               = Done (false, demo_reclaimed_segment) demo_reclaimed
                   (trace_of (_mi_arena_segment_clear_abandoned 43 demo_reclaimed_segment
                                demo_reclaimed)))
    by (vm_compute; reflexivity).
  split; [exact H1|]. split; [exact H2|].
  eexists _, _, _, _. split; [exact H3|].
  exact (reclaim_at_most_once 42 43 _ _ _ _ _ _ _ _ _ H1 H2 H3).
Defined.

Lemma reclaim_next_returns_abandoned_witness :
  exists p cur,
    _mi_arena_segment_clear_abandoned_next (mk_cursor 0 0 0) demo_marked
    = Done (p, cur) demo_abandon
        (trace_of (_mi_arena_segment_clear_abandoned_next (mk_cursor 0 0 0) demo_marked)) /\
    p <> 0 /\
    cur_bitmap_idx cur = 1%nat /\
    exists a,
      mi_arenas (ab_state demo_marked) !! 0%nat = Some a /\
      abandoned a (cur_bitmap_idx cur) = true /\
      p = mi_arena_block_start a (cur_bitmap_idx cur) /\
      abandoned_count demo_abandon = size_wrap (abandoned_count demo_marked - 1).
Proof.
  assert (H1 : _mi_arena_segment_clear_abandoned_next (mk_cursor 0 0 0) demo_marked
               = Done (1024 * MI_MiB + 64 * MI_MiB, mk_cursor 0 0 1) demo_abandon
                   (trace_of (_mi_arena_segment_clear_abandoned_next (mk_cursor 0 0 0)
                                demo_marked)))
    by (vm_compute; reflexivity).
  assert (H2 : 1024 * MI_MiB + 64 * MI_MiB <> 0) by (vm_compute; discriminate).
  eexists _, _. split; [exact H1|]. split; [exact H2|]. split; [reflexivity|].
  destruct (reclaim_next_returns_abandoned _ _ _ _ _ _ H1 H2)
    as (a & Ha & _ & Hab & Hp & _ & Hcount & _).
  exists a. split; [exact Ha|]. split; [exact Hab|]. split; [exact Hp|exact Hcount].
Defined.

Lemma alloc_never_faults_witness :
  reachable (op_ok any_free size_t_size) demo_managed /\
  exists r s' tr,
    _mi_arena_alloc_aligned env_demo (64 * MI_MiB) (64 * MI_MiB) 0 true false 0 demo_managed
    = Done r s' tr.
Proof.
  split; [exact (reachable_demo_managed any_free)|].
  exact (alloc_never_faults env_demo demo_managed (64 * MI_MiB) (64 * MI_MiB) 0 true false 0
           (reachable_demo_managed any_free)).
Defined.

Lemma collect_never_faults_witness :
  reachable (op_ok any_free size_t_size) demo_managed /\
  exists r s' tr, _mi_arenas_collect env_demo true demo_managed = Done r s' tr.
Proof.
  split; [exact (reachable_demo_managed any_free)|].
  exact (collect_never_faults env_demo demo_managed true (reachable_demo_managed any_free)).
Defined.

Lemma free_faults_exactly_on_invalid_memid_witness :
  reachable (op_ok any_free size_t_size) demo_managed /\
  ~ free_args_valid demo_managed (64 * MI_MiB) (mi_memid_create_arena 0 false 0) /\
  ~ (exists r s' tr,
       _mi_arena_free env_demo (1024 * MI_MiB) (64 * MI_MiB) (64 * MI_MiB)
         (mi_memid_create_arena 0 false 0) demo_managed = Done r s' tr) /\
  free_args_valid demo_managed (64 * MI_MiB) (mi_memid_create_arena 1 false 3) /\
  exists r s' tr,
    _mi_arena_free env_demo (1024 * MI_MiB) (64 * MI_MiB) (64 * MI_MiB)
      (mi_memid_create_arena 1 false 3) demo_managed = Done r s' tr.
Proof.
  assert (H1 : ~ free_args_valid demo_managed (64 * MI_MiB) (mi_memid_create_arena 0 false 0)).
  { intros [H _]. vm_compute in H. lia. }
  assert (H2 : free_args_valid demo_managed (64 * MI_MiB) (mi_memid_create_arena 1 false 3)).
  { split; [vm_compute; lia|]. intros a Ha _. vm_compute in Ha. injection Ha as <-.
    vm_compute. lia. }
  assert (Hp : 1024 * MI_MiB <> 0) by (vm_compute; discriminate).
  assert (Hsize : 64 * MI_MiB <> 0) by (vm_compute; discriminate).
  split; [exact (reachable_demo_managed any_free)|]. split; [exact H1|].
  split.
  - intros H.
    exact (H1 (proj1 (proj2 (free_faults_exactly_on_invalid_memid env_demo demo_managed
                               (1024 * MI_MiB) (64 * MI_MiB) (64 * MI_MiB)
                               (mi_memid_create_arena 0 false 0)
                               (reachable_demo_managed any_free)) Hp Hsize eq_refl) H)).
  - split; [exact H2|].
    exact (proj2 (proj2 (free_faults_exactly_on_invalid_memid env_demo demo_managed
                           (1024 * MI_MiB) (64 * MI_MiB) (64 * MI_MiB)
                           (mi_memid_create_arena 1 false 3)
                           (reachable_demo_managed any_free)) Hp Hsize eq_refl) H2).
Defined.

Lemma starts_nonzero_demo_numa : starts_nonzero demo_numa.
Proof.
  assert (Hb : registry_bounded demo_numa).
  { eapply (registry_bounded_run_op env_demo
              (OpManage (2048 * MI_MiB) (256 * MI_MiB) true false true 0 false)
              demo_numa_first);
      [|vm_compute; reflexivity].
    eapply (registry_bounded_run_op env_demo
              (OpManage (1024 * MI_MiB) (256 * MI_MiB) true false true 1 false)
              mi_state_init);
      [apply registry_bounded_init|vm_compute; reflexivity]. }
  intros j a H. destruct Hb as [_ Hb]. pose proof (Hb j (ex_intro _ a H)) as Hj.
  change (mi_arena_count demo_numa) with 2%nat in Hj.
  destruct j as [|[|j]]; [| |lia]; vm_compute in H; injection H as <-; reflexivity.
Qed.

Lemma arena_alloc_null_only_when_claims_fail_witness :
  starts_nonzero demo_numa /\
  mi_arena_try_alloc env_demo 0 (320 * MI_MiB) (64 * MI_MiB) true false _mi_arena_id_none
    _mi_memid_none demo_numa = Done (0, _mi_memid_none) demo_numa [] /\
  forall j a, (j < mi_arena_count demo_numa)%nat -> mi_arenas demo_numa !! j = Some a ->
    arena_eligible false a = true -> claim_fails a (mi_block_count_of_size (320 * MI_MiB)).
Proof.
  assert (H2 : mi_arena_try_alloc env_demo 0 (320 * MI_MiB) (64 * MI_MiB) true false
                 _mi_arena_id_none _mi_memid_none demo_numa
               = Done (0, _mi_memid_none) demo_numa []) by (vm_compute; reflexivity).
  split; [exact starts_nonzero_demo_numa|]. split; [exact H2|].
  exact (proj2 (proj2 (arena_alloc_null_only_when_claims_fail _ _ _ _ _ _ _ _ _ _ _
                         starts_nonzero_demo_numa H2))).
Defined.

Lemma arena_choice_numa_local_first_witness :
  starts_nonzero demo_numa /\
  demo_numa_run
  = Done (2048 * MI_MiB, mk_memid MI_MEM_ARENA 2 0%nat false false true true)
      (state_after demo_numa_run) (trace_of demo_numa_run) /\
  exists i a,
    (i < mi_arena_count demo_numa)%nat /\ mi_arenas demo_numa !! i = Some a /\
    arena_eligible false a = true /\
    claim_succeeds a (mi_block_count_of_size (64 * MI_MiB)) /\
    has_free_run a (mi_block_count_of_size (64 * MI_MiB)) /\
    memkind (mk_memid MI_MEM_ARENA 2 0%nat false false true true) = MI_MEM_ARENA /\
    mem_arena_id (mk_memid MI_MEM_ARENA 2 0%nat false false true true) = a_id a /\
    2048 * MI_MiB
    = a_start a
      + mi_arena_block_size
          (mem_arena_block_index (mk_memid MI_MEM_ARENA 2 0%nat false false true true)) /\
    forall j a', (j < mi_arena_count demo_numa)%nat -> mi_arenas demo_numa !! j = Some a' ->
      arena_eligible false a' = true ->
      claim_succeeds a' (mi_block_count_of_size (64 * MI_MiB)) ->
      (numa_suitable 0 a' = true -> numa_suitable 0 a = true /\ (i <= j)%nat) /\
      (numa_suitable 0 a' = false -> numa_suitable 0 a = false -> (i <= j)%nat).
Proof.
  assert (H2 : mi_arena_try_alloc env_demo 0 (64 * MI_MiB) (64 * MI_MiB) true false
                 _mi_arena_id_none _mi_memid_none demo_numa
               = Done (2048 * MI_MiB, mk_memid MI_MEM_ARENA 2 0%nat false false true true)
                   (state_after demo_numa_run) (trace_of demo_numa_run))
    by (vm_compute; reflexivity).
  assert (H3 : 2048 * MI_MiB <> 0) by (vm_compute; discriminate).
  split; [exact starts_nonzero_demo_numa|]. split; [exact H2|].
  exact (arena_choice_numa_local_first _ _ _ _ _ _ _ _ _ _ _ _
           starts_nonzero_demo_numa H2 H3).
Defined.

Lemma alloc_respects_options_witness :
  demo_alloc_run = Done (demo_p, demo_memid) demo_allocated (trace_of demo_alloc_run) /\
  demo_p <> 0 /\
  ((memkind demo_memid = MI_MEM_ARENA /\
    (opt_disallow_arena_alloc env_demo = false \/ 0 <> _mi_arena_id_none) /\
    MI_ARENA_MIN_OBJ_SIZE <= 64 * MI_MiB /\ 64 * MI_MiB <= MI_SEGMENT_ALIGN /\ 0 = 0)
   \/
   (memkind demo_memid = MI_MEM_OS /\ opt_disallow_os_alloc env_demo = false /\
    0 = _mi_arena_id_none)).
Proof.
  assert (H1 : _mi_arena_alloc_aligned env_demo (64 * MI_MiB) (64 * MI_MiB) 0 true false 0
                 demo_managed
               = Done (demo_p, demo_memid) demo_allocated (trace_of demo_alloc_run))
    by (vm_compute; reflexivity).
  assert (H2 : demo_p <> 0) by (vm_compute; discriminate).
  split; [exact H1|]. split; [exact H2|].
  exact (proj1 (alloc_respects_options _ _ _ _ _ _ _ _ _ _ _ _ H1) H2).
Defined.

Lemma reserve_huge_os_pages_at_ex_outcome_witness :
  demo_huge_at_run = Done (0, 1) demo_huge_reserved (trace_of demo_huge_at_run) /\
  hp_log demo_huge_reserved = hp_log demo_huge ++ [HugeRequest 2 1 100] /\
  exists a, mi_arenas (hp_state demo_huge_reserved) !! 0%nat = Some a /\
    a_id a = 1 /\ a_start a = 24 * 1024 * MI_MiB /\ is_large a = true /\
    a_numa_node a = 1 /\ block_count a = 32%nat.
Proof.
  assert (H : mi_reserve_huge_os_pages_at_ex env_demo os_huge_demo 2 5 100 false demo_huge
              = Done (0, 1) demo_huge_reserved (trace_of demo_huge_at_run))
    by (vm_compute; reflexivity).
  split; [exact H|].
  destruct (proj2 (reserve_huge_os_pages_at_ex_outcome _ _ _ _ _ _ _ _ _ _ _ H)
              ltac:(discriminate))
    as [(_ & _ & _ & Hlog & _ & _ & _ & a & Ha & Hid & Hstart & _ & Hlarge & Hnuma & _ & Hbc)
       |(Herr & _)]; [|discriminate Herr].
  split; [exact Hlog|]. exists a. repeat split; assumption.
Defined.

Lemma interleave_requests_all_pages_witness :
  0 < 5 < 2 ^ 64 /\ interleave_numa_count os_huge_demo 0 < 2 ^ 31 /\
  demo_interleave_run = Done 0 demo_interleaved (trace_of demo_interleave_run) /\
  hp_log demo_interleaved = [HugeRequest 3 0 550; HugeRequest 2 1 550] /\
  requested_pages [HugeRequest 3 0 550; HugeRequest 2 1 550] = 5.
Proof.
  assert (H1 : 0 < 5 < 2 ^ 64) by (split; reflexivity).
  assert (H2 : interleave_numa_count os_huge_demo 0 < 2 ^ 31) by reflexivity.
  assert (H3 : mi_reserve_huge_os_pages_interleave env_demo os_huge_demo 5 0 1000 demo_huge
               = Done 0 demo_interleaved (trace_of demo_interleave_run))
    by (vm_compute; reflexivity).
  split; [exact H1|]. split; [exact H2|]. split; [exact H3|].
  exact (proj2 (interleave_requests_all_pages _ _ _ _ _ _ _ _ _ H1 H2 H3) eq_refl).
Defined.

Lemma starts_nonzero_demo_os_marked : starts_nonzero (ab_state demo_os_marked).
Proof.
  assert (Hb : registry_bounded demo_allocated2).
  { eapply (registry_bounded_run_op env_demo
              (OpAlloc (64 * MI_MiB) (64 * MI_MiB) 0 true false 0) demo_allocated);
      [|vm_compute; reflexivity].
    eapply (registry_bounded_run_op env_demo
              (OpAlloc (64 * MI_MiB) (64 * MI_MiB) 0 true false 0) demo_managed);
      [apply registry_bounded_demo_managed|vm_compute; reflexivity]. }
  change (ab_state demo_os_marked) with demo_allocated2.
  intros j a H. destruct Hb as [_ Hb]. pose proof (Hb j (ex_intro _ a H)) as Hj.
  change (mi_arena_count demo_allocated2) with 1%nat in Hj.
  destruct j as [|j]; [|lia]. vm_compute in H. injection H as <-. reflexivity.
Qed.

Lemma reclaim_scan_is_complete_witness :
  starts_nonzero (ab_state demo_os_marked) /\
  mi_arena_count (ab_state demo_os_marked) <> 0%nat /\ abandoned_count demo_os_marked <> 0 /\
  _mi_arena_segment_clear_abandoned_next (mk_cursor 0 0 0) demo_os_marked
  = Done (0, mk_cursor 0 0 0) demo_os_marked [] /\
  forall count a b,
    (0 <= count < mi_arena_count (ab_state demo_os_marked))%nat ->
    mi_arenas (ab_state demo_os_marked)
      !! (if (mi_arena_count (ab_state demo_os_marked) <=? 0 + count)%nat
          then ((0 + count) mod mi_arena_count (ab_state demo_os_marked))%nat
          else (0 + count)%nat) = Some a ->
    (count = 0%nat -> (0 < b)%nat) ->
    (b < field_count a * MI_BITMAP_FIELD_BITS)%nat ->
    abandoned a b = false.
Proof.
  assert (H1 : mi_arena_count (ab_state demo_os_marked) <> 0%nat) by (vm_compute; lia).
  assert (H2 : abandoned_count demo_os_marked <> 0) by (vm_compute; discriminate).
  assert (H3 : _mi_arena_segment_clear_abandoned_next (mk_cursor 0 0 0) demo_os_marked
               = Done (0, mk_cursor 0 0 0) demo_os_marked []) by (vm_compute; reflexivity).
  split; [exact starts_nonzero_demo_os_marked|]. split; [exact H1|]. split; [exact H2|].
  split; [exact H3|].
  exact (proj2 (proj2 (proj2 (reclaim_scan_is_complete _ _ _ _ _
                                starts_nonzero_demo_os_marked H3)) H1 H2)).
Defined.
